(* ===== verification/_CoqProject ===== *)
-Q . S2P
Prelude.v
Bytes.v
Checksum.v
Packets.v
Transport.v
Stream.v
Party.v
PartySeats.v
PartyInvariant.v
PartyTheorems.v
GoStrings.v
Worldmap.v
Topology.v
DungeonRun.v
DungeonSession.v
DungeonInvariant.v
DungeonSafety.v
DungeonTheorems.v
TopologyTheorems.v
GoHeap.v
TimeQueue.v
TimeQueueInvariant.v
TimeQueueSteps.v
TimeQueueTheorems.v
GoState.v
Repository.v
TradeUnit.v
Trade.v
TradeItems.v
TradeSteps.v
TradeBody.v
TradeCommit.v
TradeTheorems.v
Idempotency.v
IdempotencyInvariant.v
IdempotencyTheorems.v
IdempotencyProperties.v
Pvf.v
PvfSections.v
PvfPrinter.v
PvfTheorems.v
Joust.v
JoustLoader.v
JoustTheorems.v
