(* ===== verification/Prelude.v ===== *)
(** * Verification library of the DNF90CN Go server: root file

    The server ([src/go-server]) is a game server in Go: packet protocols towards
    the client, owners of game state (parties, dungeons, trades, events) over
    in-memory and SQL repositories, and platform services (timers, idempotency).
    This library models the packet protocols, four game components (parties,
    dungeons, the item trade, the joust), the parser of the archive's script
    documents and two platform services (the due-time queue and the idempotency
    guard), and proves what makes each of them correct.  The claim numbers C1,
    C2, ... stand in the comments before the theorems.

    ** Conventions

    - A Go call that can fail is an [outcome]: [Ret], [Fail] with the sentinel
      error the code wraps, or [Panic], a run-time panic.  The text of an error
      is left out.  Calls that write a shared state and fail afterwards keep
      what they wrote: their functions return the state beside the outcome, or
      live in the monad of [GoState].
    - An integer is a [Z]; where the width matters the wrap-around is written
      out ([u8] to [u64], [i64]).  A byte slice is a list of [Z], a string a list
      of runes ([GoStrings]) or of bytes (as its file says).
    - A mutex held for the whole body of a method makes a concurrent execution a
      sequence of method calls; theorems about such objects quantify over every
      sequence ([star], reachability predicates).  Where a call reads the clock
      or a context several times, an environment answers each reading.
    - Iteration over a Go map has no order: the order is an argument of the
      definition and arbitrary in the theorems.
    - Loops that are not structural take fuel.  The fuel of a scan is the length
      of its input, that of a heap operation the length of the heap, that of the
      due-task loop the number of tasks plus one, that of the party allocator the
      65534 identifiers, that of the decimal printer the number of bits.  Running
      out is a value no Go execution has ([Panic] or [None]), and the theorems
      exclude it (C7, C8, C10, C15, C25, C37).

    ** Files, source and theorems

    Under [internal/modules/dnf/protocol]:
    - [Bytes] little-endian fields and bounds-checked slices;
    - [Checksum] ([checksum.go]): the table-driven CRC is the bitwise CRC (C1)
      and detects every changed byte (C2);
    - [Packets] ([channel.go], [latest_game.go], [legacy_game.go], [dproto.go]):
      packet headers, their round trip (C3) and the rejection of corrupted bytes (C4);
    - [Transport] ([transport.go]): frames of records of messages; round trips
      (C5), frame splitting (C6), totality on hostile input (C7);
    - [Stream] ([stream.go]): the splitter of the game stream, which accounts for
      every byte (C8), cuts conforming streams exactly, and keeps an incomplete
      item at the end exactly in the cases C9 lists: an envelope of which between
      four and twelve bytes are there may be misread.

    Under [internal/modules/dnf/party] ([runtime_manager.go]):
    - [Party] the manager: parties, index of users, invites, identifier cursor;
    - [PartySeats], [PartyInvariant] lemmas on seats and preservation;
    - [PartyTheorems]: the seating invariant (C10), as long as a seated character
      creates or joins parties only from its own session; failures change nothing
      (C11), leadership succession (C12) and transfer (C13), invites (C14).

    Under [internal/modules/dnf/worldmap]:
    - [Worldmap] data and look-ups of the map resolver, [Topology] and
      [TopologyTheorems] ([dungeon_topology.go]): a built topology has the rooms,
      the start, the bosses and the doors of its maze (C21), with two-way doors (C22), and the grid notation is
      read back (C23);
    - [DungeonRun] ([dungeon_run.go]), [DungeonSession] ([dungeon_session.go])
      the two state machines; [DungeonInvariant], [DungeonSafety] their lemmas;
    - [DungeonTheorems]: coordinates (C15), the session invariant and the ends of a
      run (C16), moves (C17), revisits (C18), layers (C19), and a scene that cannot be restored
      (C20).

    [internal/platform/timequeue]:
    - [GoHeap] the library's binary heap; [TimeQueue] the queue, its calendar and
      its loops; [TimeQueueInvariant], [TimeQueueSteps] lemmas;
    - [TimeQueueTheorems]: well-formedness (C24), collecting due tasks refines a
      table of tasks (C25), recurring moments (C26), one-shot tasks run exactly
      once (C27), the wake-up delay (C28).

    [internal/modules/dnf/itemtrade], over [repository] and [platform/db]:
    - [GoState] stateful calls with an environment, [Repository] records and
      memory stores, [TradeUnit] the unit of work of two characters, [Trade] the
      exchange; [TradeItems], [TradeSteps], [TradeBody], [TradeCommit] lemmas;
    - [TradeTheorems]: a returned exchange is the agreed trade (C29) and conserves
      items and gold (C30), a failed one has no effect (C31).

    [internal/platform/idempotency]:
    - [Idempotency] guard, reservations and memory store;
      [IdempotencyInvariant], [IdempotencyTheorems] lemmas over runs;
    - [IdempotencyProperties]: the store invariant (C32), exclusive reservations
      (C33), final commits (C34), aborts (C35), derived keys (C36).

    [internal/modules/dnf/pvf], the archive's script documents:
    - [Pvf] tokeniser, sections and look-ups; [PvfSections] and [PvfPrinter]
      lemmas;
    - [PvfTheorems]: parsing ends and its sections tile the tokens (C37), printed
      documents are read back (C38).

    [internal/modules/dnf/joust]:
    - [Joust] event file loader over a [Pvf] document, round clock, roster and
      tournament; [JoustLoader] what the loader guarantees;
    - [JoustTheorems]: every round of a loaded catalogue is a complete knock-out
      (C39).

    The files also hold the executions that show where the code departs from its
    comments or its purpose.

    ** Not modelled

    Goroutines, sockets, SQL, Redis and message brokers: the models start where a
    method holds its lock, and end at the repository interface.  The memory
    repository is modelled because the item trade depends on its commit order.
    Library functions whose result no theorem depends on are arguments
    ([strings.ToLower] on arbitrary Unicode text in the guard and in the section
    names of a document, SHA-256 keys, [strconv.ParseFloat]); floating-point values (joust multipliers) are left
    out.  The archive's content tables are data: the dungeon code is modelled over an
    arbitrary index of the map resolver.

    The components that follow next, in order: the settlement of joust bets and
    quests over the character transaction, the bag's slot moves and the cargo,
    the leaderboard settlement, redemption codes, locks and rate limits.  Packet
    tables, handlers that only decode and dispatch, administrative endpoints and
    storage adapters are not planned. *)

From stdpp Require Export base tactics numbers list gmap strings.
From Stdlib Require Export ZArith Lia.

#[export] Set Default Goal Selector "!".

#[global] Open Scope Z_scope.

(** ** Outcomes of a Go call

    [Ret a] is a normal return with a nil error, [Fail e] a return with the
    error value [e], and [Panic] a run-time panic (an index or slice
    expression out of range). *)

Inductive outcome (E A : Type) : Type :=
| Ret (a : A)
| Fail (e : E)
| Panic.
Arguments Ret {E A} a.
Arguments Fail {E A} e.
Arguments Panic {E A}.

#[export] Instance outcome_ret E : MRet (outcome E) := λ A a, Ret a.
#[export] Instance outcome_bind E : MBind (outcome E) := λ A B f m,
  match m with
  | Ret a => f a
  | Fail e => Fail e
  | Panic => Panic
  end.

Lemma bind_ret {E A B} (a : A) (f : A → outcome E B) : (Ret a ≫= f) = f a.
Proof. done. Qed.

Lemma mret_ret {E A} (a : A) : mret (M:=outcome E) a = Ret a.
Proof. done. Qed.

(** Inverts a bind that is known to return. *)
Lemma bind_ret_inv {E A B} (m : outcome E A) (f : A → outcome E B) b :
  m ≫= f = Ret b → ∃ a, m = Ret a ∧ f a = Ret b.
Proof. destruct m; cbn; [eauto|done..]. Qed.

(** A bind does not panic when neither part does. *)
Lemma bind_no_panic {E A B} (m : outcome E A) (f : A → outcome E B) :
  m ≠ Panic → (∀ a, m = Ret a → f a ≠ Panic) → m ≫= f ≠ Panic.
Proof. destruct m; cbn; naive_solver. Qed.

(** [guard_ b e k]: the early return [if b { return err }]. *)
Definition guard_ {E A} (b : bool) (e : E) (k : outcome E A) : outcome E A :=
  if b then Fail e else k.

Declare Scope go_scope.
Delimit Scope go_scope with go.
Notation "'fail_if' b 'with_' e ';;' k" := (guard_ b e k)
  (at level 100, b at level 99, e at level 99, k at level 200, right associativity,
   format "fail_if  b  with_  e ;;  '//' k") : go_scope.
#[global] Open Scope go_scope.

(** ** Machine integers *)

Definition two8 : Z := 256.
Definition two16 : Z := 65536.
Definition two31 : Z := 2147483648.
Definition two32 : Z := 4294967296.
Definition two63 : Z := 9223372036854775808.
Definition two64 : Z := 18446744073709551616.

Definition u8 (x : Z) : Z := x mod two8.
Definition u16 (x : Z) : Z := x mod two16.
Definition u32 (x : Z) : Z := x mod two32.
Definition u64 (x : Z) : Z := x mod two64.

(** Two's complement wrap-around of a 64-bit signed result. *)
Definition i64 (x : Z) : Z := (x + two63) mod two64 - two63.

Definition max_int64 : Z := two63 - 1.
Definition in_i64 (x : Z) : Prop := - two63 <= x < two63.

Ltac unfold_width :=
  unfold in_i64, max_int64, i64, u8, u16, u32, u64, two8, two16, two31, two32, two63, two64 in *.
Ltac int_lia := unfold_width; Z.div_mod_to_equations; lia.

Lemma i64_id x : in_i64 x → i64 x = x.
Proof. intros H. unfold_width. rewrite Z.mod_small; lia. Qed.

Lemma i64_range x : in_i64 (i64 x).
Proof. int_lia. Qed.

Lemma u16_id x : 0 <= x < two16 → u16 x = x.
Proof. intros; apply Z.mod_small; done. Qed.

Lemma u32_id x : 0 <= x < two32 → u32 x = x.
Proof. intros; apply Z.mod_small; done. Qed.

Lemma u16_range x : 0 <= u16 x < two16.
Proof. int_lia. Qed.

(** ** Case analysis tactics shared by the components *)

(** Splits the innermost [match]/[if] of the goal or of a hypothesis. *)
Ltac case_step :=
  match goal with
  | |- context [match ?x with _ => _ end] => destruct x eqn:?
  | H : context [match ?x with _ => _ end] |- _ => destruct x eqn:?
  end.

(** Decides the boolean tests produced by the code's conditions. *)
Ltac bool_clean :=
  repeat match goal with
  | H : _ && _ = true |- _ => apply andb_true_iff in H as [? ?]
  | H : _ || _ = false |- _ => apply orb_false_iff in H as [? ?]
  | H : negb _ = true |- _ => apply negb_true_iff in H
  | H : negb _ = false |- _ => apply negb_false_iff in H
  | H : bool_decide _ = true |- _ => apply bool_decide_eq_true_1 in H
  | H : bool_decide _ = false |- _ => apply bool_decide_eq_false_1 in H
  | H : (_ =? _)%Z = true |- _ => apply Z.eqb_eq in H
  | H : (_ =? _)%Z = false |- _ => apply Z.eqb_neq in H
  | H : (_ <? _)%Z = true |- _ => apply Z.ltb_lt in H
  | H : (_ <? _)%Z = false |- _ => apply Z.ltb_ge in H
  | H : (_ <=? _)%Z = true |- _ => apply Z.leb_le in H
  | H : (_ <=? _)%Z = false |- _ => apply Z.leb_gt in H
  | H : (_ =? _)%nat = true |- _ => apply Nat.eqb_eq in H
  | H : (_ =? _)%nat = false |- _ => apply Nat.eqb_neq in H
  | H : (_ <=? _)%nat = true |- _ => apply Nat.leb_le in H
  | H : (_ <=? _)%nat = false |- _ => apply Nat.leb_gt in H
  end.

(** Inverts a monadic computation that is known to return. *)
Ltac inv_ret H :=
  cbn [mbind outcome_bind mret outcome_ret guard_] in H;
  unfold guard_ in H.

(** ** Reflexive transitive closure, for reachability *)

Inductive star {S : Type} (R : S → S → Prop) : S → S → Prop :=
| star_refl s : star R s s
| star_step s1 s2 s3 : R s1 s2 → star R s2 s3 → star R s1 s3.

Lemma star_invariant {S} (R : S → S → Prop) (P : S → Prop) s1 s2 :
  (∀ a b, P a → R a b → P b) → star R s1 s2 → P s1 → P s2.
Proof. intros Hstep Hstar. induction Hstar; eauto. Qed.

(** ** Lists *)

Definition zlen {A} (l : list A) : Z := Z.of_nat (length l).

Lemma zlen_app {A} (l1 l2 : list A) : zlen (l1 ++ l2) = zlen l1 + zlen l2.
Proof. unfold zlen. rewrite length_app. lia. Qed.

Lemma zlen_nonneg {A} (l : list A) : 0 <= zlen l.
Proof. unfold zlen. lia. Qed.

Lemma take_app_exact {A} (l1 l2 : list A) n : n = length l1 → take n (l1 ++ l2) = l1.
Proof. intros ->. apply take_app_length. Qed.

Lemma drop_app_exact {A} (l1 l2 : list A) n : n = length l1 → drop n (l1 ++ l2) = l2.
Proof. intros ->. apply drop_app_length. Qed.

(** Unfolds one step of a fold by rewriting, so that no conversion problem on
    the folded function reaches the kernel. *)
Lemma fold_left_cons {A B} (f : A → B → A) x l a :
  fold_left f (x :: l) a = fold_left f l (f a x).
Proof. done. Qed.

Create HintDb go.
Create Rewrite HintDb go.
#[export] Hint Resolve zlen_nonneg i64_range u16_range : go.
#[export] Hint Rewrite @zlen_app : go.
