(* ===== verification/Bytes.v ===== *)
(** * Byte slices and little-endian fields

    Go's [encoding/binary] little-endian accessors and slice expressions on
    [[]byte], with the run-time bounds check written out ([Panic]).  A byte is
    a [Z] in [0, 256); [bytes_ok] states it for a slice. *)

From S2P Require Import Prelude.

Definition is_byte (b : Z) : Prop := 0 <= b < 256.
Definition bytes_ok (l : list Z) : Prop := Forall is_byte l.

(** [put_le n x]: the [n] bytes that [PutUint16/32] stores for [x]. *)
Fixpoint put_le (n : nat) (x : Z) : list Z :=
  match n with
  | O => []
  | S n => x mod 256 :: put_le n (x / 256)
  end.

(** [get_le bs]: the unsigned value [Uint16/32] reads from [bs]. *)
Fixpoint get_le (bs : list Z) : Z :=
  match bs with
  | [] => 0
  | b :: bs => b + 256 * get_le bs
  end.

(** [s[lo:hi]] with Go's bounds check against the length. *)
Definition slice {E} (s : list Z) (lo hi : Z) : outcome E (list Z) :=
  if (0 <=? lo) && (lo <=? hi) && (hi <=? zlen s)
  then Ret (take (Z.to_nat (hi - lo)) (drop (Z.to_nat lo) s))
  else Panic.

(** [s[i]] with Go's bounds check. *)
Definition index {E} (s : list Z) (i : Z) : outcome E Z :=
  match (if 0 <=? i then s !! Z.to_nat i else None) with
  | Some b => Ret b
  | None => Panic
  end.

(** [binary.LittleEndian.Uint16(s[lo:lo+2])] and [Uint32(s[lo:lo+4])]. *)
Definition u16_at {E} (s : list Z) (lo : Z) : outcome E Z :=
  b ← slice s lo (lo + 2); mret (get_le b).
Definition u32_at {E} (s : list Z) (lo : Z) : outcome E Z :=
  b ← slice s lo (lo + 4); mret (get_le b).

(** [copy(dst[at:], src)] on a destination that is long enough. *)
Definition blit (dst : list Z) (at_ : Z) (src : list Z) : list Z :=
  take (Z.to_nat at_) dst ++ src ++ drop (Z.to_nat at_ + length src) dst.

Definition zeros (n : Z) : list Z := replicate (Z.to_nat n) 0.

(** [packet[i] = b], and [PutUint16/32(packet[lo:], x)]. *)
Definition set_byte (dst : list Z) (i b : Z) : list Z := blit dst i [b].
Definition put16 (dst : list Z) (lo x : Z) : list Z := blit dst lo (put_le 2 x).
Definition put32 (dst : list Z) (lo x : Z) : list Z := blit dst lo (put_le 4 x).

(** Boolean form of [bytes_ok], for concrete data. *)
Definition bytes_okb (l : list Z) : bool := forallb (λ b, (0 <=? b) && (b <? 256)) l.

Lemma bytes_okb_true l : bytes_okb l = true → bytes_ok l.
Proof.
  intros H. apply Forall_forall. intros b Hb%list_elem_of_In.
  unfold bytes_okb in H. rewrite forallb_forall in H. specialize (H b Hb).
  bool_clean. unfold is_byte. lia.
Qed.

Ltac solve_bytes := apply bytes_okb_true; vm_compute; reflexivity.

(** ** Little-endian round trips *)

Lemma length_put_le n x : length (put_le n x) = n.
Proof. revert x; induction n; cbn; intros; congruence. Qed.

Lemma put_le_bytes n x : bytes_ok (put_le n x).
Proof.
  revert x; induction n as [|n IH]; intros x; constructor; [|apply IH].
  unfold is_byte. apply Z.mod_pos_bound. lia.
Qed.

Lemma get_put_le n x : get_le (put_le n x) = x mod 256 ^ Z.of_nat n.
Proof.
  revert x; induction n as [|n IH]; intros x; cbn [put_le get_le].
  { by rewrite Z.mod_1_r. }
  rewrite IH, Nat2Z.inj_succ, Z.pow_succ_r by lia.
  rewrite Z.rem_mul_r; [lia..|].
  apply Z.pow_pos_nonneg; lia.
Qed.

Lemma get_le_bound bs : bytes_ok bs → 0 <= get_le bs < 256 ^ zlen bs.
Proof.
  induction 1 as [|b bs Hb _ IH]; unfold zlen in *; cbn [get_le length]; [lia|].
  rewrite Nat2Z.inj_succ, Z.pow_succ_r by lia. unfold is_byte in Hb. lia.
Qed.

Lemma put_get_le bs : bytes_ok bs → put_le (length bs) (get_le bs) = bs.
Proof.
  induction 1 as [|b bs Hb _ IH]; [done|]. cbn [length put_le get_le].
  unfold is_byte in Hb. f_equal.
  - rewrite Z.mul_comm, Z.mod_add by lia. by rewrite Z.mod_small by lia.
  - rewrite Z.mul_comm, Z.div_add by lia. rewrite Z.div_small by lia. exact IH.
Qed.

Lemma get_put_le2 x : get_le (put_le 2 x) = u16 x.
Proof. apply get_put_le. Qed.

Lemma get_put_le4 x : get_le (put_le 4 x) = u32 x.
Proof. apply get_put_le. Qed.

(** ** Slices *)

Lemma slice_app {E} (a b c : list Z) lo hi :
  lo = zlen a → hi = zlen a + zlen b →
  slice (E:=E) (a ++ b ++ c) lo hi = Ret b.
Proof.
  intros -> ->. unfold slice.
  rewrite !zlen_app. pose proof (zlen_nonneg a). pose proof (zlen_nonneg b).
  pose proof (zlen_nonneg c).
  rewrite !(proj2 (Z.leb_le _ _)) by lia. cbn. f_equal.
  rewrite drop_app_exact by (unfold zlen; lia).
  apply take_app_exact. unfold zlen; lia.
Qed.

Lemma slice_tail {E} (a b : list Z) lo hi :
  lo = zlen a → hi = zlen a + zlen b → slice (E:=E) (a ++ b) lo hi = Ret b.
Proof. intros. rewrite <- (app_nil_r b) at 1. by apply slice_app. Qed.

Lemma slice_ret {E} (s : list Z) lo hi :
  0 <= lo → lo <= hi → hi <= zlen s →
  slice (E:=E) s lo hi = Ret (take (Z.to_nat (hi - lo)) (drop (Z.to_nat lo) s)).
Proof. intros. unfold slice. by rewrite !(proj2 (Z.leb_le _ _)) by lia. Qed.

Lemma slice_len {E} (s b : list Z) lo hi :
  slice (E:=E) s lo hi = Ret b → zlen b = hi - lo.
Proof.
  unfold slice. intros H. case_step; [|done]. bool_clean. injection H as <-.
  unfold zlen in *. rewrite length_take, length_drop. lia.
Qed.

Lemma u16_at_ret {E} (s : list Z) lo :
  0 <= lo → lo + 2 <= zlen s → ∃ v, u16_at (E:=E) s lo = Ret v.
Proof. intros. unfold u16_at. rewrite slice_ret by lia. by eexists. Qed.

Lemma u32_at_ret {E} (s : list Z) lo :
  0 <= lo → lo + 4 <= zlen s → ∃ v, u32_at (E:=E) s lo = Ret v.
Proof. intros. unfold u32_at. rewrite slice_ret by lia. by eexists. Qed.

Lemma u16_at_app {E} (a b : list Z) x lo :
  lo = zlen a → u16_at (E:=E) (a ++ put_le 2 x ++ b) lo = Ret (u16 x).
Proof.
  intros ->. unfold u16_at. rewrite slice_app; [|done|unfold zlen; cbn; lia].
  cbn -[put_le]. by rewrite get_put_le2.
Qed.

Lemma u32_at_app {E} (a b : list Z) x lo :
  lo = zlen a → u32_at (E:=E) (a ++ put_le 4 x ++ b) lo = Ret (u32 x).
Proof.
  intros ->. unfold u32_at. rewrite slice_app; [|done|unfold zlen; cbn; lia].
  cbn -[put_le]. by rewrite get_put_le4.
Qed.

Lemma index_app {E} (a b : list Z) x i :
  i = zlen a → index (E:=E) (a ++ x :: b) i = Ret x.
Proof.
  intros ->. unfold index, zlen. rewrite (proj2 (Z.leb_le _ _)) by lia.
  by rewrite Nat2Z.id, list_lookup_middle.
Qed.

(** A read inside a prefix does not depend on what follows it. *)
Lemma slice_prefix {E} (a b : list Z) lo hi :
  hi <= zlen a → slice (E:=E) (a ++ b) lo hi = slice a lo hi.
Proof.
  intros Hhi. unfold slice. rewrite zlen_app. pose proof (zlen_nonneg b).
  rewrite !(proj2 (Z.leb_le hi _)) by lia.
  destruct (Z.leb_spec 0 lo), (Z.leb_spec lo hi); cbn [andb]; try done.
  unfold zlen in *. rewrite drop_app_le, take_app_le by (rewrite ?length_drop; lia). done.
Qed.

Lemma u16_at_prefix {E} (a b : list Z) k :
  k + 2 <= zlen a → u16_at (E:=E) (a ++ b) k = u16_at a k.
Proof. intros. unfold u16_at. by rewrite slice_prefix. Qed.

Lemma u32_at_prefix {E} (a b : list Z) k :
  k + 4 <= zlen a → u32_at (E:=E) (a ++ b) k = u32_at a k.
Proof. intros. unfold u32_at. by rewrite slice_prefix. Qed.

Lemma index_prefix {E} (a b : list Z) k :
  k < zlen a → index (E:=E) (a ++ b) k = index a k.
Proof.
  intros. unfold index. destruct (Z.leb_spec 0 k); [|done].
  unfold zlen in *. by rewrite lookup_app_l by lia.
Qed.

(** Shifting a read past a known prefix. *)
Lemma slice_shift {E} (a l : list Z) lo hi :
  0 <= lo → slice (E:=E) (a ++ l) (zlen a + lo) (zlen a + hi) = slice l lo hi.
Proof.
  intros Hlo. unfold slice. rewrite zlen_app. pose proof (zlen_nonneg a).
  replace (0 <=? zlen a + lo) with (0 <=? lo)
    by (rewrite !(proj2 (Z.leb_le _ _)) by lia; done).
  replace (zlen a + lo <=? zlen a + hi) with (lo <=? hi)
    by (destruct (Z.leb_spec lo hi), (Z.leb_spec (zlen a + lo) (zlen a + hi)); done || lia).
  replace (zlen a + hi <=? zlen a + zlen l) with (hi <=? zlen l)
    by (destruct (Z.leb_spec hi (zlen l)), (Z.leb_spec (zlen a + hi) (zlen a + zlen l)); done || lia).
  destruct (_ && _); [|done]. f_equal.
  replace (zlen a + hi - (zlen a + lo)) with (hi - lo) by lia. f_equal.
  rewrite drop_app_ge by (unfold zlen; lia). f_equal. unfold zlen. lia.
Qed.

Lemma slice_shift0 {E} (a l : list Z) hi :
  slice (E:=E) (a ++ l) (zlen a) (zlen a + hi) = slice l 0 hi.
Proof. rewrite <- (Z.add_0_r (zlen a)) at 1. by apply slice_shift. Qed.

Lemma u16_at_shift {E} (a l : list Z) k :
  0 <= k → u16_at (E:=E) (a ++ l) (zlen a + k) = u16_at l k.
Proof. intros. unfold u16_at. by rewrite <- Z.add_assoc, slice_shift. Qed.

Lemma u32_at_shift {E} (a l : list Z) k :
  0 <= k → u32_at (E:=E) (a ++ l) (zlen a + k) = u32_at l k.
Proof. intros. unfold u32_at. by rewrite <- Z.add_assoc, slice_shift. Qed.

Lemma index_shift {E} (a l : list Z) k :
  0 <= k → index (E:=E) (a ++ l) (zlen a + k) = index l k.
Proof.
  intros. unfold index. pose proof (zlen_nonneg a).
  rewrite !(proj2 (Z.leb_le _ _)) by lia. unfold zlen in *.
  rewrite lookup_app_r by lia.
  by replace (Z.to_nat (Z.of_nat (length a) + k) - length a)%nat with (Z.to_nat k) by lia.
Qed.

Lemma index_shift0 {E} (a l : list Z) : index (E:=E) (a ++ l) (zlen a) = index l 0.
Proof. rewrite <- (Z.add_0_r (zlen a)) at 1. by apply index_shift. Qed.

(** Splits a slice off the front. *)
Lemma slice_front {E} (s p : list Z) n :
  slice (E:=E) s 0 n = Ret p → zlen p = n ∧ s = p ++ drop (length p) s.
Proof.
  intros H. pose proof (slice_len _ _ _ _ H) as Hl. split; [lia|].
  unfold slice in H. destruct (_ && _); [|done]. injection H as <-.
  rewrite Z.sub_0_r, drop_0 in *. rewrite length_take.
  destruct (decide (Z.to_nat n <= length s)%nat).
  - rewrite Nat.min_l by lia. by rewrite take_drop.
  - rewrite Nat.min_r, take_ge, drop_ge by lia. by rewrite app_nil_r.
Qed.

(** Reads of a field in a concatenation of fields: reassociate until the field
    is preceded by exactly the requested number of bytes. *)
Lemma u16_at_next {E} (a b c : list Z) k :
  u16_at (E:=E) (a ++ b ++ c) k = u16_at ((a ++ b) ++ c) k.
Proof. by rewrite app_assoc. Qed.

Lemma u32_at_next {E} (a b c : list Z) k :
  u32_at (E:=E) (a ++ b ++ c) k = u32_at ((a ++ b) ++ c) k.
Proof. by rewrite app_assoc. Qed.

Ltac read_u16 := first [rewrite u16_at_app by done | rewrite u16_at_next; read_u16].
Ltac read_u32 := first [rewrite u32_at_app by done | rewrite u32_at_next; read_u32].

Lemma index_ret {E} (s : list Z) i :
  0 <= i → i < zlen s → ∃ b, index (E:=E) s i = Ret b.
Proof.
  intros H0 H. unfold index. rewrite (proj2 (Z.leb_le _ _)) by lia.
  destruct (lookup_lt_is_Some_2 s (Z.to_nat i)) as [b ->]; [unfold zlen in H; lia|].
  by eexists.
Qed.

Lemma zlen_take {A} n (l : list A) : zlen (take n l) = Z.min (Z.of_nat n) (zlen l).
Proof. unfold zlen. rewrite length_take. lia. Qed.

Lemma zlen_drop {A} n (l : list A) : zlen (drop n l) = Z.max 0 (zlen l - Z.of_nat n).
Proof. unfold zlen. rewrite length_drop. lia. Qed.

Lemma bytes_ok_app a b : bytes_ok (a ++ b) ↔ bytes_ok a ∧ bytes_ok b.
Proof. apply Forall_app. Qed.

Lemma bytes_ok_drop n l : bytes_ok l → bytes_ok (drop n l).
Proof. apply Forall_drop. Qed.

Lemma bytes_ok_take n l : bytes_ok l → bytes_ok (take n l).
Proof. apply Forall_take. Qed.

Lemma zlen_put_le n x : zlen (put_le n x) = Z.of_nat n.
Proof. unfold zlen. by rewrite length_put_le. Qed.

(** ** Writing into a packet buffer *)

Lemma zeros_add a b : 0 <= a → 0 <= b → zeros (a + b) = zeros a ++ zeros b.
Proof. intros. unfold zeros. by rewrite Z2Nat.inj_add, replicate_add by lia. Qed.

Lemma zlen_zeros n : 0 <= n → zlen (zeros n) = n.
Proof. intros. unfold zlen, zeros. rewrite length_replicate. lia. Qed.

Lemma blit_end (a z src : list Z) lo :
  lo = zlen a → length z = length src → blit (a ++ z) lo src = a ++ src.
Proof.
  intros -> Hl. unfold blit, zlen. rewrite Nat2Z.id, take_app_length.
  rewrite drop_ge by (rewrite length_app; lia). by rewrite app_nil_r.
Qed.

Lemma blit_prefix (a z src : list Z) lo :
  0 <= lo → lo + zlen src <= zlen a → blit (a ++ z) lo src = blit a lo src ++ z.
Proof.
  intros Hlo Hl. unfold blit, zlen in *.
  rewrite take_app_le, drop_app_le by lia. by rewrite <- !app_assoc.
Qed.

Lemma zlen_blit dst lo src :
  0 <= lo → lo + zlen src <= zlen dst → zlen (blit dst lo src) = zlen dst.
Proof.
  intros Hlo Hl. unfold blit, zlen in *.
  rewrite !length_app, length_take, length_drop. lia.
Qed.

Lemma blit_bytes dst lo src : bytes_ok dst → bytes_ok src → bytes_ok (blit dst lo src).
Proof. intros. unfold blit. apply bytes_ok_app; split; [|apply bytes_ok_app; split]; auto using bytes_ok_take, bytes_ok_drop. Qed.

Lemma get_le_u16 bs : bytes_ok bs → zlen bs = 2 → 0 <= get_le bs < two16.
Proof. intros Hb Hl. pose proof (get_le_bound bs Hb) as H. by rewrite Hl in H. Qed.

Lemma get_le_u32 bs : bytes_ok bs → zlen bs = 4 → 0 <= get_le bs < two32.
Proof. intros Hb Hl. pose proof (get_le_bound bs Hb) as H. by rewrite Hl in H. Qed.

#[export] Hint Resolve put_le_bytes bytes_ok_drop bytes_ok_take : go.
#[export] Hint Rewrite @zlen_take @zlen_drop zlen_put_le length_put_le : go.
