(* ===== verification/Checksum.v ===== *)
(** * Packet checksum ([protocol/checksum.go])

    The table-driven CRC of the game protocol: the table construction, the
    range check and the byte loop, with a bitwise reference definition they
    are proved equal to, and the error-detection property of the code. *)

From S2P Require Import Prelude Bytes.

Definition checksumPolynomial : Z := 1303941417.

(** The error variables of [protocol/errors.go], [checksum.go] and [dproto.go]. *)
Inductive wire_error :=
| ErrPacketTooShort
| ErrPacketLength
| ErrPacketTooLarge
| ErrChecksumInvalid
| ErrInnerKind
| errChecksumRange
| ErrDprotoEnvelopeOpcode
| ErrDprotoEnvelopeBody
| ErrDprotoProtectedSize.

(** ** The code *)

(** One iteration of the outer loop body of [buildChecksumTable] after
    [bitValue] has been updated: the two nested copying loops. *)
Definition table_fill (bit : nat) (bitValue : Z) (table : list Z) : list Z :=
  fold_left
    (λ t left, fold_left
       (λ t right, <[(left + bit + right)%nat := Z.lxor (t !!! (left + right)%nat) bitValue]> t)
       (seq 0 bit) t)
    ((λ k, (k * (2 * bit))%nat) <$> seq 0 (256 / (2 * bit))) table.

Fixpoint table_rounds (fuel bit : nat) (bitValue : Z) (table : list Z) : list Z :=
  match fuel with
  | O => table
  | S fuel =>
      if decide (bit = 0)%nat then table else
      let bitValue :=
        if Z.odd bitValue then Z.lxor checksumPolynomial (Z.shiftr bitValue 1)
        else Z.shiftr bitValue 1 in
      table_rounds fuel (Nat.div2 bit) bitValue (table_fill bit bitValue table)
  end.

(** [buildChecksumTable]: [bit] runs over 128, 64, ..., 1, so the ninth round
    is the one that leaves the loop. *)
Definition buildChecksumTable : list Z :=
  table_rounds 9 128 1 (replicate 256 0).

Definition checksumTable : list Z := Eval vm_compute in buildChecksumTable.

Definition crc_step (crc b : Z) : Z :=
  Z.lxor (checksumTable !!! Z.to_nat (Z.land (Z.lxor crc b) 255)) (Z.shiftr crc 8).

Definition not32 (x : Z) : Z := Z.lxor x 4294967295.

Definition ChecksumRange (data : list Z) (offset count : Z) : outcome wire_error Z :=
  if (count <? 0) || (offset <? 0) || (zlen data - count <? offset)
  then Fail errChecksumRange
  else
    bs ← slice data offset (offset + count);
    mret (not32 (fold_left crc_step bs 4294967295)).

Definition Checksum (data : list Z) : Z :=
  match ChecksumRange data 0 (zlen data) with
  | Ret sum => sum
  | _ => 0
  end.

(** ** Bitwise reference *)

Definition crc_bit (x : Z) : Z :=
  Z.lxor (Z.shiftr x 1) (if Z.odd x then checksumPolynomial else 0).

Fixpoint crc_bits (n : nat) (x : Z) : Z :=
  match n with
  | O => x
  | S n => crc_bits n (crc_bit x)
  end.

(** Feeds one byte, least significant bit first. *)
Definition crc_byte_ref (crc b : Z) : Z := crc_bits 8 (Z.lxor crc b).

Definition checksum_ref (data : list Z) : Z :=
  not32 (fold_left crc_byte_ref data 4294967295).

Lemma crc_bits_S n x : crc_bits (S n) x = crc_bits n (crc_bit x).
Proof. done. Qed.

Lemma crc_byte_ref_eq crc b : crc_byte_ref crc b = crc_bits 8 (Z.lxor crc b).
Proof. done. Qed.

#[global] Opaque crc_bits crc_byte_ref.

(** ** Bit-level lemmas *)

Lemma testbit_small x n i : 0 <= x < 2 ^ n → n <= i → Z.testbit x i = false.
Proof.
  intros Hx Hi. destruct (decide (0 <= n)) as [Hn|Hn].
  - rewrite <- (Z.mod_small x (2 ^ n)) by done. by apply Z.mod_pow2_bits_high.
  - rewrite Z.pow_neg_r in Hx by lia. lia.
Qed.

Lemma bound_of_testbit x n :
  0 <= n → 0 <= x → (∀ i, n <= i → Z.testbit x i = false) → x < 2 ^ n.
Proof.
  intros Hn Hx H. apply Z.nle_gt. intros Hge.
  assert (x ≠ 0) by (pose proof (Z.pow_pos_nonneg 2 n); lia).
  assert (Z.testbit x (Z.log2 x) = true) as Hb by (apply Z.bit_log2; lia).
  rewrite H in Hb; [done|]. apply Z.log2_le_pow2; lia.
Qed.

Lemma lxor_bound a b n : 0 <= n → 0 <= a < 2 ^ n → 0 <= b < 2 ^ n → 0 <= Z.lxor a b < 2 ^ n.
Proof.
  intros Hn Ha Hb. assert (0 <= Z.lxor a b) by (apply Z.lxor_nonneg; lia).
  split; [done|]. apply bound_of_testbit; [done..|]. intros i Hi.
  rewrite Z.lxor_spec, !(testbit_small _ n) by (done || lia). done.
Qed.

Lemma lxor_bound_k k n a b :
  k = 2 ^ n → 0 <= n → 0 <= a < k → 0 <= b < k → 0 <= Z.lxor a b < k.
Proof. intros ->. apply lxor_bound. Qed.

Lemma shiftr_bound x n k : 0 <= k <= n → 0 <= x < 2 ^ n → 0 <= Z.shiftr x k < 2 ^ (n - k).
Proof.
  intros Hk Hx. rewrite Z.shiftr_div_pow2 by lia.
  assert (0 < 2 ^ k) by (apply Z.pow_pos_nonneg; lia).
  split; [apply Z.div_pos; lia|]. apply Z.div_lt_upper_bound; [done|].
  rewrite <- Z.pow_add_r by lia. replace (k + (n - k)) with n by lia. lia.
Qed.

Lemma crc_bit_lxor a b : crc_bit (Z.lxor a b) = Z.lxor (crc_bit a) (crc_bit b).
Proof.
  unfold crc_bit. rewrite Z.shiftr_lxor.
  rewrite <- !Z.bit0_odd, Z.lxor_spec.
  apply Z.bits_inj'. intros i _. rewrite !Z.lxor_spec.
  destruct (Z.testbit a 0), (Z.testbit b 0); cbn [xorb];
    rewrite ?Z.bits_0; by repeat match goal with |- context [Z.testbit ?x i] => destruct (Z.testbit x i) end.
Qed.

Lemma crc_bits_lxor n a b : crc_bits n (Z.lxor a b) = Z.lxor (crc_bits n a) (crc_bits n b).
Proof.
  revert a b. induction n as [|n IH]; intros a b; [done|].
  rewrite !crc_bits_S. by rewrite crc_bit_lxor, IH.
Qed.

Lemma crc_bits_shiftl n y : 0 <= y → crc_bits n (Z.shiftl y (Z.of_nat n)) = y.
Proof.
  intros Hy. induction n as [|n IH]; [apply Z.shiftl_0_r|].
  rewrite !crc_bits_S. rewrite <- IH at 2. f_equal.
  unfold crc_bit. rewrite Nat2Z.inj_succ, <- Z.bit0_odd.
  rewrite Z.shiftl_spec_low by lia. rewrite Z.lxor_0_r.
  rewrite Z.shiftr_shiftl_r by lia.
  replace (1 - Z.succ (Z.of_nat n)) with (- Z.of_nat n) by lia.
  by rewrite Z.shiftr_opp_r.
Qed.

Lemma split_low8 x : x = Z.lxor (Z.land x 255) (Z.shiftl (Z.shiftr x 8) 8).
Proof.
  apply Z.bits_inj'. intros i Hi. rewrite Z.lxor_spec, Z.land_spec.
  change 255 with (Z.ones 8). rewrite Z.testbit_ones_nonneg by lia.
  destruct (Z.ltb_spec i 8).
  - rewrite Z.shiftl_spec_low by done. by rewrite andb_true_r, xorb_false_r.
  - rewrite Z.shiftl_spec, Z.shiftr_spec by lia.
    rewrite andb_false_r. cbn. f_equal. lia.
Qed.

Lemma lt31_32 x : 0 <= x < two31 → 0 <= x < two32.
Proof. unfold two31, two32. lia. Qed.

#[local] Hint Resolve lt31_32 : go.

(** ** The table and the step *)

Lemma checksumTable_eq : checksumTable = buildChecksumTable.
Proof. vm_compute. reflexivity. Qed.

Lemma checksumTable_ref : checksumTable = (λ i, crc_bits 8 (Z.of_nat i)) <$> seq 0 256.
Proof. vm_compute. reflexivity. Qed.

Lemma checksumTable_lookup i : 0 <= i < 256 → checksumTable !!! Z.to_nat i = crc_bits 8 i.
Proof.
  intros Hi. apply list_lookup_total_correct. rewrite checksumTable_ref.
  rewrite list_lookup_fmap, lookup_seq_lt by lia. cbn [fmap option_fmap option_map].
  do 2 f_equal. lia.
Qed.

Lemma shiftr_low8 b : is_byte b → Z.shiftr b 8 = 0.
Proof.
  intros Hb. unfold is_byte in Hb. rewrite Z.shiftr_div_pow2 by lia. by apply Z.div_small.
Qed.

Lemma crc_step_ref crc b : 0 <= crc → is_byte b → crc_step crc b = crc_byte_ref crc b.
Proof.
  intros Hc Hb. rewrite crc_byte_ref_eq. unfold crc_step.
  assert (0 <= Z.lxor crc b) by (apply Z.lxor_nonneg; unfold is_byte in Hb; lia).
  rewrite checksumTable_lookup.
  - rewrite (split_low8 (Z.lxor crc b)) at 2. rewrite crc_bits_lxor. f_equal.
    change 8 with (Z.of_nat 8) at 3. rewrite crc_bits_shiftl by (apply Z.shiftr_nonneg; done).
    by rewrite Z.shiftr_lxor, (shiftr_low8 b), Z.lxor_0_r.
  - change 255 with (Z.ones 8). rewrite Z.land_ones by lia. apply Z.mod_pos_bound. lia.
Qed.

(** A bit step takes a 32-bit state to a 31-bit one: the polynomial has no
    bit 31. *)
Lemma crc_bit_bound x : 0 <= x < two32 → 0 <= crc_bit x < two31.
Proof.
  intros Hx. unfold crc_bit. apply (lxor_bound_k two31 31); [done|lia| |].
  - rewrite Z.shiftr_div_pow2 by lia. change (2 ^ 1) with 2.
    unfold two32 in Hx. unfold two31. Z.div_mod_to_equations. lia.
  - unfold checksumPolynomial, two31. destruct (Z.odd x); lia.
Qed.

Lemma crc_bits_bound n x : 0 <= x < two31 → 0 <= crc_bits n x < two31.
Proof.
  revert x. induction n as [|n IH]; intros x Hx; [done|].
  rewrite !crc_bits_S. apply IH, crc_bit_bound. auto with go.
Qed.

Lemma crc_byte_bound crc b :
  0 <= crc < two32 → is_byte b → 0 <= crc_byte_ref crc b < two31.
Proof.
  intros Hc Hb. rewrite crc_byte_ref_eq, (crc_bits_S 7).
  apply (crc_bits_bound 7), crc_bit_bound, (lxor_bound_k two32 32); [done|lia|done|].
  unfold is_byte, two32 in *. lia.
Qed.

Lemma crc_fold_bound data crc :
  bytes_ok data → 0 <= crc < two32 → 0 <= fold_left crc_byte_ref data crc < two32.
Proof.
  intros Hd. revert crc. induction Hd as [|b data Hb _ IH]; intros crc Hc; [done|].
  rewrite !fold_left_cons. apply IH. apply lt31_32, crc_byte_bound; done.
Qed.

Lemma crc_fold_ref data crc :
  bytes_ok data → 0 <= crc < two32 →
  fold_left crc_step data crc = fold_left crc_byte_ref data crc.
Proof.
  intros Hd. revert crc. induction Hd as [|b data Hb _ IH]; intros crc Hc; [done|].
  rewrite !fold_left_cons. rewrite crc_step_ref by (done || lia). apply IH.
  apply lt31_32, crc_byte_bound; done.
Qed.

Lemma crc_bit_kernel d : 0 <= d < two31 → crc_bit d = 0 → d = 0.
Proof.
  unfold two31. intros Hd H. unfold crc_bit in H. apply Z.lxor_eq in H.
  rewrite Z.shiftr_div_pow2 in H by lia. change (2 ^ 1) with 2 in H.
  pose proof (Z.div_mod d 2 ltac:(lia)) as Hd2. rewrite Zmod_odd in Hd2. unfold checksumPolynomial in H. destruct (Z.odd d); lia.
Qed.

Lemma crc_bits_kernel n d : 0 <= d < two31 → crc_bits n d = 0 → d = 0.
Proof.
  revert d. induction n as [|n IH]; intros d Hd H; [done|]. rewrite crc_bits_S in H.
  apply crc_bit_kernel; [done|]. apply IH; [|done]. apply crc_bit_bound. auto with go.
Qed.

Lemma crc_bits_inj n x y :
  0 <= Z.lxor x y < two31 → crc_bits n x = crc_bits n y → x = y.
Proof.
  intros Hb H. apply Z.lxor_eq, (crc_bits_kernel n); [done|].
  by rewrite crc_bits_lxor, H, Z.lxor_nilpotent.
Qed.

Lemma lxor_lxor_cancel x y b : Z.lxor (Z.lxor x b) (Z.lxor y b) = Z.lxor x y.
Proof.
  rewrite (Z.lxor_comm y b), <- Z.lxor_assoc, (Z.lxor_assoc x b b).
  by rewrite Z.lxor_nilpotent, Z.lxor_0_r.
Qed.

Lemma crc_fold_inj data x y :
  bytes_ok data → 0 <= x < two31 → 0 <= y < two31 →
  fold_left crc_byte_ref data x = fold_left crc_byte_ref data y → x = y.
Proof.
  intros Hd. revert x y. induction Hd as [|b data Hb _ IH]; intros x y Hx Hy H; [done|].
  rewrite !fold_left_cons in H. apply IH in H; [|by apply crc_byte_bound; auto with go..].
  rewrite !crc_byte_ref_eq in H. apply crc_bits_inj in H.
  - apply Z.lxor_eq. by rewrite <- (lxor_lxor_cancel x y b), H, Z.lxor_nilpotent.
  - rewrite lxor_lxor_cancel. by apply (lxor_bound_k two31 31).
Qed.

Lemma not32_inj x y : not32 x = not32 y → x = y.
Proof.
  unfold not32. intros H. apply Z.lxor_eq.
  by rewrite <- (lxor_lxor_cancel x y 4294967295), H, Z.lxor_nilpotent.
Qed.

Lemma not32_bound x : 0 <= x < two32 → 0 <= not32 x < two32.
Proof. intros. unfold not32. by apply (lxor_bound_k two32 32). Qed.

Lemma Checksum_eq data : Checksum data = not32 (fold_left crc_step data 4294967295).
Proof.
  unfold Checksum, ChecksumRange. pose proof (zlen_nonneg data).
  rewrite !(proj2 (Z.ltb_ge _ _)) by lia. cbn [orb].
  rewrite slice_ret by lia. cbn. rewrite drop_0, take_ge; [done|]. unfold zlen; lia.
Qed.

Lemma Checksum_bound data : bytes_ok data → 0 <= Checksum data < two32.
Proof.
  intros. rewrite Checksum_eq, crc_fold_ref by (done || lia).
  apply not32_bound, crc_fold_bound; done.
Qed.

(** The range form agrees with [Checksum] of the sub-slice. *)
Lemma ChecksumRange_tail (a b : list Z) offset count :
  offset = zlen a → count = zlen b → ChecksumRange (a ++ b) offset count = Ret (Checksum b).
Proof.
  intros -> ->. unfold ChecksumRange. rewrite zlen_app.
  pose proof (zlen_nonneg a). pose proof (zlen_nonneg b).
  rewrite !(proj2 (Z.ltb_ge _ _)) by lia. cbn [orb].
  rewrite <- (app_nil_r b) at 1. rewrite slice_app by done. cbn. by rewrite Checksum_eq.
Qed.

Lemma byte_lxor_bound b b' : is_byte b → is_byte b' → 0 <= Z.lxor b b' < two31.
Proof.
  unfold is_byte. intros Hb Hb'.
  pose proof (lxor_bound_k 256 8 b b' eq_refl ltac:(lia) ltac:(lia) ltac:(lia)).
  unfold two31. lia.
Qed.

Lemma crc_byte_inj s b b' :
  is_byte b → is_byte b' → crc_byte_ref s b = crc_byte_ref s b' → b = b'.
Proof.
  intros Hb Hb' H. rewrite !crc_byte_ref_eq in H.
  rewrite !(Z.lxor_comm s) in H. apply crc_bits_inj in H.
  - apply Z.lxor_eq. by rewrite <- (lxor_lxor_cancel b b' s), H, Z.lxor_nilpotent.
  - rewrite lxor_lxor_cancel. by apply byte_lxor_bound.
Qed.

Lemma crc_fold_byte_inj pre post b b' crc :
  bytes_ok pre → bytes_ok post → is_byte b → is_byte b' → 0 <= crc < two32 →
  fold_left crc_byte_ref (pre ++ b :: post) crc =
  fold_left crc_byte_ref (pre ++ b' :: post) crc → b = b'.
Proof.
  intros Hpre Hpost Hb Hb' Hc Heq. rewrite !fold_left_app in Heq. rewrite !fold_left_cons in Heq.
  pose proof (crc_fold_bound pre crc Hpre Hc) as Hs.
  apply crc_fold_inj in Heq; [|done|by apply crc_byte_bound; auto with go..].
  by apply crc_byte_inj in Heq.
Qed.

Lemma crc_fold_bound31 l s :
  bytes_ok l → 0 <= s < two31 → 0 <= fold_left crc_byte_ref l s < two31.
Proof.
  intros Hl. revert s. induction Hl as [|c l Hc _ IH]; intros s Hs; [done|].
  rewrite !fold_left_cons. apply IH, crc_byte_bound; [|done]. auto with go.
Qed.

Lemma not32_high x : 0 <= x < two31 → two31 <= not32 x.
Proof.
  intros Hx. apply Z.nlt_ge. intros Hlt.
  assert (0 <= not32 x < two32) by (apply not32_bound; auto with go).
  assert (Z.testbit (not32 x) 31 = false) as Ht.
  { apply (testbit_small _ 31); [|done]. change (2 ^ 31) with two31. lia. }
  unfold not32 in Ht. rewrite Z.lxor_spec, (testbit_small x 31) in Ht; [done| |done].
  by change (2 ^ 31) with two31.
Qed.

Lemma Checksum_ref data : bytes_ok data → Checksum data = checksum_ref data.
Proof. intros. by rewrite Checksum_eq, crc_fold_ref. Qed.

Lemma Checksum_single_byte pre b b' post :
  bytes_ok (pre ++ b :: post) → is_byte b' → b ≠ b' →
  Checksum (pre ++ b :: post) ≠ Checksum (pre ++ b' :: post).
Proof.
  intros Hok Hb' Hne Heq. rewrite (Checksum_ref (pre ++ b :: post)) in Heq by done.
  apply bytes_ok_app in Hok as [Hpre [Hb Hpost]%Forall_cons].
  rewrite Checksum_ref in Heq by (apply bytes_ok_app; split; [done|by constructor]).
  apply not32_inj, crc_fold_byte_inj in Heq; done.
Qed.

(** ** Properties *)

(** C1: for every byte string the table-driven checksum of the code (table
    built by the nested loops of [buildChecksumTable], one table access per
    byte) equals the bitwise reflected CRC with polynomial 0x4DB89129, and the
    range check of [ChecksumRange] accepts exactly the in-range windows. *)
Theorem checksum_is_bitwise_crc (data : list Z) (offset count : Z) :
  bytes_ok data →
  buildChecksumTable = ((λ i, crc_bits 8 (Z.of_nat i)) <$> seq 0 256) ∧
  ChecksumRange data offset count =
    (if decide (0 <= count ∧ 0 <= offset ∧ offset + count <= zlen data)
     then Ret (checksum_ref (take (Z.to_nat count) (drop (Z.to_nat offset) data)))
     else Fail errChecksumRange).
Proof.
  intros Hd. split; [by rewrite <- checksumTable_eq, checksumTable_ref|].
  unfold ChecksumRange. destruct (decide _) as [(H1 & H2 & H3)|Hn].
  - rewrite !(proj2 (Z.ltb_ge _ _)) by lia. cbn [orb].
    rewrite slice_ret by lia. cbn. unfold checksum_ref.
    replace (offset + count - offset) with count by lia.
    rewrite crc_fold_ref; [done|auto with go|done].
  - destruct (Z.ltb_spec count 0), (Z.ltb_spec offset 0),
      (Z.ltb_spec (zlen data - count) offset); cbn; done || lia.
Qed.

(** Witness of C1 on the client's own test vector. *)
Example checksum_is_bitwise_crc_witness :
  Checksum [49; 50; 51; 52; 53; 54; 55; 56; 57] = 3740255209 ∧
  ChecksumRange [49; 50; 51; 52; 53; 54; 55; 56; 57] 0 9
  = Ret (checksum_ref [49; 50; 51; 52; 53; 54; 55; 56; 57]).
Proof.
  split; [vm_compute; reflexivity|].
  refine (proj2 (checksum_is_bitwise_crc [49; 50; 51; 52; 53; 54; 55; 56; 57] 0 9 _)).
  solve_bytes.
Defined.

(** C2: error detection. Changing any single byte of a message (of any length,
    at any position) changes its checksum; the checksum of a non-empty message
    always has its top bit set, so 31 of its 32 bits carry information. *)
Theorem checksum_detects_byte_error (pre post : list Z) (b b' : Z) :
  bytes_ok (pre ++ b :: post) → is_byte b' → b ≠ b' →
  Checksum (pre ++ b :: post) ≠ Checksum (pre ++ b' :: post) ∧
  two31 <= Checksum (pre ++ b :: post) < two32.
Proof.
  intros Hok Hb' Hne. split; [by apply Checksum_single_byte|].
  split; [|by apply Checksum_bound].
  rewrite Checksum_ref by done. apply not32_high.
  apply bytes_ok_app in Hok as [Hpre [Hb Hpost]%Forall_cons].
  rewrite fold_left_app. rewrite !fold_left_cons. apply crc_fold_bound31; [done|].
  apply crc_byte_bound; [|done]. apply crc_fold_bound; done.
Qed.

(** Witness of C2: flipping the last byte of "12". *)
Example checksum_detects_byte_error_witness :
  Checksum ([49] ++ 50 :: []) ≠ Checksum ([49] ++ 51 :: []) ∧
  two31 <= Checksum ([49] ++ 50 :: []) < two32.
Proof.
  apply (checksum_detects_byte_error [49] [] 50 51); [solve_bytes|done|done].
Defined.
