(* ===== verification/Packets.v ===== *)
(** * Packet headers of the game protocol

    [protocol/channel.go] (13-byte raw upper packets), [latest_game.go] (7-byte
    business packets), [legacy_game.go] (13-byte legacy packets and the fixed
    15-byte server header), [dproto.go] (the DPROTO client envelope) and
    [legacy_channel.go] (the DOF pre-login packets). *)

From S2P Require Import Prelude Bytes Checksum.

(** ** Raw upper packets ([channel.go]) *)

Definition ChannelHeaderSize : Z := 13.
Definition GameServerUpperHeaderSize : Z := ChannelHeaderSize.
Definition GameServerUpperHeaderSize16 : Z := 16.
Definition DefaultChannelClassification : Z := 1.

Record ChannelHeader := mkChannelHeader {
  ch_Classification : Z;
  ch_MsgID : Z;
  ch_Length : Z;
  ch_Checksum : Z;
  ch_Seq : Z;
}.

Record ChannelPacket := mkChannelPacket {
  cp_Header : ChannelHeader;
  cp_Body : list Z;
}.

(** The common tail of the two builders: checksum over [packet[11:]], stored
    at offset 7. *)
Definition BuildChannelPacket (msgID : Z) (body : list Z) (seq classification : Z)
    : outcome wire_error (list Z) :=
  let classification :=
    if classification =? 0 then DefaultChannelClassification else classification in
  let total := ChannelHeaderSize + zlen body in
  if 4294967295 <? total then Fail ErrPacketTooLarge else
  let packet := zeros total in
  let packet := set_byte packet 0 classification in
  let packet := put16 packet 1 msgID in
  let packet := put32 packet 3 (u32 total) in
  let packet := put16 packet 11 seq in
  let packet := blit packet ChannelHeaderSize body in
  sum ← ChecksumRange packet 11 (total - 11);
  mret (put32 packet 7 sum).

Definition BuildGameServerUpperPacketWithHeaderSize
    (msgID : Z) (body : list Z) (seq classification headerSize : Z)
    : outcome wire_error (list Z) :=
  if negb (headerSize =? ChannelHeaderSize) && negb (headerSize =? GameServerUpperHeaderSize16)
  then Fail ErrPacketLength else
  let total := headerSize + zlen body in
  if 4294967295 <? total then Fail ErrPacketTooLarge else
  let packet := zeros total in
  let packet := set_byte packet 0 classification in
  let packet := put16 packet 1 msgID in
  let packet := put32 packet 3 (u32 total) in
  let packet := put16 packet 11 seq in
  let packet := blit packet headerSize body in
  sum ← ChecksumRange packet 11 (total - 11);
  mret (put32 packet 7 sum).

Definition BuildGameServerUpperPacket (msgID : Z) (body : list Z) (seq classification : Z) :=
  BuildGameServerUpperPacketWithHeaderSize msgID body seq classification GameServerUpperHeaderSize.

Definition cloneBytes (data : list Z) : list Z := data.

Definition parseChannelPacket (packet : list Z) (verifyChecksum : bool)
    : outcome wire_error ChannelPacket :=
  if zlen packet <? ChannelHeaderSize then Fail ErrPacketTooShort else
  classification ← index packet 0;
  msgID ← u16_at packet 1;
  length ← u32_at packet 3;
  checksum ← u32_at packet 7;
  seq ← u16_at packet 11;
  let header := mkChannelHeader classification msgID length checksum seq in
  if (length <? ChannelHeaderSize) || negb (length =? zlen packet)
  then Fail ErrPacketLength else
  _ ← (if verifyChecksum then
         sum ← ChecksumRange packet 11 (zlen packet - 11);
         if negb (sum =? checksum) then Fail ErrChecksumInvalid else mret tt
       else mret tt);
  body ← slice packet ChannelHeaderSize (zlen packet);
  mret (mkChannelPacket header (cloneBytes body)).

Definition ParseChannelPacket (packet : list Z) := parseChannelPacket packet true.
Definition ParseChannelPacketUnchecked (packet : list Z) := parseChannelPacket packet false.

(** ** Business packets ([latest_game.go]) *)

Definition LatestGameHeaderSize : Z := 7.

Record LatestGameHeader := mkLatestGameHeader {
  lg_Cmd : Z;
  lg_Type : Z;
  lg_Checksum : Z;
}.

Record LatestGamePacket := mkLatestGamePacket {
  lgp_Header : LatestGameHeader;
  lgp_Body : list Z;
}.

Definition BuildLatestGamePacket (cmd typ : Z) (body : list Z) : outcome wire_error (list Z) :=
  let total := LatestGameHeaderSize + zlen body in
  if 65535 <? total then Fail ErrPacketTooLarge else
  let packet := zeros total in
  let packet := set_byte packet 0 cmd in
  let packet := put16 packet 1 typ in
  let packet := put32 packet 3 (Checksum body) in
  mret (blit packet LatestGameHeaderSize body).

Definition ParseLatestGamePacket (packet : list Z) : outcome wire_error LatestGamePacket :=
  if zlen packet <? LatestGameHeaderSize then Fail ErrPacketTooShort else
  cmd ← index packet 0;
  typ ← u16_at packet 1;
  checksum ← u32_at packet 3;
  body ← slice packet LatestGameHeaderSize (zlen packet);
  if negb (Checksum body =? checksum) then Fail ErrChecksumInvalid else
  mret (mkLatestGamePacket (mkLatestGameHeader cmd typ checksum) (cloneBytes body)).

Definition VerifyLatestGamePacket (packet : list Z) : outcome wire_error unit :=
  _ ← ParseLatestGamePacket packet; mret tt.

(** ** Legacy packets ([legacy_game.go]) *)

Definition LegacyGameHeaderSize : Z := 13.

Record LegacyGameHeader := mkLegacyGameHeader {
  lh_Cmd : Z;
  lh_Type : Z;
  lh_Length : Z;
  lh_Checksum : Z;
  lh_Sequence : Z;
}.

Record LegacyGamePacket := mkLegacyGamePacket {
  lp_Header : LegacyGameHeader;
  lp_Body : list Z;
}.

Definition BuildFixed15GameServerPacket (cmd typ : Z) (body : list Z) (route : Z)
    : outcome wire_error (list Z) :=
  let headerSize := 15 in
  let total := headerSize + zlen body in
  if 4294967295 <? total then Fail ErrPacketTooLarge else
  let packet := zeros total in
  let packet := set_byte packet 0 cmd in
  let packet := put16 packet 1 typ in
  let packet := put32 packet 3 (u32 total) in
  let packet := set_byte packet 7 route in
  mret (blit packet headerSize body).

Definition ParseLegacyGamePacket (packet : list Z) : outcome wire_error LegacyGamePacket :=
  if zlen packet <? LegacyGameHeaderSize then Fail ErrPacketTooShort else
  length ← u32_at packet 3;
  if (length <? LegacyGameHeaderSize) || negb (length =? zlen packet)
  then Fail ErrPacketLength else
  cmd ← index packet 0;
  typ ← u16_at packet 1;
  checksum ← u32_at packet 7;
  sequence ← u16_at packet 11;
  body ← slice packet LegacyGameHeaderSize (zlen packet);
  mret (mkLegacyGamePacket (mkLegacyGameHeader cmd typ length checksum sequence)
          (cloneBytes body)).

(** ** DPROTO client envelope ([dproto.go]) *)

Definition DprotoClientEnvelopeOpcode : Z := 1517.

Record DprotoClientEnvelope := mkDprotoClientEnvelope {
  de_Header : ChannelHeader;
  de_Protected : list Z;
  de_Raw : list Z;
}.

Definition ParseDprotoClientEnvelope (raw : list Z) (maxProtectedBytes : Z)
    : outcome wire_error DprotoClientEnvelope :=
  packet ← ParseChannelPacket raw;
  if negb (ch_Classification (cp_Header packet) =? DefaultChannelClassification)
     || negb (ch_MsgID (cp_Header packet) =? DprotoClientEnvelopeOpcode)
  then Fail ErrDprotoEnvelopeOpcode else
  if zlen (cp_Body packet) <? 4 then Fail ErrDprotoEnvelopeBody else
  protectedLength ← u32_at (cp_Body packet) 0;
  if (protectedLength <=? 0) || negb (protectedLength =? zlen (cp_Body packet) - 4)
  then Fail ErrDprotoProtectedSize else
  if (0 <? maxProtectedBytes) && (maxProtectedBytes <? protectedLength)
  then Fail ErrPacketTooLarge else
  protected ← slice (cp_Body packet) 4 (zlen (cp_Body packet));
  mret (mkDprotoClientEnvelope (cp_Header packet) (cloneBytes protected) (cloneBytes raw)).

Definition BuildDprotoClientEnvelope (protected : list Z) (seq : Z) : outcome wire_error (list Z) :=
  if zlen protected =? 0 then Fail ErrDprotoProtectedSize else
  let body := zeros (4 + zlen protected) in
  let body := put32 body 0 (u32 (zlen protected)) in
  let body := blit body 4 protected in
  BuildChannelPacket DprotoClientEnvelopeOpcode body seq DefaultChannelClassification.

(** ** The 13-byte layout shared by upper and legacy packets *)

Definition layout13 (c m l s q : Z) (body : list Z) : list Z :=
  [c] ++ put_le 2 m ++ put_le 4 l ++ put_le 4 s ++ put_le 2 q ++ body.

Record fields13 (c m l s q : Z) (body : list Z) : Prop := {
  f_c : is_byte c;
  f_m : 0 <= m < two16;
  f_l : 0 <= l < two32;
  f_s : 0 <= s < two32;
  f_q : 0 <= q < two16;
  f_body : bytes_ok body;
}.

Lemma zlen_layout13 c m l s q body : zlen (layout13 c m l s q body) = 13 + zlen body.
Proof. unfold layout13, zlen. rewrite !length_app, !length_put_le. cbn [length]. lia. Qed.

Section layout13_reads.
  Context {E : Type} (c m l s q : Z) (body : list Z) (F : fields13 c m l s q body).
  #[local] Abbreviation P := (layout13 c m l s q body).

Lemma read13_c : index (E:=E) P 0 = Ret c.
Proof. done. Qed.

Lemma read13_m : u16_at (E:=E) P 1 = Ret m.
Proof.
  unfold layout13. rewrite (u16_at_app [c]) by done. f_equal. apply u16_id, F.
Qed.

Lemma read13_l : u32_at (E:=E) P 3 = Ret l.
Proof.
  unfold layout13. rewrite (app_assoc [c]).
  rewrite (u32_at_app ([c] ++ put_le 2 m)) by done. f_equal. apply u32_id, F.
Qed.

Lemma read13_s : u32_at (E:=E) P 7 = Ret s.
Proof.
  unfold layout13. rewrite (app_assoc [c]), (app_assoc ([c] ++ put_le 2 m)).
  rewrite (u32_at_app (([c] ++ put_le 2 m) ++ put_le 4 l)) by done. f_equal. apply u32_id, F.
Qed.

Lemma read13_q : u16_at (E:=E) P 11 = Ret q.
Proof.
  unfold layout13.
  rewrite (app_assoc [c]), (app_assoc ([c] ++ put_le 2 m)),
    (app_assoc (([c] ++ put_le 2 m) ++ put_le 4 l)).
  rewrite (u16_at_app ((([c] ++ put_le 2 m) ++ put_le 4 l) ++ put_le 4 s)) by done.
  f_equal. apply u16_id, F.
Qed.

Lemma read13_body : slice (E:=E) P 13 (13 + zlen body) = Ret body.
Proof.
  replace P with (([c] ++ put_le 2 m ++ put_le 4 l ++ put_le 4 s ++ put_le 2 q) ++ body ++ [])
    by (unfold layout13; by rewrite app_nil_r, <- !app_assoc).
  by apply slice_app.
Qed.

Lemma read13_sum : ChecksumRange P 11 (13 + zlen body - 11) = Ret (Checksum (put_le 2 q ++ body)).
Proof.
  replace P with (([c] ++ put_le 2 m ++ put_le 4 l ++ put_le 4 s) ++ (put_le 2 q ++ body))
    by (unfold layout13; by rewrite <- !app_assoc).
  apply ChecksumRange_tail; [done|]. rewrite zlen_app, zlen_put_le. lia.
Qed.

End layout13_reads.

(** Closed form of the parser on a packet with at least a full header. *)
Lemma parse_layout13 c m l s q body v :
  fields13 c m l s q body →
  parseChannelPacket (layout13 c m l s q body) v =
    if (l <? 13) || negb (l =? 13 + zlen body) then Fail ErrPacketLength
    else if v && negb (Checksum (put_le 2 q ++ body) =? s) then Fail ErrChecksumInvalid
    else Ret (mkChannelPacket (mkChannelHeader c m l s q) body).
Proof.
  intros F. unfold parseChannelPacket, ChannelHeaderSize.
  rewrite zlen_layout13. pose proof (zlen_nonneg body).
  rewrite (proj2 (Z.ltb_ge _ _)) by lia.
  rewrite read13_c, (read13_m _ _ _ _ _ _ F), (read13_l _ _ _ _ _ _ F),
    (read13_s _ _ _ _ _ _ F), (read13_q _ _ _ _ _ _ F), !bind_ret.
  destruct ((l <? 13) || negb (l =? 13 + zlen body)); [done|].
  destruct v; cbn [andb].
  - rewrite read13_sum, bind_ret. destruct (negb _); [done|].
    by rewrite mret_ret, bind_ret, read13_body.
  - by rewrite mret_ret, bind_ret, read13_body.
Qed.

(** Reading [n] bytes off the front of a byte string. *)
Lemma take_field n (l : list Z) :
  bytes_ok l → Z.of_nat n <= zlen l →
  ∃ x r, l = put_le n x ++ r ∧ 0 <= x < 256 ^ Z.of_nat n ∧ bytes_ok r ∧
         zlen r = zlen l - Z.of_nat n.
Proof.
  intros Hl Hn. assert (length (take n l) = n) as Ht.
  { rewrite length_take. unfold zlen in Hn. lia. }
  exists (get_le (take n l)), (drop n l). split_and!.
  - rewrite <- Ht at 1. rewrite put_get_le by auto with go. by rewrite take_drop.
  - apply get_le_bound. auto with go.
  - pose proof (get_le_bound (take n l) ltac:(auto with go)) as Hb.
    unfold zlen in Hb. rewrite Ht in Hb. lia.
  - auto with go.
  - rewrite zlen_drop. lia.
Qed.

Lemma layout13_of (packet : list Z) :
  bytes_ok packet → 13 <= zlen packet →
  ∃ c m l s q body, packet = layout13 c m l s q body ∧ fields13 c m l s q body.
Proof.
  intros Hp Hl. destruct packet as [|c r]; [by unfold zlen in Hl|].
  apply Forall_cons in Hp as [Hc Hr]. unfold zlen in Hl; cbn [length] in Hl.
  destruct (take_field 2 r Hr) as (m & r1 & -> & Hm & Hr1 & L1); [unfold zlen; lia|].
  destruct (take_field 4 r1 Hr1) as (l & r2 & -> & Hll & Hr2 & L2); [unfold zlen in *; lia|].
  destruct (take_field 4 r2 Hr2) as (s & r3 & -> & Hs & Hr3 & L3); [unfold zlen in *; lia|].
  destruct (take_field 2 r3 Hr3) as (q & r4 & -> & Hq & Hr4 & L4); [unfold zlen in *; lia|].
  exists c, m, l, s, q, r4. split; [done|]. by split.
Qed.

(** ** The builders in closed form *)

(** A header of constant size written field by field into a zeroed buffer. *)
Lemma header13_fields c m l q :
  put16 (put32 (put16 (set_byte (zeros 13) 0 c) 1 m) 3 l) 11 q = layout13 c m l 0 q [].
Proof. done. Qed.

Ltac push_prefix :=
  repeat match goal with
  | |- context [set_byte (?a ++ ?z) ?lo ?b] =>
      replace (set_byte (a ++ z) lo b) with (set_byte a lo b ++ z)
        by (symmetry; apply blit_prefix; [lia|done])
  | |- context [put16 (?a ++ ?z) ?lo ?x] =>
      replace (put16 (a ++ z) lo x) with (put16 a lo x ++ z)
        by (symmetry; apply blit_prefix; [lia|done])
  | |- context [put32 (?a ++ ?z) ?lo ?x] =>
      replace (put32 (a ++ z) lo x) with (put32 a lo x ++ z)
        by (symmetry; apply blit_prefix; [lia|done])
  end.

Lemma zlen_zeros_body (body : list Z) : length (zeros (zlen body)) = length body.
Proof. unfold zeros, zlen. rewrite length_replicate. lia. Qed.

Lemma header13_app c m l q body :
  blit (put16 (put32 (put16 (set_byte (zeros (13 + zlen body)) 0 c) 1 m) 3 l) 11 q) 13 body
  = layout13 c m l 0 q body.
Proof.
  pose proof (zlen_nonneg body). rewrite zeros_add by lia. push_prefix.
  rewrite header13_fields. rewrite blit_end; [|done|apply zlen_zeros_body].
  done.
Qed.

Lemma layout13_put_sum c m l s s' q body :
  put32 (layout13 c m l s q body) 7 s' = layout13 c m l s' q body.
Proof. done. Qed.

Lemma Build_layout13 m body q c :
  fields13 (if c =? 0 then 1 else c) m 0 0 q body →
  BuildChannelPacket m body q c =
    if 4294967295 <? 13 + zlen body then Fail ErrPacketTooLarge
    else Ret (layout13 (if c =? 0 then 1 else c) m (13 + zlen body)
                (Checksum (put_le 2 q ++ body)) q body).
Proof.
  intros F. unfold BuildChannelPacket, ChannelHeaderSize, DefaultChannelClassification.
  pose proof (zlen_nonneg body). destruct (Z.ltb_spec 4294967295 (13 + zlen body)); [done|].
  rewrite header13_app, u32_id by (unfold two32; lia).
  rewrite read13_sum, bind_ret. by rewrite layout13_put_sum.
Qed.

Lemma Checksum_tail_bound q body : bytes_ok body → 0 <= Checksum (put_le 2 q ++ body) < two32.
Proof. intros. apply Checksum_bound, bytes_ok_app. split; [apply put_le_bytes|done]. Qed.

Lemma built_fields m body q c :
  fields13 c m 0 0 q body → 13 + zlen body <= 4294967295 →
  fields13 c m (13 + zlen body) (Checksum (put_le 2 q ++ body)) q body.
Proof.
  intros [? ? ? ? ? ?] Hl. pose proof (zlen_nonneg body).
  split; try done; [unfold two32; lia|by apply Checksum_tail_bound].
Qed.

Lemma fields13_inputs c m l s q body : fields13 c m l s q body → fields13 c m 0 0 q body.
Proof. intros [? ? ? ? ? ?]. by split. Qed.

(** ** Reading never panics *)

Lemma parseChannelPacket_no_panic packet v : parseChannelPacket packet v ≠ Panic.
Proof.
  unfold parseChannelPacket, ChannelHeaderSize.
  destruct (Z.ltb_spec (zlen packet) 13); [done|].
  destruct (index_ret (E:=wire_error) packet 0) as [? ->]; [lia..|].
  destruct (u16_at_ret (E:=wire_error) packet 1) as [? ->]; [lia..|].
  destruct (u32_at_ret (E:=wire_error) packet 3) as [l ->]; [lia..|].
  destruct (u32_at_ret (E:=wire_error) packet 7) as [s ->]; [lia..|].
  destruct (u16_at_ret (E:=wire_error) packet 11) as [? ->]; [lia..|].
  rewrite !bind_ret. destruct (_ || _); [done|].
  rewrite (slice_ret _ 13) by lia.
  destruct v; [|done]. unfold ChecksumRange.
  rewrite !(proj2 (Z.ltb_ge _ _)) by lia. cbn [orb].
  rewrite slice_ret by lia. cbn -[Z.eqb]. by destruct (negb _).
Qed.

Lemma ParseLatestGamePacket_no_panic packet : ParseLatestGamePacket packet ≠ Panic.
Proof.
  unfold ParseLatestGamePacket, LatestGameHeaderSize.
  destruct (Z.ltb_spec (zlen packet) 7); [done|].
  destruct (index_ret (E:=wire_error) packet 0) as [? ->]; [lia..|].
  destruct (u16_at_ret (E:=wire_error) packet 1) as [? ->]; [lia..|].
  destruct (u32_at_ret (E:=wire_error) packet 3) as [l ->]; [lia..|].
  rewrite slice_ret by lia. rewrite !bind_ret. by destruct (negb _).
Qed.

Lemma ParseLegacyGamePacket_no_panic packet : ParseLegacyGamePacket packet ≠ Panic.
Proof.
  unfold ParseLegacyGamePacket, LegacyGameHeaderSize.
  destruct (Z.ltb_spec (zlen packet) 13); [done|].
  destruct (u32_at_ret (E:=wire_error) packet 3) as [l ->]; [lia..|].
  rewrite bind_ret. destruct (_ || _); [done|].
  destruct (index_ret (E:=wire_error) packet 0) as [? ->]; [lia..|].
  destruct (u16_at_ret (E:=wire_error) packet 1) as [? ->]; [lia..|].
  destruct (u32_at_ret (E:=wire_error) packet 7) as [s ->]; [lia..|].
  destruct (u16_at_ret (E:=wire_error) packet 11) as [? ->]; [lia..|].
  by rewrite slice_ret by lia.
Qed.

Lemma ParseDprotoClientEnvelope_no_panic raw max : ParseDprotoClientEnvelope raw max ≠ Panic.
Proof.
  unfold ParseDprotoClientEnvelope.
  apply bind_no_panic; [apply parseChannelPacket_no_panic|]. intros p _.
  destruct (_ || _); [done|]. destruct (Z.ltb_spec (zlen (cp_Body p)) 4); [done|].
  destruct (u32_at_ret (E:=wire_error) (cp_Body p) 0) as [l ->]; [lia..|].
  rewrite bind_ret. destruct (_ || _); [done|]. destruct (_ && _); [done|].
  by rewrite slice_ret by lia.
Qed.

(** ** Single-byte corruption *)

Lemma insert_put_le n x i b b' :
  put_le n x !! i = Some b → is_byte b' → b ≠ b' →
  ∃ x', <[i:=b']> (put_le n x) = put_le n x' ∧ 0 <= x' < 256 ^ Z.of_nat n ∧ x' ≠ x.
Proof.
  intros Hi Hb' Hne. set (l := <[i:=b']> (put_le n x)).
  assert (bytes_ok l) as Hl by (by apply Forall_insert; [apply put_le_bytes|]).
  assert (length l = n) as Hn by (unfold l; by rewrite length_insert, length_put_le).
  pose proof (put_get_le l Hl) as Hg. rewrite Hn in Hg.
  exists (get_le l). split_and!; [done|by apply get_le_bound| |].
  - pose proof (get_le_bound l Hl) as Hb. unfold zlen in Hb. rewrite Hn in Hb. lia.
  - intros Heq. rewrite Heq in Hg. apply (f_equal (.!! i)) in Hg. unfold l in Hg.
    rewrite list_lookup_insert_eq in Hg by (by eapply lookup_lt_Some). congruence.
Qed.

Lemma Checksum_insert (l : list Z) j b b' :
  bytes_ok l → l !! j = Some b → is_byte b' → b ≠ b' → Checksum (<[j:=b']> l) ≠ Checksum l.
Proof.
  intros Hl Hj Hb' Hne Heq.
  rewrite insert_take_drop in Heq by (by eapply lookup_lt_Some).
  rewrite <- (take_drop_middle l j b Hj) in Hl.
  apply (Checksum_single_byte (take j l) b b' (drop (S j) l)); [done..|].
  by rewrite take_drop_middle.
Qed.

(** The four regions of a packet: classification and opcode, length, checksum,
    and the checksummed rest. *)
Lemma layout13_regions c m l s q body :
  layout13 c m l s q body =
  ([c] ++ put_le 2 m) ++ put_le 4 l ++ put_le 4 s ++ (put_le 2 q ++ body).
Proof. done. Qed.

Lemma insert_tail (q : Z) (body : list Z) j b b' :
  bytes_ok body → (put_le 2 q ++ body) !! j = Some b → is_byte b' →
  ∃ q' body', <[j:=b']> (put_le 2 q ++ body) = put_le 2 q' ++ body' ∧
    0 <= q' < two16 ∧ bytes_ok body' ∧ zlen body' = zlen body.
Proof.
  intros Hbody Hj Hb'.
  destruct (take_field 2 (<[j:=b']> (put_le 2 q ++ body))) as (q' & body' & Heq & Hq & Hok & Hl).
  - apply Forall_insert; [|done]. apply bytes_ok_app. auto with go.
  - unfold zlen. rewrite length_insert, length_app, length_put_le. lia.
  - exists q', body'. split_and!; [done|lia|apply Hq|done|].
    rewrite Hl. unfold zlen. rewrite length_insert, length_app, length_put_le. lia.
Qed.

Lemma insert_head (c m : Z) j b b' :
  is_byte c → ([c] ++ put_le 2 m) !! j = Some b → is_byte b' →
  ∃ c' m', <[j:=b']> ([c] ++ put_le 2 m) = [c'] ++ put_le 2 m' ∧ is_byte c' ∧ 0 <= m' < two16.
Proof.
  intros Hc Hj Hb'. destruct j as [|j].
  - exists b', (get_le (put_le 2 m)). rewrite get_put_le2. split_and!; [|done|apply u16_range|apply u16_range].
    cbn [app]. change (b' :: put_le 2 m = b' :: put_le 2 (u16 m)). f_equal.
    rewrite <- get_put_le2. symmetry. apply (put_get_le (put_le 2 m)), put_le_bytes.
  - destruct (decide (b = b')) as [->|Hne].
    + exists c, (u16 m). split_and!; [|done|apply u16_range|apply u16_range].
      rewrite list_insert_id by done. cbn [app]. f_equal.
      rewrite <- get_put_le2. symmetry. apply (put_get_le (put_le 2 m)), put_le_bytes.
    + destruct (insert_put_le 2 m j b b') as (m' & Heq & Hm & _); [done..|].
      exists c, m'. split_and!; [|done|apply Hm|apply Hm]. cbn [app]. by rewrite <- Heq.
Qed.

Lemma parse_corrupted c m s q body i b b' :
  fields13 c m (13 + zlen body) (Checksum (put_le 2 q ++ body)) q body →
  layout13 c m (13 + zlen body) s q body !! i = Some b → is_byte b' → b ≠ b' →
  s = Checksum (put_le 2 q ++ body) →
  (i < 3)%nat ∧ (∃ c' m', ParseChannelPacket (<[i:=b']> (layout13 c m (13 + zlen body) s q body)) =
      Ret (mkChannelPacket (mkChannelHeader c' m' (13 + zlen body) s q) body)) ∨
  (3 <= i < 7)%nat ∧ ParseChannelPacket (<[i:=b']> (layout13 c m (13 + zlen body) s q body))
      = Fail ErrPacketLength ∨
  (7 <= i)%nat ∧ ParseChannelPacket (<[i:=b']> (layout13 c m (13 + zlen body) s q body))
      = Fail ErrChecksumInvalid.
Proof.
  intros F Hi Hb' Hne ->. set (s := Checksum _) in *. destruct F as [Hc Hm Hl Hs Hq Hbody].
  unfold ParseChannelPacket. pose proof (zlen_nonneg body).
  rewrite layout13_regions in *. destruct (decide (i < 3)%nat) as [H3|H3].
  { left. split; [done|]. rewrite lookup_app_l in Hi by done. rewrite insert_app_l by done.
    destruct (insert_head c m i b b') as (c' & m' & -> & Hc' & Hm'); [done..|].
    exists c', m'. rewrite <- layout13_regions, parse_layout13 by done.
    by rewrite (proj2 (Z.ltb_ge _ 13)), !Z.eqb_refl by lia. }
  right. rewrite lookup_app_r in Hi by (cbn; lia). rewrite insert_app_r_alt by (cbn; lia).
  change (length ([c] ++ put_le 2 m)) with 3%nat in *.
  destruct (decide (i < 7)%nat) as [H7|H7].
  { left. split; [lia|]. rewrite lookup_app_l in Hi by (rewrite length_put_le; lia).
    rewrite insert_app_l by (rewrite length_put_le; lia).
    destruct (insert_put_le 4 (13 + zlen body) (i - 3) b b') as (l' & -> & Hl' & Hll); [done..|].
    rewrite <- layout13_regions, parse_layout13 by done.
    by rewrite (proj2 (Z.eqb_neq l' _)), orb_true_r by done. }
  right. split; [lia|]. rewrite lookup_app_r in Hi by (rewrite length_put_le; lia).
  rewrite insert_app_r_alt by (rewrite length_put_le; lia). rewrite length_put_le in *.
  destruct (decide (i < 11)%nat) as [H11|H11].
  - rewrite lookup_app_l in Hi by (rewrite length_put_le; lia).
    rewrite insert_app_l by (rewrite length_put_le; lia).
    destruct (insert_put_le 4 s (i - 3 - 4) b b') as (s' & -> & Hs' & Hss); [done..|].
    rewrite <- layout13_regions, parse_layout13 by done. fold s.
    rewrite (proj2 (Z.ltb_ge _ 13)), Z.eqb_refl by lia.
    by rewrite (proj2 (Z.eqb_neq s s')) by done.
  - rewrite lookup_app_r in Hi by (rewrite length_put_le; lia).
    rewrite insert_app_r_alt by (rewrite length_put_le; lia). rewrite length_put_le in *.
    assert (bytes_ok (put_le 2 q ++ body)) as Ht by (apply bytes_ok_app; auto with go).
    pose proof (Checksum_insert _ _ _ b' Ht Hi Hb' Hne) as Hsum. fold s in Hsum.
    destruct (insert_tail q body (i - 3 - 4 - 4) b b') as (q' & body' & Heq & Hq' & Hok & Hz); [done..|].
    rewrite Heq in *. rewrite <- layout13_regions, parse_layout13 by done.
    rewrite Hz, (proj2 (Z.ltb_ge _ 13)), Z.eqb_refl by lia.
    by rewrite (proj2 (Z.eqb_neq _ s)) by done.
Qed.

(** ** Properties *)

(** C3: parse and build of raw upper packets are mutually inverse: a packet
    built from in-range fields (size at most 2^32-1) parses back to exactly
    those fields, with the default classification 1 in place of 0; and every
    byte string the checked parser accepts with a non-zero classification is
    byte for byte the packet [BuildChannelPacket] makes from the parsed
    fields. *)
Theorem channel_packet_roundtrip (m q c : Z) (body : list Z) :
  fields13 c m 0 0 q body → 13 + zlen body <= 4294967295 →
  (∃ packet, BuildChannelPacket m body q c = Ret packet ∧
     ParseChannelPacket packet =
       Ret (mkChannelPacket
              (mkChannelHeader (if c =? 0 then 1 else c) m (13 + zlen body)
                 (Checksum (put_le 2 q ++ body)) q) body)) ∧
  (∀ packet p, bytes_ok packet → ParseChannelPacket packet = Ret p →
     ch_Classification (cp_Header p) ≠ 0 →
     BuildChannelPacket (ch_MsgID (cp_Header p)) (cp_Body p) (ch_Seq (cp_Header p))
       (ch_Classification (cp_Header p)) = Ret packet).
Proof.
  intros F Hl. split.
  - assert (fields13 (if c =? 0 then 1 else c) m 0 0 q body) as F'.
    { destruct F. split; try done. destruct (c =? 0); [|done]. by unfold is_byte. }
    rewrite Build_layout13 by done. rewrite (proj2 (Z.ltb_ge _ _)) by lia.
    eexists; split; [done|]. unfold ParseChannelPacket.
    rewrite parse_layout13 by (apply built_fields; done). pose proof (zlen_nonneg body).
    rewrite (proj2 (Z.ltb_ge _ 13)), !Z.eqb_refl by lia. done.
  - intros packet p Hok Hp Hc. unfold ParseChannelPacket in Hp.
    destruct (decide (13 <= zlen packet)) as [H13|H13].
    2:{ unfold parseChannelPacket in Hp.
        by rewrite (proj2 (Z.ltb_lt _ _)) in Hp by (unfold ChannelHeaderSize; lia). }
    destruct (layout13_of packet Hok H13) as (c' & m' & l & s & q' & b & -> & F').
    rewrite parse_layout13 in Hp by done.
    destruct ((l <? 13) || _) eqn:El; [done|]. cbn [andb] in Hp.
    destruct (negb (Checksum _ =? s)) eqn:Es; [done|]. bool_clean. injection Hp as <-.
    cbn [cp_Header cp_Body ch_MsgID ch_Seq ch_Classification] in *.
    pose proof (f_l _ _ _ _ _ _ F') as Hl'. unfold two32 in Hl'. subst s l.
    rewrite Build_layout13; rewrite (proj2 (Z.eqb_neq c' 0)) by done.
    + by rewrite (proj2 (Z.ltb_ge _ _)) by lia.
    + by eapply fields13_inputs.
Qed.

(** Witness of C3: a five-byte message 560 with sequence 7. *)
Example channel_packet_roundtrip_witness :
  ∃ packet, BuildChannelPacket 560 [1; 2; 3; 4; 5] 7 0 = Ret packet ∧
    ParseChannelPacket packet =
      Ret (mkChannelPacket
             (mkChannelHeader 1 560 18 (Checksum (put_le 2 7 ++ [1; 2; 3; 4; 5])) 7)
             [1; 2; 3; 4; 5]).
Proof.
  refine (proj1 (channel_packet_roundtrip 560 7 0 [1; 2; 3; 4; 5] _ _)).
  - split; try done. solve_bytes.
  - by vm_compute.
Defined.

(** C4: single-byte corruption of a built raw upper packet. A change in the
    declared length is rejected with [ErrPacketLength], a change anywhere from
    the checksum field on with [ErrChecksumInvalid]; the classification byte
    and the opcode (offsets 0-2) are outside the checksum, and there a changed
    packet is accepted with the same body and sequence number. *)
Theorem channel_packet_corruption (m q c : Z) (body packet : list Z) (i : nat) (b b' : Z) :
  fields13 c m 0 0 q body → 13 + zlen body <= 4294967295 →
  BuildChannelPacket m body q c = Ret packet →
  packet !! i = Some b → is_byte b' → b ≠ b' →
  match ParseChannelPacket (<[i:=b']> packet) with
  | Ret p => (i < 3)%nat ∧ cp_Body p = body ∧ ch_Seq (cp_Header p) = q
  | Fail e => e = if decide (i < 7)%nat then ErrPacketLength else ErrChecksumInvalid
  | Panic => False
  end.
Proof.
  intros F Hl Hb Hi Hb' Hne.
  assert (fields13 (if c =? 0 then 1 else c) m 0 0 q body) as F'.
  { destruct F. split; try done. destruct (c =? 0); [|done]. by unfold is_byte. }
  rewrite Build_layout13, (proj2 (Z.ltb_ge _ _)) in Hb by (done || lia). injection Hb as <-.
  apply built_fields in F'; [|done].
  destruct (parse_corrupted _ _ _ _ _ _ _ b' F' Hi Hb' Hne eq_refl)
    as [(? & ? & ? & ->)|[(? & ->)|(? & ->)]].
  - done.
  - by rewrite decide_True by lia.
  - by rewrite decide_False by lia.
Qed.

(** Witness of C4: the first body byte of a one-byte message is flipped. *)
Example channel_packet_corruption_witness :
  match ParseChannelPacket (<[13%nat:=9]> [1; 48; 2; 14; 0; 0; 0; 69; 244; 243; 201; 7; 0; 5]) with
  | Ret p => (13 < 3)%nat ∧ cp_Body p = [5] ∧ ch_Seq (cp_Header p) = 7
  | Fail e => e = if decide (13 < 7)%nat then ErrPacketLength else ErrChecksumInvalid
  | Panic => False
  end.
Proof.
  apply (channel_packet_corruption 560 7 1 [5] _ 13 5 9);
    [split; done || solve_bytes|done|vm_compute; reflexivity|done|done|done].
Defined.
