(* ===== verification/Transport.v ===== *)
(** * Game transport frames ([protocol/transport.go])

    The 12-byte TCP outer header, the 9-byte inner record and the 7-byte
    business packet, for building and parsing TCP frames and UDP datagrams, and
    the resynchronising frame splitter.

    Loops take fuel; running out of it is the value [Panic], so the theorems
    that exclude [Panic] also state that the fuel passed is enough. *)

From S2P Require Import Prelude Bytes Checksum Packets.

Definition TCPOuterHeaderSize : Z := 12.
Definition InnerHeaderSize : Z := 9.
Definition MinTCPFrameSize : Z := TCPOuterHeaderSize + InnerHeaderSize + LatestGameHeaderSize.
Definition NormalInnerKind : Z := 2.

Record TransportOptions := mkTransportOptions {
  to_Sequence : Z;
  to_Route : Z;
  to_Flag : Z;
  to_OuterKind : Z;
  to_OuterValue4 : Z;
  to_OuterValue8 : Z;
}.

Record LatestGameTransportHeader := mkTransportHeader {
  th_OuterKind : Z;
  th_TotalLength : Z;
  th_OuterValue4 : Z;
  th_OuterValue8 : Z;
  th_InnerKind : Z;
  th_Sequence : Z;
  th_BusinessLength : Z;
  th_Route : Z;
  th_Flag : Z;
}.

Record LatestGameTransportRecord := mkTransportRecord {
  tr_TransportHeader : LatestGameTransportHeader;
  tr_GameHeader : LatestGameHeader;
  tr_Body : list Z;
}.

(** [writeInnerRecord] on the target slice, returning it. *)
Definition writeInnerRecord (target businessPacket : list Z) (options : TransportOptions) : list Z :=
  let target := set_byte target 0 NormalInnerKind in
  let target := put32 target 1 (to_Sequence options) in
  let target := put16 target 5 (u16 (zlen businessPacket)) in
  let target := set_byte target 7 (to_Route options) in
  let target := set_byte target 8 (to_Flag options) in
  blit target InnerHeaderSize businessPacket.

Definition BuildLatestGameTCPFromBusinessPacket (businessPacket : list Z) (options : TransportOptions)
    : outcome wire_error (list Z) :=
  if zlen businessPacket <? LatestGameHeaderSize then Fail ErrPacketTooShort else
  if 65535 <? zlen businessPacket then Fail ErrPacketTooLarge else
  let total := TCPOuterHeaderSize + InnerHeaderSize + zlen businessPacket in
  if 65535 <? total then Fail ErrPacketTooLarge else
  let packet := zeros total in
  let packet := put16 packet 0 (to_OuterKind options) in
  let packet := put16 packet 2 (u16 total) in
  let packet := put32 packet 4 (to_OuterValue4 options) in
  let packet := put32 packet 8 (to_OuterValue8 options) in
  mret (take (Z.to_nat TCPOuterHeaderSize) packet ++
        writeInnerRecord (drop (Z.to_nat TCPOuterHeaderSize) packet) businessPacket options).

Definition BuildLatestGameTCP (cmd typ : Z) (body : list Z) (options : TransportOptions)
    : outcome wire_error (list Z) :=
  businessPacket ← BuildLatestGamePacket cmd typ body;
  BuildLatestGameTCPFromBusinessPacket businessPacket options.

Definition BuildLatestGameUDPFromBusinessPacket (businessPacket : list Z) (options : TransportOptions)
    : outcome wire_error (list Z) :=
  if zlen businessPacket <? LatestGameHeaderSize then Fail ErrPacketTooShort else
  if 65535 <? zlen businessPacket then Fail ErrPacketTooLarge else
  let packet := zeros (InnerHeaderSize + zlen businessPacket) in
  mret (writeInnerRecord packet businessPacket options).

Definition BuildLatestGameUDP (cmd typ : Z) (body : list Z) (options : TransportOptions)
    : outcome wire_error (list Z) :=
  businessPacket ← BuildLatestGamePacket cmd typ body;
  BuildLatestGameUDPFromBusinessPacket businessPacket options.

Definition parseInnerRecord (data : list Z) (offset available : Z)
    (outerKind tcpTotal outerValue4 outerValue8 : Z)
    : outcome wire_error (LatestGameTransportRecord * Z) :=
  if available <? InnerHeaderSize then Fail ErrPacketTooShort else
  innerKind ← index data offset;
  if negb (innerKind =? NormalInnerKind) then Fail ErrInnerKind else
  sequence ← u32_at data (offset + 1);
  businessLength ← u16_at data (offset + 5);
  route ← index data (offset + 7);
  flag ← index data (offset + 8);
  let recordLength := InnerHeaderSize + businessLength in
  if (businessLength <? LatestGameHeaderSize) || (available <? recordLength)
  then Fail ErrPacketLength else
  let businessOffset := offset + InnerHeaderSize in
  let businessEnd := businessOffset + businessLength in
  business ← slice data businessOffset businessEnd;
  packet ← ParseLatestGamePacket business;
  mret (mkTransportRecord
          (mkTransportHeader outerKind tcpTotal outerValue4 outerValue8 innerKind sequence
             (u16 businessLength) route flag)
          (lgp_Header packet) (lgp_Body packet), recordLength).

(** The record loop shared by the TCP and the UDP parser:
    [for offset < limit { ... }]. *)
Fixpoint parseInnerRecords (fuel : nat) (data : list Z) (offset limit : Z)
    (outerKind tcpTotal outerValue4 outerValue8 : Z) (records : list LatestGameTransportRecord)
    : outcome wire_error (list LatestGameTransportRecord) :=
  match fuel with
  | O => Panic
  | S fuel =>
      if offset <? limit then
        rc ← parseInnerRecord data offset (limit - offset) outerKind tcpTotal outerValue4 outerValue8;
        parseInnerRecords fuel data (offset + rc.2) limit outerKind tcpTotal outerValue4 outerValue8
          (records ++ [rc.1])
      else mret records
  end.

Definition nonEmptyRecords (records : list LatestGameTransportRecord)
    : outcome wire_error (list LatestGameTransportRecord) :=
  if zlen records =? 0 then Fail ErrPacketLength else mret records.

Definition ParseLatestGameTCPRecords (frame : list Z)
    : outcome wire_error (list LatestGameTransportRecord) :=
  if zlen frame <? TCPOuterHeaderSize then Fail ErrPacketTooShort else
  total ← u16_at frame 2;
  if (total <? MinTCPFrameSize) || (zlen frame <? total) then Fail ErrPacketLength else
  outerKind ← u16_at frame 0;
  outerValue4 ← u32_at frame 4;
  outerValue8 ← u32_at frame 8;
  records ← parseInnerRecords (S (length frame)) frame TCPOuterHeaderSize total
              outerKind (u16 total) outerValue4 outerValue8 [];
  nonEmptyRecords records.

Definition ParseLatestGameUDPRecords (packet : list Z)
    : outcome wire_error (list LatestGameTransportRecord) :=
  if zlen packet <? InnerHeaderSize + LatestGameHeaderSize then Fail ErrPacketTooShort else
  records ← parseInnerRecords (S (length packet)) packet 0 (zlen packet) 0 0 0 0 [];
  nonEmptyRecords records.

(** [SplitLatestGameTCPFrames]: frames, remaining bytes, skipped count. *)
Fixpoint splitFrames (fuel : nat) (buffer : list Z) (offset : Z) (frames : list (list Z)) (skipped : Z)
    : outcome wire_error (list (list Z) * list Z * Z) :=
  match fuel with
  | O => Panic
  | S fuel =>
      let finish := remaining ← slice buffer offset (zlen buffer);
                    mret (frames, cloneBytes remaining, skipped) in
      if offset <=? zlen buffer - 4 then
        frameLength ← u16_at buffer (offset + 2);
        if frameLength <? MinTCPFrameSize
        then splitFrames fuel buffer (offset + 1) frames (skipped + 1)
        else if zlen buffer - offset <? frameLength then finish
        else
          frame ← slice buffer offset (offset + frameLength);
          splitFrames fuel buffer (offset + frameLength) (frames ++ [cloneBytes frame]) skipped
      else finish
  end.

Definition SplitLatestGameTCPFrames (buffer : list Z) : outcome wire_error (list (list Z) * list Z * Z) :=
  splitFrames (S (length buffer)) buffer 0 [] 0.

(** ** Layouts *)

Definition layout7 (cmd typ sum : Z) (body : list Z) : list Z :=
  [cmd] ++ put_le 2 typ ++ put_le 4 sum ++ body.

Definition inner_layout (o : TransportOptions) (business : list Z) : list Z :=
  [NormalInnerKind] ++ put_le 4 (to_Sequence o) ++ put_le 2 (u16 (zlen business)) ++
  [to_Route o] ++ [to_Flag o] ++ business.

Definition outer_layout (o : TransportOptions) (total : Z) (rest : list Z) : list Z :=
  put_le 2 (to_OuterKind o) ++ put_le 2 (u16 total) ++
  put_le 4 (to_OuterValue4 o) ++ put_le 4 (to_OuterValue8 o) ++ rest.

Record options_ok (o : TransportOptions) : Prop := {
  oo_seq : 0 <= to_Sequence o < two32;
  oo_kind : 0 <= to_OuterKind o < two16;
  oo_v4 : 0 <= to_OuterValue4 o < two32;
  oo_v8 : 0 <= to_OuterValue8 o < two32;
  oo_route : is_byte (to_Route o);
  oo_flag : is_byte (to_Flag o);
}.

Record business_ok (cmd typ : Z) (body : list Z) : Prop := {
  bo_cmd : is_byte cmd;
  bo_typ : 0 <= typ < two16;
  bo_body : bytes_ok body;
}.

Lemma zlen_layout7 cmd typ sum body : zlen (layout7 cmd typ sum body) = 7 + zlen body.
Proof. unfold layout7, zlen. rewrite !length_app, !length_put_le. cbn [length]. lia. Qed.

Lemma zlen_inner o b : zlen (inner_layout o b) = 9 + zlen b.
Proof. unfold inner_layout, zlen. rewrite !length_app, !length_put_le. cbn [length]. lia. Qed.

Lemma zlen_outer o t r : zlen (outer_layout o t r) = 12 + zlen r.
Proof. unfold outer_layout, zlen. rewrite !length_app, !length_put_le. lia. Qed.

Lemma BuildLatestGamePacket_eq cmd typ body :
  BuildLatestGamePacket cmd typ body =
    if 65535 <? 7 + zlen body then Fail ErrPacketTooLarge
    else Ret (layout7 cmd typ (Checksum body) body).
Proof.
  unfold BuildLatestGamePacket, LatestGameHeaderSize. pose proof (zlen_nonneg body).
  destruct (65535 <? 7 + zlen body); [done|].
  rewrite zeros_add by lia. push_prefix.
  rewrite blit_end; [done|done|apply zlen_zeros_body].
Qed.

Lemma ParseLatestGamePacket_eq cmd typ sum body :
  business_ok cmd typ body → 0 <= sum < two32 →
  ParseLatestGamePacket (layout7 cmd typ sum body) =
    if negb (Checksum body =? sum) then Fail ErrChecksumInvalid
    else Ret (mkLatestGamePacket (mkLatestGameHeader cmd typ sum) body).
Proof.
  intros [? ? ?] Hs. unfold ParseLatestGamePacket, LatestGameHeaderSize. pose proof (zlen_nonneg body).
  rewrite zlen_layout7, (proj2 (Z.ltb_ge _ _)) by lia. unfold layout7.
  change (index ([cmd] ++ ?x) 0) with (Ret (E:=wire_error) cmd).
  read_u16. read_u32. rewrite !bind_ret, u16_id, u32_id by done.
  replace (slice _ 7 (7 + zlen body)) with (Ret (E:=wire_error) body); [done|].
  symmetry. rewrite !app_assoc. by apply slice_tail.
Qed.

Lemma writeInnerRecord_eq business o :
  writeInnerRecord (zeros (9 + zlen business)) business o = inner_layout o business.
Proof.
  unfold writeInnerRecord, InnerHeaderSize. pose proof (zlen_nonneg business).
  rewrite zeros_add by lia. push_prefix.
  rewrite blit_end; [done|done|apply zlen_zeros_body].
Qed.

Lemma outer_header_app o total rest :
  put32 (put32 (put16 (put16 (zeros 12 ++ rest) 0 (to_OuterKind o)) 2 (u16 total))
    4 (to_OuterValue4 o)) 8 (to_OuterValue8 o) = outer_layout o total [] ++ rest.
Proof. push_prefix. done. Qed.

Lemma BuildLatestGameTCPFromBusinessPacket_eq business o :
  7 <= zlen business → 21 + zlen business <= 65535 →
  BuildLatestGameTCPFromBusinessPacket business o =
    Ret (outer_layout o (21 + zlen business) (inner_layout o business)).
Proof.
  intros H7 Hl. unfold BuildLatestGameTCPFromBusinessPacket, LatestGameHeaderSize.
  rewrite !(proj2 (Z.ltb_ge _ _)) by (unfold TCPOuterHeaderSize, InnerHeaderSize; lia).
  unfold TCPOuterHeaderSize, InnerHeaderSize.
  replace (12 + 9 + zlen business) with (12 + (9 + zlen business)) by lia.
  rewrite zeros_add, outer_header_app by lia.
  rewrite take_app_exact, drop_app_exact by done. rewrite writeInnerRecord_eq.
  rewrite mret_ret. unfold outer_layout. rewrite app_nil_r, <- !app_assoc.
  by replace (12 + (9 + zlen business)) with (21 + zlen business) by lia.
Qed.

(** ** Parsing one inner record *)

Definition record_of (outerKind tcpTotal v4 v8 : Z) (o : TransportOptions) (cmd typ : Z) (body : list Z)
    : LatestGameTransportRecord :=
  mkTransportRecord
    (mkTransportHeader outerKind tcpTotal v4 v8 NormalInnerKind (to_Sequence o)
       (7 + zlen body) (to_Route o) (to_Flag o))
    (mkLatestGameHeader cmd typ (Checksum body)) body.

Lemma inner_reads {E} o business rest :
  options_ok o → zlen business < two16 →
  index (E:=E) (inner_layout o business ++ rest) 0 = Ret NormalInnerKind ∧
  u32_at (E:=E) (inner_layout o business ++ rest) 1 = Ret (to_Sequence o) ∧
  u16_at (E:=E) (inner_layout o business ++ rest) 5 = Ret (zlen business) ∧
  index (E:=E) (inner_layout o business ++ rest) 7 = Ret (to_Route o) ∧
  index (E:=E) (inner_layout o business ++ rest) 8 = Ret (to_Flag o) ∧
  slice (E:=E) (inner_layout o business ++ rest) 9 (9 + zlen business) = Ret business.
Proof.
  intros [Hs _ _ _ _ _] Hb. pose proof (zlen_nonneg business).
  unfold inner_layout. rewrite <- !app_assoc. split_and!.
  - done.
  - read_u32. by rewrite u32_id.
  - read_u16. rewrite (u16_id (zlen business)) by lia. by rewrite u16_id by lia.
  - done.
  - done.
  - rewrite !app_assoc, <- (app_assoc _ business). by apply slice_app.
Qed.

Lemma parseInnerRecord_eq pre rest k t v4 v8 o cmd typ body available :
  options_ok o → business_ok cmd typ body → 7 + zlen body < two16 →
  16 + zlen body <= available →
  parseInnerRecord (pre ++ inner_layout o (layout7 cmd typ (Checksum body) body) ++ rest)
    (zlen pre) available k t v4 v8 =
  Ret (record_of k t v4 v8 o cmd typ body, 16 + zlen body).
Proof.
  intros Ho Hb Hl Hav. pose proof (zlen_nonneg body).
  set (business := layout7 _ _ _ _).
  assert (zlen business = 7 + zlen body) as Hz by apply zlen_layout7.
  destruct (inner_reads (E:=wire_error) o business rest Ho ltac:(lia))
    as (R0 & R1 & R5 & R7 & R8 & R9).
  unfold parseInnerRecord, InnerHeaderSize, LatestGameHeaderSize.
  rewrite (proj2 (Z.ltb_ge available 9)) by lia.
  rewrite <- (Z.add_0_r (zlen pre)) at 1.
  rewrite (index_shift pre _ 0) by lia.
  rewrite R0, bind_ret. rewrite Z.eqb_refl. cbn [negb].
  rewrite u32_at_shift, R1, u16_at_shift, R5, !index_shift, R7, R8 by lia. rewrite !bind_ret, Hz.
  rewrite (proj2 (Z.ltb_ge _ 7)), (proj2 (Z.ltb_ge available _)) by lia. cbn [orb].
  rewrite <- (Z.add_assoc (zlen pre)). rewrite <- Hz at 1. rewrite slice_shift, R9, bind_ret by lia.
  unfold business. rewrite ParseLatestGamePacket_eq, Z.eqb_refl by (done || by apply Checksum_bound, Hb).
  cbn [negb]. rewrite bind_ret, mret_ret, u16_id by lia. do 2 f_equal. lia.
Qed.

(** ** Sequences of messages *)

Record message := mkMessage {
  msg_options : TransportOptions;
  msg_cmd : Z;
  msg_typ : Z;
  msg_body : list Z;
}.

Record message_ok (m : message) : Prop := {
  mo_options : options_ok (msg_options m);
  mo_business : business_ok (msg_cmd m) (msg_typ m) (msg_body m);
  mo_size : 28 + zlen (msg_body m) <= 65535;
}.

Definition business_of (m : message) : list Z :=
  layout7 (msg_cmd m) (msg_typ m) (Checksum (msg_body m)) (msg_body m).

(** The datagram and the TCP frame of a message, as the builders make them. *)
Definition datagram_of (m : message) : list Z := inner_layout (msg_options m) (business_of m).
Definition frame_of (m : message) : list Z :=
  outer_layout (msg_options m) (28 + zlen (msg_body m)) (datagram_of m).

Definition message_record (outerKind tcpTotal v4 v8 : Z) (m : message) : LatestGameTransportRecord :=
  record_of outerKind tcpTotal v4 v8 (msg_options m) (msg_cmd m) (msg_typ m) (msg_body m).

Lemma zlen_datagram m : zlen (datagram_of m) = 16 + zlen (msg_body m).
Proof. unfold datagram_of, business_of. rewrite zlen_inner, zlen_layout7. lia. Qed.

Lemma zlen_frame m : zlen (frame_of m) = 28 + zlen (msg_body m).
Proof. unfold frame_of. rewrite zlen_outer, zlen_datagram. lia. Qed.

Lemma build_datagram m :
  message_ok m →
  BuildLatestGameUDP (msg_cmd m) (msg_typ m) (msg_body m) (msg_options m) = Ret (datagram_of m).
Proof.
  intros [Ho Hb Hs]. pose proof (zlen_nonneg (msg_body m)).
  unfold BuildLatestGameUDP. rewrite BuildLatestGamePacket_eq, (proj2 (Z.ltb_ge _ _)), bind_ret by lia.
  unfold BuildLatestGameUDPFromBusinessPacket, LatestGameHeaderSize, InnerHeaderSize.
  rewrite zlen_layout7, !(proj2 (Z.ltb_ge _ _)) by lia.
  rewrite <- (zlen_layout7 (msg_cmd m) (msg_typ m) (Checksum (msg_body m))).
  by rewrite writeInnerRecord_eq.
Qed.

Lemma build_frame m :
  message_ok m →
  BuildLatestGameTCP (msg_cmd m) (msg_typ m) (msg_body m) (msg_options m) = Ret (frame_of m).
Proof.
  intros [Ho Hb Hs]. pose proof (zlen_nonneg (msg_body m)).
  unfold BuildLatestGameTCP. rewrite BuildLatestGamePacket_eq, (proj2 (Z.ltb_ge _ _)), bind_ret by lia.
  rewrite BuildLatestGameTCPFromBusinessPacket_eq by (rewrite zlen_layout7; lia).
  unfold frame_of, datagram_of, business_of. rewrite zlen_layout7. do 2 f_equal. lia.
Qed.

Lemma parseInnerRecord_message m pre rest k t v4 v8 available :
  message_ok m → 16 + zlen (msg_body m) <= available →
  parseInnerRecord (pre ++ datagram_of m ++ rest) (zlen pre) available k t v4 v8
  = Ret (message_record k t v4 v8 m, 16 + zlen (msg_body m)).
Proof.
  intros [Ho Hb Hs] Hav. apply parseInnerRecord_eq; [done..| |done]. unfold two16. lia.
Qed.

Lemma parseInnerRecords_messages ms pre rest fuel k t v4 v8 acc :
  Forall message_ok ms → (length ms < fuel)%nat →
  parseInnerRecords fuel (pre ++ concat (datagram_of <$> ms) ++ rest) (zlen pre)
    (zlen pre + zlen (concat (datagram_of <$> ms))) k t v4 v8 acc
  = Ret (acc ++ (message_record k t v4 v8 <$> ms)).
Proof.
  intros Hms. revert pre fuel acc. induction Hms as [|m ms Hm _ IH]; intros pre fuel acc Hf.
  { destruct fuel; [lia|]. cbn [parseInnerRecords fmap list_fmap concat].
    rewrite Z.add_0_r, Z.ltb_irrefl. by rewrite app_nil_r. }
  destruct fuel as [|fuel]; [cbn in Hf; lia|]. cbn [fmap list_fmap concat].
  rewrite zlen_app, zlen_datagram, <- app_assoc. pose proof (zlen_nonneg (msg_body m)).
  pose proof (zlen_nonneg (concat (datagram_of <$> ms))).
  cbn [parseInnerRecords]. rewrite (proj2 (Z.ltb_lt _ _)) by lia.
  rewrite parseInnerRecord_message by (done || lia). rewrite bind_ret. cbn [fst snd].
  replace (zlen pre + (16 + zlen (msg_body m))) with (zlen (pre ++ datagram_of m))
    by (rewrite zlen_app, zlen_datagram; lia).
  replace (zlen pre + _) with (zlen (pre ++ datagram_of m) + zlen (concat (datagram_of <$> ms)))
    by (rewrite zlen_app, zlen_datagram; unfold fmap; lia).
  rewrite app_assoc, IH by (cbn in Hf; lia). by rewrite <- app_assoc.
Qed.

Lemma length_messages ms (rest : list Z) :
  (length ms < S (length (concat (datagram_of <$> ms) ++ rest)))%nat.
Proof.
  induction ms as [|m ms IH]; cbn [fmap list_fmap concat length]; [lia|].
  rewrite <- app_assoc, length_app. pose proof (zlen_datagram m) as Hz.
  pose proof (zlen_nonneg (msg_body m)). unfold zlen in *. unfold fmap in *. lia.
Qed.

Lemma nonEmptyRecords_cons r rs : nonEmptyRecords (r :: rs) = Ret (r :: rs).
Proof.
  unfold nonEmptyRecords. rewrite (proj2 (Z.eqb_neq _ _)); [done|].
  unfold zlen. cbn [length]. lia.
Qed.

Lemma outer_reads {E} o total rest :
  options_ok o → 0 <= total < two16 →
  u16_at (E:=E) (outer_layout o total rest) 0 = Ret (to_OuterKind o) ∧
  u16_at (E:=E) (outer_layout o total rest) 2 = Ret total ∧
  u32_at (E:=E) (outer_layout o total rest) 4 = Ret (to_OuterValue4 o) ∧
  u32_at (E:=E) (outer_layout o total rest) 8 = Ret (to_OuterValue8 o).
Proof.
  intros [? ? ? ? ? ?] Ht. unfold outer_layout. split_and!.
  - rewrite <- (app_nil_l (put_le 2 (to_OuterKind o) ++ _)). read_u16. by rewrite u16_id.
  - read_u16. rewrite (u16_id total) by done. by rewrite u16_id.
  - read_u32. by rewrite u32_id.
  - read_u32. by rewrite u32_id.
Qed.

Lemma parse_frame m :
  message_ok m →
  ParseLatestGameTCPRecords (frame_of m) =
    Ret [message_record (to_OuterKind (msg_options m)) (28 + zlen (msg_body m))
           (to_OuterValue4 (msg_options m)) (to_OuterValue8 (msg_options m)) m].
Proof.
  intros Hm. pose proof Hm as [Ho Hb Hs]. pose proof (zlen_nonneg (msg_body m)).
  assert (0 <= 28 + zlen (msg_body m) < two16) as Ht by (unfold two16; lia).
  destruct (outer_reads (E:=wire_error) (msg_options m) _ (datagram_of m) Ho Ht) as (R0 & R2 & R4 & R8).
  fold (frame_of m) in R0, R2, R4, R8.
  unfold ParseLatestGameTCPRecords, TCPOuterHeaderSize. rewrite zlen_frame.
  rewrite (proj2 (Z.ltb_ge _ 12)) by lia.
  rewrite R0, R2, R4, R8, !bind_ret, u16_id by done.
  rewrite (proj2 (Z.ltb_ge _ MinTCPFrameSize)), Z.ltb_irrefl
    by (unfold MinTCPFrameSize, TCPOuterHeaderSize, InnerHeaderSize, LatestGameHeaderSize; lia).
  cbn [orb]. set (o := msg_options m).
  pose proof (parseInnerRecords_messages [m] (outer_layout o (28 + zlen (msg_body m)) []) []
    (S (length (frame_of m))) (to_OuterKind o) (28 + zlen (msg_body m))
    (to_OuterValue4 o) (to_OuterValue8 o) []) as Hp.
  cbn [fmap list_fmap concat] in Hp. rewrite !app_nil_r, zlen_outer, zlen_datagram in Hp.
  replace (outer_layout o (28 + zlen (msg_body m)) [] ++ datagram_of m) with (frame_of m) in Hp
    by (unfold frame_of, outer_layout; by rewrite app_nil_r, <- !app_assoc).
  change (12 + zlen []) with 12 in Hp.
  replace (12 + (16 + zlen (msg_body m))) with (28 + zlen (msg_body m)) in Hp by lia.
  rewrite Hp; [apply nonEmptyRecords_cons|by constructor|].
  pose proof (zlen_frame m) as Hz. unfold zlen in Hz. cbn [length]. lia.
Qed.

(** ** The frame splitter *)

Lemma frame_app m r :
  frame_of m ++ r = outer_layout (msg_options m) (28 + zlen (msg_body m)) (datagram_of m ++ r).
Proof. unfold frame_of, outer_layout. by rewrite <- !app_assoc. Qed.

Lemma frame_length_read {E} m r :
  message_ok m → u16_at (E:=E) (frame_of m ++ r) 2 = Ret (28 + zlen (msg_body m)).
Proof.
  intros [Ho Hb Hs]. pose proof (zlen_nonneg (msg_body m)). rewrite frame_app.
  apply outer_reads; [done|]. unfold two16. lia.
Qed.

(** [rest] is an incomplete frame: too short to hold the length field, or
    shorter than the length it declares. *)
Definition incomplete (rest : list Z) : Prop :=
  zlen rest < 4 ∨
  ∃ n, u16_at (E:=wire_error) rest 2 = Ret n ∧ MinTCPFrameSize <= n ∧ zlen rest < n.

Lemma min_frame_eq : MinTCPFrameSize = 28.
Proof. done. Qed.

Lemma prefix_incomplete m n :
  message_ok m → (n < length (frame_of m))%nat → incomplete (take n (frame_of m)).
Proof.
  intros Hm Hn. pose proof (zlen_frame m) as Hz. pose proof (zlen_nonneg (msg_body m)).
  destruct (decide (zlen (take n (frame_of m)) < 4)) as [H4|H4]; [by left|right].
  exists (28 + zlen (msg_body m)). split_and!; [|rewrite min_frame_eq; lia|].
  - rewrite <- (frame_length_read (E:=wire_error) m []), app_nil_r by done.
    rewrite <- (take_drop n (frame_of m)) at 2. by rewrite u16_at_prefix by lia.
  - rewrite zlen_take, <- Hz. unfold zlen. lia.
Qed.

Lemma splitFrames_incomplete fuel pre rest frames sk :
  incomplete rest → (0 < fuel)%nat →
  splitFrames fuel (pre ++ rest) (zlen pre) frames sk = Ret (frames, rest, sk).
Proof.
  intros Hi Hf. destruct fuel as [|fuel]; [lia|]. cbn [splitFrames].
  rewrite zlen_app, slice_tail, bind_ret by done. destruct Hi as [H4|(n & Hn & Hmin & Hlt)].
  - by rewrite (proj2 (Z.leb_gt _ _)) by lia.
  - rewrite min_frame_eq in *. destruct (Z.leb_spec (zlen pre) (zlen pre + zlen rest - 4)); [|done].
    rewrite u16_at_shift, Hn, bind_ret by lia.
    rewrite (proj2 (Z.ltb_ge n 28)), (proj2 (Z.ltb_lt _ n)) by lia. done.
Qed.

Lemma splitFrames_frames ms pre rest fuel acc sk :
  Forall message_ok ms → incomplete rest → (length ms < fuel)%nat →
  splitFrames fuel (pre ++ concat (frame_of <$> ms) ++ rest) (zlen pre) acc sk
  = Ret (acc ++ (frame_of <$> ms), rest, sk).
Proof.
  intros Hms Hrest. revert pre fuel acc. induction Hms as [|m ms Hm _ IH]; intros pre fuel acc Hf.
  { cbn [fmap list_fmap concat app]. rewrite app_nil_r. apply splitFrames_incomplete; [done|lia]. }
  destruct fuel as [|fuel]; [cbn in Hf; lia|]. cbn [fmap list_fmap concat].
  rewrite <- app_assoc. pose proof (zlen_nonneg (msg_body m)). pose proof (zlen_frame m) as Hz.
  set (tail := concat (frame_of <$> ms) ++ rest) in *. pose proof (zlen_nonneg tail).
  cbn [splitFrames]. rewrite !zlen_app, Hz.
  rewrite (proj2 (Z.leb_le (zlen pre) _)) by lia.
  rewrite u16_at_shift, frame_length_read, bind_ret by (done || lia).
  rewrite min_frame_eq, (proj2 (Z.ltb_ge _ 28)), (proj2 (Z.ltb_ge _ (28 + _))) by lia.
  rewrite slice_app, bind_ret by (done || lia).
  replace (zlen pre + (28 + zlen (msg_body m))) with (zlen (pre ++ frame_of m))
    by (rewrite zlen_app; lia).
  rewrite app_assoc. unfold tail. rewrite IH by (cbn in Hf; lia).
  by rewrite <- app_assoc.
Qed.

Lemma length_frames ms (rest : list Z) :
  (length ms < S (length (concat (frame_of <$> ms) ++ rest)))%nat.
Proof.
  induction ms as [|m ms IH]; cbn [fmap list_fmap concat length]; [lia|].
  rewrite <- app_assoc, length_app. pose proof (zlen_frame m) as Hz.
  pose proof (zlen_nonneg (msg_body m)). unfold zlen in *. unfold fmap in *. lia.
Qed.

(** A frame as the splitter may cut it: its declared length is its length. *)
Definition self_delimited (f : list Z) : Prop :=
  MinTCPFrameSize <= zlen f ∧ u16_at (E:=wire_error) f 2 = Ret (zlen f).

Lemma u16_at_slice (s f : list Z) lo n :
  slice (E:=wire_error) s lo (lo + n) = Ret f → 4 <= n →
  u16_at (E:=wire_error) s (lo + 2) = u16_at f 2.
Proof.
  intros Hs Hn. unfold slice in Hs. destruct (_ && _) eqn:Hc in Hs; [|done]. bool_clean.
  injection Hs as <-. replace (lo + n - lo) with n by lia.
  rewrite <- (take_drop (Z.to_nat lo) s) at 1.
  assert (zlen (take (Z.to_nat lo) s) = lo) as Hlo by (rewrite zlen_take; lia).
  replace (lo + 2) with (zlen (take (Z.to_nat lo) s) + 2) by lia. rewrite u16_at_shift by lia.
  rewrite <- (take_drop (Z.to_nat n) (drop (Z.to_nat lo) s)) at 1.
  apply u16_at_prefix. rewrite zlen_take, zlen_drop. lia.
Qed.

Lemma splitFrames_total fuel buffer offset frames sk :
  0 <= offset <= zlen buffer → zlen buffer - offset < Z.of_nat fuel →
  Forall self_delimited frames →
  ∃ frames' rem sk', splitFrames fuel buffer offset frames sk = Ret (frames', rem, sk') ∧
    zlen (concat frames') + sk' + zlen rem = zlen (concat frames) + sk + (zlen buffer - offset) ∧
    Forall self_delimited frames' ∧ incomplete rem ∧ rem `suffix_of` buffer.
Proof.
  revert offset frames sk. induction fuel as [|fuel IH]; intros offset frames sk Ho Hf Hfr; [lia|].
  cbn [splitFrames]. unfold cloneBytes. rewrite (slice_ret _ offset) by lia. rewrite bind_ret.
  rewrite take_ge by (rewrite length_drop; unfold zlen in *; lia).
  assert (drop (Z.to_nat offset) buffer `suffix_of` buffer) as Hsuf
    by (exists (take (Z.to_nat offset) buffer); by rewrite take_drop).
  assert (zlen (drop (Z.to_nat offset) buffer) = zlen buffer - offset) as Hz
    by (rewrite zlen_drop; lia).
  destruct (Z.leb_spec offset (zlen buffer - 4)) as [H4|H4].
  2:{ eexists _, _, _. split_and!; [done|rewrite Hz; lia|done|left; lia|done]. }
  destruct (u16_at_ret (E:=wire_error) buffer (offset + 2)) as [n Hn]; [lia..|].
  rewrite Hn, bind_ret. rewrite min_frame_eq. destruct (Z.ltb_spec n 28) as [H28|H28].
  { destruct (IH (offset + 1) frames (sk + 1)) as (fs & rem & sk' & -> & Hsum & Hok);
      [lia..|done|]. eexists _, _, _. split_and!; [done|lia|apply Hok..]. }
  destruct (Z.ltb_spec (zlen buffer - offset) n) as [Hlt|Hge].
  { eexists _, _, _. split_and!; [done|rewrite Hz; lia|done| |done].
    right. exists n. split_and!; [|done|lia].
    rewrite <- Hn. symmetry. rewrite <- (take_drop (Z.to_nat offset) buffer) at 1.
    replace (offset + 2) with (zlen (take (Z.to_nat offset) buffer) + 2) by (rewrite zlen_take; lia).
    by rewrite u16_at_shift. }
  destruct (slice (E:=wire_error) buffer offset (offset + n)) as [f| |] eqn:Hs;
    [|by rewrite slice_ret in Hs by lia..]. rewrite bind_ret.
  pose proof (slice_len _ _ _ _ Hs) as Hfl.
  destruct (IH (offset + n) (frames ++ [f]) sk) as (fs & rem & sk' & -> & Hsum & Hok); [lia..| |].
  - apply Forall_app; split; [done|]. apply Forall_singleton. split; [rewrite min_frame_eq; lia|].
    rewrite <- (u16_at_slice buffer f offset n) by (done || lia). rewrite Hn. f_equal. lia.
  - eexists _, _, _. split_and!; [done| |apply Hok..].
    rewrite concat_app, zlen_app in Hsum. cbn [concat] in Hsum. rewrite app_nil_r in Hsum. lia.
Qed.

(** ** No panic, enough fuel *)

Lemma parseInnerRecord_total data offset available k t v4 v8 :
  0 <= offset → offset + available <= zlen data →
  parseInnerRecord data offset available k t v4 v8 ≠ Panic ∧
  ∀ r n, parseInnerRecord data offset available k t v4 v8 = Ret (r, n) → 16 <= n <= available.
Proof.
  intros Ho Hav. unfold parseInnerRecord, InnerHeaderSize, LatestGameHeaderSize.
  destruct (Z.ltb_spec available 9); [done|].
  destruct (index_ret (E:=wire_error) data offset) as [ik ->]; [lia..|]. rewrite bind_ret.
  destruct (negb _); [done|].
  destruct (u32_at_ret (E:=wire_error) data (offset + 1)) as [? ->]; [lia..|].
  destruct (u16_at_ret (E:=wire_error) data (offset + 5)) as [n ->]; [lia..|].
  destruct (index_ret (E:=wire_error) data (offset + 7)) as [? ->]; [lia..|].
  destruct (index_ret (E:=wire_error) data (offset + 8)) as [? ->]; [lia..|].
  rewrite !bind_ret. destruct (Z.ltb_spec n 7), (Z.ltb_spec available (9 + n)); [done..|].
  cbn [orb]. rewrite slice_ret by lia. rewrite bind_ret. split.
  - apply bind_no_panic; [apply ParseLatestGamePacket_no_panic|done].
  - intros r n' Hr. apply bind_ret_inv in Hr as (p & _ & [= _ <-]). lia.
Qed.

Lemma parseInnerRecords_no_panic fuel data offset limit k t v4 v8 acc :
  0 <= offset <= limit → limit <= zlen data → limit - offset < Z.of_nat fuel →
  parseInnerRecords fuel data offset limit k t v4 v8 acc ≠ Panic.
Proof.
  revert offset acc. induction fuel as [|fuel IH]; intros offset acc Ho Hl Hf; [lia|].
  cbn [parseInnerRecords]. destruct (Z.ltb_spec offset limit); [|done].
  destruct (parseInnerRecord_total data offset (limit - offset) k t v4 v8) as [Hp Hn]; [lia..|].
  apply bind_no_panic; [done|]. intros [r n] Hr. specialize (Hn r n Hr).
  apply IH; cbn [snd]; lia.
Qed.

Lemma ParseLatestGameTCPRecords_no_panic frame : ParseLatestGameTCPRecords frame ≠ Panic.
Proof.
  unfold ParseLatestGameTCPRecords, TCPOuterHeaderSize.
  destruct (Z.ltb_spec (zlen frame) 12); [done|].
  destruct (u16_at_ret (E:=wire_error) frame 2) as [n ->]; [lia..|]. rewrite bind_ret.
  rewrite min_frame_eq. destruct (Z.ltb_spec n 28), (Z.ltb_spec (zlen frame) n); [done..|].
  destruct (u16_at_ret (E:=wire_error) frame 0) as [? ->]; [lia..|].
  destruct (u32_at_ret (E:=wire_error) frame 4) as [? ->]; [lia..|].
  destruct (u32_at_ret (E:=wire_error) frame 8) as [? ->]; [lia..|]. rewrite !bind_ret. cbn [orb].
  apply bind_no_panic.
  - apply parseInnerRecords_no_panic; unfold zlen in *; lia.
  - intros rs _. unfold nonEmptyRecords. by destruct (_ =? _).
Qed.

Lemma ParseLatestGameUDPRecords_no_panic packet : ParseLatestGameUDPRecords packet ≠ Panic.
Proof.
  unfold ParseLatestGameUDPRecords. destruct (_ <? _); [done|]. apply bind_no_panic.
  - apply parseInnerRecords_no_panic; unfold zlen in *; lia.
  - intros rs _. unfold nonEmptyRecords. by destruct (_ =? _).
Qed.

(** ** Properties *)

(** C5: round trips of the transport. A message with in-range fields and at
    most 65507 body bytes builds into a TCP frame which parses back to exactly
    one record with every outer, inner and business field; any non-empty
    sequence of messages, built one datagram each and concatenated, parses
    back to the sequence of their records in order. *)
Theorem transport_roundtrip (m : message) (ms : list message) :
  message_ok m → Forall message_ok ms →
  (∃ frame,
     BuildLatestGameTCP (msg_cmd m) (msg_typ m) (msg_body m) (msg_options m) = Ret frame ∧
     ParseLatestGameTCPRecords frame =
       Ret [message_record (to_OuterKind (msg_options m)) (28 + zlen (msg_body m))
              (to_OuterValue4 (msg_options m)) (to_OuterValue8 (msg_options m)) m]) ∧
  (∃ datagrams,
     Forall2 (λ m d, BuildLatestGameUDP (msg_cmd m) (msg_typ m) (msg_body m) (msg_options m) = Ret d)
       (m :: ms) datagrams ∧
     ParseLatestGameUDPRecords (concat datagrams) = Ret (message_record 0 0 0 0 <$> m :: ms)).
Proof.
  intros Hm Hms. split; [exists (frame_of m); split; [by apply build_frame|by apply parse_frame]|].
  assert (Forall message_ok (m :: ms)) as Hall by (by constructor).
  exists (datagram_of <$> m :: ms). split.
  - clear Hm Hms. induction Hall as [|x xs Hx _ IH]; constructor; [by apply build_datagram|done].
  - unfold ParseLatestGameUDPRecords. rewrite (proj2 (Z.ltb_ge _ _)).
    + pose proof (parseInnerRecords_messages (m :: ms) [] [] (S (length (concat (datagram_of <$> m :: ms))))
        0 0 0 0 [] Hall) as Hp. rewrite app_nil_r in Hp. cbn [app] in Hp.
      change (zlen []) with 0 in Hp. rewrite Z.add_0_l in Hp. rewrite Hp, bind_ret.
      * by rewrite fmap_cons, nonEmptyRecords_cons.
      * rewrite <- (app_nil_r (concat _)). apply length_messages.
    + rewrite fmap_cons. cbn [concat]. rewrite zlen_app, zlen_datagram.
      pose proof (zlen_nonneg (msg_body m)). pose proof (zlen_nonneg (concat (datagram_of <$> ms))).
      unfold InnerHeaderSize, LatestGameHeaderSize. lia.
Qed.

Definition sample_message (body : list Z) : message :=
  mkMessage (mkTransportOptions 9 1 0 514 77 88) 1 3 body.

Lemma sample_message_ok body :
  bytes_okb body = true → 28 + zlen body <= 65535 → message_ok (sample_message body).
Proof. intros Hb Hl. split; [by split|split; [done..|by apply bytes_okb_true]|done]. Qed.

(** Witness of C5 on two concrete messages. *)
Example transport_roundtrip_witness :
  ∃ frame, BuildLatestGameTCP 1 3 [1; 2; 3] (mkTransportOptions 9 1 0 514 77 88) = Ret frame ∧
    ParseLatestGameTCPRecords frame = Ret [message_record 514 31 77 88 (sample_message [1; 2; 3])].
Proof.
  refine (proj1 (transport_roundtrip (sample_message [1; 2; 3]) [sample_message []] _ _)).
  - by apply sample_message_ok.
  - constructor; [by apply sample_message_ok|constructor].
Defined.

(** C6: stream splitting recovers frame boundaries. For every sequence of built
    TCP frames followed by any strict prefix of one more frame, the splitter
    returns exactly those frames in order, keeps the incomplete prefix as the
    remaining bytes and skips nothing. *)
Theorem split_recovers_frames (ms : list message) (last : message) (n : nat) :
  Forall message_ok ms → message_ok last → (n < length (frame_of last))%nat →
  SplitLatestGameTCPFrames (concat (frame_of <$> ms) ++ take n (frame_of last)) =
    Ret (frame_of <$> ms, take n (frame_of last), 0).
Proof.
  intros Hms Hl Hn. unfold SplitLatestGameTCPFrames.
  exact (splitFrames_frames ms [] (take n (frame_of last)) _ [] 0 Hms
           (prefix_incomplete last n Hl Hn) (length_frames ms _)).
Qed.

(** Witness of C6: two frames and the first ten bytes of a third. *)
Example split_recovers_frames_witness :
  SplitLatestGameTCPFrames
    (concat (frame_of <$> [sample_message [1]; sample_message []]) ++ take 10 (frame_of (sample_message [7; 8])))
  = Ret (frame_of <$> [sample_message [1]; sample_message []], take 10 (frame_of (sample_message [7; 8])), 0).
Proof.
  apply (split_recovers_frames [sample_message [1]; sample_message []] (sample_message [7; 8]) 10).
  - do 2 (constructor; [by apply sample_message_ok|]). constructor.
  - by apply sample_message_ok.
  - vm_compute. lia.
Defined.

(** C7: the receive path is total on hostile input. On every byte string all
    parsers return a value or an error: no index or slice goes out of range and
    every loop ends; and the splitter accounts for every byte: cut frames are
    self-delimited, and frame bytes, skipped bytes and remaining bytes add up
    to the buffer, of which the remainder is an incomplete suffix. *)
Theorem wire_parsers_total (data : list Z) (limit : Z) :
  ParseChannelPacket data ≠ Panic ∧ ParseChannelPacketUnchecked data ≠ Panic ∧
  ParseLatestGamePacket data ≠ Panic ∧ ParseLegacyGamePacket data ≠ Panic ∧
  ParseDprotoClientEnvelope data limit ≠ Panic ∧
  ParseLatestGameTCPRecords data ≠ Panic ∧ ParseLatestGameUDPRecords data ≠ Panic ∧
  ∃ frames rem sk, SplitLatestGameTCPFrames data = Ret (frames, rem, sk) ∧
    zlen (concat frames) + sk + zlen rem = zlen data ∧
    Forall self_delimited frames ∧ incomplete rem ∧ rem `suffix_of` data.
Proof.
  split_and!; [apply parseChannelPacket_no_panic|apply parseChannelPacket_no_panic
    |apply ParseLatestGamePacket_no_panic|apply ParseLegacyGamePacket_no_panic
    |apply ParseDprotoClientEnvelope_no_panic|apply ParseLatestGameTCPRecords_no_panic
    |apply ParseLatestGameUDPRecords_no_panic|].
  pose proof (zlen_nonneg data).
  destruct (splitFrames_total (S (length data)) data 0 [] 0) as (fs & rem & sk & Heq & Hsum & Hok);
    [lia|unfold zlen; lia|constructor|].
  exists fs, rem, sk. split; [exact Heq|]. split; [|done]. change (zlen (concat [])) with 0 in Hsum. lia.
Qed.
