(* ===== verification/Stream.v ===== *)
(** * The game byte stream ([protocol/stream.go])

    [SplitLatestGameStream]: cutting DPROTO envelopes, raw upper packets,
    legacy packets and transport frames out of one TCP byte stream, with the
    length repairs for two client hooks, the whitelist of upper message shapes
    and byte-wise resynchronisation. *)

From S2P Require Import Prelude Bytes Checksum Packets Transport.

Inductive LatestGameStreamKind :=
| LatestGameStreamTransport
| LatestGameStreamUpper
| LatestGameStreamLegacy
| LatestGameStreamDproto.

Record LatestGameStreamPacket := mkStreamPacket {
  sp_Kind : LatestGameStreamKind;
  sp_Data : list Z;
}.

(** A splitter's Go result [(packet, wait, ok)]: [ok] with the packet, [wait]
    for more bytes, or neither. *)
Inductive split_answer :=
| AnsPacket (packet : list Z)
| AnsWait
| AnsNo.

Definition splitDprotoClientPacket (buffer : list Z) (offset maxPacketBytes : Z)
    : outcome wire_error split_answer :=
  let available := zlen buffer - offset in
  if available <? ChannelHeaderSize then mret AnsNo else
  classification ← index buffer offset;
  opcode ← u16_at buffer (offset + 1);
  if negb (classification =? DefaultChannelClassification)
     || negb (opcode =? DprotoClientEnvelopeOpcode) then mret AnsNo else
  length ← u32_at buffer (offset + 3);
  if (length <? ChannelHeaderSize) || (maxPacketBytes <? length) then mret AnsNo else
  if available <? length then mret AnsWait else
  packet ← slice buffer offset (offset + length);
  mret (AnsPacket (cloneBytes packet)).

Definition splitLegacyGamePacket (buffer : list Z) (offset maxPacketBytes : Z)
    : outcome wire_error split_answer :=
  let available := zlen buffer - offset in
  if available <? LegacyGameHeaderSize then mret AnsNo else
  cmd ← index buffer offset;
  if negb (cmd =? 0) && negb (cmd =? 1) then mret AnsNo else
  length ← u32_at buffer (offset + 3);
  if length <? LegacyGameHeaderSize then mret AnsNo else
  if maxPacketBytes <? length then mret AnsNo else
  if available <? length then mret AnsWait else
  packet ← slice buffer offset (offset + length);
  match ParseLegacyGamePacket packet with
  | Ret _ => mret (AnsPacket (cloneBytes packet))
  | Fail _ => mret AnsNo
  | Panic => Panic
  end.

(** [splitHookedCurrentSelectUpper]: message 16 with the stale 32-byte body
    length is cut to 21 body bytes and its length field corrected. *)
Definition splitHookedCurrentSelectUpper (buffer : list Z) (offset available headerLength : Z)
    : outcome wire_error (option (list Z)) :=
  let selectMessageID := 16 in
  let staleSelectBodyLength := 32 in
  let currentSelectBodySize := 21 in
  msgID ← u16_at buffer (offset + 1);
  if negb (msgID =? selectMessageID)
     || negb (headerLength =? ChannelHeaderSize + staleSelectBodyLength) then mret None else
  let actualLength := ChannelHeaderSize + currentSelectBodySize in
  if available <? actualLength then mret None else
  packet ← slice buffer offset (offset + actualLength);
  mret (Some (put32 (cloneBytes packet) 3 (u32 actualLength))).

Definition hookedPlainCreateBodyLength (body : list Z) : outcome wire_error (option Z) :=
  if zlen body <? 5 then mret None else
  b0 ← index body 0;
  if 63 <? b0 then mret None else
  nameLen ← u32_at body 1;
  if (nameLen <? 2) || (30 <? nameLen) then mret None else
  let actualBodyLength := 5 + nameLen + 8 in
  if zlen body <? actualBodyLength then mret None else mret (Some actualBodyLength).

(** [splitHookedShortCreateUpper]: message 5 whose header still carries the
    length from before the hook replaced the body. *)
Definition splitHookedShortCreateUpper (buffer : list Z) (offset available headerLength : Z)
    : outcome wire_error (option (list Z)) :=
  msgID ← u16_at buffer (offset + 1);
  if negb (msgID =? 5) || (headerLength <=? ChannelHeaderSize) then mret None else
  let bodyOffset := offset + ChannelHeaderSize in
  rest ← slice buffer bodyOffset (zlen buffer);
  actual ← hookedPlainCreateBodyLength rest;
  match actual with
  | None => mret None
  | Some actualBodyLength =>
      let actualLength := ChannelHeaderSize + actualBodyLength in
      if headerLength <=? actualLength then mret None else
      if available <? actualLength then mret None else
      packet ← slice buffer offset (offset + actualLength);
      let packet := put32 (cloneBytes packet) 3 (u32 actualLength) in
      mret (Some (put32 packet 3 (u32 actualLength)))
  end.

Definition currentDungeonMoveMapPlainBodySize : Z := 100.
Definition currentTownSetUserAreaPlainBodySize : Z := 16.
Definition currentAcceptQuestPlainBodySize : Z := 4.
Definition currentSetQuestTriggerPlainBodySize : Z := 6.
Definition currentDieCharacterPlainBodySize : Z := 4.
Definition currentUseCoinPlainBodySize : Z := 2.
Definition currentBossDieCheckPlainBodySize : Z := 39.
Definition currentTutorialFlagPlainBodySize : Z := 6.
Definition currentPlayResultBaseBodySize : Z := 42.
Definition currentPlayResultOptionalBodySize : Z := 46.
Definition currentPlayResultDynamicRowSize : Z := 7.
Definition currentPlayResultMaximumDynamicRows : nat := 8.
Definition currentChannelReconnectProbeSize : Z := 31.
Definition currentChannelDisplayRebindSize : Z := 590.
Definition reference90CNChannelDisplayRebindBodySize : Z := 598.

(** [for rows := 0; rows <= 8; rows++] with the early [return true]. *)
Definition isCurrentPlayResultPlainBodySize (bodyLen : Z) : bool :=
  existsb (λ rows,
      let n := Z.of_nat rows * currentPlayResultDynamicRowSize in
      (bodyLen =? currentPlayResultBaseBodySize + n)
      || (bodyLen =? currentPlayResultOptionalBodySize + n))
    (seq 0 (S currentPlayResultMaximumDynamicRows)).

(** The message switch of [isKnownClientUpperMsg], case by case in order; the
    cases that look into the body are guarded reads. *)
Definition echoes_msgID (msgID : Z) (body : list Z) (size : Z) : outcome wire_error bool :=
  if negb (zlen body =? size) then mret false else
  echo ← u16_at body 0;
  mret (echo =? msgID).

Definition isKnownDungeonEntryBody (body : list Z) : outcome wire_error bool :=
  let bodyLen := zlen body in
  if bodyLen =? 62 then mret true else
  if bodyLen <? 66 then mret false else
  count ← index body 22;
  mret ((count <=? 254) && (bodyLen =? 66 + count * 10)).

(** The cases that depend on the body length alone. *)
Definition knownUpperBodyLength (msgID bodyLen : Z) : bool :=
  if msgID =? 40 then bodyLen =? currentDieCharacterPlainBodySize
  else if msgID =? 41 then bodyLen =? currentUseCoinPlainBodySize
  else if msgID =? 42 then bodyLen =? 0
  else if msgID =? 45 then bodyLen =? currentDungeonMoveMapPlainBodySize
  else if msgID =? 36 then bodyLen =? currentTownSetUserAreaPlainBodySize
  else if msgID =? 46 then isCurrentPlayResultPlainBodySize bodyLen
  else if msgID =? 117 then bodyLen =? currentBossDieCheckPlainBodySize
  else if msgID =? 123 then bodyLen =? 24
  else if msgID =? 132 then bodyLen =? 0
  else if msgID =? 143 then bodyLen =? currentTutorialFlagPlainBodySize
  else if msgID =? 295 then bodyLen =? 8
  else if msgID =? 560 then bodyLen =? 0
  else if msgID =? 3 then bodyLen =? 16
  else if msgID =? 8 then bodyLen =? 8
  else if msgID =? 171 then bodyLen =? 48
  else if msgID =? 194 then bodyLen =? 368
  else if msgID =? 415 then bodyLen =? 0
  else if msgID =? 250 then bodyLen =? 64
  else if msgID =? 279 then bodyLen =? 16
  else if msgID =? 441 then bodyLen =? 8
  else if msgID =? 476 then bodyLen =? 16
  else if msgID =? 477 then bodyLen =? 8
  else if msgID =? 593 then (bodyLen =? 8) || (bodyLen =? 24)
  else if msgID =? 645 then bodyLen =? 0
  else if msgID =? 1262 then bodyLen =? 32
  else if msgID =? 1276 then bodyLen =? 0
  else if msgID =? 1286 then bodyLen =? 16
  else if msgID =? 1287 then bodyLen =? 8
  else if msgID =? 1320 then bodyLen =? 32
  else if msgID =? 1516 then 0 <? bodyLen
  else if msgID =? 1518 then 0 <? bodyLen
  else false.

Definition isKnownClientUpperMsg (msgID : Z) (body : list Z) : outcome wire_error bool :=
  let bodyLen := zlen body in
  if msgID =? 1 then
    mret ((bodyLen =? currentChannelDisplayRebindSize)
          || (bodyLen =? reference90CNChannelDisplayRebindBodySize))
  else if msgID =? 2 then mret (bodyLen =? currentChannelReconnectProbeSize)
  else if existsb (Z.eqb msgID) [4; 7; 15; 16; 63; 120; 679; 689; 690; 693] then mret true
  else if msgID =? 31 then echoes_msgID msgID body currentAcceptQuestPlainBodySize
  else if msgID =? 33 then echoes_msgID msgID body currentSetQuestTriggerPlainBodySize
  else if msgID =? 39 then isKnownDungeonEntryBody body
  else if msgID =? 5 then
    actual ← hookedPlainCreateBodyLength body;
    match actual with
    | Some actualBodyLength =>
        if actualBodyLength =? bodyLen then mret true
        else mret ((bodyLen =? 24) || (bodyLen =? 32))
    | None => mret ((bodyLen =? 24) || (bodyLen =? 32))
    end
  else mret (knownUpperBodyLength msgID bodyLen).

Definition splitUpperPacket (buffer : list Z) (offset maxPacketBytes : Z)
    : outcome wire_error split_answer :=
  let available := zlen buffer - offset in
  if available <? ChannelHeaderSize then mret AnsNo else
  classification ← index buffer offset;
  if negb (classification =? 0) && negb (classification =? DefaultChannelClassification)
  then mret AnsNo else
  length ← u32_at buffer (offset + 3);
  if length <? ChannelHeaderSize then mret AnsNo else
  if maxPacketBytes <? length then mret AnsNo else
  create ← splitHookedShortCreateUpper buffer offset available length;
  match create with
  | Some packet => mret (AnsPacket packet)
  | None =>
      select ← splitHookedCurrentSelectUpper buffer offset available length;
      match select with
      | Some packet => mret (AnsPacket packet)
      | None =>
          if available <? length then mret AnsWait else
          packet ← slice buffer offset (offset + length);
          match ParseChannelPacketUnchecked (cloneBytes packet) with
          | Ret parsed =>
              known ← isKnownClientUpperMsg (ch_MsgID (cp_Header parsed)) (cp_Body parsed);
              if negb known then mret AnsNo else mret (AnsPacket packet)
          | Fail _ => mret AnsNo
          | Panic => Panic
          end
      end
  end.

Definition stream_result : Type := list LatestGameStreamPacket * list Z * Z.

(** The splitting loop, [for offset <= len(buffer)-4]; an exhausted fuel is
    [Panic]. *)
Fixpoint splitStream (fuel : nat) (buffer : list Z) (maxPacketBytes offset : Z)
    (packets : list LatestGameStreamPacket) (skipped : Z) : outcome wire_error stream_result :=
  match fuel with
  | O => Panic
  | S fuel =>
      let finish := remaining ← slice buffer offset (zlen buffer);
                    mret (packets, cloneBytes remaining, skipped) in
      let emit kind packet :=
        splitStream fuel buffer maxPacketBytes (offset + zlen packet)
          (packets ++ [mkStreamPacket kind packet]) skipped in
      if negb (offset <=? zlen buffer - 4) then finish else
      dproto ← splitDprotoClientPacket buffer offset maxPacketBytes;
      match dproto with
      | AnsPacket packet => emit LatestGameStreamDproto packet
      | AnsWait => finish
      | AnsNo =>
      upper ← splitUpperPacket buffer offset maxPacketBytes;
      match upper with
      | AnsPacket packet => emit LatestGameStreamUpper packet
      | AnsWait => finish
      | AnsNo =>
      legacy ← splitLegacyGamePacket buffer offset maxPacketBytes;
      match legacy with
      | AnsPacket packet => emit LatestGameStreamLegacy packet
      | AnsWait => finish
      | AnsNo =>
      frameLength ← u16_at buffer (offset + 2);
      if frameLength <? MinTCPFrameSize
      then splitStream fuel buffer maxPacketBytes (offset + 1) packets (skipped + 1)
      else if maxPacketBytes <? frameLength then Fail ErrPacketTooLarge
      else if zlen buffer - offset <? frameLength then finish
      else
        frame ← slice buffer offset (offset + frameLength);
        splitStream fuel buffer maxPacketBytes (offset + frameLength)
          (packets ++ [mkStreamPacket LatestGameStreamTransport (cloneBytes frame)]) skipped
      end end end
  end.

Definition SplitLatestGameStream (buffer : list Z) (maxPacketBytes : Z) : outcome wire_error stream_result :=
  let maxPacketBytes := if maxPacketBytes <=? 0 then 65535 else maxPacketBytes in
  splitStream (S (length buffer)) buffer maxPacketBytes 0 [] 0.

(** ** What a cut packet is *)

(** [packet_of mx kind raw data]: the splitter may turn the bytes [raw] of the
    stream into a packet [data] of that kind.  An upper or legacy packet is
    accepted by the parser that reads it without a checksum, an upper one possibly
    after its length field was corrected; a DPROTO envelope has the classification
    and opcode of its kind and is accepted by the same unchecked parser, so that its
    checksum may be wrong; a transport frame only announces its own length, and
    its records are not looked at. *)
Definition packet_of (mx : Z) (kind : LatestGameStreamKind) (raw data : list Z) : Prop :=
  zlen data = zlen raw ∧ 13 <= zlen raw <= mx ∧
  match kind with
  | LatestGameStreamDproto =>
      data = raw ∧ ∃ p, ParseChannelPacketUnchecked data = Ret p ∧
        ch_Classification (cp_Header p) = 1 ∧ ch_MsgID (cp_Header p) = 1517
  | LatestGameStreamUpper =>
      ∃ p, ParseChannelPacketUnchecked data = Ret p ∧
        (ch_Classification (cp_Header p) = 0 ∨ ch_Classification (cp_Header p) = 1) ∧
        (data = raw ∧ isKnownClientUpperMsg (ch_MsgID (cp_Header p)) (cp_Body p) = Ret true ∨
         data = put32 raw 3 (zlen raw) ∧
         (ch_MsgID (cp_Header p) = 5 ∨ ch_MsgID (cp_Header p) = 16))
  | LatestGameStreamLegacy =>
      data = raw ∧ ∃ p, ParseLegacyGamePacket data = Ret p ∧
        (lh_Cmd (lp_Header p) = 0 ∨ lh_Cmd (lp_Header p) = 1)
  | LatestGameStreamTransport => data = raw ∧ self_delimited data
  end.

(** [cuts mx s ps rem k]: the stream [s] is, in order, the raw bytes of the
    packets [ps] with [k] single skipped bytes in between, then [rem]. *)
Inductive cuts (mx : Z) : list Z → list LatestGameStreamPacket → list Z → Z → Prop :=
| cuts_end rem : cuts mx rem [] rem 0
| cuts_skip b s ps rem k : cuts mx s ps rem k → cuts mx (b :: s) ps rem (k + 1)
| cuts_packet kind raw data s ps rem k :
    packet_of mx kind raw data → cuts mx s ps rem k →
    cuts mx (raw ++ s) (mkStreamPacket kind data :: ps) rem k.

(** ** The splitters look only at the unread suffix *)

(** Decides the common guards of two runs of the same code. *)
Ltac same_run :=
  repeat first
    [ done
    | match goal with
      | |- (if ?b then _ else _) = (if ?b then _ else _) => destruct b
      | |- (?m ≫= _) = (?m ≫= _) => destruct m; cbn [mbind outcome_bind]
      | |- (match ?m with _ => _ end) = (match ?m with _ => _ end) => destruct m
      end ].

Lemma splitDproto_shift pre s mx :
  splitDprotoClientPacket (pre ++ s) (zlen pre) mx = splitDprotoClientPacket s 0 mx.
Proof.
  unfold splitDprotoClientPacket. rewrite zlen_app, Z.sub_0_r, Z.add_simpl_l.
  rewrite index_shift0, u16_at_shift, u32_at_shift by lia. rewrite !Z.add_0_l.
  same_run; by rewrite slice_shift0.
Qed.

Lemma splitLegacy_shift pre s mx :
  splitLegacyGamePacket (pre ++ s) (zlen pre) mx = splitLegacyGamePacket s 0 mx.
Proof.
  unfold splitLegacyGamePacket. rewrite zlen_app, Z.sub_0_r, Z.add_simpl_l.
  rewrite index_shift0, u32_at_shift by lia. rewrite !Z.add_0_l.
  same_run; by rewrite slice_shift0.
Qed.

Lemma splitHookedSelect_shift pre s a l :
  splitHookedCurrentSelectUpper (pre ++ s) (zlen pre) a l = splitHookedCurrentSelectUpper s 0 a l.
Proof.
  unfold splitHookedCurrentSelectUpper. rewrite u16_at_shift by lia. rewrite !Z.add_0_l.
  same_run; by rewrite slice_shift0.
Qed.

Lemma splitHookedCreate_shift pre s a l :
  splitHookedShortCreateUpper (pre ++ s) (zlen pre) a l = splitHookedShortCreateUpper s 0 a l.
Proof.
  unfold splitHookedShortCreateUpper. rewrite zlen_app, u16_at_shift by lia.
  rewrite slice_shift by (unfold ChannelHeaderSize; lia). rewrite !Z.add_0_l.
  same_run; by rewrite slice_shift0.
Qed.

Lemma splitUpper_shift pre s mx :
  splitUpperPacket (pre ++ s) (zlen pre) mx = splitUpperPacket s 0 mx.
Proof.
  unfold splitUpperPacket. rewrite zlen_app, Z.sub_0_r, Z.add_simpl_l.
  rewrite index_shift0, u32_at_shift by lia. rewrite !Z.add_0_l.
  same_run. rewrite splitHookedCreate_shift. same_run. rewrite splitHookedSelect_shift.
  same_run; by rewrite slice_shift0.
Qed.

(** ** The splitters never panic and answer with packets of their kind *)

Definition answer_ok (mx : Z) (kind : LatestGameStreamKind) (s : list Z)
    (r : outcome wire_error split_answer) : Prop :=
  match r with
  | Ret (AnsPacket data) => ∃ raw s', s = raw ++ s' ∧ packet_of mx kind raw data
  | Ret _ => True
  | _ => False
  end.

Lemma layout13_header_read {E} c m l s q b rest :
  fields13 c m l s q b →
  index (E:=E) (layout13 c m l s q b ++ rest) 0 = Ret c ∧
  u16_at (E:=E) (layout13 c m l s q b ++ rest) 1 = Ret m ∧
  u32_at (E:=E) (layout13 c m l s q b ++ rest) 3 = Ret l.
Proof.
  intros F. pose proof (zlen_nonneg b). pose proof (zlen_layout13 c m l s q b) as Hz. split_and!.
  - done.
  - rewrite u16_at_prefix by lia. by apply read13_m.
  - rewrite u32_at_prefix by lia. by apply read13_l.
Qed.

(** A slice of a byte string with room for a header, in layout form. *)
Lemma slice_layout13 (s p : list Z) n :
  bytes_ok s → 13 <= n → slice (E:=wire_error) s 0 n = Ret p →
  ∃ c m l k q b s', s = layout13 c m l k q b ++ s' ∧ p = layout13 c m l k q b ∧
    fields13 c m l k q b ∧ 13 + zlen b = n.
Proof.
  intros Hs Hn Hp. apply slice_front in Hp as [Hl Heq].
  assert (bytes_ok p) as Hpok by (rewrite Heq in Hs; by apply bytes_ok_app in Hs as [? _]).
  destruct (layout13_of p Hpok ltac:(lia)) as (c & m & l & k & q & b & -> & F).
  eexists c, m, l, k, q, b, _. split_and!; [exact Heq|done|done|].
  by rewrite zlen_layout13 in Hl.
Qed.

Lemma splitDproto_ok mx s : bytes_ok s → answer_ok mx LatestGameStreamDproto s (splitDprotoClientPacket s 0 mx).
Proof.
  intros Hs. unfold splitDprotoClientPacket, ChannelHeaderSize. rewrite Z.sub_0_r, !Z.add_0_l.
  destruct (Z.ltb_spec (zlen s) 13); [done|].
  destruct (index_ret (E:=wire_error) s 0) as [c Hc]; [lia..|].
  destruct (u16_at_ret (E:=wire_error) s 1) as [m Hm]; [lia..|].
  destruct (u32_at_ret (E:=wire_error) s 3) as [l Hl]; [lia..|].
  rewrite Hc, Hm, Hl, !bind_ret. destruct (negb (c =? _) || _) eqn:Ecm; [done|].
  destruct (Z.ltb_spec l 13), (Z.ltb_spec mx l); [done..|]. cbn [orb].
  destruct (Z.ltb_spec (zlen s) l); [done|]. rewrite Z.add_0_l.
  destruct (slice (E:=wire_error) s 0 l) as [p| |] eqn:Hp; [|by rewrite slice_ret in Hp by lia..].
  rewrite bind_ret. cbn [answer_ok]. unfold cloneBytes.
  destruct (slice_layout13 s p l Hs ltac:(lia) Hp) as (c' & m' & l' & k & q & b & s' & -> & -> & F & Hn).
  destruct (layout13_header_read (E:=wire_error) c' m' l' k q b s' F) as (R0 & R1 & R3).
  rewrite R0 in Hc. rewrite R1 in Hm. rewrite R3 in Hl. injection Hc as ->. injection Hm as ->.
  injection Hl as ->. bool_clean. eexists _, s'. split; [done|].
  split; [done|]. rewrite zlen_layout13. split; [lia|]. split; [done|].
  eexists. split; [unfold ParseChannelPacketUnchecked; rewrite parse_layout13 by done|].
  - rewrite (proj2 (Z.ltb_ge _ _)), (proj2 (Z.eqb_eq _ _)) by lia. done.
  - done.
Qed.

Lemma splitLegacy_ok mx s : bytes_ok s → answer_ok mx LatestGameStreamLegacy s (splitLegacyGamePacket s 0 mx).
Proof.
  intros Hs. unfold splitLegacyGamePacket, LegacyGameHeaderSize. rewrite Z.sub_0_r, !Z.add_0_l.
  destruct (Z.ltb_spec (zlen s) 13); [done|].
  destruct (index_ret (E:=wire_error) s 0) as [c Hc]; [lia..|].
  destruct (u32_at_ret (E:=wire_error) s 3) as [l Hl]; [lia..|].
  rewrite Hc, Hl, !bind_ret. destruct (negb (c =? 0) && _) eqn:Ecm; [done|].
  destruct (Z.ltb_spec l 13), (Z.ltb_spec mx l); [done..|].
  destruct (Z.ltb_spec (zlen s) l); [done|]. rewrite Z.add_0_l.
  destruct (slice (E:=wire_error) s 0 l) as [p| |] eqn:Hp; [|by rewrite slice_ret in Hp by lia..].
  rewrite bind_ret. destruct (ParseLegacyGamePacket p) as [lp| |] eqn:Hparse; [|done|].
  2:{ by apply ParseLegacyGamePacket_no_panic in Hparse. }
  apply slice_front in Hp as [Hz Heq]. cbn [answer_ok]. unfold cloneBytes.
  eexists p, _. split; [exact Heq|]. split; [done|]. split; [lia|]. split; [done|].
  exists lp. split; [done|]. rewrite Heq, index_prefix in Hc by lia.
  unfold ParseLegacyGamePacket in Hparse. destruct (zlen p <? _); [done|].
  apply bind_ret_inv in Hparse as (? & _ & Hparse). destruct (_ || _) in Hparse; [done|].
  rewrite Hc, bind_ret in Hparse.
  repeat (apply bind_ret_inv in Hparse as (? & _ & Hparse)). injection Hparse as <-. cbn [lp_Header lh_Cmd].
  apply andb_false_iff in Ecm as [?|?]; bool_clean; auto.
Qed.

Lemma hookedPlainCreateBodyLength_ok body :
  ∃ r, hookedPlainCreateBodyLength body = Ret r ∧
    (∀ n, r = Some n → 15 <= n <= 43 ∧ n <= zlen body).
Proof.
  unfold hookedPlainCreateBodyLength. destruct (Z.ltb_spec (zlen body) 5); [by eexists|].
  destruct (index_ret (E:=wire_error) body 0) as [c ->]; [lia..|]. rewrite bind_ret.
  destruct (63 <? c); [by eexists|].
  destruct (u32_at_ret (E:=wire_error) body 1) as [l ->]; [lia..|]. rewrite bind_ret.
  destruct (Z.ltb_spec l 2), (Z.ltb_spec 30 l); cbn [orb]; [by eexists..|].
  destruct (Z.ltb_spec (zlen body) (5 + l + 8)); [by eexists|].
  eexists; split; [done|]. intros n [= <-]. lia.
Qed.

Lemma echoes_msgID_ret m body size : 2 <= size → ∃ b, echoes_msgID m body size = Ret b.
Proof.
  intros Hs. unfold echoes_msgID. destruct (zlen body =? size) eqn:El; [|by eexists]. bool_clean.
  destruct (u16_at_ret (E:=wire_error) body 0) as [? ->]; [lia..|]. by eexists.
Qed.

Lemma isKnownDungeonEntryBody_ret body : ∃ b, isKnownDungeonEntryBody body = Ret b.
Proof.
  unfold isKnownDungeonEntryBody. destruct (zlen body =? 62); [by eexists|].
  destruct (Z.ltb_spec (zlen body) 66); [by eexists|].
  destruct (index_ret (E:=wire_error) body 22) as [? ->]; [lia..|]. by eexists.
Qed.

Lemma isKnownClientUpperMsg_ret m body : ∃ b, isKnownClientUpperMsg m body = Ret b.
Proof.
  unfold isKnownClientUpperMsg.
  repeat match goal with |- ∃ _, (if ?x then _ else _) = _ => destruct x end;
    eauto using echoes_msgID_ret, isKnownDungeonEntryBody_ret; try by apply echoes_msgID_ret.
  destruct (hookedPlainCreateBodyLength_ok body) as ([n|] & -> & _); rewrite bind_ret;
    [destruct (n =? zlen body)|]; by eexists.
Qed.

Lemma relabelled_upper mx c m l k q b n :
  fields13 c m l k q b → n = 13 + zlen b → n <= mx → n < two32 →
  c = 0 ∨ c = 1 → m = 5 ∨ m = 16 →
  packet_of mx LatestGameStreamUpper (layout13 c m l k q b) (put32 (layout13 c m l k q b) 3 n).
Proof.
  intros F -> Hmx H32 Hc Hm. pose proof (zlen_nonneg b).
  change (put32 (layout13 c m l k q b) 3 (13 + zlen b)) with (layout13 c m (13 + zlen b) k q b).
  split; [by rewrite !zlen_layout13|]. rewrite zlen_layout13. split; [lia|].
  assert (fields13 c m (13 + zlen b) k q b) as F' by (destruct F; split; done || lia).
  exists (mkChannelPacket (mkChannelHeader c m (13 + zlen b) k q) b). split.
  - unfold ParseChannelPacketUnchecked. rewrite parse_layout13 by done.
    by rewrite (proj2 (Z.ltb_ge _ _)), Z.eqb_refl by lia.
  - split; [done|]. right. split; [done|done].
Qed.

Lemma splitHookedSelect_ok mx s c l :
  bytes_ok s → 13 <= zlen s → index (E:=wire_error) s 0 = Ret c → c = 0 ∨ c = 1 → l <= mx →
  match splitHookedCurrentSelectUpper s 0 (zlen s) l with
  | Ret (Some data) => ∃ raw s', s = raw ++ s' ∧ packet_of mx LatestGameStreamUpper raw data
  | Ret None => True
  | _ => False
  end.
Proof.
  intros Hs H13 Hc Hc01 Hl. unfold splitHookedCurrentSelectUpper, ChannelHeaderSize, cloneBytes.
  rewrite !Z.add_0_l. destruct (u16_at_ret (E:=wire_error) s 1) as [m Hm]; [lia..|].
  rewrite Hm, bind_ret. destruct (negb (m =? 16) || _) eqn:Em; [done|].
  change (13 + 21) with 34. destruct (Z.ltb_spec (zlen s) 34); [done|].
  destruct (slice (E:=wire_error) s 0 34) as [p| |] eqn:Hp; [|by rewrite slice_ret in Hp by lia..].
  rewrite bind_ret, mret_ret. bool_clean. subst m l.
  destruct (slice_layout13 s p 34 Hs ltac:(lia) Hp) as (c' & m' & l' & k & q & b & s' & -> & -> & F & Hn).
  destruct (layout13_header_read (E:=wire_error) c' m' l' k q b s' F) as (R0 & R1 & _).
  rewrite R0 in Hc. rewrite R1 in Hm. injection Hc as ->. injection Hm as ->.
  eexists _, s'. split; [done|]. rewrite u32_id by done.
  apply relabelled_upper; [done|by rewrite Hn|lia|done|done|auto].
Qed.

Lemma splitHookedCreate_ok mx s c l :
  bytes_ok s → 13 <= zlen s → index (E:=wire_error) s 0 = Ret c → c = 0 ∨ c = 1 → l <= mx →
  match splitHookedShortCreateUpper s 0 (zlen s) l with
  | Ret (Some data) => ∃ raw s', s = raw ++ s' ∧ packet_of mx LatestGameStreamUpper raw data
  | Ret None => True
  | _ => False
  end.
Proof.
  intros Hs H13 Hc Hc01 Hl. unfold splitHookedShortCreateUpper, ChannelHeaderSize, cloneBytes.
  rewrite !Z.add_0_l. destruct (u16_at_ret (E:=wire_error) s 1) as [m Hm]; [lia..|].
  rewrite Hm, bind_ret. destruct (negb (m =? 5) || _) eqn:Em; [done|].
  rewrite (slice_ret _ 13) by lia. rewrite bind_ret.
  destruct (hookedPlainCreateBodyLength_ok (take (Z.to_nat (zlen s - 13)) (drop (Z.to_nat 13) s)))
    as ([n|] & -> & Hn); rewrite bind_ret; [|done].
  destruct (Hn n eq_refl) as [Hn1 _]. destruct (Z.leb_spec l (13 + n)); [done|].
  destruct (Z.ltb_spec (zlen s) (13 + n)); [done|].
  rewrite Z.add_0_l. destruct (slice (E:=wire_error) s 0 (13 + n)) as [p| |] eqn:Hp; [|by rewrite slice_ret in Hp by lia..].
  rewrite bind_ret, mret_ret. bool_clean. subst m.
  destruct (slice_layout13 s p (13 + n) Hs ltac:(lia) Hp)
    as (c' & m' & l' & k & q & b & s' & -> & -> & F & Hz).
  destruct (layout13_header_read (E:=wire_error) c' m' l' k q b s' F) as (R0 & R1 & _).
  rewrite R0 in Hc. rewrite R1 in Hm. injection Hc as ->. injection Hm as ->.
  eexists _, s'. split; [done|]. rewrite !u32_id by (unfold two32; lia).
  change (put32 (put32 (layout13 c 5 l' k q b) 3 (13 + n)) 3 (13 + n))
    with (put32 (layout13 c 5 l' k q b) 3 (13 + n)).
  apply relabelled_upper; [done|by rewrite Hz|lia|unfold two32; lia|done|auto].
Qed.

Lemma splitUpper_ok mx s : bytes_ok s → answer_ok mx LatestGameStreamUpper s (splitUpperPacket s 0 mx).
Proof.
  intros Hs. unfold splitUpperPacket, ChannelHeaderSize, DefaultChannelClassification.
  rewrite Z.sub_0_r, !Z.add_0_l. destruct (Z.ltb_spec (zlen s) 13); [done|].
  destruct (index_ret (E:=wire_error) s 0) as [c Hc]; [lia..|].
  destruct (u32_at_ret (E:=wire_error) s 3) as [l Hl]; [lia..|].
  rewrite Hc, Hl, !bind_ret. destruct (negb (c =? 0) && _) eqn:Ec; [done|].
  assert (c = 0 ∨ c = 1) as Hc01 by (apply andb_false_iff in Ec as [?|?]; bool_clean; auto).
  destruct (Z.ltb_spec l 13), (Z.ltb_spec mx l) as [|Hmx]; [done..|].
  pose proof (splitHookedCreate_ok mx s c l Hs ltac:(lia) Hc Hc01 Hmx) as Hcr.
  destruct (splitHookedShortCreateUpper s 0 (zlen s) l) as [[p|]| |]; [done| |done..].
  rewrite bind_ret. pose proof (splitHookedSelect_ok mx s c l Hs ltac:(lia) Hc Hc01 Hmx) as Hse.
  destruct (splitHookedCurrentSelectUpper s 0 (zlen s) l) as [[p|]| |]; [done| |done..].
  rewrite bind_ret. destruct (Z.ltb_spec (zlen s) l); [done|]. rewrite Z.add_0_l.
  destruct (slice (E:=wire_error) s 0 l) as [p| |] eqn:Hp; [|by rewrite slice_ret in Hp by lia..].
  rewrite bind_ret. unfold cloneBytes, ParseChannelPacketUnchecked.
  destruct (slice_layout13 s p l Hs ltac:(lia) Hp) as (c' & m' & l' & k & q & b & s' & -> & -> & F & Hn).
  destruct (layout13_header_read (E:=wire_error) c' m' l' k q b s' F) as (R0 & _ & R3).
  rewrite R0 in Hc. rewrite R3 in Hl. injection Hc as ->. injection Hl as ->.
  rewrite parse_layout13, (proj2 (Z.ltb_ge _ 13)), (proj2 (Z.eqb_eq l _)) by (done || lia).
  cbn [orb negb andb cp_Header cp_Body ch_MsgID].
  destruct (isKnownClientUpperMsg_ret m' b) as [[] Hk]; rewrite Hk, bind_ret; [|done].
  eexists _, s'. split; [done|]. split; [done|]. rewrite zlen_layout13. split; [lia|].
  exists (mkChannelPacket (mkChannelHeader c m' l k q) b). split.
  - unfold ParseChannelPacketUnchecked.
    by rewrite parse_layout13, (proj2 (Z.ltb_ge _ 13)), (proj2 (Z.eqb_eq l _)) by (done || lia).
  - split; [done|]. by left.
Qed.

(** ** The loop *)

Lemma min_frame_le n : (n <? MinTCPFrameSize) = false → 28 <= n.
Proof. intros. bool_clean. by rewrite <- min_frame_eq. Qed.

Lemma self_delimited_front s f n :
  u16_at (E:=wire_error) s 2 = Ret n → 28 <= n → slice (E:=wire_error) s 0 n = Ret f → self_delimited f.
Proof.
  intros Hn H28 Hf. pose proof (slice_front _ _ _ Hf) as [Hl _]. split; [rewrite min_frame_eq; lia|].
  rewrite <- (u16_at_slice s f 0 n) by (done || lia). rewrite Z.add_0_l. congruence.
Qed.

Lemma bytes_ok_app_r a b : bytes_ok (a ++ b) → bytes_ok b.
Proof. by intros [_ ?]%bytes_ok_app. Qed.

(** Every run of the loop on an unread suffix [s] either reports an oversized
    transport frame or cuts [s]. *)
Lemma splitStream_cuts fuel pre s mx packets k :
  bytes_ok s → (length s < fuel)%nat →
  splitStream fuel (pre ++ s) mx (zlen pre) packets k = Fail ErrPacketTooLarge ∨
  ∃ ps rem k', splitStream fuel (pre ++ s) mx (zlen pre) packets k = Ret (packets ++ ps, rem, k + k') ∧
    cuts mx s ps rem k'.
Proof.
  revert pre s packets k. induction fuel as [|fuel IH]; intros pre s packets k Hs Hf; [lia|].
  cbn [splitStream]. rewrite zlen_app, slice_tail, bind_ret by done. unfold cloneBytes.
  assert (∀ r : outcome wire_error stream_result, r = mret (packets, s, k) →
    r = Fail ErrPacketTooLarge ∨
    ∃ ps rem k', r = Ret (packets ++ ps, rem, k + k') ∧ cuts mx s ps rem k') as Hfin.
  { intros r ->. right. exists [], s, 0. rewrite app_nil_r, Z.add_0_r. split; [done|constructor]. }
  assert (∀ kind raw s' data, s = raw ++ s' → packet_of mx kind raw data →
    splitStream fuel (pre ++ s) mx (zlen pre + zlen data) (packets ++ [mkStreamPacket kind data]) k
      = Fail ErrPacketTooLarge ∨
    ∃ ps rem k',
      splitStream fuel (pre ++ s) mx (zlen pre + zlen data) (packets ++ [mkStreamPacket kind data]) k
        = Ret (packets ++ ps, rem, k + k') ∧ cuts mx s ps rem k') as Hemit.
  { intros kind raw s' data -> Hp. pose proof Hp as (Hz & Hr & _). rewrite Hz, app_assoc, <- zlen_app.
    destruct (IH (pre ++ raw) s' (packets ++ [mkStreamPacket kind data]) k) as [->|(ps & rem & k' & -> & Hc)].
    - by apply bytes_ok_app_r in Hs.
    - rewrite length_app in Hf. unfold zlen in Hr. lia.
    - by left.
    - right. exists (mkStreamPacket kind data :: ps), rem, k'. rewrite <- app_assoc. split; [done|].
      by constructor. }
  destruct (Z.leb_spec (zlen pre) (zlen pre + zlen s - 4)) as [H4|_]; [|by apply Hfin].
  cbn [negb]. rewrite splitDproto_shift. pose proof (splitDproto_ok mx s Hs) as Hd.
  destruct (splitDprotoClientPacket s 0 mx) as [[p| |]| |]; try done; cbn [mbind outcome_bind];
    [destruct Hd as (raw & s' & Heq & Hp); by eapply Hemit|by apply Hfin|].
  rewrite splitUpper_shift. pose proof (splitUpper_ok mx s Hs) as Hu.
  destruct (splitUpperPacket s 0 mx) as [[p| |]| |]; try done; cbn [mbind outcome_bind];
    [destruct Hu as (raw & s' & Heq & Hp); by eapply Hemit|by apply Hfin|].
  rewrite splitLegacy_shift. pose proof (splitLegacy_ok mx s Hs) as Hl.
  destruct (splitLegacyGamePacket s 0 mx) as [[p| |]| |]; try done; cbn [mbind outcome_bind];
    [destruct Hl as (raw & s' & Heq & Hp); by eapply Hemit|by apply Hfin|].
  rewrite u16_at_shift by lia. destruct (u16_at_ret (E:=wire_error) s 2) as [n Hn]; [lia..|].
  rewrite Hn. cbn [mbind outcome_bind]. destruct (n <? MinTCPFrameSize) eqn:Hmin.
  { destruct s as [|b s]; [by unfold zlen in H4; cbn in H4; lia|].
    replace (pre ++ b :: s) with ((pre ++ [b]) ++ s) by (by rewrite <- app_assoc).
    replace (zlen pre + 1) with (zlen (pre ++ [b])) by (rewrite zlen_app; done).
    destruct (IH (pre ++ [b]) s packets (k + 1)) as [->|(ps & rem & k' & -> & Hc)];
      [by apply Forall_cons in Hs as [_ ?]|cbn in Hf; lia|by left|].
    right. exists ps, rem, (k' + 1). split; [do 2 f_equal; lia|by constructor]. }
  apply min_frame_le in Hmin. destruct (Z.ltb_spec mx n); [by left|].
  rewrite Z.add_simpl_l. destruct (Z.ltb_spec (zlen s) n); [by apply Hfin|].
  rewrite slice_shift0. destruct (slice (E:=wire_error) s 0 n) as [f| |] eqn:Hsl;
    [|by rewrite slice_ret in Hsl by lia..]. cbn [mbind outcome_bind].
  pose proof (slice_front _ _ _ Hsl) as [Hfl Heq]. rewrite <- Hfl.
  eapply Hemit; [exact Heq|]. split; [done|]. split; [lia|]. split; [done|].
  by apply (self_delimited_front s f n).
Qed.

Lemma cuts_lengths mx s ps rem k :
  cuts mx s ps rem k →
  0 <= k ∧ zlen (concat (sp_Data <$> ps)) + k + zlen rem = zlen s ∧ rem `suffix_of` s.
Proof.
  induction 1 as [rem|b s ps rem k _ (IHk & IH & IHs)|kind raw data s ps rem k Hp _ (IHk & IH & IHs)].
  - split_and!; [done|cbn [fmap list_fmap concat]; change (zlen []) with 0; lia|done].
  - split_and!; [lia| |by apply suffix_cons_r]. unfold zlen in *. cbn [length]. lia.
  - destruct Hp as (Hz & _ & _). split_and!; [done| |by apply suffix_app_r].
    cbn [fmap list_fmap concat sp_Data]. rewrite !zlen_app. unfold fmap in *. lia.
Qed.

(** ** Streams of well-formed items *)


Definition envelope_body (protected : list Z) : list Z :=
  put_le 4 (u32 (zlen protected)) ++ protected.

Definition envelope_of (protected : list Z) (seq : Z) : list Z :=
  layout13 1 1517 (17 + zlen protected)
    (Checksum (put_le 2 seq ++ envelope_body protected)) seq (envelope_body protected).























(** ** Properties *)

(** C8: [SplitLatestGameStream] on arbitrary received bytes. It always ends,
    without an out-of-range access; its only error is [ErrPacketTooLarge]; and
    otherwise the buffer is, in order, the raw bytes of the emitted packets with
    [skipped] single bytes dropped in between, followed by the remaining bytes.
    Every emitted packet has at least 13 and at most [maxPacketBytes] bytes, and
    all lengths add up to the buffer length.  An emitted upper or legacy packet is
    accepted by the parser that reads its header without verifying a checksum
    (an upper one possibly with its length field corrected first); an emitted
    DPROTO envelope has classification 1 and opcode 1517 and is accepted by
    the unchecked parser as well, so its checksum may still be wrong; an emitted
    transport frame has at least 28 bytes and announces its own length, and
    nothing is promised about its inner records. *)
Theorem stream_cut_sound (buffer : list Z) (maxPacketBytes : Z) :
  bytes_ok buffer →
  SplitLatestGameStream buffer maxPacketBytes = Fail ErrPacketTooLarge ∨
  ∃ packets remaining skipped,
    SplitLatestGameStream buffer maxPacketBytes = Ret (packets, remaining, skipped) ∧
    cuts (if maxPacketBytes <=? 0 then 65535 else maxPacketBytes) buffer packets remaining skipped ∧
    zlen (concat (sp_Data <$> packets)) + skipped + zlen remaining = zlen buffer ∧
    remaining `suffix_of` buffer.
Proof.
  intros Hb. unfold SplitLatestGameStream. set (mx := if maxPacketBytes <=? 0 then 65535 else maxPacketBytes).
  destruct (splitStream_cuts (S (length buffer)) [] buffer mx [] 0 Hb) as [H|(ps & rem & k & H & Hc)]; [lia|by left|].
  right. exists ps, rem, k. cbn [app] in H. change (zlen []) with 0 in H.
  rewrite H, Z.add_0_l. pose proof (cuts_lengths _ _ _ _ _ Hc) as (_ & ? & ?). done.
Qed.

(** Witness of C8: a stray byte, a transport frame and an incomplete tail. *)
Example stream_cut_sound_witness :
  SplitLatestGameStream ([9; 9] ++ frame_of (sample_message [1; 2]) ++ [1; 0]) 0 = Fail ErrPacketTooLarge ∨
  ∃ packets remaining skipped,
    SplitLatestGameStream ([9; 9] ++ frame_of (sample_message [1; 2]) ++ [1; 0]) 0
      = Ret (packets, remaining, skipped) ∧
    cuts (if 0 <=? 0 then 65535 else 0) ([9; 9] ++ frame_of (sample_message [1; 2]) ++ [1; 0])
      packets remaining skipped ∧
    zlen (concat (sp_Data <$> packets)) + skipped + zlen remaining
      = zlen ([9; 9] ++ frame_of (sample_message [1; 2]) ++ [1; 0]) ∧
    remaining `suffix_of` ([9; 9] ++ frame_of (sample_message [1; 2]) ++ [1; 0]).
Proof.
  apply (stream_cut_sound ([9; 9] ++ frame_of (sample_message [1; 2]) ++ [1; 0]) 0). solve_bytes.
Defined.



(** An envelope whose total length is a multiple of 256 and that arrives cut
    between its fourth and its twelfth byte loses its first byte: the three
    splitters need 13 bytes before they answer, and the transport fallback then
    reads the length 5 out of the opcode and the zero low length byte. *)
Lemma stream_header_split_desync :
  ∃ protected packet, BuildDprotoClientEnvelope protected 1 = Ret packet ∧ zlen packet = 256 ∧
    SplitLatestGameStream packet 1000 = Ret ([mkStreamPacket LatestGameStreamDproto packet], [], 0) ∧
    SplitLatestGameStream (take 8 packet) 1000 = Ret ([], drop 1 (take 8 packet), 1) ∧
    ∃ rem k, SplitLatestGameStream (drop 1 (take 8 packet) ++ drop 8 packet) 1000 = Ret ([], rem, k).
Proof.
  exists (zeros 239), (envelope_of (zeros 239) 1).
  split_and!; try (vm_compute; reflexivity). eexists _, _. vm_compute. reflexivity.
Qed.
