(* ===== verification/Party.v ===== *)
(** * The process-local party manager

    Models [src/go-server/internal/modules/dnf/party/runtime_manager.go] and
    the two party records of [alignedcmd/handler.go].  The manager state is a
    record of three maps and the identifier cursor; each exported method is one
    function from a state to a state and a result.  Every method holds the
    manager's mutex for its whole body, so a concurrent execution is a sequence
    of these functions.  A Go map read of an absent key yields the zero value;
    party identifier 0 is never allocated. *)

From stdpp Require Import sorting.
From S2P Require Import Prelude.
#[local] Open Scope Z_scope.

(** ** Data *)

Record PartyMemberState := mkPartyMemberState {
  pm_UserID : Z;
  pm_UserState : Z;
  pm_HPPercent : Z;
  pm_MPPercent : Z
}.

Record PartyState := mkPartyState {
  ps_PartyID : Z;
  ps_IsLeader : bool;
  ps_UserID : Z;
  ps_UserState : Z;
  ps_Members : list PartyMemberState;
  ps_RequestPrefix0 : Z;
  ps_RequestPrefix1 : Z;
  ps_NameBytes : list Z;
  ps_MemberSelectCode : Z;
  ps_MaxMembers : Z;
  ps_SelectionID : Z;
  ps_SelectionCode : Z;
  ps_SelectionValue : Z;
  ps_RecruitFlag : Z;
  ps_TargetMode : Z;
  ps_TargetDungeonID : Z;
  ps_ReserveLeaveFlag : Z
}.

Record RuntimePartyMember := mkRuntimePartyMember {
  UserID : Z;
  SessionGeneration : Z;
  State : PartyMemberState;
  Slot : nat
}.

Record RuntimePartySnapshot := mkSnapshot {
  sn_ID : Z;
  sn_Leader : Z;
  sn_Settings : PartyState;
  sn_Members : list RuntimePartyMember
}.

#[local] Unset Elimination Schemes.
Inductive RuntimePartyResult := mkResult {
  OK : bool;
  Reason : string;
  Party : RuntimePartySnapshot;
  Previous : option RuntimePartySnapshot;
  Retired : option RuntimePartySnapshot;
  PriorLeave : option RuntimePartyResult;
  TargetUser : Z;
  Disbanded : bool;
  LeaderMoved : bool
}.
#[local] Set Elimination Schemes.

(** The members array has [currentRuntimePartyMaxMembers] nillable entries. *)
Record runtimeParty := mkParty {
  id : Z;
  leader : Z;
  settings : PartyState;
  members : list (option RuntimePartyMember)
}.

Record runtimePartyInvite := mkInvite {
  invitee : Z;
  inviteeGeneration : Z;
  inviter : Z;
  inviterGeneration : Z;
  inv_partyID : Z;
  mode : Z
}.

Record RuntimePartyManager := mkManager {
  nextID : Z;
  parties : gmap Z runtimeParty;
  byUser : gmap Z Z;
  invites : gmap Z runtimePartyInvite
}.

#[export] Instance PartyMemberState_eq_dec : EqDecision PartyMemberState.
Proof. solve_decision. Defined.
#[export] Instance PartyState_eq_dec : EqDecision PartyState.
Proof. solve_decision. Defined.
#[export] Instance RuntimePartyMember_eq_dec : EqDecision RuntimePartyMember.
Proof. solve_decision. Defined.
#[export] Instance runtimeParty_eq_dec : EqDecision runtimeParty.
Proof. solve_decision. Defined.
#[export] Instance runtimePartyInvite_eq_dec : EqDecision runtimePartyInvite.
Proof. solve_decision. Defined.

Definition currentRuntimePartyMaxMembers : nat := 4.
Definition max_uint16 : Z := 65535.

Definition zero_member_state : PartyMemberState := mkPartyMemberState 0 0 0 0.
Definition zero_party_state : PartyState :=
  mkPartyState 0 false 0 0 [] 0 0 [] 0 0 0 0 0 0 0 0 0.
Definition zero_member : RuntimePartyMember := mkRuntimePartyMember 0 0 zero_member_state 0.
Definition zero_snapshot : RuntimePartySnapshot := mkSnapshot 0 0 zero_party_state [].
Definition zero_result : RuntimePartyResult :=
  mkResult false "" zero_snapshot None None None 0 false false.

Definition set_parties (m : RuntimePartyManager) ps :=
  mkManager (nextID m) ps (byUser m) (invites m).
Definition set_byUser (m : RuntimePartyManager) bu :=
  mkManager (nextID m) (parties m) bu (invites m).
Definition set_invites (m : RuntimePartyManager) iv :=
  mkManager (nextID m) (parties m) (byUser m) iv.
Definition set_nextID (m : RuntimePartyManager) n :=
  mkManager n (parties m) (byUser m) (invites m).
Definition set_members (p : runtimeParty) ms := mkParty (id p) (leader p) (settings p) ms.
Definition set_settings (p : runtimeParty) s := mkParty (id p) (leader p) s (members p).
Definition set_slot (mb : RuntimePartyMember) s :=
  mkRuntimePartyMember (UserID mb) (SessionGeneration mb) (State mb) s.
Definition set_state (mb : RuntimePartyMember) st :=
  mkRuntimePartyMember (UserID mb) (SessionGeneration mb) st (Slot mb).

(** The assignments to [settings.PartyID], [.UserID] and [.IsLeader]. *)
Definition stamp_settings (s : PartyState) (pid lead : Z) : PartyState :=
  mkPartyState pid true lead (ps_UserState s) (ps_Members s)
    (ps_RequestPrefix0 s) (ps_RequestPrefix1 s) (ps_NameBytes s) (ps_MemberSelectCode s)
    (ps_MaxMembers s) (ps_SelectionID s) (ps_SelectionCode s) (ps_SelectionValue s)
    (ps_RecruitFlag s) (ps_TargetMode s) (ps_TargetDungeonID s) (ps_ReserveLeaveFlag s).

Definition NewRuntimePartyManager : RuntimePartyManager := mkManager 1 ∅ ∅ ∅.

(** ** Helpers *)

Definition validRuntimePartyMember (mb : RuntimePartyMember) : bool :=
  negb (UserID mb =? 0) && negb (UserID mb =? max_uint16) && negb (SessionGeneration mb =? 0).

(** The deep copy of [NameBytes] and [Members] is the identity on values. *)
Definition cloneRuntimePartySettings (s : PartyState) : PartyState := s.

Definition normalizeRuntimePartySettings (s : PartyState) : PartyState :=
  let maxm := if (ps_MaxMembers s =? 0) || (Z.of_nat currentRuntimePartyMaxMembers <? ps_MaxMembers s)
              then Z.of_nat currentRuntimePartyMaxMembers else ps_MaxMembers s in
  mkPartyState (ps_PartyID s) (ps_IsLeader s) (ps_UserID s) (ps_UserState s) []
    (ps_RequestPrefix0 s) (ps_RequestPrefix1 s) (ps_NameBytes s) (ps_MemberSelectCode s)
    maxm (ps_SelectionID s) (ps_SelectionCode s) (ps_SelectionValue s)
    (ps_RecruitFlag s) (ps_TargetMode s) (ps_TargetDungeonID s) (ps_ReserveLeaveFlag s).

Definition normalizeRuntimePartyMember (st : PartyMemberState) (userID : Z) : PartyMemberState :=
  mkPartyMemberState userID
    (if pm_UserState st =? 0 then 1 else pm_UserState st)
    (if pm_HPPercent st =? 0 then 100 else pm_HPPercent st)
    (if pm_MPPercent st =? 0 then 100 else pm_MPPercent st).

Definition cloneRuntimePartyMember (mb : RuntimePartyMember) : RuntimePartyMember :=
  set_state mb (normalizeRuntimePartyMember (State mb) (UserID mb)).

(** ** Operations on one party *)

(** Non-nil entries in slot order. *)
Definition seated (ms : list (option RuntimePartyMember)) : list RuntimePartyMember :=
  omap (λ o, o) ms.

Definition count (p : runtimeParty) : Z := zlen (seated (members p)).

Definition full (p : runtimeParty) : bool :=
  let limit := ps_MaxMembers (settings p) in
  let limit := if (limit =? 0) || (Z.of_nat currentRuntimePartyMaxMembers <? limit)
               then Z.of_nat currentRuntimePartyMaxMembers else limit in
  limit <=? count p.

Definition holds (userID : Z) (o : option RuntimePartyMember) : Prop :=
  match o with Some mb => UserID mb = userID | None => False end.
#[export] Instance holds_dec u o : Decision (holds u o).
Proof. destruct o; simpl; apply _. Defined.

(** Index of the first entry held by [userID]. *)
Definition slot_of (p : runtimeParty) (userID : Z) : option nat :=
  fst <$> list_find (holds userID) (members p).

Definition member (p : runtimeParty) (userID : Z) : option RuntimePartyMember :=
  '(_, o) ← list_find (holds userID) (members p); o.

Definition add (p : runtimeParty) (mb : RuntimePartyMember) : option runtimeParty :=
  if negb (validRuntimePartyMember mb) || full p || bool_decide (is_Some (member p (UserID mb)))
  then None
  else '(slot, _) ← list_find (λ o, ¬ is_Some o) (members p);
       let mb := set_slot mb slot in
       let mb := set_state mb (normalizeRuntimePartyMember (State mb) (UserID mb)) in
       Some (set_members p (<[slot := Some mb]> (members p))).

(** [remove] returns whether it removed; every caller ignores the flag. *)
Definition remove (p : runtimeParty) (userID : Z) : runtimeParty :=
  match slot_of p userID with
  | Some slot => set_members p (<[slot := None]> (members p))
  | None => p
  end.

Definition membersBySlot (p : runtimeParty) : list RuntimePartyMember :=
  cloneRuntimePartyMember <$> seated (members p).

Definition snapshotRuntimeParty (p : runtimeParty) : RuntimePartySnapshot :=
  mkSnapshot (id p) (leader p) (cloneRuntimePartySettings (settings p)) (membersBySlot p).

Definition contains (s : RuntimePartySnapshot) (userID : Z) : bool :=
  existsb (λ mb, UserID mb =? userID) (sn_Members s).

Definition StateFor (s : RuntimePartySnapshot) (userID : Z) : PartyState :=
  if (sn_ID s =? 0) || negb (contains s userID) then zero_party_state
  else
    let st := cloneRuntimePartySettings (sn_Settings s) in
    mkPartyState (sn_ID s) (sn_Leader s =? userID) (sn_Leader s) (ps_UserState st)
      ((λ mb, normalizeRuntimePartyMember (State mb) (UserID mb)) <$> sn_Members s)
      (ps_RequestPrefix0 st) (ps_RequestPrefix1 st) (ps_NameBytes st) (ps_MemberSelectCode st)
      (ps_MaxMembers st) (ps_SelectionID st) (ps_SelectionCode st) (ps_SelectionValue st)
      (ps_RecruitFlag st) (ps_TargetMode st) (ps_TargetDungeonID st) (ps_ReserveLeaveFlag st).

Definition runtimePartySuccess (p : runtimeParty) (target : Z) : RuntimePartyResult :=
  mkResult true "" (snapshotRuntimeParty p) None None None target false false.

Definition runtimePartyFailure (reason : string) : RuntimePartyResult :=
  mkResult false reason zero_snapshot None None None 0 false false.

Definition with_previous (r : RuntimePartyResult) s :=
  mkResult (OK r) (Reason r) (Party r) (Some s) (Retired r) (PriorLeave r)
    (TargetUser r) (Disbanded r) (LeaderMoved r).
Definition with_retired (r : RuntimePartyResult) s :=
  mkResult (OK r) (Reason r) (Party r) (Previous r) (Some s) (PriorLeave r)
    (TargetUser r) (Disbanded r) true.
(** [if prior.OK { result.PriorLeave = &prior }] *)
Definition with_prior (r prior : RuntimePartyResult) :=
  if OK prior then
    mkResult (OK r) (Reason r) (Party r) (Previous r) (Retired r) (Some prior)
      (TargetUser r) (Disbanded r) (LeaderMoved r)
  else r.

(** ** Locked helpers of the manager *)

(** The allocation loop: the cursor after the attempts, and the identifier. *)
Fixpoint nextPartyID_loop (attempts : nat) (ps : gmap Z runtimeParty) (next : Z) : Z * Z :=
  match attempts with
  | O => (next, 0)
  | S attempts =>
      let id := next in
      let next := u16 (next + 1) in
      let next := if (next =? 0) || (next =? max_uint16) then 1 else next in
      if negb (id =? 0) && negb (id =? max_uint16) && bool_decide (ps !! id = None)
      then (next, id)
      else nextPartyID_loop attempts ps next
  end.

Definition nextPartyIDLocked (m : RuntimePartyManager) : RuntimePartyManager * Z :=
  let '(next, id) := nextPartyID_loop (Z.to_nat (max_uint16 - 1)) (parties m) (nextID m) in
  (set_nextID m next, id).

Definition add_ignoring (p : runtimeParty) (mb : RuntimePartyMember) : runtimeParty :=
  default p (add p mb).

Definition rebuildLocked (m : RuntimePartyManager) (source : runtimeParty)
    (lead : RuntimePartyMember) (ms : list RuntimePartyMember)
    : RuntimePartyManager * runtimeParty :=
  let '(m, pid) := nextPartyIDLocked m in
  let rebuilt := mkParty pid (UserID lead)
    (stamp_settings (cloneRuntimePartySettings (settings source)) pid (UserID lead))
    (replicate currentRuntimePartyMaxMembers None) in
  let rebuilt := add_ignoring rebuilt lead in
  (m, foldl (λ p mb, if negb (UserID mb =? UserID lead) then add_ignoring p mb else p)
            rebuilt ms).

Definition partyMemberLocked (m : RuntimePartyManager) (userID : Z)
    : option (runtimeParty * option RuntimePartyMember) :=
  let partyID := default 0 (byUser m !! userID) in
  party ← parties m !! partyID;
  Some (party, member party userID).

(** The loop visits every invite once and deletes the matching ones. *)
Definition invite_matches (userID generation : Z) (iv : Z * runtimePartyInvite) : Prop :=
  (iv.1 = userID ∧ (generation = 0 ∨ inviteeGeneration iv.2 = generation)) ∨
  (inviter iv.2 = userID ∧ (generation = 0 ∨ inviterGeneration iv.2 = generation)).
#[export] Instance invite_matches_dec u g iv : Decision (invite_matches u g iv).
Proof. unfold invite_matches. apply _. Defined.

Definition clearInvitesForLocked (m : RuntimePartyManager) (userID generation : Z)
    : RuntimePartyManager :=
  set_invites m (filter (λ iv, ¬ invite_matches userID generation iv) (invites m)).

Definition delete_users (ms : list RuntimePartyMember) (bu : gmap Z Z) : gmap Z Z :=
  foldl (λ bu mb, delete (UserID mb) bu) bu ms.
Definition insert_users (pid : Z) (ms : list RuntimePartyMember) (bu : gmap Z Z) : gmap Z Z :=
  foldl (λ bu mb, <[UserID mb := pid]> bu) bu ms.

(** The common tail of a leader leave and a leader transfer: drop the party and
    its index entries, rebuild, index the rebuilt party. *)
Definition replace_party (m : RuntimePartyManager) (party : runtimeParty)
    (newLeader : RuntimePartyMember) (ms : list RuntimePartyMember)
    : RuntimePartyManager * runtimeParty :=
  let m := set_parties m (delete (id party) (parties m)) in
  let m := set_byUser m (delete_users ms (byUser m)) in
  let '(m, rebuilt) := rebuildLocked m party newLeader ms in
  let m := set_parties m (<[id rebuilt := rebuilt]> (parties m)) in
  (set_byUser m (insert_users (id rebuilt) (membersBySlot rebuilt) (byUser m)), rebuilt).

(** [members[0]] is read only when the remaining count is positive, so the
    default is never used. *)
Definition leaveLocked (m : RuntimePartyManager) (userID generation : Z) (allowAbsent : bool)
    : RuntimePartyManager * RuntimePartyResult :=
  match partyMemberLocked m userID with
  | Some (party, Some mb) =>
      if negb (generation =? 0) && negb (SessionGeneration mb =? generation)
      then (m, runtimePartyFailure "stale_session")
      else
        let previous := snapshotRuntimeParty party in
        let wasLeader := leader party =? userID in
        let retired := if wasLeader && (1 <? count party)
                       then snapshotRuntimeParty party else zero_snapshot in
        let party := remove party userID in
        let m := set_parties m (<[id party := party]> (parties m)) in
        let m := set_byUser m (delete userID (byUser m)) in
        let m := clearInvitesForLocked m userID generation in
        if count party =? 0 then
          (set_parties m (delete (id party) (parties m)),
           mkResult true "" zero_snapshot (Some previous) None None userID true false)
        else if negb wasLeader then
          (m, with_previous (runtimePartySuccess party userID) previous)
        else
          let ms := membersBySlot party in
          let newLeader := default zero_member (head ms) in
          let '(m, rebuilt) := replace_party m party newLeader ms in
          (m, with_retired (with_previous (runtimePartySuccess rebuilt userID) previous) retired)
  | _ => if allowAbsent then (m, zero_result) else (m, runtimePartyFailure "not_in_party")
  end.

(** ** Exported methods *)

Definition SnapshotByUser (m : RuntimePartyManager) (userID generation : Z)
    : RuntimePartySnapshot * bool :=
  if userID =? 0 then (zero_snapshot, false)
  else match partyMemberLocked m userID with
       | Some (party, Some mb) =>
           if negb (generation =? 0) && negb (SessionGeneration mb =? generation)
           then (zero_snapshot, false)
           else (snapshotRuntimeParty party, true)
       | _ => (zero_snapshot, false)
       end.

Definition SnapshotByID (m : RuntimePartyManager) (partyID : Z) : RuntimePartySnapshot * bool :=
  if partyID =? 0 then (zero_snapshot, false)
  else match parties m !! partyID with
       | None => (zero_snapshot, false)
       | Some party => (snapshotRuntimeParty party, true)
       end.

(** [sort.Ints] on the keys, then one snapshot per key. *)
Definition Snapshots (m : RuntimePartyManager) : list RuntimePartySnapshot :=
  let ids := merge_sort Z.le (elements (dom (parties m))) in
  omap (λ pid, snapshotRuntimeParty <$> parties m !! pid) ids.

Definition new_party (pid : Z) (lead : RuntimePartyMember) (s : PartyState) : runtimeParty :=
  mkParty pid (UserID lead) (stamp_settings (normalizeRuntimePartySettings s) pid (UserID lead))
    (replicate currentRuntimePartyMaxMembers None).

Definition Create (m : RuntimePartyManager) (lead : RuntimePartyMember) (s : PartyState)
    : RuntimePartyManager * RuntimePartyResult :=
  if negb (validRuntimePartyMember lead) then (m, runtimePartyFailure "invalid_leader")
  else
    let '(m, partyID) := nextPartyIDLocked m in
    if partyID =? 0 then (m, runtimePartyFailure "party_id_exhausted")
    else
      let '(m, prior) := leaveLocked m (UserID lead) (SessionGeneration lead) true in
      match add (new_party partyID lead s) lead with
      | None => (m, runtimePartyFailure "add_leader_failed")
      | Some party =>
          let m := set_parties m (<[id party := party]> (parties m)) in
          let m := set_byUser m (<[UserID lead := id party]> (byUser m)) in
          (m, with_prior (runtimePartySuccess party (UserID lead)) prior)
      end.

Definition EnsureLeader (m : RuntimePartyManager) (lead : RuntimePartyMember) (s : PartyState)
    : RuntimePartyManager * RuntimePartyResult :=
  if negb (validRuntimePartyMember lead) then (m, runtimePartyFailure "invalid_leader")
  else
    match partyMemberLocked m (UserID lead) with
    | Some (existing, Some mb) =>
        if negb (SessionGeneration mb =? SessionGeneration lead)
        then (m, runtimePartyFailure "stale_member_session")
        else if negb (leader existing =? UserID lead)
        then (m, runtimePartyFailure "already_party_member")
        else (m, runtimePartySuccess existing (UserID lead))
    | _ =>
        let '(m, partyID) := nextPartyIDLocked m in
        if partyID =? 0 then (m, runtimePartyFailure "party_id_exhausted")
        else
          match add (new_party partyID lead s) lead with
          | None => (m, runtimePartyFailure "add_leader_failed")
          | Some party =>
              let m := set_parties m (<[id party := party]> (parties m)) in
              let m := set_byUser m (<[UserID lead := id party]> (byUser m)) in
              (m, runtimePartySuccess party (UserID lead))
          end
    end.

(** [party] points to the entry of [parties] read before the detachment; the
    detachment touches only the party indexed for the member, which is another
    one because the member is not in [party] (lemma [leaveLocked_other]). *)
Definition Join (m : RuntimePartyManager) (partyID : Z) (mb : RuntimePartyMember)
    : RuntimePartyManager * RuntimePartyResult :=
  if (partyID =? 0) || negb (validRuntimePartyMember mb)
  then (m, runtimePartyFailure "invalid_join")
  else
    match parties m !! partyID with
    | None => (m, runtimePartyFailure "party_not_found")
    | Some party =>
        match member party (UserID mb) with
        | Some existing =>
            if SessionGeneration existing =? SessionGeneration mb
            then (m, runtimePartyFailure "already_member")
            else (m, runtimePartyFailure "stale_member_session")
        | None =>
            if full party then (m, runtimePartyFailure "party_full")
            else
              let '(m, prior) := leaveLocked m (UserID mb) (SessionGeneration mb) true in
              match add party mb with
              | None => (m, runtimePartyFailure "add_member_failed")
              | Some party =>
                  let m := set_parties m (<[id party := party]> (parties m)) in
                  let m := set_byUser m (<[UserID mb := id party]> (byUser m)) in
                  (m, with_prior (runtimePartySuccess party (UserID mb)) prior)
              end
        end
    end.

Definition Leave (m : RuntimePartyManager) (userID generation : Z)
    : RuntimePartyManager * RuntimePartyResult :=
  if (userID =? 0) || (generation =? 0) then (m, runtimePartyFailure "invalid_leave")
  else leaveLocked m userID generation false.

Definition OnDisconnected := Leave.

Definition Kick (m : RuntimePartyManager) (by_ byGeneration targetUser targetGeneration : Z)
    : RuntimePartyManager * RuntimePartyResult :=
  if (by_ =? 0) || (targetUser =? 0) || (by_ =? targetUser) || (byGeneration =? 0)
     || (targetGeneration =? 0)
  then (m, runtimePartyFailure "invalid_kick")
  else
    match partyMemberLocked m by_ with
    | Some (party, Some lead) =>
        if negb (SessionGeneration lead =? byGeneration)
        then (m, runtimePartyFailure "stale_session")
        else if negb (leader party =? by_) then (m, runtimePartyFailure "not_leader")
        else
          match member party targetUser with
          | None => (m, runtimePartyFailure "target_not_member")
          | Some target =>
              if negb (SessionGeneration target =? targetGeneration)
              then (m, runtimePartyFailure "stale_target_session")
              else
                let previous := snapshotRuntimeParty party in
                let party := remove party targetUser in
                let m := set_parties m (<[id party := party]> (parties m)) in
                let m := set_byUser m (delete targetUser (byUser m)) in
                let m := clearInvitesForLocked m targetUser targetGeneration in
                (m, with_previous (runtimePartySuccess party targetUser) previous)
          end
    | _ => (m, runtimePartyFailure "not_in_party")
    end.

Definition TransferLeader (m : RuntimePartyManager)
    (by_ byGeneration newLeader newLeaderGeneration : Z)
    : RuntimePartyManager * RuntimePartyResult :=
  if (by_ =? 0) || (newLeader =? 0) || (byGeneration =? 0) || (newLeaderGeneration =? 0)
  then (m, runtimePartyFailure "invalid_leader_transfer")
  else
    match partyMemberLocked m by_ with
    | Some (party, Some lead) =>
        if negb (SessionGeneration lead =? byGeneration)
        then (m, runtimePartyFailure "stale_session")
        else if negb (leader party =? by_) then (m, runtimePartyFailure "not_leader")
        else
          match member party newLeader with
          | None => (m, runtimePartyFailure "stale_target_session")
          | Some next =>
              if negb (SessionGeneration next =? newLeaderGeneration)
              then (m, runtimePartyFailure "stale_target_session")
              else
                let retired := snapshotRuntimeParty party in
                let '(m, rebuilt) := replace_party m party next (membersBySlot party) in
                (m, with_retired (with_previous (runtimePartySuccess rebuilt newLeader) retired)
                      retired)
          end
    | _ => (m, runtimePartyFailure "stale_session")
    end.

Definition RecordInvite (m : RuntimePartyManager)
    (invitee inviteeGeneration inviter inviterGeneration partyID mode : Z)
    : RuntimePartyManager * bool :=
  if (invitee =? 0) || (inviter =? 0) || (invitee =? inviter) || (inviteeGeneration =? 0)
     || (inviterGeneration =? 0)
  then (m, false)
  else (set_invites m (<[invitee := mkInvite invitee inviteeGeneration inviter inviterGeneration
                                      partyID mode]> (invites m)), true).

Definition ConsumeInvite (m : RuntimePartyManager)
    (invitee inviteeGen inviter_ inviterGen mode_ : Z) : RuntimePartyManager * (Z * bool) :=
  match invites m !! invitee with
  | None => (m, (0, false))
  | Some invite =>
      if negb (inviteeGeneration invite =? inviteeGen) || negb (inviter invite =? inviter_)
         || negb (inviterGeneration invite =? inviterGen) || negb (mode invite =? mode_)
      then (m, (0, false))
      else (set_invites m (delete invitee (invites m)), (inv_partyID invite, true))
  end.

Definition UpdateSettings (m : RuntimePartyManager) (userID generation : Z) (s : PartyState)
    : RuntimePartyManager * RuntimePartyResult :=
  if (userID =? 0) || (generation =? 0) then (m, runtimePartyFailure "invalid_settings")
  else
    match partyMemberLocked m userID with
    | Some (party, Some mb) =>
        if negb (SessionGeneration mb =? generation)
        then (m, runtimePartyFailure "stale_session")
        else if negb (leader party =? userID) then (m, runtimePartyFailure "not_leader")
        else
          let s := stamp_settings (normalizeRuntimePartySettings s) (id party) (leader party) in
          let party := set_settings party s in
          (set_parties m (<[id party := party]> (parties m)), runtimePartySuccess party userID)
    | _ => (m, runtimePartyFailure "not_in_party")
    end.

Definition RebindSession (m : RuntimePartyManager) (userID priorGeneration : Z)
    (replacement : RuntimePartyMember) : RuntimePartyManager * RuntimePartyResult :=
  if (userID =? 0) || (priorGeneration =? 0) || negb (validRuntimePartyMember replacement)
     || negb (UserID replacement =? userID)
  then (m, runtimePartyFailure "invalid_session_rebind")
  else
    match partyMemberLocked m userID with
    | Some (party, Some mb) =>
        if negb (SessionGeneration mb =? priorGeneration)
        then (m, runtimePartyFailure "stale_session")
        else
          let replacement := set_slot replacement (Slot mb) in
          let replacement :=
            set_state replacement (normalizeRuntimePartyMember (State replacement) userID) in
          let party := match slot_of party userID with
                       | Some i => set_members party (<[i := Some replacement]> (members party))
                       | None => party
                       end in
          let m := set_parties m (<[id party := party]> (parties m)) in
          (clearInvitesForLocked m userID priorGeneration, runtimePartySuccess party userID)
    | _ => (clearInvitesForLocked m userID priorGeneration, runtimePartyFailure "not_in_party")
    end.

(** Entry [i] of the array; the indices used are below four. *)
Definition at_slot (ms : list (option RuntimePartyMember)) (i : nat) : option RuntimePartyMember :=
  default None (ms !! i).

Definition Reposition (m : RuntimePartyManager) (by_ byGeneration : Z) (fromSlot toSlot : nat)
    : RuntimePartyManager * RuntimePartyResult :=
  if (by_ =? 0) || (byGeneration =? 0) || (currentRuntimePartyMaxMembers <=? fromSlot)%nat
     || (currentRuntimePartyMaxMembers <=? toSlot)%nat || (fromSlot =? toSlot)%nat
  then (m, runtimePartyFailure "invalid_reposition")
  else
    match partyMemberLocked m by_ with
    | Some (party, Some lead) =>
        if negb (SessionGeneration lead =? byGeneration)
        then (m, runtimePartyFailure "stale_session")
        else if negb (leader party =? by_) then (m, runtimePartyFailure "not_leader")
        else if (fromSlot =? 0)%nat || (toSlot =? 0)%nat
                || bool_decide (at_slot (members party) fromSlot = None)
        then (m, runtimePartyFailure "invalid_source_slot")
        else
          let a := at_slot (members party) fromSlot in
          let b := at_slot (members party) toSlot in
          let ms := <[toSlot := (λ x, set_slot x toSlot) <$> a]>
                    (<[fromSlot := (λ x, set_slot x fromSlot) <$> b]> (members party)) in
          let party := set_members party ms in
          (set_parties m (<[id party := party]> (parties m)), runtimePartySuccess party by_)
    | _ => (m, runtimePartyFailure "stale_session")
    end.

(** ** The operations as a transition system *)

Inductive party_op :=
| OpCreate (lead : RuntimePartyMember) (s : PartyState)
| OpEnsureLeader (lead : RuntimePartyMember) (s : PartyState)
| OpJoin (partyID : Z) (mb : RuntimePartyMember)
| OpLeave (userID generation : Z)
| OpKick (by_ byGeneration target targetGeneration : Z)
| OpTransferLeader (by_ byGeneration next nextGeneration : Z)
| OpUpdateSettings (userID generation : Z) (s : PartyState)
| OpRebindSession (userID prior : Z) (replacement : RuntimePartyMember)
| OpReposition (by_ byGeneration : Z) (fromSlot toSlot : nat)
| OpRecordInvite (invitee inviteeGeneration inviter inviterGeneration partyID mode : Z)
| OpConsumeInvite (invitee inviteeGeneration inviter inviterGeneration mode : Z).

(** Next state, and whether the method reports success. *)
Definition run (m : RuntimePartyManager) (op : party_op) : RuntimePartyManager * bool :=
  let ok (x : RuntimePartyManager * RuntimePartyResult) := (x.1, OK x.2) in
  match op with
  | OpCreate l s => ok (Create m l s)
  | OpEnsureLeader l s => ok (EnsureLeader m l s)
  | OpJoin pid mb => ok (Join m pid mb)
  | OpLeave u g => ok (Leave m u g)
  | OpKick a ag t tg => ok (Kick m a ag t tg)
  | OpTransferLeader a ag t tg => ok (TransferLeader m a ag t tg)
  | OpUpdateSettings u g s => ok (UpdateSettings m u g s)
  | OpRebindSession u g mb => ok (RebindSession m u g mb)
  | OpReposition a g i j => ok (Reposition m a g i j)
  | OpRecordInvite a ag b bg pid md => RecordInvite m a ag b bg pid md
  | OpConsumeInvite a ag b bg md => let '(m, (_, ok)) := ConsumeInvite m a ag b bg md in (m, ok)
  end.

(** Party sizes are bytes. *)
Definition op_typed (op : party_op) : Prop :=
  match op with
  | OpCreate _ s | OpEnsureLeader _ s | OpUpdateSettings _ _ s => 0 <= ps_MaxMembers s < two8
  | _ => True
  end.

(** The member's session, if seated, is the given one. *)
Definition session_current (m : RuntimePartyManager) (u g : Z) : bool :=
  match partyMemberLocked m u with
  | Some (_, Some mb) => SessionGeneration mb =? g
  | _ => true
  end.

(** A character that creates or joins while seated does so from the session it
    is seated with. *)
Definition op_current (m : RuntimePartyManager) (op : party_op) : bool :=
  match op with
  | OpCreate mb _ | OpJoin _ mb => session_current m (UserID mb) (SessionGeneration mb)
  | _ => true
  end.

Inductive party_step : RuntimePartyManager → RuntimePartyManager → Prop :=
| party_step_run m op : op_typed op → op_current m op = true → party_step m (run m op).1.
