(* ===== verification/PartySeats.v ===== *)
(** * Seats, identifiers and rebuilds of the party manager

    Lemmas on the parts of [Party.v]: the array of member pointers, the
    rotating identifier allocator, and the party built by a leader change. *)

From S2P Require Import Prelude Party.

(** ** Seats

    Facts about the array of member pointers. *)

Definition users_of (ms : list (option RuntimePartyMember)) : list Z := UserID <$> seated ms.
Definition users (p : runtimeParty) : list Z := users_of (members p).

Lemma seated_elem ms mb : mb ∈ seated ms ↔ ∃ i, ms !! i = Some (Some mb).
Proof.
  unfold seated. rewrite list_elem_of_omap. split.
  - intros (o & Ho & ->). by apply list_elem_of_lookup.
  - intros [i Hi]. exists (Some mb). split; [|done]. by eapply list_elem_of_lookup_2.
Qed.

Lemma users_elem p u : u ∈ users p ↔ ∃ i mb, members p !! i = Some (Some mb) ∧ UserID mb = u.
Proof.
  unfold users, users_of. rewrite list_elem_of_fmap. setoid_rewrite seated_elem. split.
  - intros (mb & -> & i & Hi). eauto.
  - intros (i & mb & Hi & <-). eauto.
Qed.

(** Writing a seat: both the old and the new occupant are optional. *)
Lemma seated_insert ms i o o' : ms !! i = Some o →
  ∃ rest, seated ms ≡ₚ option_list o ++ rest ∧ seated (<[i := o']> ms) ≡ₚ option_list o' ++ rest.
Proof.
  intros Hi. exists (seated (take i ms) ++ seated (drop (S i) ms)).
  assert (i < length ms)%nat by (by eapply lookup_lt_Some).
  assert (∀ o l1 l2, seated (l1 ++ o :: l2) ≡ₚ option_list o ++ seated l1 ++ seated l2) as Hmid.
  { intros [x|] l1 l2; unfold seated; rewrite omap_app; cbn; [|done].
    by rewrite Permutation_middle. }
  split.
  - rewrite <- (take_drop_middle ms i o Hi) at 1. apply Hmid.
  - rewrite insert_take_drop by done. apply Hmid.
Qed.

Lemma users_insert ms i o o' : ms !! i = Some o →
  ∃ rest, users_of ms ≡ₚ option_list (UserID <$> o) ++ rest
        ∧ users_of (<[i := o']> ms) ≡ₚ option_list (UserID <$> o') ++ rest.
Proof.
  intros (rest & H1 & H2)%(seated_insert _ _ _ o'). exists (UserID <$> rest). unfold users_of.
  rewrite H1, H2, !fmap_app. by destruct o, o'.
Qed.

Lemma member_find p u mb : member p u = Some mb →
  ∃ i, slot_of p u = Some i ∧ members p !! i = Some (Some mb) ∧ UserID mb = u.
Proof.
  unfold member, slot_of. destruct (list_find _ _) as [[i o]|] eqn:E; [|done]. cbn. intros ->.
  apply list_find_Some in E as (Hi & Hu & _). by exists i.
Qed.

Lemma member_None p u : member p u = None ↔ u ∉ users p.
Proof.
  unfold member. rewrite users_elem. destruct (list_find _ _) as [[i o]|] eqn:E; cbn.
  - apply list_find_Some in E as (Hi & Hu & _). destruct o as [mb|]; [|done].
    split; [done|]. intros H. destruct H. by exists i, mb.
  - split; [|done]. intros _ (i & mb & Hi & Hu).
    apply list_find_None in E. rewrite Forall_forall in E.
    eapply (E (Some mb)); [by eapply list_elem_of_lookup_2|done].
Qed.

Lemma slot_of_None p u : slot_of p u = None → u ∉ users p.
Proof.
  intros H. apply member_None. unfold member, slot_of in *. by destruct (list_find _ _) as [[]|].
Qed.

Lemma member_elem p u mb : member p u = Some mb → u ∈ users p.
Proof. intros (i & _ & Hi & <-)%member_find. apply users_elem. eauto. Qed.

Lemma count_users p : count p = zlen (users p).
Proof. unfold count, users, users_of, zlen. by rewrite length_fmap. Qed.

Lemma users_membersBySlot p : UserID <$> membersBySlot p = users p.
Proof. unfold membersBySlot, users, users_of. rewrite <- list_fmap_compose. by apply list_fmap_ext. Qed.

(** [remove] takes exactly the given user out. *)
Lemma remove_users p u : u ∈ users p → users p ≡ₚ u :: users (remove p u).
Proof.
  intros Hu. unfold remove. destruct (slot_of p u) as [i|] eqn:E.
  2:{ by apply slot_of_None in E. }
  unfold slot_of in E. destruct (list_find _ _) as [[j o]|] eqn:F; [|done].
  cbn in E. injection E as ->. apply list_find_Some in F as (Hi & Hh & _).
  destruct o as [mb|]; [|done]. cbn in Hh.
  destruct (users_insert _ _ _ None Hi) as (rest & H1 & H2).
  subst u. unfold users, set_members; cbn [members]. by rewrite H1, H2.
Qed.

(** A member as it is stored in slot [i]. *)
Definition seat_member (i : nat) (mb : RuntimePartyMember) : RuntimePartyMember :=
  set_state (set_slot mb i) (normalizeRuntimePartyMember (State mb) (UserID mb)).

(** What every occupied slot satisfies. *)
Definition seat_ok (ms : list (option RuntimePartyMember)) : Prop :=
  ∀ i mb, ms !! i = Some (Some mb) →
    Slot mb = i ∧ validRuntimePartyMember mb = true
    ∧ State mb = normalizeRuntimePartyMember (State mb) (UserID mb).

Lemma normalize_idem st u :
  normalizeRuntimePartyMember (normalizeRuntimePartyMember st u) u
  = normalizeRuntimePartyMember st u.
Proof.
  unfold normalizeRuntimePartyMember; cbn.
  f_equal; repeat (destruct (_ =? 0) eqn:?; cbn; try done; bool_clean); congruence.
Qed.

Lemma seat_member_ok i mb : validRuntimePartyMember mb = true →
  Slot (seat_member i mb) = i ∧ validRuntimePartyMember (seat_member i mb) = true
  ∧ State (seat_member i mb) = normalizeRuntimePartyMember (State (seat_member i mb))
                                                            (UserID (seat_member i mb)).
Proof. intros H. repeat split; [done|]. cbn. by rewrite normalize_idem. Qed.

Lemma seat_ok_insert ms i mb : seat_ok ms → Slot mb = i → validRuntimePartyMember mb = true →
  State mb = normalizeRuntimePartyMember (State mb) (UserID mb) →
  seat_ok (<[i := Some mb]> ms).
Proof.
  intros Hok Hs Hv Hn j mb' [(<- & Heq & _)|(? & ?)]%list_lookup_insert_Some; [|by apply Hok].
  by simplify_eq.
Qed.

Lemma seat_ok_clear ms i : seat_ok ms → seat_ok (<[i := None]> ms).
Proof.
  intros Hok j mb' [(<- & Heq & _)|(? & ?)]%list_lookup_insert_Some; [done|by apply Hok].
Qed.

Lemma add_spec p mb p' : add p mb = Some p' →
  ∃ i, members p !! i = Some None ∧ (∀ j, (j < i)%nat → members p !! j ≠ Some None)
     ∧ p' = set_members p (<[i := Some (seat_member i mb)]> (members p))
     ∧ (UserID mb ∉ users p) ∧ validRuntimePartyMember mb = true.
Proof.
  unfold add. destruct (negb _ || _ || _) eqn:E; [done|]. bool_clean.
  destruct (list_find _ _) as [[i o]|] eqn:F; [|done]. cbn. intros [= <-].
  apply list_find_Some in F as (Hi & Hn & Hfst). exists i.
  destruct o; [by destruct Hn|]. split; [done|].
  split_and!; [|done| |done].
  - intros j Hj Hc. by destruct (Hfst j None Hc Hj).
  - apply member_None. by apply eq_None_not_Some.
Qed.

(** *** The seating produced by a rebuild *)

Definition effective_limit (p : runtimeParty) : nat := Z.to_nat (ps_MaxMembers (settings p)).

(** The members of [l] seated from slot zero on. *)
Definition seat (l : list RuntimePartyMember) : list (option RuntimePartyMember) :=
  imap (λ i mb, Some (seat_member i mb)) l
  ++ replicate (currentRuntimePartyMaxMembers - length l) None.

Lemma seated_app l1 l2 : seated (l1 ++ l2) = seated l1 ++ seated l2.
Proof. apply omap_app. Qed.

Lemma seated_imap l : ∀ n, seated (imap (λ i mb, Some (seat_member (n + i) mb)) l)
  = imap (λ i mb, seat_member (n + i) mb) l.
Proof.
  induction l as [|x l IH]; intros n; [done|]. cbn. f_equal.
  specialize (IH (S n)). unfold compose.
  etrans; [|etrans; [apply IH|]]; [f_equal|]; apply imap_ext; intros; cbn; by rewrite Nat.add_succ_r.
Qed.

Lemma seated_replicate n : seated (replicate n None) = [].
Proof. by induction n. Qed.

Lemma seated_seat l : seated (seat l) = imap seat_member l.
Proof.
  unfold seat. rewrite seated_app, seated_replicate, app_nil_r. apply (seated_imap l 0).
Qed.

Lemma users_seat l : users_of (seat l) = UserID <$> l.
Proof.
  unfold users_of. rewrite seated_seat, fmap_imap. unfold compose. cbn.
  apply list_eq; intros i. rewrite list_lookup_imap, list_lookup_fmap. by destruct (l !! i).
Qed.

Lemma length_seat l : (length l <= 4)%nat → length (seat l) = 4%nat.
Proof.
  intros. unfold seat, currentRuntimePartyMaxMembers.
  rewrite length_app, length_imap, length_replicate. lia.
Qed.

Lemma seat_lookup l i mb : l !! i = Some mb → seat l !! i = Some (Some (seat_member i mb)).
Proof.
  intros H. unfold seat. rewrite lookup_app_l.
  - by rewrite list_lookup_imap, H.
  - rewrite length_imap. by eapply lookup_lt_Some.
Qed.

Lemma seat_lookup_inv l i mb : seat l !! i = Some (Some mb) →
  ∃ mb0, l !! i = Some mb0 ∧ mb = seat_member i mb0.
Proof.
  unfold seat. intros [H|(_ & H)]%lookup_app_Some.
  - rewrite list_lookup_imap in H. destruct (l !! i); naive_solver.
  - apply lookup_replicate in H. naive_solver.
Qed.

Lemma seat_seat_ok l : Forall (λ mb, validRuntimePartyMember mb = true) l → seat_ok (seat l).
Proof.
  intros Hv i mb (mb0 & H & ->)%seat_lookup_inv. apply seat_member_ok.
  rewrite Forall_forall in Hv. apply Hv. by eapply list_elem_of_lookup_2.
Qed.

Lemma full_seat p l : members p = seat l → 1 <= ps_MaxMembers (settings p) <= 4 →
  full p = bool_decide (effective_limit p <= length l)%nat.
Proof.
  intros Hm Hlim. unfold full, count, effective_limit. rewrite Hm, seated_seat.
  unfold zlen, currentRuntimePartyMaxMembers. rewrite length_imap.
  destruct (_ =? 0) eqn:E1; bool_clean; [lia|].
  destruct (_ <? _) eqn:E2; bool_clean; [lia|]. cbn.
  case_bool_decide; [apply Z.leb_le|apply Z.leb_gt]; lia.
Qed.

(** Seating one more member fills the first free slot. *)
Lemma seat_snoc l mb : (length l < 4)%nat →
  seat (l ++ [mb]) = <[length l := Some (seat_member (length l) mb)]> (seat l).
Proof.
  intros Hl. unfold seat, currentRuntimePartyMaxMembers.
  rewrite imap_app, length_app, <- app_assoc. cbn.
  rewrite insert_app_r_alt by (rewrite length_imap; lia).
  rewrite length_imap, Nat.sub_diag. f_equal. unfold compose.
  replace (4 - length l)%nat with (S (4 - (length l + 1))) by lia. cbn.
  by rewrite Nat.add_0_r.
Qed.

Lemma add_seat_some p l mb : members p = seat l → 1 <= ps_MaxMembers (settings p) <= 4 →
  (length l < effective_limit p)%nat → validRuntimePartyMember mb = true →
  UserID mb ∉ (UserID <$> l) → add p mb = Some (set_members p (seat (l ++ [mb]))).
Proof.
  intros Hm Hlim Hl Hv Hu. unfold add. rewrite Hv, (full_seat p l) by done.
  assert (effective_limit p <= 4)%nat by (unfold effective_limit; lia).
  rewrite bool_decide_eq_false_2 by lia. cbn.
  rewrite bool_decide_eq_false_2.
  2:{ apply eq_None_not_Some, member_None. unfold users. by rewrite Hm, users_seat. }
  assert (list_find (λ o, ¬ is_Some o) (members p) = Some (length l, None)) as ->.
  { apply list_find_Some. split_and!.
    - rewrite Hm. unfold seat, currentRuntimePartyMaxMembers.
      rewrite lookup_app_r by (rewrite length_imap; lia).
      rewrite length_imap. apply lookup_replicate_2. lia.
    - by intros [? ?].
    - intros j y Hj Hlt. rewrite Hm in Hj.
      destruct (lookup_lt_is_Some_2 l j Hlt) as [mb' Hmb].
      rewrite (seat_lookup _ _ _ Hmb) in Hj. naive_solver. }
  cbn. rewrite Hm, seat_snoc by lia. done.
Qed.

Lemma add_seat p l mb : members p = seat l → 1 <= ps_MaxMembers (settings p) <= 4 →
  (length l <= effective_limit p)%nat → validRuntimePartyMember mb = true →
  UserID mb ∉ (UserID <$> l) →
  add_ignoring p mb = set_members p (seat (take (effective_limit p) (l ++ [mb]))).
Proof.
  intros Hm Hlim Hl Hv Hu. unfold add_ignoring.
  destruct (decide (length l < effective_limit p)%nat).
  - rewrite (add_seat_some p l) by done. by rewrite take_ge by (rewrite length_app; cbn; lia).
  - unfold add. rewrite Hv, (full_seat p l) by done. rewrite bool_decide_eq_true_2 by lia. cbn.
    rewrite take_app_le, take_ge, <- Hm by lia. by destruct p.
Qed.

Lemma fold_add_seat rest : ∀ p l, members p = seat l →
  1 <= ps_MaxMembers (settings p) <= 4 → (length l <= effective_limit p)%nat →
  Forall (λ mb, validRuntimePartyMember mb = true) rest → NoDup (UserID <$> l ++ rest) →
  foldl add_ignoring p rest = set_members p (seat (take (effective_limit p) (l ++ rest))).
Proof.
  induction rest as [|mb rest IH]; intros p l Hm Hlim Hl Hv Hnd.
  - rewrite app_nil_r, take_ge by done. cbn. rewrite <- Hm. by destruct p.
  - apply Forall_cons in Hv as [Hv Hvs]. cbn.
    rewrite fmap_app, fmap_cons in Hnd. pose proof Hnd as (Hnd1 & Hni & Hnd2)%NoDup_app.
    rewrite (add_seat p l) by (done || (intros Hin; eapply Hni; [done|set_solver])).
    set (lim := effective_limit p) in *.
    assert (lim = effective_limit (set_members p (seat (take lim (l ++ [mb]))))) as Hlim' by done.
    rewrite (IH _ (take lim (l ++ [mb]))); try done.
    + rewrite <- Hlim'. unfold set_members; cbn. f_equal. f_equal.
      destruct (decide (length l < lim)%nat).
      * rewrite (take_ge (l ++ [mb])) by (rewrite length_app; cbn; lia).
        by rewrite <- app_assoc.
      * assert (lim = length l) as -> by lia. rewrite take_app_length.
        by rewrite !take_app_length.
    + rewrite length_take. lia.
    + rewrite fmap_app, fmap_take, fmap_app.
      eapply sublist_NoDup; [apply Hnd|]. rewrite (cons_middle (UserID mb)), app_assoc.
      apply sublist_app; [apply sublist_take|done].
Qed.

Lemma membersBySlot_seat p l : members p = seat l → membersBySlot p = imap seat_member l.
Proof.
  intros Hm. unfold membersBySlot. rewrite Hm, seated_seat.
  rewrite fmap_imap. apply imap_ext. intros i x _. unfold compose, cloneRuntimePartyMember.
  unfold seat_member, set_state, set_slot; cbn. by rewrite normalize_idem.
Qed.

(** ** The identifier allocator *)

(** The cursor after [k] steps of the rotation over 1..65534. *)
Definition cyc (n k : Z) : Z := 1 + (n - 1 + k) mod (max_uint16 - 1).

Definition id_ok (n : Z) : Prop := 1 <= n < max_uint16.

Ltac unfold_id := unfold id_ok, cyc, max_uint16 in *; change (65535 - 1) with 65534 in *.

Lemma cyc_ok n k : id_ok (cyc n k).
Proof. unfold_id. pose proof (Z.mod_pos_bound (n - 1 + k) 65534 ltac:(lia)). lia. Qed.

Lemma cyc_0 n : id_ok n → cyc n 0 = n.
Proof. unfold_id. intros. rewrite Z.mod_small; lia. Qed.

Lemma cyc_cyc n j k : cyc (cyc n j) k = cyc n (j + k).
Proof.
  unfold cyc. f_equal. replace (1 + _ - 1 + k) with ((n - 1 + j) mod (max_uint16 - 1) + k) by lia.
  rewrite Zplus_mod_idemp_l. f_equal. lia.
Qed.

Lemma cyc_reach n q : id_ok n → id_ok q → ∃ j, 0 <= j < max_uint16 - 1 ∧ cyc n j = q.
Proof.
  unfold_id. intros. exists ((q - n) mod 65534).
  split; [apply Z.mod_pos_bound; lia|]. rewrite Zplus_mod_idemp_r, Z.mod_small; lia.
Qed.

Lemma cyc_inj n j k : 0 <= j < max_uint16 - 1 → 0 <= k < max_uint16 - 1 →
  cyc n j = cyc n k → j = k.
Proof. unfold_id. intros. Z.div_mod_to_equations. lia. Qed.

Lemma nextPartyID_loop_cons a ps n : id_ok n →
  nextPartyID_loop (S a) ps n
  = if bool_decide (ps !! n = None) then (cyc n 1, n) else nextPartyID_loop a ps (cyc n 1).
Proof.
  intros Hn. cbn [nextPartyID_loop]. unfold_id.
  rewrite (proj2 (Z.eqb_neq n 0)), (proj2 (Z.eqb_neq n 65535)) by lia. cbn [negb andb].
  assert ((if (u16 (n + 1) =? 0) || (u16 (n + 1) =? 65535) then 1 else u16 (n + 1)) = cyc n 1) as ->;
    [|done].
  unfold_id. unfold_width. rewrite (Z.mod_small (n + 1)) by lia.
  destruct (Z.eq_dec n 65534) as [->|]; [done|].
  rewrite (proj2 (Z.eqb_neq (n + 1) 0)), (proj2 (Z.eqb_neq (n + 1) 65535)) by lia. cbn.
  rewrite Z.mod_small; lia.
Qed.

(** The loop returns the first free identifier of the rotation. *)
Lemma nextPartyID_loop_first ps k : ∀ a n, id_ok n →
  0 <= k < Z.of_nat a → ps !! cyc n k = None →
  ∃ j, 0 <= j <= k ∧ ps !! cyc n j = None ∧ nextPartyID_loop a ps n = (cyc n (j + 1), cyc n j).
Proof.
  intros a. revert k. induction a as [|a IH]; intros k n Hn Hk Hfree; [lia|].
  rewrite nextPartyID_loop_cons by done. case_bool_decide as E.
  - exists 0. rewrite cyc_0 by done. repeat split; [lia..|done].
  - assert (k ≠ 0) by (intros ->; by rewrite cyc_0 in Hfree).
    destruct (IH (k - 1) (cyc n 1)) as (j & Hj & Hjf & Heq).
    + apply cyc_ok.
    + lia.
    + rewrite cyc_cyc. by replace (1 + (k - 1)) with k by lia.
    + exists (1 + j). rewrite !cyc_cyc in *. rewrite Heq. split; [lia|].
      split; [done|]. by rewrite Z.add_assoc.
Qed.

Definition alloc (ps : gmap Z runtimeParty) (n : Z) : Z * Z :=
  nextPartyID_loop (Z.to_nat (max_uint16 - 1)) ps n.

(** Some identifier is free, so one is allocated; an identifier handed out in
    the step before is not handed out again while another one is free. *)
Lemma alloc_spec ps n q : id_ok n → id_ok q → ps !! q = None →
  ∃ i, alloc ps n = (cyc i 1, i) ∧ id_ok i ∧ ps !! i = None
     ∧ (∀ r, id_ok r → n = cyc r 1 → r ≠ q → i ≠ r).
Proof.
  intros Hn Hq Hfree. destruct (cyc_reach n q Hn Hq) as (k & Hk & <-).
  destruct (nextPartyID_loop_first ps k (Z.to_nat (max_uint16 - 1)) n) as (j & Hj & Hjf & Heq);
    [done|unfold_id; lia|done|].
  exists (cyc n j). unfold alloc. rewrite Heq, cyc_cyc. split; [done|].
  split; [apply cyc_ok|]. split; [done|]. intros r Hr -> Hne.
  rewrite cyc_cyc in *. rewrite <- (cyc_0 r Hr) at 2. intros Heq0.
  assert (k < 65533).
  { destruct (Z.eq_dec k 65533) as [->|]; [|unfold_id; lia].
    destruct Hne. rewrite <- (cyc_0 r Hr) at 1. unfold_id.
    f_equal. replace (r - 1 + (1 + 65533)) with (r - 1 + 0 + 1 * 65534) by lia.
    by rewrite Z.mod_add. }
  apply cyc_inj in Heq0; unfold_id; lia.
Qed.

Lemma nextPartyIDLocked_alloc m :
  nextPartyIDLocked m
  = (set_nextID m (alloc (parties m) (nextID m)).1, (alloc (parties m) (nextID m)).2).
Proof.
  unfold nextPartyIDLocked. fold (alloc (parties m) (nextID m)). by destruct (alloc _ _).
Qed.

(** Whatever the table, the cursor stays in range and the result is either the
    zero value or a free identifier just behind the cursor. *)
Lemma nextPartyID_loop_result ps : ∀ a n, id_ok n →
  id_ok (nextPartyID_loop a ps n).1 ∧
  ((nextPartyID_loop a ps n).2 = 0 ∨
   ∃ i, nextPartyID_loop a ps n = (cyc i 1, i) ∧ id_ok i ∧ ps !! i = None).
Proof.
  induction a as [|a IH]; intros n Hn; [by split; [|left]|].
  rewrite nextPartyID_loop_cons by done. case_bool_decide.
  - split; [apply cyc_ok|]. right. by exists n.
  - apply IH, cyc_ok.
Qed.

Lemma alloc_result ps n : id_ok n →
  id_ok (alloc ps n).1 ∧
  ((alloc ps n).2 = 0 ∨ ∃ i, alloc ps n = (cyc i 1, i) ∧ id_ok i ∧ ps !! i = None).
Proof. apply nextPartyID_loop_result. Qed.

#[global] Opaque alloc nextPartyIDLocked.

(** ** Rebuilding a party *)

Lemma foldl_filter (lead : RuntimePartyMember) ms : ∀ p,
  foldl (λ p mb, if negb (UserID mb =? UserID lead) then add_ignoring p mb else p) p ms
  = foldl add_ignoring p (filter (λ mb, UserID mb ≠ UserID lead) ms).
Proof.
  induction ms as [|mb ms IH]; intros p; [done|]. cbn [foldl]. rewrite IH.
  rewrite filter_cons. destruct (Z.eqb_spec (UserID mb) (UserID lead)); case_decide; done.
Qed.

(** New roster order: the successor, then the others in slot order, cut at the
    configured party size. *)
Definition roster (lim : nat) (lead : RuntimePartyMember) (ms : list RuntimePartyMember) :=
  take lim (lead :: filter (λ mb, UserID mb ≠ UserID lead) ms).

Definition rebuilt_party (source : runtimeParty) (pid : Z) (lead : RuntimePartyMember)
    (ms : list RuntimePartyMember) : runtimeParty :=
  mkParty pid (UserID lead) (stamp_settings (settings source) pid (UserID lead))
    (seat (roster (effective_limit source) lead ms)).

Definition all_valid (ms : list RuntimePartyMember) : Prop :=
  Forall (λ mb, validRuntimePartyMember mb = true) ms.

Lemma NoDup_lead lead ms : NoDup (UserID <$> ms) →
  NoDup (UserID <$> lead :: filter (λ mb, UserID mb ≠ UserID lead) ms).
Proof.
  intros Hnd. rewrite fmap_cons. constructor.
  - rewrite list_elem_of_fmap. intros (mb & Heq & [? _]%list_elem_of_filter). congruence.
  - eapply sublist_NoDup; [exact Hnd|]. apply fmap_sublist, sublist_filter.
Qed.

Lemma rebuildLocked_spec m source lead ms : 1 <= ps_MaxMembers (settings source) <= 4 →
  all_valid ms → validRuntimePartyMember lead = true → NoDup (UserID <$> ms) →
  rebuildLocked m source lead ms
  = (set_nextID m (alloc (parties m) (nextID m)).1,
     rebuilt_party source (alloc (parties m) (nextID m)).2 lead ms).
Proof.
  intros Hlim Hv Hl Hnd. unfold rebuildLocked. rewrite nextPartyIDLocked_alloc.
  f_equal. rewrite foldl_filter. set (p0 := mkParty _ _ _ _).
  change (foldl add_ignoring (add_ignoring p0 lead) ?l) with (foldl add_ignoring p0 (lead :: l)).
  rewrite (fold_add_seat _ p0 []); try done.
  - cbn. lia.
  - constructor; [done|]. unfold all_valid in Hv. rewrite Forall_forall in *.
    intros mb [_ ?]%list_elem_of_filter. by apply Hv.
  - by apply NoDup_lead.
Qed.

Lemma delete_users_lookup ms u : ∀ bu,
  delete_users ms bu !! u = if decide (u ∈ UserID <$> ms) then None else bu !! u.
Proof.
  unfold delete_users. induction ms as [|mb ms IH]; intros bu; cbn.
  - by rewrite decide_False by set_solver.
  - rewrite IH. destruct (decide (u = UserID mb)) as [->|].
    + rewrite lookup_delete_eq. repeat case_decide; set_solver.
    + rewrite lookup_delete_ne by done. repeat case_decide; set_solver.
Qed.

Lemma insert_users_lookup pid ms u : ∀ bu,
  insert_users pid ms bu !! u = if decide (u ∈ UserID <$> ms) then Some pid else bu !! u.
Proof.
  unfold insert_users. induction ms as [|mb ms IH]; intros bu; cbn.
  - by rewrite decide_False by set_solver.
  - rewrite IH. destruct (decide (u = UserID mb)) as [->|].
    + rewrite lookup_insert_eq. repeat case_decide; set_solver.
    + rewrite lookup_insert_ne by done. repeat case_decide; set_solver.
Qed.
