(* ===== verification/PartyInvariant.v ===== *)
(** * The invariant of the party manager

    The well-formedness of a manager state, that every operation of [Party.v]
    preserves it, and the behaviour of the operations that replace a party. *)

From S2P Require Import Prelude Party PartySeats.

(** ** Well-formed states *)

Record party_ok (pid : Z) (p : runtimeParty) : Prop := {
  ok_id : id p = pid;
  ok_range : id_ok pid;
  ok_len : length (members p) = currentRuntimePartyMaxMembers;
  ok_seat : seat_ok (members p);
  ok_nodup : NoDup (users p);
  ok_leader : ∃ mb, members p !! 0%nat = Some (Some mb) ∧ UserID mb = leader p;
  ok_limit : 1 <= ps_MaxMembers (settings p) <= 4;
  ok_stamp : settings p = stamp_settings (settings p) pid (leader p)
}.

(** [u] is seated in party [pid]. *)
Definition in_party (m : RuntimePartyManager) (u pid : Z) : Prop :=
  ∃ p, parties m !! pid = Some p ∧ u ∈ users p.

(** The user index is exactly the seating, so no user is in two parties. *)
Record wf (m : RuntimePartyManager) : Prop := {
  wf_next : id_ok (nextID m);
  wf_parties : ∀ pid p, parties m !! pid = Some p → party_ok pid p;
  wf_index : ∀ u pid, byUser m !! u = Some pid ↔ in_party m u pid
}.

Lemma wf_unique m u pid pid' : wf m → in_party m u pid → in_party m u pid' → pid = pid'.
Proof. intros Hwf H H'. apply (wf_index m Hwf) in H, H'. congruence. Qed.

Lemma new_wf : wf NewRuntimePartyManager.
Proof.
  split; [done|done|]. intros u pid. unfold in_party; cbn. split; [done|]. by intros (p & ? & _).
Qed.

Lemma set_invites_wf m iv : wf m → wf (set_invites m iv).
Proof. intros []. by split. Qed.

Lemma set_nextID_wf m n : wf m → id_ok n → wf (set_nextID m n).
Proof. intros []. by split. Qed.

Lemma normalized_clone mb :
  State mb = normalizeRuntimePartyMember (State mb) (UserID mb) → cloneRuntimePartyMember mb = mb.
Proof.
  unfold cloneRuntimePartyMember. intros H. rewrite <- H. by destruct mb.
Qed.

Lemma seat_ok_elem ms mb : seat_ok ms → mb ∈ seated ms →
  validRuntimePartyMember mb = true ∧ cloneRuntimePartyMember mb = mb.
Proof.
  intros Hok (i & Hi)%seated_elem. destruct (Hok i mb Hi) as (_ & Hv & Hn).
  split; [done|by apply normalized_clone].
Qed.

Lemma membersBySlot_ok p : seat_ok (members p) → membersBySlot p = seated (members p).
Proof.
  intros Hok. unfold membersBySlot.
  assert (∀ l : list RuntimePartyMember, (∀ mb, mb ∈ l → cloneRuntimePartyMember mb = mb) →
               cloneRuntimePartyMember <$> l = l) as Hid.
  { intros l. induction l as [|x l IH]; intros H; [done|]. cbn.
    rewrite IH by set_solver. f_equal. apply H. set_solver. }
  apply Hid. intros mb Hmb. by eapply seat_ok_elem.
Qed.

Lemma membersBySlot_valid p : seat_ok (members p) → all_valid (membersBySlot p).
Proof.
  intros Hok. rewrite membersBySlot_ok by done. unfold all_valid. rewrite Forall_forall.
  intros mb Hmb. by eapply seat_ok_elem.
Qed.

Lemma member_membersBySlot p u mb : seat_ok (members p) → member p u = Some mb →
  mb ∈ membersBySlot p ∧ UserID mb = u.
Proof.
  intros Hok (i & _ & Hi & Hu)%member_find. split; [|done].
  rewrite membersBySlot_ok by done. apply seated_elem. eauto.
Qed.

(** Removing a party together with the index entries of its members. *)
Lemma wf_del m pid p bu iv : wf m → parties m !! pid = Some p →
  (∀ u, bu !! u = if decide (u ∈ users p) then None else byUser m !! u) →
  wf (mkManager (nextID m) (delete pid (parties m)) bu iv).
Proof.
  intros Hwf Hp Hbu. split; cbn.
  - apply Hwf.
  - intros pid' p' [_ H]%lookup_delete_Some. by apply Hwf.
  - intros u pid'. rewrite Hbu. unfold in_party; cbn. setoid_rewrite lookup_delete_Some.
    case_decide as Hu.
    + split; [done|]. intros (p' & [Hne Hp'] & Hu').
      destruct Hne. apply (wf_unique m u); [done|by exists p|by exists p'].
    + rewrite (wf_index m Hwf). split.
      * intros (p' & Hp' & Hu'). exists p'. split_and!; [|done..]. intros ->. congruence.
      * intros (p' & [_ Hp'] & Hu'). by exists p'.
Qed.

(** Storing a party: its members may come from the party stored there before
    or from no party at all. *)
Lemma wf_put m pid p old bu iv next : wf m → party_ok pid p → id_ok next →
  old = from_option users [] (parties m !! pid) →
  (∀ u pid', u ∈ users p → in_party m u pid' → pid' = pid) →
  (∀ u, bu !! u = if decide (u ∈ users p) then Some pid
                  else if decide (u ∈ old) then None else byUser m !! u) →
  wf (mkManager next (<[pid := p]> (parties m)) bu iv).
Proof.
  intros Hwf Hok Hnext -> Hfresh Hbu. split; cbn; [done|..].
  - intros pid' p' [[<- <-]|[_ H]]%lookup_insert_Some; [done|by apply Hwf].
  - intros u pid'. rewrite Hbu. unfold in_party; cbn.
    destruct (decide (pid' = pid)) as [->|Hne].
    + rewrite lookup_insert_eq. case_decide as Hu; [naive_solver|].
      case_decide as Ho; [naive_solver|]. rewrite (wf_index m Hwf).
      split; [|naive_solver]. intros (p' & Hp' & Hu'). by rewrite Hp' in Ho.
    + rewrite lookup_insert_ne by done. fold (in_party m u pid').
      case_decide as Hu; [|case_decide as Ho].
      * split; [naive_solver|]. intros H. by destruct Hne; apply (Hfresh u).
      * split; [done|]. intros H. destruct Hne.
        destruct (parties m !! pid) as [p0|] eqn:E; [|by apply not_elem_of_nil in Ho].
        apply (wf_unique m u); [done..|by exists p0].
      * apply (wf_index m Hwf).
Qed.

Lemma roster_length lim lead ms : (1 <= lim <= 4)%nat → (length (roster lim lead ms) <= 4)%nat.
Proof. intros. unfold roster. rewrite length_take. lia. Qed.

Lemma roster_head lim lead ms : (1 <= lim)%nat → roster lim lead ms !! 0%nat = Some lead.
Proof. intros. unfold roster. destruct lim; [lia|done]. Qed.

Lemma roster_elem lim lead ms mb : mb ∈ roster lim lead ms → mb = lead ∨ mb ∈ ms.
Proof.
  unfold roster. intros Hin%(subseteq_take _ _ mb).
  apply elem_of_cons in Hin as [->|[_ ?]%list_elem_of_filter]; auto.
Qed.

Lemma limit_nat p : 1 <= ps_MaxMembers (settings p) <= 4 → (1 <= effective_limit p <= 4)%nat.
Proof. unfold effective_limit. lia. Qed.

Lemma users_rebuilt source pid lead ms :
  users (rebuilt_party source pid lead ms)
  = UserID <$> roster (effective_limit source) lead ms.
Proof. unfold users; cbn. apply users_seat. Qed.

Lemma rebuilt_party_ok source pid lead ms :
  1 <= ps_MaxMembers (settings source) <= 4 → id_ok pid →
  all_valid ms → validRuntimePartyMember lead = true → NoDup (UserID <$> ms) →
  party_ok pid (rebuilt_party source pid lead ms).
Proof.
  intros Hlim Hid Hv Hl Hnd. pose proof (limit_nat source Hlim) as Hln. split; try done.
  - by apply length_seat, roster_length.
  - apply seat_seat_ok, Forall_forall. intros mb [->|Hin]%roster_elem; [done|].
    unfold all_valid in Hv. rewrite Forall_forall in Hv. by apply Hv.
  - rewrite users_rebuilt. unfold roster. rewrite fmap_take.
    eapply sublist_NoDup; [by apply NoDup_lead|apply sublist_take].
  - exists (seat_member 0 lead). split; [|done]. apply seat_lookup, roster_head. lia.
Qed.

(** The state after dropping party [pid] and rebuilding it around [lead]. *)
Lemma wf_replace m pid p0 source lead ms bu iv : wf m → parties m !! pid = Some p0 →
  1 <= ps_MaxMembers (settings source) <= 4 →
  all_valid ms → NoDup (UserID <$> ms) → lead ∈ ms →
  (∀ u, u ∈ UserID <$> ms → u ∈ users p0) →
  (∀ u, bu !! u = if decide (u ∈ users p0) then None else byUser m !! u) →
  let ps := delete pid (parties m) in
  let a := alloc ps (nextID m) in
  let P := rebuilt_party source a.2 lead ms in
  wf (mkManager a.1 (<[a.2 := P]> ps) (insert_users a.2 (membersBySlot P) bu) iv).
Proof.
  intros Hwf Hp Hlim Hv Hnd Hlead Hsub Hbu ps a P.
  assert (wf (mkManager (nextID m) ps bu iv)) as Hwf0 by (by eapply wf_del).
  destruct (alloc_spec ps (nextID m) pid) as (i & Ha & Hi & Hfree & _).
  { apply Hwf. } { by apply (wf_parties m Hwf pid p0). } { apply lookup_delete_eq. }
  assert (a = (cyc i 1, i)) as Ea by done. clearbody a. subst a.
  cbn [fst snd] in *.
  assert (party_ok i P) as HP.
  { apply rebuilt_party_ok; try done. unfold all_valid in Hv. rewrite Forall_forall in Hv.
    by apply Hv. }
  eapply (wf_put _ i P [] _ iv (cyc i 1) Hwf0); [done|apply cyc_ok|by cbn; rewrite Hfree|..].
  - intros u pid' Hu Hin. apply (wf_index _ Hwf0) in Hin. cbn in Hin. rewrite Hbu in Hin.
    rewrite decide_True in Hin; [done|]. apply Hsub. unfold P in Hu. rewrite users_rebuilt in Hu.
    apply list_elem_of_fmap in Hu as (mb & -> & [->|?]%roster_elem); by apply list_elem_of_fmap_2.
  - intros u. rewrite insert_users_lookup, users_membersBySlot. cbn.
    by rewrite (decide_False (P:=u ∈ [])) by set_solver.
Qed.

(** ** Lookup and removal in a well-formed state *)

Lemma partyMember_some m u p o : wf m → partyMemberLocked m u = Some (p, o) →
  ∃ pid mb, o = Some mb ∧ parties m !! pid = Some p ∧ byUser m !! u = Some pid
          ∧ member p u = Some mb ∧ party_ok pid p.
Proof.
  intros Hwf. unfold partyMemberLocked. destruct (byUser m !! u) as [pid|] eqn:Hu; cbn.
  - destruct (parties m !! pid) as [p'|] eqn:Hp; cbn; [|done]. intros [= <- <-].
    apply (wf_index m Hwf) in Hu as (p'' & Hp'' & Hin).
    assert (p'' = p') as -> by congruence.
    destruct (member p' u) as [mb|] eqn:Hm; [|by apply member_None in Hm].
    exists pid, mb. split_and!; try done. by apply (wf_parties m Hwf).
  - destruct (parties m !! 0) as [p'|] eqn:Hp; cbn; [|done].
    apply (wf_parties m Hwf) in Hp as [_ Hr]. unfold id_ok in Hr. lia.
Qed.

Lemma partyMember_at m u pid p mb : wf m → parties m !! pid = Some p → member p u = Some mb →
  partyMemberLocked m u = Some (p, Some mb).
Proof.
  intros Hwf Hp Hm. unfold partyMemberLocked.
  assert (byUser m !! u = Some pid) as -> by (apply (wf_index m Hwf); exists p;
    split; [done|by eapply member_elem]).
  cbn. rewrite Hp. cbn. by rewrite Hm.
Qed.

Lemma partyMember_none m u : wf m → partyMemberLocked m u = None ↔ byUser m !! u = None.
Proof.
  intros Hwf. unfold partyMemberLocked. destruct (byUser m !! u) as [pid|] eqn:Hu; cbn.
  - apply (wf_index m Hwf) in Hu as (p & -> & _). done.
  - split; [done|]. intros _. destruct (parties m !! 0) as [p'|] eqn:Hp; cbn; [|done].
    apply (wf_parties m Hwf) in Hp as [_ Hr]. unfold id_ok in Hr. lia.
Qed.

Lemma remove_fields p u : id (remove p u) = id p ∧ leader (remove p u) = leader p
  ∧ settings (remove p u) = settings p.
Proof. unfold remove. by destruct (slot_of p u). Qed.

Lemma remove_seat_ok p u : seat_ok (members p) → seat_ok (members (remove p u)).
Proof. intros. unfold remove. destruct (slot_of p u); [by apply seat_ok_clear|done]. Qed.

Lemma remove_ok pid p u : party_ok pid p → u ≠ leader p → party_ok pid (remove p u).
Proof.
  intros [Hid Hr Hlen Hseat Hnd Hlead Hlim Hst] Hne.
  destruct (remove_fields p u) as (E1 & E2 & E3).
  split; rewrite ?E1, ?E2, ?E3; try done.
  - unfold remove. destruct (slot_of p u); [|done]. cbn. by rewrite length_insert.
  - by apply remove_seat_ok.
  - destruct (decide (u ∈ users p)) as [Hin|Hin].
    + rewrite (remove_users p u Hin) in Hnd. by inversion Hnd.
    + unfold remove. destruct (slot_of p u) eqn:E; [|done]. destruct Hin.
      unfold slot_of in E. destruct (list_find _ _) as [[j [mb|]]|] eqn:F; try done.
      * apply list_find_Some in F as (Hi & Hh & _). apply users_elem. eauto.
      * by apply list_find_Some in F as (Hi & Hh & _).
  - destruct Hlead as (mb & H0 & Hmb). exists mb. split; [|done].
    unfold remove. destruct (slot_of p u) as [i|] eqn:E; [|done]. cbn.
    unfold slot_of in E. destruct (list_find _ _) as [[j o]|] eqn:F; [|done].
    cbn in E. injection E as ->. apply list_find_Some in F as (Hi & Hh & _).
    rewrite list_lookup_insert_ne; [done|]. intros ->. rewrite H0 in Hi. injection Hi as <-.
    cbn in Hh. congruence.
Qed.

Lemma remove_users_elem p u v : NoDup (users p) → u ∈ users p →
  v ∈ users (remove p u) ↔ v ∈ users p ∧ v ≠ u.
Proof.
  intros Hnd Hu. pose proof (remove_users p u Hu) as Hp. rewrite Hp in Hnd.
  inversion Hnd; subst. rewrite Hp, elem_of_cons. naive_solver.
Qed.

Definition cleared (m : RuntimePartyManager) (u g : Z) : gmap Z runtimePartyInvite :=
  filter (λ iv, ¬ invite_matches u g iv) (invites m).

Lemma replace_party_spec m p lead ms : 1 <= ps_MaxMembers (settings p) <= 4 →
  all_valid ms → validRuntimePartyMember lead = true → NoDup (UserID <$> ms) →
  let ps := delete (id p) (parties m) in
  let a := alloc ps (nextID m) in
  let P := rebuilt_party p a.2 lead ms in
  replace_party m p lead ms
  = (mkManager a.1 (<[a.2 := P]> ps)
       (insert_users a.2 (membersBySlot P) (delete_users ms (byUser m))) (invites m), P).
Proof. intros Hlim Hv Hl Hnd ps a P. unfold replace_party. by rewrite rebuildLocked_spec. Qed.

(** The three outcomes of a removal that finds the member's live session. *)
Inductive leave_shape (m : RuntimePartyManager) (u g pid : Z) (p : runtimeParty)
  : RuntimePartyManager → Prop :=
| shape_disband :
    users p ≡ₚ [u] →
    leave_shape m u g pid p
      (mkManager (nextID m) (delete pid (parties m)) (delete u (byUser m)) (cleared m u g))
| shape_stay :
    leader p ≠ u →
    leave_shape m u g pid p
      (mkManager (nextID m) (<[pid := remove p u]> (parties m)) (delete u (byUser m))
         (cleared m u g))
| shape_rebuild lead ms ps a P :
    leader p = u → membersBySlot (remove p u) = lead :: ms →
    ps = delete pid (parties m) → a = alloc ps (nextID m) →
    P = rebuilt_party p a.2 lead (lead :: ms) →
    leave_shape m u g pid p
      (mkManager a.1 (<[a.2 := P]> ps)
         (insert_users a.2 (membersBySlot P)
            (delete_users (lead :: ms) (delete u (byUser m)))) (cleared m u g)).

Lemma rebuilt_remove p u pid lead ms :
  rebuilt_party (remove p u) pid lead ms = rebuilt_party p pid lead ms.
Proof. unfold rebuilt_party, effective_limit. by destruct (remove_fields p u) as (_ & _ & ->). Qed.

Lemma leaveLocked_shape m u g b pid p mb : wf m →
  partyMemberLocked m u = Some (p, Some mb) → parties m !! pid = Some p →
  (g = 0 ∨ SessionGeneration mb = g) →
  leave_shape m u g pid p (leaveLocked m u g b).1 ∧ OK (leaveLocked m u g b).2 = true.
Proof.
  intros Hwf Hpm Hp Hg. destruct (partyMember_some m u p (Some mb) Hwf Hpm)
    as (pid' & mb' & [= <-] & Hp' & Hu & Hm & Hok').
  pose proof (wf_parties m Hwf _ _ Hp) as Hok.
  assert (id p = pid) as Hid by apply Hok.
  destruct (remove_fields p u) as (E1 & E2 & E3).
  unfold leaveLocked. rewrite Hpm.
  assert (negb (g =? 0) && negb (SessionGeneration mb =? g) = false) as ->.
  { destruct Hg as [->| ->]; [done|]. by rewrite Z.eqb_refl, andb_false_r. }
  rewrite count_users. assert (u ∈ users p) as Hin by (by eapply member_elem).
  pose proof (remove_users p u Hin) as Hperm.
  cbv zeta. destruct (zlen (users (remove p u)) =? 0) eqn:Hc; bool_clean.
  - cbn [fst snd]. split; [|done]. rewrite E1, Hid.
    unfold set_parties, clearInvitesForLocked, set_invites, set_byUser; cbn.
    rewrite delete_insert_eq. apply shape_disband. rewrite Hperm.
    unfold zlen in Hc. destruct (users (remove p u)); [done|cbn in Hc; lia].
  - destruct (leader p =? u) eqn:Hl; bool_clean; cbn [negb andb].
    2:{ cbn [fst snd]. split; [|done]. rewrite E1, Hid. by apply shape_stay. }
    pose proof (remove_seat_ok p u (ok_seat _ _ Hok)) as Hseat.
    pose proof (membersBySlot_valid _ Hseat) as Hv.
    pose proof (users_membersBySlot (remove p u)) as Hus.
    destruct (membersBySlot (remove p u)) as [|lead ms] eqn:Hms.
    { exfalso. apply Hc. by rewrite <- Hus. }
    cbn [head default]. rewrite replace_party_spec.
    + cbn [fst snd]. split; [|done].
      rewrite rebuilt_remove, E1, Hid. unfold set_parties, clearInvitesForLocked, set_invites, set_byUser.
      cbn [parties byUser nextID invites]. rewrite delete_insert_eq.
      by apply (shape_rebuild m u g pid p lead ms _ _ _ Hl Hms).
    + rewrite E3. apply Hok.
    + done.
    + by apply Forall_cons in Hv as [? _].
    + rewrite Hus. pose proof (ok_nodup _ _ Hok) as Hnd. rewrite Hperm in Hnd. by inversion Hnd.
Qed.

Lemma delete_user_lookup m p u v : wf m → users p ≡ₚ [u] →
  delete u (byUser m) !! v = if decide (v ∈ users p) then None else byUser m !! v.
Proof.
  intros Hwf Hp. destruct (decide (v = u)) as [->|Hne].
  - by rewrite lookup_delete_eq, decide_True by (rewrite Hp; set_solver).
  - by rewrite lookup_delete_ne, decide_False by (done || rewrite Hp; set_solver).
Qed.

Lemma rebuild_index m pid p u lead ms v : wf m → parties m !! pid = Some p → u ∈ users p →
  membersBySlot (remove p u) = lead :: ms →
  delete_users (lead :: ms) (delete u (byUser m)) !! v
  = if decide (v ∈ users p) then None else byUser m !! v.
Proof.
  intros Hwf Hp Hu Hms. pose proof (wf_parties m Hwf _ _ Hp) as Hok.
  rewrite delete_users_lookup, <- Hms, users_membersBySlot.
  pose proof (remove_users_elem p u v (ok_nodup _ _ Hok) Hu) as Hv.
  destruct (decide (v = u)) as [->|Hne].
  - rewrite lookup_delete_eq. by rewrite (decide_True (P:=u ∈ users p)), decide_False by naive_solver.
  - rewrite lookup_delete_ne by done. repeat case_decide; naive_solver.
Qed.

(** *** What a removal preserves *)

Lemma leave_shape_spec m u g pid p m' : wf m → parties m !! pid = Some p → u ∈ users p →
  leave_shape m u g pid p m' →
  wf m' ∧ byUser m' !! u = None
  ∧ (∀ q p', q ≠ pid → parties m !! q = Some p' → parties m' !! q = Some p')
  ∧ (∀ r, id_ok r → nextID m = cyc r 1 → parties m !! r = None → parties m' !! r = None).
Proof.
  intros Hwf Hp Hu Hs. pose proof (wf_parties m Hwf _ _ Hp) as Hok.
  destruct Hs as [Hus|Hl|lead ms ps a P Hl Hms -> -> ->]; cbn [parties byUser].
  - split_and!.
    + apply (wf_del m pid p); [done..|]. intros v. by apply delete_user_lookup.
    + apply lookup_delete_eq.
    + intros. by rewrite lookup_delete_ne.
    + intros r _ _ Hr. by apply lookup_delete_None; right.
  - assert (byUser m !! u = Some pid) as Hidx by (apply (wf_index m Hwf); by exists p).
    split_and!.
    + apply (wf_put m pid (remove p u) (users p)); try done.
      * by apply remove_ok.
      * apply Hwf.
      * by rewrite Hp.
      * intros v pid' [Hv _]%remove_users_elem Hin; [|apply Hok|done].
        apply (wf_unique m v); [done..|by exists p].
      * intros v. pose proof (remove_users_elem p u v (ok_nodup _ _ Hok) Hu) as Hv.
        destruct (decide (v = u)) as [->|Hne].
        -- rewrite lookup_delete_eq, decide_False by naive_solver. by rewrite decide_True.
        -- rewrite lookup_delete_ne by done. repeat case_decide; try naive_solver.
           apply (wf_index m Hwf). exists p. naive_solver.
    + apply lookup_delete_eq.
    + intros. by rewrite lookup_insert_ne.
    + intros r _ _ Hr. rewrite lookup_insert_ne; [done|]. congruence.
  - pose proof (remove_seat_ok p u (ok_seat _ _ Hok)) as Hseat.
    pose proof (membersBySlot_valid _ Hseat) as Hv.
    pose proof (users_membersBySlot (remove p u)) as Hus. rewrite Hms in *.
    pose proof (remove_users_elem p u u (ok_nodup _ _ Hok) Hu) as Hru.
    destruct (alloc_spec (delete pid (parties m)) (nextID m) pid) as (i & Ha & Hi & Hf & Hr).
    { apply Hwf. } { apply Hok. } { apply lookup_delete_eq. }
    split_and!.
    + eapply wf_replace; try done.
      * apply Hok.
      * rewrite Hus. pose proof (ok_nodup _ _ Hok) as Hnd.
        rewrite (remove_users p u Hu) in Hnd. by inversion Hnd.
      * set_solver.
      * rewrite Hus. intros v. rewrite remove_users_elem by (done || apply Hok). naive_solver.
      * intros v. by apply (rebuild_index m pid).
    + rewrite insert_users_lookup, users_membersBySlot, users_rebuilt.
      rewrite decide_False; [by rewrite (rebuild_index m pid p u), decide_True|].
      intros (mb & Hmb & Hin)%list_elem_of_fmap. apply Hru; [|done].
      rewrite <- Hus, Hmb. apply list_elem_of_fmap_2. apply roster_elem in Hin. set_solver.
    + intros q p' Hne Hq. rewrite Ha. cbn. rewrite lookup_insert_ne by (intros ->;
        rewrite lookup_delete_ne in Hf by done; congruence). by rewrite lookup_delete_ne.
    + intros r Hrok Hnext Hrn. rewrite Ha. cbn. rewrite lookup_insert_ne.
      * apply lookup_delete_None. by right.
      * apply Hr; [done..|]. congruence.
Qed.

(** A removal either finds the live session of the member, or leaves the state
    alone. *)
Lemma leaveLocked_cases m u g b : wf m →
  (OK (leaveLocked m u g b).2 = false ∧ (leaveLocked m u g b).1 = m
     ∧ (byUser m !! u = None ∨ session_current m u g = false)) ∨
  (∃ pid p, OK (leaveLocked m u g b).2 = true ∧ parties m !! pid = Some p ∧ u ∈ users p
     ∧ leave_shape m u g pid p (leaveLocked m u g b).1).
Proof.
  intros Hwf. destruct (partyMemberLocked m u) as [[p o]|] eqn:Hpm.
  - destruct (partyMember_some m u p o Hwf Hpm) as (pid & mb & -> & Hp & Hu & Hm & Hok).
    destruct (decide (g = 0 ∨ SessionGeneration mb = g)) as [Hg|Hg].
    + right. exists pid, p. destruct (leaveLocked_shape m u g b pid p mb) as [? ?]; try done.
      split_and!; try done. by eapply member_elem.
    + left. unfold leaveLocked, session_current. rewrite Hpm.
      destruct (g =? 0) eqn:E1; bool_clean; [naive_solver|].
      destruct (SessionGeneration mb =? g) eqn:E2; bool_clean; [naive_solver|]. cbn. by auto.
  - left. assert (byUser m !! u = None) by (by apply partyMember_none).
    unfold leaveLocked. rewrite Hpm. destruct b; cbn; auto.
Qed.

Lemma leaveLocked_wf m u g b : wf m → wf (leaveLocked m u g b).1.
Proof.
  intros Hwf. destruct (leaveLocked_cases m u g b Hwf) as [(_ & -> & _)|(pid & p & _ & Hp & Hu & Hs)];
    [done|]. by eapply leave_shape_spec.
Qed.

Lemma leaveLocked_detached m u g b : wf m → session_current m u g = true →
  byUser (leaveLocked m u g b).1 !! u = None.
Proof.
  intros Hwf Hc. destruct (leaveLocked_cases m u g b Hwf)
    as [(_ & -> & [?|?])|(pid & p & _ & Hp & Hu & Hs)]; [done|congruence|].
  by eapply leave_shape_spec.
Qed.

(** A detachment leaves every party the user is not seated in untouched. *)
Lemma leaveLocked_other m u g b q p : wf m → parties m !! q = Some p → u ∉ users p →
  parties (leaveLocked m u g b).1 !! q = Some p.
Proof.
  intros Hwf Hq Hu. destruct (leaveLocked_cases m u g b Hwf)
    as [(_ & -> & _)|(pid & p' & _ & Hp & Hu' & Hs)]; [done|].
  eapply leave_shape_spec; try done. intros ->. congruence.
Qed.

(** The identifier reserved just before a detachment stays free. *)
Lemma leaveLocked_reserved m u g b r : wf m → id_ok r → nextID m = cyc r 1 →
  parties m !! r = None → parties (leaveLocked m u g b).1 !! r = None.
Proof.
  intros Hwf Hr Hn Hf. destruct (leaveLocked_cases m u g b Hwf)
    as [(_ & -> & _)|(pid & p' & _ & Hp & Hu' & Hs)]; [done|].
  by eapply leave_shape_spec.
Qed.

(** ** Every operation keeps the state well formed *)

Lemma normalize_limit s : 0 <= ps_MaxMembers s ->
  1 <= ps_MaxMembers (normalizeRuntimePartySettings s) <= 4.
Proof.
  intros. cbn. unfold currentRuntimePartyMaxMembers.
  destruct (_ =? 0) eqn:E1; bool_clean; cbn; [lia|]. destruct (_ <? _) eqn:E2; bool_clean; lia.
Qed.

Lemma add_new_party pid lead s : 0 <= ps_MaxMembers s → validRuntimePartyMember lead = true →
  add (new_party pid lead s) lead = Some (set_members (new_party pid lead s) (seat [lead])).
Proof.
  intros Hs Hv. pose proof (normalize_limit s Hs) as Hlim.
  apply (add_seat_some _ []); [done|exact Hlim| |done|by apply not_elem_of_nil].
  apply (limit_nat (new_party pid lead s) Hlim).
Qed.

Lemma new_party_ok pid lead s : 0 <= ps_MaxMembers s → validRuntimePartyMember lead = true →
  id_ok pid → party_ok pid (set_members (new_party pid lead s) (seat [lead])).
Proof.
  intros Hs Hv Hid. split; try done.
  - apply seat_seat_ok. by constructor.
  - unfold users, set_members; cbn [members]. rewrite users_seat. apply NoDup_singleton.
  - by exists (seat_member 0 lead).
  - by apply normalize_limit.
Qed.

(** Storing a new single-member party for a detached user. *)
Lemma wf_put_new m pid lead s : wf m → 0 <= ps_MaxMembers s →
  validRuntimePartyMember lead = true → id_ok pid → parties m !! pid = None →
  byUser m !! UserID lead = None →
  wf (mkManager (nextID m) (<[pid := set_members (new_party pid lead s) (seat [lead])]> (parties m))
        (<[UserID lead := pid]> (byUser m)) (invites m)).
Proof.
  intros Hwf Hs Hv Hid Hf Hu. set (p := set_members _ _).
  assert (users p = [UserID lead]) as Hup by apply users_seat.
  eapply (wf_put m pid p []); [done|by apply new_party_ok|apply Hwf|by rewrite Hf|..].
  - intros u pid' Hin Hin'. rewrite Hup in Hin. apply list_elem_of_singleton in Hin as ->.
    apply (wf_index m Hwf) in Hin'. congruence.
  - intros u. rewrite Hup. rewrite (decide_False (P:=u ∈ [])) by set_solver.
    destruct (decide (u = UserID lead)) as [->|].
    + rewrite lookup_insert_eq, decide_True by set_solver. done.
    + rewrite lookup_insert_ne, decide_False by (done || set_solver). done.
Qed.

Lemma add_ok pid p mb p' : party_ok pid p → add p mb = Some p' →
  party_ok pid p' ∧ users p' ≡ₚ UserID mb :: users p.
Proof.
  intros Hok (i & Hi & _ & -> & Hu & Hv)%add_spec.
  destruct (users_insert _ _ _ (Some (seat_member i mb)) Hi) as (rest & H1 & H2). cbn in H1, H2.
  assert (users (set_members p (<[i:=Some (seat_member i mb)]> (members p)))
          ≡ₚ UserID mb :: users p) as Hp.
  { unfold users, set_members; cbn [members]. by rewrite H1, H2. }
  split; [|done]. destruct Hok as [? ? ? ? ? (l & Hl0 & ?) ? ?]. split; cbn; try done.
  - by rewrite length_insert.
  - destruct (seat_member_ok i mb Hv) as (? & ? & ?). by apply seat_ok_insert.
  - rewrite Hp. by constructor.
  - exists l. split; [|done]. rewrite list_lookup_insert_ne; [done|]. intros ->. congruence.
Qed.

(** Replacing a stored party by one with the same users. *)
Lemma wf_update m pid p p' : wf m → parties m !! pid = Some p → party_ok pid p' →
  users p' ≡ₚ users p → wf (set_parties m (<[pid := p']> (parties m))).
Proof.
  intros Hwf Hp Hok Hus. apply (wf_put m pid p' (users p)); try done.
  - apply Hwf.
  - by rewrite Hp.
  - intros u pid' Hu Hin. apply (wf_unique m u); [done..|]. exists p. by rewrite <- Hus.
  - intros u. assert (u ∈ users p' ↔ u ∈ users p) as Hu by (by rewrite Hus).
    destruct (decide (u ∈ users p)) as [Hin|Hin].
    + rewrite decide_True by tauto. apply (wf_index m Hwf). by exists p.
    + by rewrite decide_False by tauto.
Qed.

Lemma Create_wf m lead s : wf m → 0 <= ps_MaxMembers s →
  session_current m (UserID lead) (SessionGeneration lead) = true → wf (Create m lead s).1.
Proof.
  intros Hwf Hs Hc. unfold Create. destruct (negb _) eqn:Hv; [done|]. bool_clean.
  rewrite nextPartyIDLocked_alloc.
  destruct (alloc_result (parties m) (nextID m)) as [Hn Hr]; [apply Hwf|].
  destruct (_ =? 0) eqn:Hz; bool_clean; [by apply set_nextID_wf|].
  destruct Hr as [?|(i & Ha & Hi & Hf)]; [done|]. rewrite Ha in *. cbn [fst snd] in *.
  pose proof (set_nextID_wf m _ Hwf Hn) as Hwf1.
  pose proof (leaveLocked_wf _ (UserID lead) (SessionGeneration lead) true Hwf1) as Hwf2.
  pose proof (leaveLocked_detached _ _ (SessionGeneration lead) true Hwf1 Hc) as Hd.
  pose proof (leaveLocked_reserved _ (UserID lead) (SessionGeneration lead) true i Hwf1 Hi
                eq_refl Hf) as Hfree.
  destruct (leaveLocked _ _ _ _) as [m2 prior]. cbn [fst] in *.
  rewrite add_new_party by done. cbn [fst].
  by apply (wf_put_new m2 i lead s).
Qed.

Lemma EnsureLeader_wf m lead s : wf m → 0 <= ps_MaxMembers s → wf (EnsureLeader m lead s).1.
Proof.
  intros Hwf Hs. unfold EnsureLeader. destruct (negb _) eqn:Hv; [done|]. bool_clean.
  destruct (partyMemberLocked m (UserID lead)) as [[p o]|] eqn:Hpm.
  - destruct (partyMember_some m _ p o Hwf Hpm) as (pid & mb & -> & _).
    by repeat case_match.
  - apply partyMember_none in Hpm; [|done]. rewrite nextPartyIDLocked_alloc.
    destruct (alloc_result (parties m) (nextID m)) as [Hn Hr]; [apply Hwf|].
    destruct (_ =? 0) eqn:Hz; bool_clean; [by apply set_nextID_wf|].
    destruct Hr as [?|(i & Ha & Hi & Hf)]; [done|]. rewrite Ha in *. cbn [fst snd] in *.
    rewrite add_new_party by done. cbn [fst].
    apply (wf_put_new (set_nextID m (cyc i 1))); try done. by apply set_nextID_wf.
Qed.

Lemma Join_wf m pid mb : wf m →
  session_current m (UserID mb) (SessionGeneration mb) = true → wf (Join m pid mb).1.
Proof.
  intros Hwf Hc. unfold Join. destruct (_ || _) eqn:Hv; [done|]. bool_clean.
  destruct (parties m !! pid) as [p|] eqn:Hp; [|done].
  destruct (member p (UserID mb)) as [ex|] eqn:Hm; [by case_match|].
  apply member_None in Hm. destruct (full p); [done|].
  pose proof (leaveLocked_wf m (UserID mb) (SessionGeneration mb) true Hwf) as Hwf2.
  pose proof (leaveLocked_detached _ _ (SessionGeneration mb) true Hwf Hc) as Hd.
  pose proof (leaveLocked_other m _ (SessionGeneration mb) true pid p Hwf Hp Hm) as Hp2.
  destruct (leaveLocked _ _ _ _) as [m2 prior]. cbn [fst] in *.
  destruct (add p mb) as [p'|] eqn:Ha; [|done]. cbn [fst].
  pose proof (wf_parties m Hwf _ _ Hp) as Hok.
  destruct (add_ok pid p mb p' Hok Ha) as [Hok' Hus]. rewrite (ok_id _ _ Hok').
  apply (wf_put m2 pid p' (users p)); try done.
  - apply Hwf2.
  - by rewrite Hp2.
  - intros u pid' Hu Hin. rewrite Hus in Hu. apply elem_of_cons in Hu as [->|Hu].
    + apply (wf_index m2 Hwf2) in Hin. congruence.
    + apply (wf_unique m2 u); [done..|by exists p].
  - intros u. cbn [byUser set_parties set_byUser].
    destruct (decide (u = UserID mb)) as [->|Hne].
    + rewrite lookup_insert_eq, decide_True by (rewrite Hus; set_solver). done.
    + rewrite lookup_insert_ne by done.
      assert (u ∈ users p' ↔ u ∈ users p) as Hu by (rewrite Hus; set_solver).
      destruct (decide (u ∈ users p)) as [Hin|Hin].
      * rewrite decide_True by tauto. apply (wf_index m2 Hwf2). by exists p.
      * by rewrite decide_False by tauto.
Qed.

Lemma Kick_wf m a ag t tg : wf m → wf (Kick m a ag t tg).1.
Proof.
  intros Hwf. unfold Kick. destruct (_ || _) eqn:Hv; [done|]. bool_clean.
  destruct (partyMemberLocked m a) as [[p o]|] eqn:Hpm; [|done].
  destruct (partyMember_some m a p o Hwf Hpm) as (pid & mb & -> & Hp & Hu & Hm & Hok).
  destruct (negb _); [done|]. destruct (negb (leader p =? a)) eqn:Hl; [done|]. bool_clean.
  destruct (member p t) as [tm|] eqn:Ht; [|done]. destruct (negb _); [done|]. cbn [fst].
  destruct (remove_fields p t) as (E1 & _ & _). rewrite E1, (ok_id _ _ Hok).
  apply member_elem in Ht.
  apply (leave_shape_spec m t tg pid p _ Hwf Hp Ht). apply shape_stay. congruence.
Qed.

Lemma TransferLeader_wf m a ag t tg : wf m → wf (TransferLeader m a ag t tg).1.
Proof.
  intros Hwf. unfold TransferLeader. destruct (_ || _) eqn:Hv; [done|]. bool_clean.
  destruct (partyMemberLocked m a) as [[p o]|] eqn:Hpm; [|done].
  destruct (partyMember_some m a p o Hwf Hpm) as (pid & mb & -> & Hp & Hu & Hm & Hok).
  destruct (negb _); [done|]. destruct (negb _); [done|].
  destruct (member p t) as [tm|] eqn:Ht; [|done]. destruct (negb _); [done|].
  pose proof (member_membersBySlot p t tm (ok_seat _ _ Hok) Ht) as [Hin Heq].
  pose proof (membersBySlot_valid p (ok_seat _ _ Hok)) as Hv'.
  pose proof (users_membersBySlot p) as Hus.
  rewrite replace_party_spec.
  - cbn [fst]. rewrite (ok_id _ _ Hok). apply (wf_replace m pid p); try done.
    + apply Hok.
    + rewrite Hus. apply Hok.
    + by rewrite Hus.
    + intros u. rewrite delete_users_lookup. by rewrite Hus.
  - apply Hok.
  - done.
  - unfold all_valid in Hv'. rewrite Forall_forall in Hv'. by apply Hv'.
  - rewrite Hus. apply Hok.
Qed.

Lemma UpdateSettings_wf m u g s : wf m → 0 <= ps_MaxMembers s → wf (UpdateSettings m u g s).1.
Proof.
  intros Hwf Hs. unfold UpdateSettings. destruct (_ || _); [done|].
  destruct (partyMemberLocked m u) as [[p o]|] eqn:Hpm; [|done].
  destruct (partyMember_some m u p o Hwf Hpm) as (pid & mb & -> & Hp & Hu & Hm & Hok).
  destruct (negb _); [done|]. destruct (negb _); [done|]. cbn [fst].
  cbn [id set_settings]. rewrite (ok_id _ _ Hok). apply (wf_update m pid p); [done..| |done].
  destruct Hok. split; try done. by apply normalize_limit.
Qed.

Lemma RebindSession_wf m u g mb : wf m → wf (RebindSession m u g mb).1.
Proof.
  intros Hwf. unfold RebindSession. destruct (_ || _) eqn:Hv; [done|].
  apply orb_false_iff in Hv as [[_ Hvm]%orb_false_iff Hmb]. bool_clean.
  destruct (partyMemberLocked m u) as [[p o]|] eqn:Hpm; [|by apply set_invites_wf].
  destruct (partyMember_some m u p o Hwf Hpm) as (pid & old & -> & Hp & Hu & Hm & Hok).
  destruct (negb _); [done|]. cbn [fst]. apply set_invites_wf.
  destruct (member_find p u old Hm) as (i & -> & Hi & Hold).
  set (mb' := set_state _ _). pose proof (ok_seat _ _ Hok i old Hi) as (Hslot & _ & _).
  destruct (users_insert _ _ _ (Some mb') Hi) as (rest & HA & HB). cbn in HA, HB.
  assert (users (set_members p (<[i:=Some mb']> (members p))) ≡ₚ users p) as Hus.
  { unfold users, set_members; cbn [members]. rewrite HA, HB. by rewrite Hmb, Hold. }
  cbn [id set_members]. rewrite (ok_id _ _ Hok). apply (wf_update m pid p); [done..| |done].
  destruct Hok as [? ? ? ? ? (l & Hl0 & ?) ? ?]. split; cbn; try done.
  - by rewrite length_insert.
  - apply seat_ok_insert; [done..|]. cbn. rewrite <- Hmb. by rewrite normalize_idem.
  - by rewrite Hus.
  - destruct (decide (i = 0%nat)) as [->|].
    + exists mb'. rewrite list_lookup_insert_eq by (by eapply lookup_lt_Some).
      split; [done|]. cbn. congruence.
    + exists l. by rewrite list_lookup_insert_ne.
Qed.

Lemma swap_users ms i j a b f g : i ≠ j → ms !! i = Some a → ms !! j = Some b →
  (∀ x, UserID (f x) = UserID x) → (∀ x, UserID (g x) = UserID x) →
  users_of (<[j := f <$> a]> (<[i := g <$> b]> ms)) ≡ₚ users_of ms.
Proof.
  intros Hij Ha Hb Hf Hg.
  destruct (users_insert ms i a (g <$> b) Ha) as (r1 & A1 & A2).
  assert (<[i := g <$> b]> ms !! j = Some b) as Hb' by (by rewrite list_lookup_insert_ne).
  destruct (users_insert _ j b (f <$> a) Hb') as (r2 & B1 & B2).
  assert (UserID <$> (g <$> b) = UserID <$> b) as Eg by (destruct b; cbn; by rewrite ?Hg).
  assert (UserID <$> (f <$> a) = UserID <$> a) as Ef by (destruct a; cbn; by rewrite ?Hf).
  rewrite Eg in A2. rewrite Ef in B2. rewrite B2, A1.
  apply Permutation_app_head. apply (Permutation_app_inv_l (option_list (UserID <$> b))).
  by rewrite <- B1, <- A2.
Qed.

Lemma seat_ok_swap ms i j a b : seat_ok ms → ms !! i = Some a → ms !! j = Some b →
  seat_ok (<[j := (λ x, set_slot x j) <$> a]> (<[i := (λ x, set_slot x i) <$> b]> ms)).
Proof.
  assert (∀ ms i o, seat_ok ms →
    (∀ x, o = Some x → validRuntimePartyMember x = true
                     ∧ State x = normalizeRuntimePartyMember (State x) (UserID x)) →
    seat_ok (<[i := (λ x, set_slot x i) <$> o]> ms)) as Hone.
  { intros ms' k [x|] Hok Hx; cbn; [|by apply seat_ok_clear].
    destruct (Hx x eq_refl). by apply seat_ok_insert. }
  intros Hok Ha Hb. apply Hone; [apply Hone; [done|]|].
  - intros x ->. by eapply Hok.
  - intros x ->. by eapply Hok.
Qed.

Lemma Reposition_wf m a g i j : wf m → wf (Reposition m a g i j).1.
Proof.
  intros Hwf. unfold Reposition. destruct (_ || _) eqn:Hv; [done|].
  bool_clean.
  destruct (partyMemberLocked m a) as [[p o]|] eqn:Hpm; [|done].
  destruct (partyMember_some m a p o Hwf Hpm) as (pid & mb & -> & Hp & Hu & Hm & Hok).
  destruct (negb _); [done|]. destruct (negb _); [done|].
  destruct (_ || _ || _) eqn:Hz; [done|].
  bool_clean. cbn [fst].
  pose proof (ok_len _ _ Hok) as Hlen.
  destruct (lookup_lt_is_Some_2 (members p) i) as [x Hx]; [lia|].
  destruct (lookup_lt_is_Some_2 (members p) j) as [y Hy]; [lia|].
  unfold at_slot. rewrite Hx, Hy. change (default None (Some ?z)) with z.
  cbn [id set_members]. rewrite (ok_id _ _ Hok).
  assert (users_of (<[j := (λ x, set_slot x j) <$> x]> (<[i := (λ x, set_slot x i) <$> y]> (members p)))
          ≡ₚ users_of (members p)) as Hus by (by apply swap_users).
  apply (wf_update m pid p); [done..| |].
  - destruct Hok as [? ? ? ? ? (l & Hl0 & ?) ? ?]. split; cbn; try done.
    + by rewrite !length_insert.
    + by apply seat_ok_swap.
    + unfold users; cbn [members set_members]. by rewrite Hus.
    + exists l. by rewrite !list_lookup_insert_ne.
  - exact Hus.
Qed.

(** ** Reachable states *)

Lemma step_wf m m' : wf m → party_step m m' → wf m'.
Proof.
  intros Hwf Hs. revert Hwf. destruct Hs as [m op Ht Hc]. intros Hwf. destruct op; cbn in *.
  - apply Create_wf; [done|lia|done].
  - apply EnsureLeader_wf; [done|lia].
  - by apply Join_wf.
  - unfold Leave. destruct (_ || _); [done|]. by apply leaveLocked_wf.
  - by apply Kick_wf.
  - by apply TransferLeader_wf.
  - apply UpdateSettings_wf; [done|lia].
  - by apply RebindSession_wf.
  - by apply Reposition_wf.
  - unfold RecordInvite. destruct (_ || _ || _ || _ || _); [done|]. by apply set_invites_wf.
  - unfold ConsumeInvite. destruct (invites m !! _); [|done].
    destruct (_ || _); [done|]. by apply set_invites_wf.
Qed.

Lemma reachable_wf m : star party_step NewRuntimePartyManager m → wf m.
Proof.
  intros H. eapply (star_invariant party_step wf); [by apply step_wf|exact H|apply new_wf].
Qed.

(** ** Failures *)

Lemma add_total pid p mb : party_ok pid p → full p = false →
  validRuntimePartyMember mb = true → UserID mb ∉ users p → is_Some (add p mb).
Proof.
  intros Hok Hf Hv Hu. unfold add. rewrite Hv, Hf. cbn.
  apply member_None in Hu. rewrite Hu. cbn.
  destruct (list_find _ _) as [[i o]|] eqn:F; [by eexists|]. exfalso.
  apply list_find_None in F. unfold full, count in Hf.
  assert (length (seated (members p)) = length (members p)) as Hl.
  { clear -F. unfold seated. induction F as [|[x|] l Hx _ IH]; cbn; [done|by f_equal|].
    destruct Hx. by intros [? ?]. }
  pose proof (ok_len _ _ Hok) as H4. pose proof (ok_limit _ _ Hok) as Hlim.
  unfold zlen, currentRuntimePartyMaxMembers in *.
  destruct (_ =? 0) eqn:E1; cbn [orb] in Hf; bool_clean; [lia|].
  destruct (Z.of_nat 4 <? _) eqn:E2; bool_clean; lia.
Qed.

(** ** Failures *)

Lemma Create_fail m lead s : wf m → 0 <= ps_MaxMembers s → OK (Create m lead s).2 = false →
  parties (Create m lead s).1 = parties m ∧ byUser (Create m lead s).1 = byUser m
  ∧ invites (Create m lead s).1 = invites m.
Proof.
  intros Hwf Hs. unfold Create. destruct (negb _) eqn:Hv; [done|]. bool_clean.
  rewrite nextPartyIDLocked_alloc. destruct (_ =? 0) eqn:Hz; [done|].
  destruct (leaveLocked _ _ _ _) as [m2 prior]. rewrite add_new_party by done. cbn.
  unfold with_prior. by destruct (OK prior).
Qed.

Lemma EnsureLeader_fail m lead s : wf m → 0 <= ps_MaxMembers s →
  OK (EnsureLeader m lead s).2 = false →
  parties (EnsureLeader m lead s).1 = parties m ∧ byUser (EnsureLeader m lead s).1 = byUser m
  ∧ invites (EnsureLeader m lead s).1 = invites m.
Proof.
  intros Hwf Hs. unfold EnsureLeader. destruct (negb _) eqn:Hv; [done|]. bool_clean.
  rewrite nextPartyIDLocked_alloc. rewrite add_new_party by done.
  destruct (partyMemberLocked _ _) as [[? [?|]]|]; intros H; by repeat case_match.
Qed.

Lemma Join_fail m pid mb : wf m → OK (Join m pid mb).2 = false → (Join m pid mb).1 = m.
Proof.
  intros Hwf. unfold Join. destruct (_ || _) eqn:Hv; [done|]. bool_clean.
  destruct (parties m !! pid) as [p|] eqn:Hp; [|done].
  destruct (member p (UserID mb)) eqn:Hm; [by case_match|]. destruct (full p) eqn:Hf; [done|].
  destruct (leaveLocked _ _ _ _) as [m2 prior].
  destruct (add_total pid p mb) as [p' ->]; try done.
  - by apply (wf_parties m Hwf).
  - by apply member_None.
  - cbn. unfold with_prior. by destruct (OK prior).
Qed.

Lemma leaveLocked_fail m u g b : wf m → OK (leaveLocked m u g b).2 = false →
  (leaveLocked m u g b).1 = m.
Proof.
  intros Hwf H. destruct (leaveLocked_cases m u g b Hwf) as [(_ & -> & _)|(? & ? & H' & _)];
    [done|congruence].
Qed.

(** What a failed operation must leave alone. *)
Definition same_seating (m m' : RuntimePartyManager) : Prop :=
  parties m' = parties m ∧ byUser m' = byUser m ∧ invites m' ⊆ invites m.

Lemma same_seating_refl m : same_seating m m.
Proof. done. Qed.

(** Destructs the guards of a method whose failing branches return the state
    unchanged. *)
Ltac guards := repeat first [ progress cbn [fst snd] | done | intros ? | case_match ];
  subst; try apply same_seating_refl.

Lemma run_fail m op : wf m → op_typed op → (run m op).2 = false → same_seating m (run m op).1.
Proof.
  intros Hwf Ht. destruct op; cbn [run fst snd op_typed] in *.
  - intros H. destruct (Create_fail m lead s) as (E1 & E2 & E3); [done|lia|done|].
    unfold same_seating. by rewrite E1, E2, E3.
  - intros H. destruct (EnsureLeader_fail m lead s) as (E1 & E2 & E3); [done|lia|done|].
    unfold same_seating. by rewrite E1, E2, E3.
  - intros H. by rewrite Join_fail.
  - unfold Leave. destruct (_ || _); [done|]. intros H. by rewrite leaveLocked_fail.
  - unfold Kick. guards.
  - unfold TransferLeader. destruct (_ || _); [done|].
    destruct (partyMemberLocked _ _) as [[? [?|]]|]; try done.
    repeat (destruct (negb _); [done|]). destruct (member _ _); [|done].
    destruct (negb _); [done|]. by destruct (replace_party _ _ _ _).
  - unfold UpdateSettings. guards.
  - unfold RebindSession. destruct (_ || _); [done|].
    destruct (partyMemberLocked _ _) as [[? [?|]]|].
    + by destruct (negb _).
    + intros _. split_and!; try done. apply map_filter_subseteq.
    + intros _. split_and!; try done. apply map_filter_subseteq.
  - unfold Reposition. guards.
  - unfold RecordInvite. guards.
  - unfold ConsumeInvite. destruct (invites m !! _); [|done]. by destruct (_ || _ || _ || _).
Qed.

(** ** Replacing a party *)

(** Lookup in the index of a party that replaces [p]. *)
Lemma replaced_index m pid p i P bu v : wf m → parties m !! pid = Some p →
  (∀ v, bu !! v = if decide (v ∈ users p) then None else byUser m !! v) →
  insert_users i (membersBySlot P) bu !! v
  = if decide (v ∈ users P) then Some i
    else if decide (v ∈ users p) then None else byUser m !! v.
Proof. intros. rewrite insert_users_lookup, users_membersBySlot. case_decide; auto. Qed.

(** A leader in slot zero heads the roster; the others follow in slot order. *)
Lemma filter_lead lead ms : NoDup (UserID <$> lead :: ms) →
  filter (λ mb, UserID mb ≠ UserID lead) (lead :: ms) = ms.
Proof.
  rewrite fmap_cons. intros [Hni Hnd]%NoDup_cons. rewrite filter_cons_False by naive_solver.
  induction ms as [|x ms IH]; [done|]. rewrite fmap_cons in Hni, Hnd.
  apply not_elem_of_cons in Hni as [Hne Hni]. rewrite filter_cons_True by naive_solver.
  f_equal. apply IH; [done|by inversion Hnd].
Qed.

Lemma membersBySlot_rebuilt p i lead ms :
  membersBySlot (rebuilt_party p i lead ms)
  = imap seat_member (roster (effective_limit p) lead ms).
Proof. by apply membersBySlot_seat. Qed.

(** A member as another party of the same characters would seat it again. *)
Lemma leave_lead_result m u g b pid p mb lead ms : wf m → parties m !! pid = Some p →
  member p u = Some mb → (g = 0 ∨ SessionGeneration mb = g) → leader p = u →
  membersBySlot (remove p u) = lead :: ms →
  ∃ i, id_ok i ∧ delete pid (parties m) !! i = None
    ∧ alloc (delete pid (parties m)) (nextID m) = (cyc i 1, i)
    ∧ leaveLocked m u g b
      = (mkManager (cyc i 1)
           (<[i := rebuilt_party p i lead (lead :: ms)]> (delete pid (parties m)))
           (insert_users i (membersBySlot (rebuilt_party p i lead (lead :: ms)))
              (delete_users (lead :: ms) (delete u (byUser m)))) (cleared m u g),
         with_retired (with_previous
            (runtimePartySuccess (rebuilt_party p i lead (lead :: ms)) u)
            (snapshotRuntimeParty p)) (snapshotRuntimeParty p)).
Proof.
  intros Hwf Hp Hm Hg Hl Hms. pose proof (wf_parties m Hwf _ _ Hp) as Hok.
  destruct (alloc_spec (delete pid (parties m)) (nextID m) pid) as (i & Ha & Hi & Hf & _).
  { apply Hwf. } { apply Hok. } { apply lookup_delete_eq. }
  exists i. split_and!; [done..|].
  pose proof (member_elem _ _ _ Hm) as Hin.
  pose proof (ok_id _ _ Hok) as Hid. destruct (remove_fields p u) as (E1 & E2 & E3).
  pose proof (users_membersBySlot (remove p u)) as Hus. rewrite Hms in Hus.
  pose proof (remove_users p u Hin) as Hperm.
  unfold leaveLocked. rewrite (partyMember_at m u pid p mb) by done.
  assert (negb (g =? 0) && negb (SessionGeneration mb =? g) = false) as ->.
  { destruct Hg as [->| ->]; [done|]. by rewrite Z.eqb_refl, andb_false_r. }
  rewrite !count_users. rewrite <- Hus at 1. cbn [fmap list_fmap]. rewrite Hl, Z.eqb_refl.
  assert ((zlen (UserID lead :: (UserID <$> ms)) =? 0) = false) as -> by (apply Z.eqb_neq; unfold zlen; cbn; lia).
  assert ((1 <? zlen (users p)) = true) as ->.
  { apply Z.ltb_lt. unfold zlen. rewrite Hperm, <- Hus. cbn. lia. }
  cbn [negb andb]. rewrite Hms. cbn [head default from_option].
  pose proof (membersBySlot_valid _ (remove_seat_ok p u (ok_seat _ _ Hok))) as Hv.
  rewrite Hms in Hv. rewrite replace_party_spec.
  - rewrite rebuilt_remove, E1, Hid.
    unfold set_parties, clearInvitesForLocked, set_invites, set_byUser.
    cbn [parties byUser nextID invites]. rewrite delete_insert_eq, Ha. done.
  - rewrite E3. apply Hok.
  - done.
  - by apply Forall_cons in Hv as [? _].
  - rewrite Hus. pose proof (ok_nodup _ _ Hok) as Hnd. rewrite Hperm in Hnd. by inversion Hnd.
Qed.
