(* ===== verification/PartyTheorems.v ===== *)
(** * What the party manager guarantees

    The properties of the party manager of [Party.v], each with an execution
    it applies to, and the executions that show where the code departs from
    its own comments. *)

From S2P Require Import Prelude Party PartySeats PartyInvariant.

(** ** Concrete executions *)

Definition person (u g : Z) : RuntimePartyMember := mkRuntimePartyMember u g zero_member_state 0.
Definition sized (n : Z) : PartyState :=
  mkPartyState 0 false 0 0 [] 0 0 [] 0 n 0 0 0 0 0 0 0.

Definition run_all (ops : list party_op) : RuntimePartyManager :=
  foldl (λ m op, (run m op).1) NewRuntimePartyManager ops.

(** The three members of one party; 7 leads, 8 and 9 follow. *)
Definition trio_ops : list party_op :=
  [OpCreate (person 7 70) (sized 0); OpJoin 1 (person 8 80); OpJoin 1 (person 9 90)].
Definition trio : RuntimePartyManager := run_all trio_ops.

Lemma run_all_reachable ops : ∀ m,
  Forall op_typed ops →
  (∀ k, (k < length ops)%nat →
     forallb (op_current (foldl (λ m op, (run m op).1) m (take k ops)))
       (take 1 (drop k ops)) = true) →
  star party_step m (foldl (λ m op, (run m op).1) m ops).
Proof.
  induction ops as [|op ops IH]; intros m Ht Hc; [constructor|].
  apply Forall_cons in Ht as [Ht Hts]. econstructor.
  - apply (party_step_run m op); [done|]. specialize (Hc 0%nat ltac:(cbn; lia)). cbn in Hc.
    by rewrite andb_true_r in Hc.
  - apply IH; [done|]. intros k Hk. apply (Hc (S k)). cbn. lia.
Qed.

Definition current_all (ops : list party_op) : bool :=
  forallb (λ k, forallb (op_current (run_all (take k ops))) (take 1 (drop k ops)))
    (seq 0 (length ops)).

Lemma reachable_run ops : Forall op_typed ops → current_all ops = true →
  star party_step NewRuntimePartyManager (run_all ops).
Proof.
  intros Ht Hc. apply run_all_reachable; [done|]. intros k Hk.
  unfold current_all in Hc. rewrite forallb_forall in Hc. apply Hc, in_seq. lia.
Qed.

Lemma trio_reachable : star party_step NewRuntimePartyManager trio.
Proof. apply reachable_run; [by repeat apply Forall_cons_2|by vm_compute]. Qed.

Lemma trio_wf : wf trio.
Proof. apply reachable_wf, trio_reachable. Qed.

(** ** Properties *)

(** C10: Whatever operations are executed, as long as a seated character only
    creates or joins parties from the session it is seated with, the seating
    stays consistent: every stored party has an identifier in 1..65534, four
    slots whose occupants are valid, distinct and know their slot, its leader
    in slot zero and a size between one and four, and the user index is exactly
    the seating, so no character is in two parties. *)
Theorem party_seating_invariant m :
  star party_step NewRuntimePartyManager m →
  wf m ∧ ∀ u pid pid', in_party m u pid → in_party m u pid' → pid = pid'.
Proof.
  intros H%reachable_wf. split; [done|]. intros u pid pid'. by apply wf_unique.
Qed.

Lemma party_seating_invariant_witness :
  wf trio ∧ ∀ u pid pid', in_party trio u pid → in_party trio u pid' → pid = pid'.
Proof.
  apply party_seating_invariant. apply (reachable_run trio_ops).
  - by repeat apply Forall_cons_2.
  - vm_compute. reflexivity.
Defined.

(** C11: An operation that reports failure, be it for a stale session, a
    missing member or party, a full party or a caller that is not the leader,
    leaves the parties and the user index exactly as they were, and never adds
    an invite. *)
Theorem failed_operation_changes_nothing m op :
  wf m → op_typed op → (run m op).2 = false → same_seating m (run m op).1.
Proof. apply run_fail. Qed.

Lemma failed_operation_changes_nothing_witness :
  same_seating trio (run trio (OpKick 8 80 9 90)).1.
Proof.
  apply failed_operation_changes_nothing; [apply trio_wf|done|vm_compute; reflexivity].
Defined.

(** C12: When the leader of a party with other members leaves from its live
    session, the operation succeeds, the party is retired and its survivors are
    seated in a new party under a free identifier: the first survivor in slot
    order leads from slot zero, the others follow in slot order, cut at the
    configured size; the index follows, and the result carries the retired and
    the new roster. *)
Theorem leader_leave_rebuilds m u g pid p mb lead ms :
  wf m → parties m !! pid = Some p → leader p = u → member p u = Some mb →
  SessionGeneration mb = g → g ≠ 0 → u ≠ 0 → membersBySlot (remove p u) = lead :: ms →
  ∃ i P m' r, Leave m u g = (m', r) ∧ id_ok i ∧ delete pid (parties m) !! i = None
    ∧ id P = i ∧ leader P = UserID lead
    ∧ membersBySlot P = imap seat_member (take (effective_limit p) (lead :: ms))
    ∧ parties m' = <[i := P]> (delete pid (parties m))
    ∧ (∀ v, byUser m' !! v = if decide (v ∈ users P) then Some i
                             else if decide (v ∈ users p) then None else byUser m !! v)
    ∧ OK r = true ∧ Party r = snapshotRuntimeParty P ∧ LeaderMoved r = true
    ∧ Retired r = Some (snapshotRuntimeParty p).
Proof.
  intros Hwf Hp Hl Hm Hg Hg0 Hu0 Hms. pose proof (wf_parties m Hwf _ _ Hp) as Hok.
  destruct (leave_lead_result m u g false pid p mb lead ms) as (i & Hi & Hf & Ha & Heq); auto.
  unfold Leave. rewrite (proj2 (Z.eqb_neq u 0)), (proj2 (Z.eqb_neq g 0)) by done. cbn [orb].
  eexists i, (rebuilt_party p i lead (lead :: ms)), _, _. split; [exact Heq|]. split_and!; try done; try reflexivity.
  - rewrite membersBySlot_rebuilt. unfold roster. rewrite filter_lead; [done|].
    rewrite <- Hms, users_membersBySlot. pose proof (ok_nodup _ _ Hok) as Hnd.
    rewrite (remove_users p u) in Hnd by (by eapply member_elem). by inversion Hnd.
  - intros v. cbn [byUser]. eapply replaced_index; [done..|].
    intros v'. by apply (rebuild_index m pid); [..|eapply member_elem|].
Qed.

Lemma leader_leave_rebuilds_witness : ∃ i P m' r, Leave trio 7 70 = (m', r) ∧
  parties m' = <[i := P]> (delete 1 (parties trio)) ∧ leader P = 8 ∧ LeaderMoved r = true.
Proof.
  destruct (parties trio !! 1) as [p|] eqn:Hp; [|vm_compute in Hp; discriminate].
  assert (leader p = 7 ∧ (SessionGeneration <$> member p 7) = Some 70
          ∧ (UserID <$> membersBySlot (remove p 7)) = [8; 9]) as (Hl & Hm & Hms).
  { vm_compute in Hp. injection Hp as <-. vm_compute. auto. }
  destruct (member p 7) as [mb|] eqn:Em; [|discriminate].
  destruct (membersBySlot (remove p 7)) as [|lead ms] eqn:Es; [discriminate|].
  destruct (leader_leave_rebuilds trio 7 70 1 p mb lead ms) as (i & P & m' & r & H).
  - apply trio_wf.
  - exact Hp.
  - exact Hl.
  - exact Em.
  - injection Hm as ->. reflexivity.
  - lia.
  - lia.
  - exact Es.
  - exists i, P, m', r. destruct H as (? & _ & _ & _ & HL & _ & ? & _ & _ & _ & ? & _).
    injection Hms as E _. rewrite E in HL. auto.
Defined.

(** C13: A leader transfer between two live sessions of one party succeeds and
    replaces the party by one under a free identifier in which the named member
    leads from slot zero and the others, the old leader included, follow in
    their slot order, cut at the configured size. *)
Theorem transfer_leader_rebuilds m u g t tg pid p mb tm :
  wf m → parties m !! pid = Some p → leader p = u → member p u = Some mb →
  SessionGeneration mb = g → member p t = Some tm → SessionGeneration tm = tg →
  u ≠ 0 → t ≠ 0 → g ≠ 0 → tg ≠ 0 →
  ∃ i P m' r, TransferLeader m u g t tg = (m', r) ∧ id_ok i
    ∧ delete pid (parties m) !! i = None ∧ id P = i ∧ leader P = t
    ∧ membersBySlot P = imap seat_member
        (take (effective_limit p)
           (tm :: filter (λ x, UserID x ≠ t) (membersBySlot p)))
    ∧ parties m' = <[i := P]> (delete pid (parties m))
    ∧ OK r = true ∧ Retired r = Some (snapshotRuntimeParty p) ∧ LeaderMoved r = true.
Proof.
  intros Hwf Hp Hl Hm Hg Ht Htg Hu0 Ht0 Hg0 Htg0. pose proof (wf_parties m Hwf _ _ Hp) as Hok.
  destruct (alloc_spec (delete pid (parties m)) (nextID m) pid) as (i & Ha & Hi & Hf & _).
  { apply Hwf. } { apply Hok. } { apply lookup_delete_eq. }
  pose proof (member_membersBySlot p t tm (ok_seat _ _ Hok) Ht) as [Hin Heq].
  pose proof (membersBySlot_valid p (ok_seat _ _ Hok)) as Hv.
  unfold TransferLeader. rewrite (partyMember_at m u pid p mb) by done.
  rewrite !(proj2 (Z.eqb_neq _ 0)) by done. cbn [orb].
  rewrite Hg, Hl, Ht, Htg, !Z.eqb_refl. cbn [negb]. rewrite replace_party_spec.
  - rewrite (ok_id _ _ Hok), Ha. cbn [fst snd].
    eexists i, (rebuilt_party p i tm (membersBySlot p)), _, _. split; [reflexivity|].
    split_and!; try done; try reflexivity. rewrite membersBySlot_rebuilt. unfold roster. by rewrite Heq.
  - apply Hok.
  - done.
  - unfold all_valid in Hv. rewrite Forall_forall in Hv. by apply Hv.
  - rewrite users_membersBySlot. apply Hok.
Qed.

Lemma transfer_leader_rebuilds_witness : ∃ i P m' r, TransferLeader trio 7 70 9 90 = (m', r) ∧
  parties m' = <[i := P]> (delete 1 (parties trio)) ∧ leader P = 9 ∧ OK r = true.
Proof.
  destruct (parties trio !! 1) as [p|] eqn:Hp; [|vm_compute in Hp; discriminate].
  assert (leader p = 7 ∧ (SessionGeneration <$> member p 7) = Some 70
          ∧ (SessionGeneration <$> member p 9) = Some 90) as (Hl & Hm & Ht).
  { vm_compute in Hp. injection Hp as <-. vm_compute. auto. }
  destruct (member p 7) as [mb|] eqn:Em; [|discriminate].
  destruct (member p 9) as [tm|] eqn:Et; [|discriminate].
  injection Hm as Hm. injection Ht as Ht.
  destruct (transfer_leader_rebuilds trio 7 70 9 90 1 p mb tm) as (i & P & m' & r & H);
    [apply trio_wf|exact Hp|exact Hl|exact Em|exact Hm|exact Et|exact Ht|lia..|].
  exists i, P, m', r. destruct H as (? & _ & _ & _ & ? & _ & ? & ? & _). auto.
Defined.

(** C14: A recorded invite is consumed only by the invitee and inviter sessions
    and the mode it was recorded for, yields the recorded party, is gone after
    the first consumption, and is withdrawn when either of the two sessions
    leaves its party. *)
Theorem invite_lifecycle m a ag b bg pid md m1 :
  wf m → RecordInvite m a ag b bg pid md = (m1, true) →
  (∀ ag' b' bg' md', (ConsumeInvite m1 a ag' b' bg' md').2
     = if decide (ag' = ag ∧ b' = b ∧ bg' = bg ∧ md' = md) then (pid, true) else (0, false))
  ∧ (∀ ag' b' bg' md',
       (ConsumeInvite (ConsumeInvite m1 a ag b bg md).1 a ag' b' bg' md').2 = (0, false))
  ∧ (∀ u g m2 r, (u, g) ∈ [(a, ag); (b, bg)] → Leave m1 u g = (m2, r) → OK r = true →
       invites m2 !! a = None).
Proof.
  intros Hwf Hr. unfold RecordInvite in Hr. destruct (_ || _ || _ || _ || _) eqn:Hv; [done|].
  bool_clean. injection Hr as <-. split_and!.
  - intros ag' b' bg' md'. unfold ConsumeInvite. cbn [invites set_invites].
    rewrite lookup_insert_eq. cbn [inviteeGeneration inviter inviterGeneration mode].
    case_decide as Hd.
    + destruct Hd as (-> & -> & -> & ->). rewrite !Z.eqb_refl. done.
    + destruct (_ || _ || _ || _) eqn:E; [done|]. bool_clean. destruct Hd. auto.
  - intros ag' b' bg' md'. unfold ConsumeInvite at 2. cbn [invites set_invites].
    rewrite lookup_insert_eq. cbn [inviteeGeneration inviter inviterGeneration mode].
    rewrite !Z.eqb_refl. cbn. unfold ConsumeInvite. cbn [invites set_invites].
    by rewrite lookup_delete_eq.
  - intros u g m2 r Hin Hl Hok. unfold Leave in Hl. destruct (_ || _); [by injection Hl as <- <-|].
    assert (wf (set_invites m (<[a:=mkInvite a ag b bg pid md]> (invites m)))) as Hwf1
      by by apply set_invites_wf.
    destruct (leaveLocked_cases _ u g false Hwf1) as [(Hf & _)|(q & p & _ & _ & _ & Hs)];
      rewrite Hl in *; cbn [fst snd] in *; [congruence|].
    assert (invites m2 = cleared (set_invites m (<[a:=mkInvite a ag b bg pid md]> (invites m))) u g)
      as -> by by destruct Hs.
    unfold cleared. apply map_lookup_filter_None_2. right. intros iv Hiv.
    cbn [invites set_invites] in Hiv. rewrite lookup_insert_eq in Hiv. injection Hiv as <-.
    intros Hn. apply Hn. unfold invite_matches. cbn. set_solver.
Qed.

Lemma invite_lifecycle_witness : ∃ m1, RecordInvite trio 20 200 7 70 1 3 = (m1, true) ∧
  (ConsumeInvite m1 20 200 7 70 3).2 = (1, true) ∧ (ConsumeInvite m1 20 201 7 70 3).2 = (0, false).
Proof.
  eexists. split; [reflexivity|].
  destruct (invite_lifecycle trio 20 200 7 70 1 3 _ trio_wf eq_refl) as (H & _).
  rewrite !H. split; reflexivity.
Defined.

(** ** Where the code departs from its comments *)

(** [Create] ignores the failure of the detachment when the character is seated
    with another session: the character then leads a new party and still sits
    in the old one, so the detachment is not atomic. *)
Lemma stale_create_two_parties :
  let m := run_all [OpCreate (person 7 70) (sized 0); OpCreate (person 7 71) (sized 0)] in
  in_party m 7 1 ∧ in_party m 7 2.
Proof.
  cbv zeta. split; (eexists; split; [vm_compute; reflexivity|]); apply users_elem;
    exists 0%nat; eexists; (split; [vm_compute; reflexivity|reflexivity]).
Qed.

(** [Join] ignores it too. *)
Lemma stale_join_two_parties :
  let m := run_all [OpCreate (person 7 70) (sized 0); OpCreate (person 8 80) (sized 0);
                    OpJoin 2 (person 7 71)] in
  in_party m 7 1 ∧ in_party m 7 2.
Proof.
  cbv zeta. split.
  - eexists; split; [vm_compute; reflexivity|]. apply users_elem. exists 0%nat; eexists.
    split; [vm_compute; reflexivity|reflexivity].
  - eexists; split; [vm_compute; reflexivity|]. apply users_elem. exists 1%nat; eexists.
    split; [vm_compute; reflexivity|reflexivity].
Qed.

(** Lowering the size of a party below its member count makes the next leader
    change drop members, who are then in no party and are told nothing. *)
Lemma shrunk_party_drops_members :
  let m := run_all (trio_ops ++ [OpUpdateSettings 7 70 (sized 1); OpLeave 7 70]) in
  in_party m 8 2 ∧ byUser m !! 9 = None.
Proof.
  cbv zeta. split; [|by vm_compute].
  eexists; split; [vm_compute; reflexivity|]. apply users_elem. exists 0%nat; eexists.
  split; [vm_compute; reflexivity|reflexivity].
Qed.

(** The rebuild frees the retired identifier before it allocates one, so when
    the rotation is back at that identifier the new generation reuses it. *)
Lemma leader_leave_can_reuse_id :
  let m := set_nextID trio 1 in
  wf m ∧ ∃ p, parties (Leave m 7 70).1 !! 1 = Some p ∧ leader p = 8.
Proof.
  cbv zeta. split; [apply set_nextID_wf; [apply trio_wf|done]|].
  eexists; split; [vm_compute; reflexivity|reflexivity].
Qed.
