(* ===== verification/GoStrings.v ===== *)
(** * Go strings as rune sequences

    The packages [strings], [strconv] and [unicode] as far as the modelled
    code uses them.  A string is the sequence of runes that ranging over it yields;
    an invalid byte is the rune U+FFFD, which is no space, digit or letter. *)

From S2P Require Import Prelude.

Definition runes := list Z.

Definition of_string (s : string) : runes :=
  (λ a, Z.of_N (Ascii.N_of_ascii a)) <$> String.list_ascii_of_string s.

(** ** unicode *)

(** [unicode.IsSpace]. *)
Definition IsSpace (r : Z) : bool :=
  ((9 <=? r) && (r <=? 13)) || (r =? 32) || (r =? 133) || (r =? 160) || (r =? 5760)
  || ((8192 <=? r) && (r <=? 8202)) || (r =? 8232) || (r =? 8233) || (r =? 8239)
  || (r =? 8287) || (r =? 12288).

(** [unicode.ToLower], for comparison with ASCII words: besides the capital
    letters, only U+0130 and U+212A are mapped to ASCII runes; the remaining
    runes keep a non-ASCII image and are left as they are here. *)
Definition ToLower_rune (r : Z) : Z :=
  if (65 <=? r) && (r <=? 90) then r + 32
  else if r =? 304 then 105 else if r =? 8490 then 107 else r.

(** Simple case folding of a rune, for comparison with ASCII words: U+017F
    folds to s and U+212A to k. *)
Definition fold_rune (r : Z) : Z :=
  if (65 <=? r) && (r <=? 90) then r + 32
  else if r =? 383 then 115 else if r =? 8490 then 107 else r.

(** ** strings *)

Fixpoint drop_while (f : Z → bool) (s : runes) : runes :=
  match s with
  | [] => []
  | r :: s' => if f r then drop_while f s' else s
  end.

Definition trim_func (f : Z → bool) (s : runes) : runes :=
  rev (drop_while f (rev (drop_while f s))).

Definition TrimSpace : runes → runes := trim_func IsSpace.
Definition Trim (s cutset : runes) : runes := trim_func (λ r, bool_decide (r ∈ cutset)) s.
Definition ToLower (s : runes) : runes := ToLower_rune <$> s.
(** [strings.EqualFold] with an ASCII word. *)
Definition EqualFold (s word : runes) : bool := bool_decide (fold_rune <$> s = fold_rune <$> word).

(** [strings.Cut] around the first occurrence of a rune. *)
Fixpoint Cut (s : runes) (sep : Z) : option (runes * runes) :=
  match s with
  | [] => None
  | r :: s' => if r =? sep then Some ([], s')
               else '(a, b) ← Cut s' sep; Some (r :: a, b)
  end.

(** [strings.Split] at every occurrence of a rune; never empty. *)
Fixpoint Split (s : runes) (sep : Z) : list runes :=
  match s with
  | [] => [[]]
  | r :: s' =>
      let rest := Split s' sep in
      if r =? sep then [] :: rest
      else match rest with [] => [[r]] | l :: ls => (r :: l) :: ls end
  end.

(** [strings.ReplaceAll (s, CRLF, LF)] *)
Fixpoint replace_crlf (s : runes) : runes :=
  match s with
  | [] => []
  | r :: s' =>
      match s' with
      | r' :: s'' => if (r =? 13) && (r' =? 10) then 10 :: replace_crlf s'' else r :: replace_crlf s'
      | [] => [r]
      end
  end.

(** ** strconv *)

(** [strconv.ParseInt (s, 10, 64)]: an optional sign, at least one digit, digits
    only, and a value in range. *)
Definition is_digit (r : Z) : bool := (48 <=? r) && (r <=? 57).

Definition parse_digits (s : runes) : option Z :=
  match s with
  | [] => None
  | _ => if forallb is_digit s then Some (foldl (λ n r, n * 10 + (r - 48)) 0 s) else None
  end.

Definition split_sign (s : runes) : bool * runes :=
  match s with
  | [] => (false, [])
  | r :: s' => if r =? 43 then (false, s') else if r =? 45 then (true, s') else (false, s)
  end.

Definition ParseInt (s : runes) : option Z :=
  let '(neg, digits) := split_sign s in
  n ← parse_digits digits;
  let n := if (neg : bool) then - n else n in
  if (- two63 <=? n) && (n <? two63) then Some n else None.

(** Decimal digits of a number, most significant first; the fuel is its bit
    length, which bounds the number of digits. *)
Fixpoint digits_fuel (fuel : nat) (n : Z) : runes :=
  match fuel with
  | O => []
  | S fuel => if n <? 10 then [48 + n] else digits_fuel fuel (n / 10) ++ [48 + n mod 10]
  end.

(** The [%d] verb. *)
Definition format_int (n : Z) : runes :=
  let d := digits_fuel (S (Z.to_nat (Z.log2_up (Z.abs n + 1)))) (Z.abs n) in
  if n <? 0 then 45 :: d else d.

(** ** Facts *)

Lemma drop_while_ext f s : drop_while f s = s ↔ match s with [] => True | r :: _ => f r = false end.
Proof.
  destruct s as [|r s]; cbn; [done|]. destruct (f r); [|done]. split; [|done].
  intros H. assert (length (drop_while f s) <= length s)%nat as Hl.
  { clear. induction s as [|x s IH]; cbn; [done|]. destruct (f x); cbn; lia. }
  rewrite H in Hl. cbn in Hl. lia.
Qed.

(** A string without spaces at its ends is left alone. *)
Lemma trim_func_id f s : (∀ r, r ∈ s → f r = false) → trim_func f s = s.
Proof.
  intros H. unfold trim_func.
  assert (∀ l, (∀ r, r ∈ l → f r = false) → drop_while f l = l) as Hd.
  { intros [|r l] Hl; [done|]. cbn. rewrite Hl; [done|]. set_solver. }
  rewrite (Hd s H), Hd; [by rewrite rev_involutive|].
  intros r Hr. apply H. rewrite rev_alt in Hr. by apply elem_of_reverse.
Qed.

Lemma Cut_spec s1 s2 sep : sep ∉ s1 → Cut (s1 ++ sep :: s2) sep = Some (s1, s2).
Proof.
  induction s1 as [|r s1 IH]; cbn; intros H.
  - by rewrite Z.eqb_refl.
  - rewrite (proj2 (Z.eqb_neq r sep)) by set_solver. rewrite IH by set_solver. done.
Qed.

Definition digit_runes (s : runes) : Prop := ∀ r, r ∈ s → 48 <= r <= 57.

Lemma digits_fuel_digits fuel : ∀ n, 0 <= n → digit_runes (digits_fuel fuel n).
Proof.
  induction fuel as [|fuel IH]; intros n Hn r Hr; cbn in Hr; [by apply not_elem_of_nil in Hr|].
  destruct (n <? 10) eqn:E; bool_clean.
  - apply list_elem_of_singleton in Hr. lia.
  - apply elem_of_app in Hr as [Hr|Hr].
    + apply (IH (n / 10)); [apply Z.div_pos; lia|done].
    + apply list_elem_of_singleton in Hr. pose proof (Z.mod_pos_bound n 10). lia.
Qed.

Lemma digits_fuel_value fuel : ∀ n, 0 <= n < 2 ^ Z.of_nat fuel →
  foldl (λ n r, n * 10 + (r - 48)) 0 (digits_fuel fuel n) = n.
Proof.
  induction fuel as [|fuel IH]; intros n Hn; cbn [digits_fuel].
  - cbn in *. lia.
  - destruct (n <? 10) eqn:E; bool_clean; [cbn; lia|].
    rewrite foldl_app. cbn. rewrite IH.
    + pose proof (Z.div_mod n 10 ltac:(lia)). lia.
    + rewrite Nat2Z.inj_succ, Z.pow_succ_r in Hn by lia.
      split; [apply Z.div_pos; lia|]. apply Z.div_lt_upper_bound; lia.
Qed.

Lemma digits_fuel_nonempty fuel n : digits_fuel (S fuel) n ≠ [].
Proof. cbn. destruct (n <? 10); [done|]. by destruct (digits_fuel fuel (n / 10)). Qed.

Lemma parse_digits_fuel fuel n : 0 <= n < 2 ^ Z.of_nat (S fuel) →
  parse_digits (digits_fuel (S fuel) n) = Some n.
Proof.
  intros Hn. unfold parse_digits. pose proof (digits_fuel_nonempty fuel n) as Hne.
  pose proof (digits_fuel_digits (S fuel) n ltac:(lia)) as Hd.
  pose proof (digits_fuel_value (S fuel) n Hn) as Hv.
  destruct (digits_fuel (S fuel) n) as [|r s] eqn:E; [done|].
  assert (forallb is_digit (r :: s) = true) as ->; [|by rewrite Hv].
  apply forallb_forall. intros x Hx%list_elem_of_In. unfold is_digit.
  specialize (Hd x Hx). apply andb_true_iff. rewrite !Z.leb_le. lia.
Qed.

Lemma fuel_bound n : 0 <= n → n < 2 ^ Z.of_nat (S (Z.to_nat (Z.log2_up (n + 1)))).
Proof.
  intros Hn. rewrite Nat2Z.inj_succ, Z2Nat.id by apply Z.log2_up_nonneg.
  pose proof (Z.log2_up_nonneg (n + 1)). rewrite Z.pow_succ_r by done.
  destruct (Z.eq_dec n 0) as [->|]; [cbn; lia|].
  pose proof (Z.log2_up_spec (n + 1) ltac:(lia)). lia.
Qed.

Lemma split_sign_minus s : split_sign (45 :: s) = (true, s).
Proof. done. Qed.

(** Parsing what [%d] prints. *)
Lemma ParseInt_format n : in_i64 n → ParseInt (format_int n) = Some n.
Proof.
  intros Hn. unfold format_int.
  set (fuel := Z.to_nat (Z.log2_up (Z.abs n + 1))).
  assert (parse_digits (digits_fuel (S fuel) (Z.abs n)) = Some (Z.abs n)) as Hp.
  { apply parse_digits_fuel. split; [lia|]. apply fuel_bound. lia. }
  pose proof (digits_fuel_digits (S fuel) (Z.abs n) ltac:(lia)) as Hd.
  assert ((- two63 <=? n) && (n <? two63) = true) as Hr.
  { unfold in_i64 in Hn. apply andb_true_iff. rewrite Z.leb_le, Z.ltb_lt. done. }
  unfold ParseInt. destruct (n <? 0) eqn:E; [apply Z.ltb_lt in E|apply Z.ltb_ge in E].
  - rewrite split_sign_minus, Hp. cbn. replace (- Z.abs n) with n by lia. by rewrite Hr.
  - destruct (digits_fuel (S fuel) (Z.abs n)) as [|r s] eqn:Es; [done|].
    assert (48 <= r <= 57) as Hrb by (apply Hd; set_solver).
    assert (split_sign (r :: s) = (false, r :: s)) as ->.
    { cbn. by rewrite !(proj2 (Z.eqb_neq r _)) by lia. }
    rewrite Hp. cbn. replace (Z.abs n) with n by lia. by rewrite Hr.
Qed.

Lemma format_int_runes n r : r ∈ format_int n → r = 45 ∨ 48 <= r <= 57.
Proof.
  unfold format_int. pose proof (digits_fuel_digits (S (Z.to_nat (Z.log2_up (Z.abs n + 1)))) (Z.abs n)
    ltac:(lia)) as Hd. destruct (n <? 0).
  - intros [->|H]%elem_of_cons; [by left|right; by apply Hd].
  - intros H. right. by apply Hd.
Qed.
