(* ===== verification/Worldmap.v ===== *)
(** * Dungeon data and the map resolver's lookups

    Models the records of [src/go-server/internal/modules/dnf/worldmap/]
    ([types.go], [dungeon_types.go], [dungeon_topology.go], [resolver.go]) as
    far as the dungeon code reads them, and the lookups of [resolver.go] on a
    built index.  The file parsers and the construction of the index from file
    names are not modelled: a [Resolver] is any index value. *)

From S2P Require Import Prelude GoStrings.

(** ** Errors: the sentinel values wrapped by the code *)

Inductive wm_error :=
| ErrResolverTableRequired | ErrDungeonNotIndexed | ErrMazeNotFound | ErrMapReferenceMissing
| ErrMapUnresolved | ErrMapAmbiguous | ErrMapPoolEmpty | ErrMapPoolChoiceInvalid
| ErrLayeredSpecMissing | ErrLayeredSpecAmbiguous | ErrLayeredIndexInvalid
| ErrStoryStageMissing | ErrStoryStageIndexInvalid
| ErrTopologyResolverRequired | ErrTopologyEmpty
| ErrRunTopologyRequired | ErrRunStartMissing | ErrRunNotActive | ErrRunCurrentRoomNotCleared
| ErrRunTargetVisitChanged | ErrRoomCoordinateMalformed | ErrRoomNotFound | ErrRoomNotAdjacent
| ErrRoomMapUnresolved | ErrLayeredCoordinateMismatch | ErrLayeredTransitionChanged
| ErrLayeredBaseMismatch | ErrStoryStageTransitionChanged
| ErrDungeonRunRequired | ErrHostileReferenceInvalid | ErrRuntimeObjectKeyInvalid
| ErrRuntimeObjectKeyBound | ErrHostileAlreadyBound | ErrHostileNotBound
| ErrHostileAlreadyDefeated | ErrRevisitSceneRequired | ErrRevisitSceneUnexpected
| ErrRevisitSceneMismatch.

#[export] Instance wm_error_eq_dec : EqDecision wm_error.
Proof. solve_decision. Defined.

Abbreviation result := (outcome wm_error).

(** ** Map data *)

(** Fields of a map that the modelled code copies and compares but never reads:
    the summon rows and everything not listed in [Map] below. *)
Class MapPayload := {
  MapSummon : Type;
  MapRest : Type;
  MapSummon_eq_dec :: EqDecision MapSummon;
  MapRest_eq_dec :: EqDecision MapRest
}.

Record RoomCoordinate := mkRoom { X : Z; Y : Z }.
Record OptionalInt := mkOptInt { oi_Value : Z; oi_Set : bool }.
Record Point3 := mkPoint3 { p3_X : Z; p3_Y : Z; p3_Z : Z }.

Record MonsterSpawn := mkMonsterSpawn {
  MonsterID : Z; ms_Level : Z; AutoLevel : Z; ms_Position : Point3;
  RandomDropCount : Z; FixedDropCount : Z; Placement : runes; Rank : runes; SuffixMarker : runes
}.
Record NPCSpawn := mkNPCSpawn {
  NPCID : Z; npc_Direction : runes; npc_Position : Point3; npc_Params : list Z
}.
Record AICharacter := mkAICharacter {
  Code : Z; ai_Position : RoomCoordinate; ai_Direction : Z; Faction : runes; AIType : runes;
  ai_Params : list Z
}.
Record PassiveObject := mkPassiveObject { ObjectID : Z; po_X : Z; po_Y : Z; po_Flags : Z }.
Record SpecialObjectSpawn := mkSpecialObjectSpawn {
  so_Kind : runes; so_Code : Z; so_Level : Z; so_Params : Z * Z * Z
}.
Record HellPartyEntry := mkHellPartyEntry { GroupID : Z; hp_Rate : Z; hp_Order : Z }.
Record SpecialPassiveObject := mkSpecialPassiveObject {
  sp_Base : PassiveObject; sp_Spawns : list SpecialObjectSpawn; sp_HellParty : list HellPartyEntry
}.
Record Portal := mkPortal {
  po_Slot : Z; po_Position : option RoomCoordinate; po_ObjectID : OptionalInt
}.

Record Map `{MapPayload} := mkMap {
  map_ID : Z;
  map_Path : runes;
  map_DungeonIDs : list Z;
  map_Monsters : list MonsterSpawn;
  map_NPCs : list NPCSpawn;
  map_AICharacters : list AICharacter;
  map_PassiveObjects : list PassiveObject;
  map_SpecialPassiveObjects : list SpecialPassiveObject;
  map_Portals : list Portal;
  map_Summons : list MapSummon;
  map_MonsterTeam : list Z;
  map_rest : MapRest
}.

Arguments mkMap {_}.

#[export] Instance RoomCoordinate_eq_dec : EqDecision RoomCoordinate.
Proof. solve_decision. Defined.
#[export] Instance OptionalInt_eq_dec : EqDecision OptionalInt.
Proof. solve_decision. Defined.
#[export] Instance Point3_eq_dec : EqDecision Point3.
Proof. solve_decision. Defined.
#[export] Instance MonsterSpawn_eq_dec : EqDecision MonsterSpawn.
Proof. solve_decision. Defined.
#[export] Instance NPCSpawn_eq_dec : EqDecision NPCSpawn.
Proof. solve_decision. Defined.
#[export] Instance AICharacter_eq_dec : EqDecision AICharacter.
Proof. solve_decision. Defined.
#[export] Instance PassiveObject_eq_dec : EqDecision PassiveObject.
Proof. solve_decision. Defined.
#[export] Instance SpecialObjectSpawn_eq_dec : EqDecision SpecialObjectSpawn.
Proof. solve_decision. Defined.
#[export] Instance HellPartyEntry_eq_dec : EqDecision HellPartyEntry.
Proof. solve_decision. Defined.
#[export] Instance SpecialPassiveObject_eq_dec : EqDecision SpecialPassiveObject.
Proof. solve_decision. Defined.
#[export] Instance Portal_eq_dec : EqDecision Portal.
Proof. solve_decision. Defined.
#[export] Instance Map_eq_dec `{MapPayload} : EqDecision Map.
Proof. solve_decision. Defined.

(** ** Dungeon definitions *)

Record MazePoint := mkMazePoint { mp_X : Z; mp_Y : Z; mp_Params : list Z }.
Record MapSpecification := mkMapSpecification {
  spec_Type : runes; spec_Coordinate : RoomCoordinate; MapIDs : list Z; SectionOccurrence : Z
}.

(** The maze sections that the topology and the resolver read. *)
Record Maze := mkMaze {
  maze_Index : Z;
  Width : OptionalInt;
  Height : OptionalInt;
  Greed : runes;
  MapSpecifications : list MapSpecification;
  maze_Start : option MazePoint;
  maze_Boss : option MazePoint;
  QuestConnection : list Z;
  BossSpecifications : list MapSpecification;
  LayeredSpecifications : list MapSpecification
}.

(** [dun_Flags] is [Metadata.Flags]. *)
Record Dungeon := mkDungeon { dun_ID : Z; dun_Flags : gmap string bool; Mazes : list Maze }.

Record Table `{MapPayload} := mkTable {
  t_maps : list Map;
  t_dungeons : list Dungeon;
  mapByID : gmap Z nat
}.

Arguments mkTable {_}.

Inductive MapFileType :=
| MapFileNormal | MapFileStart | MapFileBoss | MapFileNamed
| MapFileEnd | MapFileHidden | MapFileQuest | MapFileDefault.
#[export] Instance MapFileType_eq_dec : EqDecision MapFileType.
Proof. solve_decision. Defined.
#[export] Instance MapFileType_countable : Countable MapFileType.
Proof.
  apply (inj_countable' (λ t, match t with
    | MapFileNormal => 0 | MapFileStart => 1 | MapFileBoss => 2 | MapFileNamed => 3
    | MapFileEnd => 4 | MapFileHidden => 5 | MapFileQuest => 6 | MapFileDefault => 7 end%nat)
    (λ n, match n with
    | 0 => MapFileNormal | 1 => MapFileStart | 2 => MapFileBoss | 3 => MapFileNamed
    | 4 => MapFileEnd | 5 => MapFileHidden | 6 => MapFileQuest | _ => MapFileDefault end%nat)).
  by intros [].
Defined.

Inductive ResolutionSource :=
| ResolutionMapSpecification | ResolutionDungeonOwnership | ResolutionDirectoryPath
| ResolutionTypePool.
#[export] Instance ResolutionSource_eq_dec : EqDecision ResolutionSource.
Proof. solve_decision. Defined.

Record ResolvedMap `{MapPayload} := mkResolvedMap {
  rm_Map : Map; rm_Source : ResolutionSource; rm_SpecificationType : runes
}.
Arguments mkResolvedMap {_}.
#[export] Instance ResolvedMap_eq_dec `{MapPayload} : EqDecision ResolvedMap.
Proof. solve_decision. Defined.

Record DungeonStoryStage := mkStoryStage {
  stage_Index : Z; stage_Coordinate : RoomCoordinate; stage_MapID : Z; stage_SpecificationType : runes
}.

(** ** The resolver index *)

Definition coordinateKey : Type := Z * Z.
Definition key (c : RoomCoordinate) : coordinateKey := (X c, Y c).
Definition coordinate (k : coordinateKey) : RoomCoordinate := mkRoom k.1 k.2.

Record indexedMap := mkIndexedMap {
  mapPos : nat; fileType : MapFileType; specificationType : runes
}.
#[export] Instance indexedMap_eq_dec : EqDecision indexedMap.
Proof. solve_decision. Defined.

Record indexedStoryStage := mkIndexedStoryStage {
  is_coordinate : coordinateKey; is_mapPos : nat; is_specificationType : runes
}.

(** The entries of [mazeMapIndex] that the lookups below read. *)
Record mazeMapIndex := mkMazeMapIndex {
  bySpecification : gmap coordinateKey (list indexedMap);
  byOwnership : gmap coordinateKey (list indexedMap);
  byCoordinate : gmap coordinateKey (list indexedMap);
  byPool : gmap MapFileType (list indexedMap);
  storyStages : list indexedStoryStage
}.

Record dungeonMapIndex := mkDungeonMapIndex { dungeonPos : nat; dmi_mazes : list mazeMapIndex }.

Record Resolver `{MapPayload} := mkResolver {
  res_table : Table;
  byDungeon : gmap Z dungeonMapIndex
}.

Arguments mkResolver {_}.

(** [l[i]] where the code has not tested the index: a panic out of range. *)
Definition at_ {A} (l : list A) (i : nat) : result A :=
  match l !! i with Some x => Ret x | None => Panic end.

(** A slice index that the code tests against the length first. *)
Definition in_slice {A} (l : list A) (i : Z) (e : wm_error) : result A :=
  if (i <? 0) || (zlen l <=? i) then Fail e else at_ l (Z.to_nat i).

(** A comma-ok map read that returns an error when the key is absent. *)
Definition or_fail {A} (o : option A) (e : wm_error) : result A :=
  match o with Some x => Ret x | None => Fail e end.

Section resolver.
Context `{MapPayload}.

Definition sectionKey (value : runes) : runes := ToLower (TrimSpace value).

Definition isLayeredSpecification (s : MapSpecification) : bool :=
  bool_decide (sectionKey (Trim (spec_Type s) (of_string "[]")) = of_string "layered").

Definition mazeQuestConnected (maze : Maze) : bool := 2 <=? zlen (QuestConnection maze).

(** Pairs of trailing parameters are further boss coordinates; an unpaired last
    parameter is dropped. *)
Fixpoint boss_params (params : list Z) : list RoomCoordinate :=
  match params with
  | x :: y :: params => mkRoom x y :: boss_params params
  | _ => []
  end.

Definition mazeBossCoordinates (point : option MazePoint) : list RoomCoordinate :=
  match point with
  | None => []
  | Some p => mkRoom (mp_X p) (mp_Y p) :: boss_params (mp_Params p)
  end.

Definition point_at (p : option MazePoint) (k : coordinateKey) : bool :=
  match p with Some p => (mp_X p =? k.1) && (mp_Y p =? k.2) | None => false end.

Definition expectedMapFileType (maze : Maze) (k : coordinateKey) : MapFileType :=
  if point_at (maze_Boss maze) k then MapFileBoss
  else if point_at (maze_Start maze) k then MapFileStart
  else if mazeQuestConnected maze then MapFileQuest
  else MapFileNormal.

Definition mazeRoomRoles (maze : Maze) (k : coordinateKey) : bool * bool :=
  (point_at (maze_Start maze) k,
   existsb (λ c, (X c =? k.1) && (Y c =? k.2)) (mazeBossCoordinates (maze_Boss maze))).

Definition startBossCoordinateFallbackFileTypes (t : MapFileType) (start boss : bool)
    : list MapFileType :=
  if negb (bool_decide (t = MapFileBoss)) || negb start || negb boss then [] else [MapFileStart].

Definition specificationFileType (value : runes) : MapFileType :=
  let k := sectionKey (Trim value (of_string "[]")) in
  if bool_decide (k = of_string "start") then MapFileStart
  else if bool_decide (k = of_string "boss") then MapFileBoss
  else if bool_decide (k = of_string "named") then MapFileNamed
  else if bool_decide (k = of_string "end") then MapFileEnd
  else if bool_decide (k = of_string "hidden") then MapFileHidden
  else if bool_decide (k = of_string "quest") then MapFileQuest
  else if bool_decide (k = of_string "default") then MapFileDefault
  else MapFileNormal.

Definition appendUniqueIndexedMap (target : list indexedMap) (candidate : indexedMap)
    : list indexedMap :=
  if existsb (λ e, (mapPos e =? mapPos candidate)%nat
                   && bool_decide (fileType e = fileType candidate)) target
  then target else target ++ [candidate].

Fixpoint uniqueIndexedMaps_loop (seen : list nat) (values : list indexedMap) : list indexedMap :=
  match values with
  | [] => []
  | v :: values =>
      if bool_decide (mapPos v ∈ seen) then uniqueIndexedMaps_loop seen values
      else v :: uniqueIndexedMaps_loop (mapPos v :: seen) values
  end.
Definition uniqueIndexedMaps (values : list indexedMap) : list indexedMap :=
  uniqueIndexedMaps_loop [] values.

Definition exactFileTypeCandidates (candidates : list indexedMap) (expected : MapFileType)
    : list indexedMap :=
  foldl (λ exact c, if bool_decide (fileType c = expected)
                    then appendUniqueIndexedMap exact c else exact) [] candidates.

Definition selectSpecificationCandidates (candidates : list indexedMap) (maze : Maze)
    (k : coordinateKey) : list indexedMap :=
  match candidates with
  | [] => []
  | _ =>
      match exactFileTypeCandidates candidates (expectedMapFileType maze k) with
      | [] => uniqueIndexedMaps candidates
      | typed => typed
      end
  end.

(** [if candidates := c; len(candidates) > 0 { return candidates, source, nil }] *)
Definition first_candidates (c : list indexedMap) (source : ResolutionSource)
    (k : result (list indexedMap * ResolutionSource)) : result (list indexedMap * ResolutionSource) :=
  match c with [] => k | _ => Ret (c, source) end.

Definition entries {K} `{Countable K} (m : gmap K (list indexedMap)) (k : K) : list indexedMap :=
  default [] (m !! k).

(** The maze definition and index that a request addresses. *)
Definition lookupMaze (r : Resolver) (dungeonID mazeIndex : Z) : result (Maze * mazeMapIndex) :=
  dungeonIndex ← or_fail (byDungeon r !! dungeonID) ErrDungeonNotIndexed;
  index ← in_slice (dmi_mazes dungeonIndex) mazeIndex ErrMazeNotFound;
  dungeon ← at_ (t_dungeons (res_table r)) (dungeonPos dungeonIndex);
  maze ← at_ (Mazes dungeon) (Z.to_nat mazeIndex);
  mret (maze, index).

Definition fallback_candidates (index : mazeMapIndex) (k : coordinateKey) (ts : list MapFileType)
    (rest : result (list indexedMap * ResolutionSource))
    : result (list indexedMap * ResolutionSource) :=
  foldr (λ t rest,
    first_candidates (exactFileTypeCandidates (entries (byOwnership index) k) t)
      ResolutionDungeonOwnership
      (first_candidates (exactFileTypeCandidates (entries (byCoordinate index) k) t)
        ResolutionDirectoryPath rest)) rest ts.

Definition resolveCandidateSet (r : Resolver) (dungeonID mazeIndex x y : Z)
    : result (list indexedMap * ResolutionSource) :=
  '(maze, index) ← lookupMaze r dungeonID mazeIndex;
  let k := (x, y) in
  let expectedType := expectedMapFileType maze k in
  let owned := exactFileTypeCandidates (entries (byOwnership index) k) expectedType in
  let placed := exactFileTypeCandidates (entries (byCoordinate index) k) expectedType in
  let tail :=
    first_candidates (selectSpecificationCandidates (entries (bySpecification index) k) maze k)
      ResolutionMapSpecification
      (first_candidates owned ResolutionDungeonOwnership
        (first_candidates placed ResolutionDirectoryPath
          (let '(start, boss) := mazeRoomRoles maze k in
           fallback_candidates index k
             (startBossCoordinateFallbackFileTypes expectedType start boss)
             (Fail ErrMapUnresolved)))) in
  if negb (mazeQuestConnected maze)
     && (bool_decide (expectedType = MapFileStart) || bool_decide (expectedType = MapFileBoss))
  then first_candidates owned ResolutionDungeonOwnership
         (first_candidates placed ResolutionDirectoryPath tail)
  else tail.

(** [r.table.maps[candidate.mapPos]] for every candidate. *)
Fixpoint candidate_maps (r : Resolver) (candidates : list indexedMap) : result (list Map) :=
  match candidates with
  | [] => mret []
  | c :: candidates =>
      v ← at_ (t_maps (res_table r)) (mapPos c);
      vs ← candidate_maps r candidates;
      mret (v :: vs)
  end.

Definition resolveCandidates (r : Resolver) (candidates : list indexedMap)
    (source : ResolutionSource) : result ResolvedMap :=
  match uniqueIndexedMaps candidates with
  | [c] =>
      v ← at_ (t_maps (res_table r)) (mapPos c);
      mret (mkResolvedMap v source (specificationType c))
  | candidates =>
      _ ← candidate_maps r candidates;
      Fail ErrMapAmbiguous
  end.

Definition Resolve (r : Resolver) (dungeonID mazeIndex x y : Z) : result ResolvedMap :=
  '(candidates, source) ← resolveCandidateSet r dungeonID mazeIndex x y;
  resolveCandidates r candidates source.

Definition ResolveCandidates (r : Resolver) (dungeonID mazeIndex x y : Z)
    : result (list ResolvedMap) :=
  '(candidates, source) ← resolveCandidateSet r dungeonID mazeIndex x y;
  let candidates := uniqueIndexedMaps candidates in
  vs ← candidate_maps r candidates;
  mret (zip_with (λ c v, mkResolvedMap v source (specificationType c)) candidates vs).

Definition explicitLayeredSpecificationsAt (maze : Maze) (c : RoomCoordinate)
    : list MapSpecification :=
  let here s := bool_decide (spec_Coordinate s = c) in
  filter (λ s, isLayeredSpecification s && here s = true) (MapSpecifications maze)
  ++ filter (λ s, here s = true) (LayeredSpecifications maze).

Definition ResolveLayered (r : Resolver) (dungeonID mazeIndex : Z) (c : RoomCoordinate)
    (layerIndex : Z) : result ResolvedMap :=
  '(maze, _) ← lookupMaze r dungeonID mazeIndex;
  match explicitLayeredSpecificationsAt maze c with
  | [] => Fail ErrLayeredSpecMissing
  | [specification] =>
      mapID ← in_slice (MapIDs specification) layerIndex ErrLayeredIndexInvalid;
      pos ← or_fail (mapByID (res_table r) !! mapID) ErrMapReferenceMissing;
      v ← at_ (t_maps (res_table r)) pos;
      mret (mkResolvedMap v ResolutionMapSpecification (of_string "layered"))
  | _ => Fail ErrLayeredSpecAmbiguous
  end.

Definition mazeIndex (r : Resolver) (dungeonID mazeIndex : Z) : result mazeMapIndex :=
  dungeonIndex ← or_fail (byDungeon r !! dungeonID) ErrDungeonNotIndexed;
  in_slice (dmi_mazes dungeonIndex) mazeIndex ErrMazeNotFound.

Definition describe_stage (r : Resolver) (i : Z) (stage : indexedStoryStage)
    : result (Map * DungeonStoryStage) :=
  v ← at_ (t_maps (res_table r)) (is_mapPos stage);
  mret (v, mkStoryStage i (coordinate (is_coordinate stage)) (map_ID v)
             (is_specificationType stage)).

Fixpoint describe_stages (r : Resolver) (i : Z) (stages : list indexedStoryStage)
    : result (list DungeonStoryStage) :=
  match stages with
  | [] => mret []
  | s :: stages =>
      '(_, d) ← describe_stage r i s;
      ds ← describe_stages r (i + 1) stages;
      mret (d :: ds)
  end.

Definition StoryStages (r : Resolver) (dungeonID mazeIdx : Z) : result (list DungeonStoryStage) :=
  index ← mazeIndex r dungeonID mazeIdx;
  match storyStages index with
  | [] => Fail ErrStoryStageMissing
  | stages => describe_stages r 0 stages
  end.

Definition ResolveStoryStage (r : Resolver) (dungeonID mazeIdx stageIndex : Z)
    : result (ResolvedMap * DungeonStoryStage) :=
  index ← mazeIndex r dungeonID mazeIdx;
  match storyStages index with
  | [] => Fail ErrStoryStageMissing
  | stages =>
      stage ← in_slice stages stageIndex ErrStoryStageIndexInvalid;
      '(v, d) ← describe_stage r stageIndex stage;
      mret (mkResolvedMap v ResolutionMapSpecification (is_specificationType stage), d)
  end.

Definition PoolCandidates (r : Resolver) (dungeonID mazeIdx : Z) (t : MapFileType)
    : result (list Map) :=
  index ← mazeIndex r dungeonID mazeIdx;
  match uniqueIndexedMaps (entries (byPool index) t) with
  | [] => Fail ErrMapPoolEmpty
  | refs => candidate_maps r refs
  end.

Definition ResolvePoolChoice (r : Resolver) (dungeonID mazeIdx : Z) (t : MapFileType) (mapID : Z)
    : result ResolvedMap :=
  candidates ← PoolCandidates r dungeonID mazeIdx t;
  match List.find (λ c, map_ID c =? mapID) candidates with
  | Some c => Ret (mkResolvedMap c ResolutionTypePool [])
  | None => Fail ErrMapPoolChoiceInvalid
  end.

End resolver.
