(* ===== verification/Topology.v ===== *)
(** * Dungeon room topology

    Models [src/go-server/internal/modules/dnf/worldmap/dungeon_topology.go]:
    the [greed] grid, the room set of a maze, the resolved map of each room and
    the neighbour lists.  Go ranges over a map in an unspecified order: the
    order is the argument [range], of which the theorems assume only that it
    lists every key once.  A diagnostic keeps its code and coordinate; the
    message text is left out. *)

From S2P Require Import Prelude GoStrings Worldmap.

Inductive RoomDirection := RoomDirectionUp | RoomDirectionRight | RoomDirectionDown | RoomDirectionLeft.
#[export] Instance RoomDirection_eq_dec : EqDecision RoomDirection.
Proof. solve_decision. Defined.

Record RoomNeighbor := mkNeighbor { nb_Direction : RoomDirection; nb_Coordinate : RoomCoordinate }.
#[export] Instance RoomNeighbor_eq_dec : EqDecision RoomNeighbor.
Proof. solve_decision. Defined.

(** [ResolutionError] is the error whose text the code stores. *)
Record DungeonRoom `{MapPayload} := mkDungeonRoom {
  room_Coordinate : RoomCoordinate;
  room_Start : bool;
  room_Boss : bool;
  room_Map : option ResolvedMap;
  ResolutionError : option wm_error;
  Neighbors : list RoomNeighbor
}.
Arguments mkDungeonRoom {_}.

Record TopologyDiagnostic := mkDiagnostic { diag_Code : string; diag_Coordinate : option RoomCoordinate }.

Record DungeonTopology `{MapPayload} := mkTopology {
  top_DungeonID : Z;
  top_MazeIndex : Z;
  top_Width : OptionalInt;
  top_Height : OptionalInt;
  top_Start : option RoomCoordinate;
  Bosses : list RoomCoordinate;
  AllowMoveBeforeClear : bool;
  Diagnostics : list TopologyDiagnostic;
  rooms : gmap coordinateKey DungeonRoom;
  resolutionErrors : gmap coordinateKey wm_error;
  resolver : option Resolver
}.
Arguments mkTopology {_}.

Record topologyDelta := mkDelta {
  direction : RoomDirection; dx : Z; dy : Z; mask : Z; opposite : Z
}.

Definition topologyDeltas : list topologyDelta := [
  mkDelta RoomDirectionUp 0 (-1) 2 8;
  mkDelta RoomDirectionRight 1 0 1 4;
  mkDelta RoomDirectionDown 0 1 8 2;
  mkDelta RoomDirectionLeft (-1) 0 4 1
].

(** ** The greed grid *)

Fixpoint drop_empty (rows : list runes) : list runes :=
  match rows with [] :: rows => drop_empty rows | _ => rows end.

Definition is_separator (r : Z) : bool := IsSpace r || (r =? 96) || (r =? 44).

Definition normalizedGreedRows (value : runes) : list runes :=
  let lines := Split (replace_crlf value) 10 in
  let rows := (λ line, filter (λ r, is_separator r = false) line) <$> lines in
  rev (drop_empty (rev (drop_empty rows))).

(** The symbols at positions 0,1 2,3 ... are equal. *)
Fixpoint pairs_repeat (row : runes) : bool :=
  match row with
  | a :: b :: row => (a =? b) && pairs_repeat row
  | _ => true
  end.

Fixpoint paired_loop (rows : list runes) (width : Z) (allRepeated hasSymbols : bool) : bool :=
  match rows with
  | [] => hasSymbols && allRepeated
  | row :: rows =>
      if width <? zlen row then true
      else if zlen row =? 0 then paired_loop rows width allRepeated hasSymbols
      else if negb (zlen row mod 2 =? 0) then paired_loop rows width false true
      else paired_loop rows width (allRepeated && pairs_repeat row) true
  end.
Definition greedRowsArePaired (rows : list runes) (width : Z) : bool :=
  paired_loop rows width true false.

Definition greedRoomMask (value : Z) : option Z :=
  let value := if (97 <=? value) && (value <=? 112) then value - 32 else value in
  if (65 <=? value) && (value <=? 80) then Some (value - 65)
  else if (value =? 48) || (value =? 46) || (value =? 120) || (value =? 88) then Some 0
  else if value =? 49 then Some 15
  else None.

(** Diagnostics and masks collected by the grid loops; a cell is added to the
    room set exactly when it gets a mask. *)
Definition greed_state : Type := list TopologyDiagnostic * gmap coordinateKey Z.

Definition add_diag (code : string) (c : option RoomCoordinate) (st : greed_state) : greed_state :=
  (st.1 ++ [mkDiagnostic code c], st.2).

Definition greed_code (symbol : Z) (x y : Z) (st : greed_state) : greed_state :=
  match greedRoomMask symbol with
  | None => add_diag "maze_grid_code_unknown" (Some (mkRoom x y)) st
  | Some m => if m =? 0 then st else (st.1, <[(x, y) := m]> st.2)
  end.

(** One cell; reading past the row is the [break] of the paired case. *)
Definition greed_cell (row : runes) (paired : bool) (y : Z) (st : greed_state) (x : nat)
    : greed_state :=
  if paired then
    match row !! (2 * x)%nat, row !! (2 * x + 1)%nat with
    | Some a, Some b =>
        if negb (a =? b) then add_diag "maze_grid_pair_mismatch" (Some (mkRoom (Z.of_nat x) y)) st
        else greed_code a (Z.of_nat x) y st
    | _, _ => st
    end
  else
    match row !! x with
    | Some a => greed_code a (Z.of_nat x) y st
    | None => st
    end.

Definition greed_row (width : Z) (paired : bool) (st : greed_state) (y : Z) (row : runes)
    : greed_state :=
  let len := zlen row in
  let unitWidth := if paired then 2 else 1 in
  let st := if paired && negb (len mod 2 =? 0)
            then add_diag "maze_grid_row_odd" (Some (mkRoom (len / 2) y)) st else st in
  let logicalWidth := len / unitWidth in
  let '(st, logicalWidth) :=
    if logicalWidth <? width
    then (add_diag "maze_grid_row_short" (Some (mkRoom logicalWidth y)) st, logicalWidth)
    else if width <? logicalWidth
    then (add_diag "maze_grid_row_extra" (Some (mkRoom width y)) st, width)
    else (st, logicalWidth) in
  foldl (greed_cell row paired y) st (seq 0 (Z.to_nat logicalWidth)).

Fixpoint greed_rows (width : Z) (paired : bool) (y : Z) (st : greed_state) (rows : list runes)
    : greed_state :=
  match rows with
  | [] => st
  | row :: rows => greed_rows width paired (y + 1) (greed_row width paired st y row) rows
  end.

(** The diagnostics, and the masks if the grid is usable. *)
Definition addGreedCells (maze : Maze) : list TopologyDiagnostic * option (gmap coordinateKey Z) :=
  match Greed maze with
  | [] => ([], None)
  | greed =>
      if negb (oi_Set (Width maze)) || negb (oi_Set (Height maze))
         || (oi_Value (Width maze) <=? 0) || (oi_Value (Height maze) <=? 0)
      then ([mkDiagnostic "maze_size_invalid" None], None)
      else
        let width := oi_Value (Width maze) in
        let height := oi_Value (Height maze) in
        match normalizedGreedRows greed with
        | [] => ([], None)
        | rows =>
            let paired := greedRowsArePaired rows width in
            let st : greed_state := ([], ∅) in
            let st := if zlen rows <? height then add_diag "maze_grid_rows_short" None st
                      else if height <? zlen rows then add_diag "maze_grid_rows_extra" None st
                      else st in
            let '(diags, masks) :=
              greed_rows width paired 0 st (take (Z.to_nat height) rows) in
            (diags, Some masks)
        end
  end.

(** ** Cells *)

Definition withinMazeBounds (maze : Maze) (c : RoomCoordinate) : bool :=
  let out size v := oi_Set size && (0 <? oi_Value size) && ((v <? 0) || (oi_Value size <=? v)) in
  negb (out (Width maze) (X c)) && negb (out (Height maze) (Y c)).

Definition addSpecificationCells (cells : gset coordinateKey) (specs : list MapSpecification)
    : gset coordinateKey :=
  foldl (λ cells s, {[key (spec_Coordinate s)]} ∪ cells) cells specs.

Definition addExplicitCell (maze : Maze) (code : string)
    (st : list TopologyDiagnostic * gset coordinateKey) (c : RoomCoordinate)
    : list TopologyDiagnostic * gset coordinateKey :=
  (if withinMazeBounds maze c then st.1 else st.1 ++ [mkDiagnostic code (Some c)],
   {[key c]} ∪ st.2).

Section topology.
Context `{MapPayload}.
Variable range : gset coordinateKey → list coordinateKey.

(** The room set of a maze, with the diagnostics of its construction and the
    masks of a structured grid. *)
Definition maze_cells (maze : Maze) (index : mazeMapIndex)
    : list TopologyDiagnostic * gset coordinateKey * option (gmap coordinateKey Z) :=
  let '(diags, greed) := addGreedCells maze in
  let cells : gset coordinateKey := match greed with Some masks => dom masks | None => ∅ end in
  let cells := addSpecificationCells cells (MapSpecifications maze) in
  let cells := addSpecificationCells cells (BossSpecifications maze) in
  let cells := addSpecificationCells cells (LayeredSpecifications maze) in
  let st := (diags, cells) in
  let st := match maze_Start maze with
            | Some p => addExplicitCell maze "start_out_of_bounds" st (mkRoom (mp_X p) (mp_Y p))
            | None => st
            end in
  let '(diags, cells) :=
    foldl (addExplicitCell maze "boss_out_of_bounds") st (mazeBossCoordinates (maze_Boss maze)) in
  let cells := match greed with
               | Some _ => cells
               | None => filter (λ k, withinMazeBounds maze (coordinate k) = true)
                           (dom (byCoordinate index)) ∪ cells
               end in
  (diags, cells, greed).

(** One iteration of the room loop, and the loop over the cells. *)
Definition room_state : Type :=
  list TopologyDiagnostic * gmap coordinateKey wm_error * gmap coordinateKey DungeonRoom.

Definition add_room (r : Resolver) (dungeonID mazeIdx : Z) (start : option RoomCoordinate)
    (bosses : gset coordinateKey) (st : room_state) (k : coordinateKey) : result room_state :=
  let '(diags, errs, rs) := st in
  let isStart := bool_decide (start = Some (coordinate k)) in
  let isBoss := bool_decide (k ∈ bosses) in
  match Resolve r dungeonID mazeIdx k.1 k.2 with
  | Ret resolved =>
      Ret (diags, errs,
           <[k := mkDungeonRoom (coordinate k) isStart isBoss (Some resolved) None []]> rs)
  | Fail e =>
      Ret (diags ++ [mkDiagnostic "room_map_unresolved" (Some (coordinate k))], <[k := e]> errs,
           <[k := mkDungeonRoom (coordinate k) isStart isBoss None (Some e) []]> rs)
  | Panic => Panic
  end.

Fixpoint add_rooms (r : Resolver) (dungeonID mazeIdx : Z) (start : option RoomCoordinate)
    (bosses : gset coordinateKey) (st : room_state) (ks : list coordinateKey) : result room_state :=
  match ks with
  | [] => mret st
  | k :: ks => st ← add_room r dungeonID mazeIdx start bosses st k;
               add_rooms r dungeonID mazeIdx start bosses st ks
  end.

Definition neighborKey (k : coordinateKey) (d : topologyDelta) : coordinateKey :=
  (i64 (k.1 + dx d), i64 (k.2 + dy d)).

(** Whether the delta leads to a neighbour, given the room set. *)
Definition is_neighbor (cells : gset coordinateKey) (greed : option (gmap coordinateKey Z))
    (k : coordinateKey) (d : topologyDelta) : bool :=
  bool_decide (neighborKey k d ∈ cells) &&
  match greed with
  | None => true
  | Some masks =>
      match masks !! k, masks !! neighborKey k d with
      | Some m, Some m' => negb (Z.land m (mask d) =? 0) && negb (Z.land m' (opposite d) =? 0)
      | _, _ => false
      end
  end.

Definition neighbors_of (cells : gset coordinateKey) (greed : option (gmap coordinateKey Z))
    (k : coordinateKey) : list RoomNeighbor :=
  (λ d, mkNeighbor (direction d) (coordinate (neighborKey k d)))
    <$> filter (λ d, is_neighbor cells greed k d = true) topologyDeltas.

Definition set_neighbors (room : DungeonRoom) (ns : list RoomNeighbor) : DungeonRoom :=
  mkDungeonRoom (room_Coordinate room) (room_Start room) (room_Boss room) (room_Map room)
    (ResolutionError room) ns.

(** The second loop rewrites every room from its own value and the key set. *)
Definition add_neighbors (greed : option (gmap coordinateKey Z))
    (rs : gmap coordinateKey DungeonRoom) : gmap coordinateKey DungeonRoom :=
  map_imap (λ k room, Some (set_neighbors room (Neighbors room ++ neighbors_of (dom rs) greed k))) rs.

Definition BuildDungeonTopology (resolver : option Resolver) (dungeonID mazeIdx : Z)
    : result DungeonTopology :=
  r ← or_fail resolver ErrTopologyResolverRequired;
  dungeonIndex ← or_fail (byDungeon r !! dungeonID) ErrDungeonNotIndexed;
  index ← in_slice (dmi_mazes dungeonIndex) mazeIdx ErrMazeNotFound;
  dungeon ← at_ (t_dungeons (res_table r)) (dungeonPos dungeonIndex);
  maze ← at_ (Mazes dungeon) (Z.to_nat mazeIdx);
  let '(diags, cells, greed) := maze_cells maze index in
  if bool_decide (cells = ∅) then Fail ErrTopologyEmpty
  else
    let start := (λ p, mkRoom (mp_X p) (mp_Y p)) <$> maze_Start maze in
    let bosses := mazeBossCoordinates (maze_Boss maze) in
    '(diags, errs, rs) ←
      add_rooms r dungeonID mazeIdx start (list_to_set (key <$> bosses)) (diags, ∅, ∅)
        (range cells);
    mret (mkTopology dungeonID mazeIdx (Width maze) (Height maze) start bosses
            (default false (dun_Flags dungeon !! "move map even enemy")) diags
            (add_neighbors greed rs) errs (Some r)).

Definition Room (t : DungeonTopology) (c : RoomCoordinate) : option DungeonRoom :=
  rooms t !! key c.

End topology.
