(* ===== verification/DungeonRun.v ===== *)
(** * The dungeon run state machine

    Models [src/go-server/internal/modules/dnf/worldmap/dungeon_run.go]: where a
    party stands in a topology, which rooms it visited and cleared, and whether
    the run is active, completed or abandoned.  The read-write lock makes every
    method atomic; a method is a function from the run to the run and a result.
    A nil run or topology is not modelled. *)

From stdpp Require Import sorting.
From S2P Require Import Prelude GoStrings Worldmap Topology.
#[local] Open Scope Z_scope.

Inductive DungeonRunStatus := DungeonRunActive | DungeonRunCompleted | DungeonRunAbandoned.
#[export] Instance DungeonRunStatus_eq_dec : EqDecision DungeonRunStatus.
Proof. solve_decision. Defined.

(** ** Room coordinates as text *)

(** [fmt.Sprintf] with the format %d:%d *)
Definition RoomCoordinate_String (c : RoomCoordinate) : runes :=
  format_int (X c) ++ 58 :: format_int (Y c).

Definition ParseRoomCoordinate (value : runes) : result RoomCoordinate :=
  let value := TrimSpace value in
  match Cut value 58 with
  | None => Fail ErrRoomCoordinateMalformed
  | Some (xText, yText) =>
      if bool_decide (xText = []) || bool_decide (yText = []) || bool_decide (58 ∈ yText)
      then Fail ErrRoomCoordinateMalformed
      else
        x ← or_fail (ParseInt xText) ErrRoomCoordinateMalformed;
        y ← or_fail (ParseInt yText) ErrRoomCoordinateMalformed;
        mret (mkRoom x y)
  end.

(** ** State *)

Record DungeonRun `{MapPayload} := mkRun {
  topology : DungeonTopology;
  current : coordinateKey;
  visited : gset coordinateKey;
  cleared : gset coordinateKey;
  status : DungeonRunStatus
}.
Arguments mkRun {_}.

Record DungeonRunSnapshot := mkRunSnapshot {
  rs_DungeonID : Z; rs_MazeIndex : Z; rs_Status : DungeonRunStatus; rs_Current : RoomCoordinate;
  rs_Visited : list RoomCoordinate; rs_Cleared : list RoomCoordinate
}.

(** Order of [sort.Slice]: by row, then by column. *)
Definition coord_le (a b : RoomCoordinate) : Prop :=
  Y a < Y b ∨ (Y a = Y b ∧ X a <= X b).
#[export] Instance coord_le_dec a b : Decision (coord_le a b).
Proof. unfold coord_le. apply _. Defined.

Definition sortedCoordinates (values : gset coordinateKey) : list RoomCoordinate :=
  merge_sort coord_le (coordinate <$> elements values).

(** [-value] of the least int64 is itself. *)
Definition abs64 (value : Z) : Z := if value <? 0 then i64 (- value) else value.

(** The adjacency test of the code, on wrapped differences. *)
Definition adjacent (target : RoomCoordinate) (cur : coordinateKey) : bool :=
  i64 (abs64 (i64 (X target - cur.1)) + abs64 (i64 (Y target - cur.2))) =? 1.

Section run.
Context `{MapPayload}.

Definition set_current (r : DungeonRun) k :=
  mkRun (topology r) k (visited r) (cleared r) (status r).
Definition set_visited (r : DungeonRun) v :=
  mkRun (topology r) (current r) v (cleared r) (status r).
Definition set_cleared (r : DungeonRun) c :=
  mkRun (topology r) (current r) (visited r) c (status r).
Definition set_status (r : DungeonRun) s :=
  mkRun (topology r) (current r) (visited r) (cleared r) s.

Definition is_active (r : DungeonRun) : bool := bool_decide (status r = DungeonRunActive).
Definition is_cleared (r : DungeonRun) (k : coordinateKey) : bool := bool_decide (k ∈ cleared r).

Definition NewDungeonRun (t : DungeonTopology) : result DungeonRun :=
  start ← or_fail (top_Start t) ErrRunStartMissing;
  room ← or_fail (Room t start) ErrRoomNotFound;
  match room_Map room with
  | None => Fail ErrRoomMapUnresolved
  | Some _ => Ret (mkRun t (key start) {[key start]} ∅ DungeonRunActive)
  end.

Definition CurrentRoom (r : DungeonRun) : option DungeonRoom :=
  Room (topology r) (coordinate (current r)).

(** ** Moving to an adjacent room *)

Definition validateMoveLocked (r : DungeonRun) (target : RoomCoordinate) : result DungeonRoom :=
  if negb (is_active r) then Fail ErrRunNotActive
  else
    room ← or_fail (rooms (topology r) !! key target) ErrRoomNotFound;
    if negb (adjacent target (current r)) then Fail ErrRoomNotAdjacent
    else if negb (AllowMoveBeforeClear (topology r)) && negb (is_cleared r (current r))
    then Fail ErrRunCurrentRoomNotCleared
    else match room_Map room with
         | None => Fail ErrRoomMapUnresolved
         | Some _ => Ret room
         end.

(** The room, whether it was visited, and whether it is cleared. *)
Definition previewMoveToVisit (r : DungeonRun) (target : RoomCoordinate)
    : result (DungeonRoom * bool * bool) :=
  room ← validateMoveLocked r target;
  mret (room, bool_decide (key target ∈ visited r), is_cleared r (key target)).

Definition PreviewMoveTo (r : DungeonRun) (target : RoomCoordinate) : result DungeonRoom :=
  '(room, _, _) ← previewMoveToVisit r target; mret room.

(** The new run, the room and the revisit flag. *)
Definition moveToVisit (r : DungeonRun) (target : RoomCoordinate) (clearTarget : bool)
    (expectedRevisit : option bool) : result (DungeonRun * DungeonRoom * bool) :=
  room ← validateMoveLocked r target;
  let revisit := bool_decide (key target ∈ visited r) in
  if match expectedRevisit with Some e => negb (eqb revisit e) | None => false end
  then Fail ErrRunTargetVisitChanged
  else
    let r := set_current r (key target) in
    let r := set_visited r ({[key target]} ∪ visited r) in
    let r := if clearTarget then set_cleared r ({[key target]} ∪ cleared r) else r in
    mret (r, room, revisit).

Definition moveTo (r : DungeonRun) (target : RoomCoordinate) (clearTarget : bool)
    : result (DungeonRun * DungeonRoom) :=
  '(r, room, _) ← moveToVisit r target clearTarget None; mret (r, room).

Definition MoveTo (r : DungeonRun) (target : RoomCoordinate) : result (DungeonRun * DungeonRoom) :=
  moveTo r target false.

(** The arguments are bytes. *)
Definition MoveByte (r : DungeonRun) (nextX nextY : Z) : result (DungeonRun * DungeonRoom) :=
  MoveTo r (mkRoom nextX nextY).

Definition PreviewMoveByte (r : DungeonRun) (nextX nextY : Z) : result DungeonRoom :=
  PreviewMoveTo r (mkRoom nextX nextY).

Definition MoveRoomID (r : DungeonRun) (roomID : runes) : result (DungeonRun * DungeonRoom) :=
  c ← ParseRoomCoordinate roomID; MoveTo r c.

(** ** Story stages *)

Definition set_map (room : DungeonRoom) (m : ResolvedMap) : DungeonRoom :=
  mkDungeonRoom (room_Coordinate room) (room_Start room) (room_Boss room) (Some m)
    (ResolutionError room) (Neighbors room).

Definition resolveStoryStageLocked (r : DungeonRun) (stageIndex : Z) : result (DungeonRoom * bool) :=
  res ← or_fail (resolver (topology r)) ErrResolverTableRequired;
  if negb (is_active r) then Fail ErrRunNotActive
  else
    '(resolved, stage) ←
      ResolveStoryStage res (top_DungeonID (topology r)) (top_MazeIndex (topology r)) stageIndex;
    let targetKey := key (stage_Coordinate stage) in
    room ← or_fail (rooms (topology r) !! targetKey) ErrRoomNotFound;
    if negb (adjacent (stage_Coordinate stage) (current r)) then Fail ErrRoomNotAdjacent
    else if negb (AllowMoveBeforeClear (topology r)) && negb (is_cleared r (current r))
    then Fail ErrRunCurrentRoomNotCleared
    else mret (set_map room resolved, bool_decide (targetKey ∈ visited r)).

Definition previewStoryStage := resolveStoryStageLocked.

(** The map identifier of a room, zero without a map. *)
Definition room_map_id (room : DungeonRoom) : Z :=
  match room_Map room with Some m => map_ID (rm_Map m) | None => 0 end.

(** [delete], then the conditional re-insertion. *)
Definition reset_cleared (r : DungeonRun) (k : coordinateKey) (targetCleared : bool) : DungeonRun :=
  let r := set_cleared r (cleared r ∖ {[k]}) in
  if targetCleared then set_cleared r ({[k]} ∪ cleared r) else r.

Definition commitStoryStage (r : DungeonRun) (stageIndex : Z) (expectedCoordinate : RoomCoordinate)
    (expectedMapID : Z) (expectedRevisit targetCleared : bool) : result (DungeonRun * DungeonRoom) :=
  '(room, revisit) ← resolveStoryStageLocked r stageIndex;
  if negb (bool_decide (room_Coordinate room = expectedCoordinate))
     || negb (room_map_id room =? expectedMapID) || negb (eqb revisit expectedRevisit)
  then Fail ErrStoryStageTransitionChanged
  else
    let targetKey := key (room_Coordinate room) in
    let r := set_current r targetKey in
    let r := set_visited r ({[targetKey]} ∪ visited r) in
    mret (reset_cleared r targetKey targetCleared, room).

(** ** Layers of the current room *)

Definition resolveCurrentLayeredLocked (r : DungeonRun) (c : RoomCoordinate) (layerIndex : Z)
    : result DungeonRoom :=
  if negb (is_active r) then Fail ErrRunNotActive
  else if negb (bool_decide (c = coordinate (current r))) then Fail ErrLayeredCoordinateMismatch
  else
    room ← or_fail (rooms (topology r) !! current r) ErrRoomNotFound;
    res ← or_fail (resolver (topology r)) ErrResolverTableRequired;
    resolved ← ResolveLayered res (top_DungeonID (topology r)) (top_MazeIndex (topology r)) c
                 layerIndex;
    mret (set_map room resolved).

Definition previewCurrentLayered := resolveCurrentLayeredLocked.

(** [room.Map == nil || room.Map.Map.ID != expectedMapID] *)
Definition map_id_changed (room : DungeonRoom) (expectedMapID : Z) : bool :=
  match room_Map room with
  | None => true
  | Some m => negb (map_ID (rm_Map m) =? expectedMapID)
  end.

Definition commitCurrentLayered (r : DungeonRun) (c : RoomCoordinate) (layerIndex expectedMapID : Z)
    (targetCleared : bool) : result (DungeonRun * DungeonRoom) :=
  room ← resolveCurrentLayeredLocked r c layerIndex;
  if map_id_changed room expectedMapID then Fail ErrLayeredTransitionChanged
  else mret (reset_cleared r (current r) targetCleared, room).

Definition resolveCurrentLayeredBaseLocked (r : DungeonRun) (c : RoomCoordinate)
    : result DungeonRoom :=
  if negb (is_active r) && negb (bool_decide (status r = DungeonRunCompleted))
  then Fail ErrRunNotActive
  else if negb (bool_decide (c = coordinate (current r))) then Fail ErrLayeredCoordinateMismatch
  else
    room ← or_fail (rooms (topology r) !! current r) ErrRoomNotFound;
    match room_Map room with
    | None => Fail ErrRoomMapUnresolved
    | Some _ => Ret room
    end.

Definition previewCurrentLayeredBase (r : DungeonRun) (c : RoomCoordinate)
    : result (DungeonRoom * bool) :=
  room ← resolveCurrentLayeredBaseLocked r c;
  mret (room, is_cleared r (current r)).

Definition commitCurrentLayeredBase (r : DungeonRun) (c : RoomCoordinate) (expectedMapID : Z)
    (targetCleared : bool) : result (DungeonRun * DungeonRoom) :=
  room ← resolveCurrentLayeredBaseLocked r c;
  if map_id_changed room expectedMapID then Fail ErrLayeredBaseMismatch
  else mret (reset_cleared r (current r) targetCleared, room).

(** ** Clearing and ending *)

Definition MarkCurrentRoomCleared (r : DungeonRun) : result DungeonRun :=
  if negb (is_active r) then Fail ErrRunNotActive
  else mret (set_cleared r ({[current r]} ∪ cleared r)).

Definition Complete (r : DungeonRun) : result DungeonRun :=
  if negb (is_active r) then Fail ErrRunNotActive
  else if negb (is_cleared r (current r)) then Fail ErrRunCurrentRoomNotCleared
  else mret (set_status r DungeonRunCompleted).

Definition CompleteCurrentRoom (r : DungeonRun) : result DungeonRun :=
  if negb (is_active r) then Fail ErrRunNotActive
  else mret (set_status (set_cleared r ({[current r]} ∪ cleared r)) DungeonRunCompleted).

Definition Abandon (r : DungeonRun) : result DungeonRun :=
  if negb (is_active r) then Fail ErrRunNotActive
  else mret (set_status r DungeonRunAbandoned).

Definition RunSnapshot (r : DungeonRun) : DungeonRunSnapshot :=
  mkRunSnapshot (top_DungeonID (topology r)) (top_MazeIndex (topology r)) (status r)
    (coordinate (current r)) (sortedCoordinates (visited r)) (sortedCoordinates (cleared r)).

(** ** Invariant *)

(** Every stored room sits at its own coordinate and the coordinates are
    int64 values. *)
Record topology_ok (t : DungeonTopology) : Prop := {
  top_room : ∀ k room, rooms t !! k = Some room → room_Coordinate room = coordinate k;
  top_range : ∀ k, k ∈ dom (rooms t) → in_i64 k.1 ∧ in_i64 k.2
}.

Record run_ok (r : DungeonRun) : Prop := {
  run_top : topology_ok (topology r);
  run_current : current r ∈ visited r;
  run_visited : visited r ⊆ dom (rooms (topology r));
  run_cleared : cleared r ⊆ visited r
}.

End run.

(** ** Coordinates *)

Lemma key_coordinate k : key (coordinate k) = k.
Proof. by destruct k. Qed.
Lemma coordinate_key c : coordinate (key c) = c.
Proof. by destruct c. Qed.

Lemma abs64_range v : in_i64 v →
  (abs64 v = Z.abs v ∧ Z.abs v < two63) ∨ (v = - two63 ∧ abs64 v = - two63).
Proof.
  intros Hv. unfold abs64. destruct (v <? 0) eqn:E; bool_clean; [|left; int_lia].
  destruct (Z.eq_dec v (- two63)) as [->|]; [right; done|left].
  rewrite i64_id; int_lia.
Qed.

(** The wrapped sum of wrapped distances is one exactly for a wrapped step in
    one direction. *)
Lemma abs64_sum_one a b : in_i64 a → in_i64 b →
  i64 (abs64 a + abs64 b) = 1 ↔ Z.abs a + Z.abs b = 1.
Proof.
  intros Ha Hb.
  destruct (abs64_range a Ha) as [[Ea Ha']|[Ea Ea']], (abs64_range b Hb) as [[Eb Hb']|[Eb Eb']].
  - rewrite Ea, Eb. unfold_width. Z.div_mod_to_equations. lia.
  - rewrite Ea, Eb'. subst b. unfold_width. Z.div_mod_to_equations. lia.
  - rewrite Eb, Ea'. subst a. unfold_width. Z.div_mod_to_equations. lia.
  - rewrite Ea', Eb'. subst a b. unfold_width. Z.div_mod_to_equations. lia.
Qed.

(** For two coordinates that are not at the far ends of the int64 range, the
    test is the usual one. *)
Lemma adjacent_spec t k : in_i64 (X t) → in_i64 (Y t) → in_i64 k.1 → in_i64 k.2 →
  in_i64 (X t - k.1) → in_i64 (Y t - k.2) →
  adjacent t k = true ↔ Z.abs (X t - k.1) + Z.abs (Y t - k.2) = 1.
Proof.
  intros _ _ _ _ Hx Hy. unfold adjacent. rewrite (i64_id (X t - k.1)), (i64_id (Y t - k.2)) by done.
  rewrite Z.eqb_eq. by apply abs64_sum_one.
Qed.
