(* ===== verification/DungeonSession.v ===== *)
(** * The dungeon session: the scene of the current room

    Models [src/go-server/internal/modules/dnf/worldmap/dungeon_session.go]: the
    hostile objects of the current room, their binding to runtime object keys,
    their defeat, the opening of the room, and the movement between rooms,
    layers and story stages with restoration of a cached scene.  The session
    owns its run; its lock makes every method atomic.  A mutating method returns
    the next state together with its result, since two of them change the scene
    before they fail.  Deep copies are the identity on values. *)

From S2P Require Import Prelude GoStrings Worldmap Topology DungeonRun.

Inductive HostileKind := HostileMonster | HostileAICharacter.
#[export] Instance HostileKind_eq_dec : EqDecision HostileKind.
Proof. solve_decision. Defined.

Record HostileReference := mkHostile { Kind : HostileKind; Index : Z }.
#[export] Instance HostileReference_eq_dec : EqDecision HostileReference.
Proof. solve_decision. Defined.
#[export] Instance HostileReference_countable : Countable HostileReference.
Proof.
  apply (inj_countable'
    (λ h, (match Kind h with HostileMonster => true | HostileAICharacter => false end, Index h))
    (λ p, mkHostile (if p.1 then HostileMonster else HostileAICharacter) p.2)).
  by intros [[] i].
Defined.

Record DungeonRoomScene `{MapPayload} := mkScene {
  sc_Coordinate : RoomCoordinate;
  sc_Start : bool;
  sc_Boss : bool;
  sc_Map : ResolvedMap;
  sc_Monsters : list MonsterSpawn;
  sc_NPCs : list NPCSpawn;
  sc_AICharacters : list AICharacter;
  sc_PassiveObjects : list PassiveObject;
  sc_SpecialPassiveObjects : list SpecialPassiveObject;
  sc_Portals : list Portal;
  sc_Summons : list MapSummon;
  ExpectedHostiles : list HostileReference;
  BlockingHostiles : list HostileReference;
  RuntimeObjects : gmap Z HostileReference;
  DefeatedObjects : list Z;
  sc_Cleared : bool
}.
Arguments mkScene {_}.
#[export] Instance DungeonRoomScene_eq_dec `{MapPayload} : EqDecision DungeonRoomScene.
Proof. solve_decision. Defined.

Record DungeonRoomTransition `{MapPayload} := mkTransition {
  tr_Scene : DungeonRoomScene; Revisit : bool
}.
Arguments mkTransition {_}.

Record validatedDungeonRoomTransition `{MapPayload} := mkValidated {
  transition : DungeonRoomTransition;
  va_bindings : gmap HostileReference Z;
  va_defeated : gset Z
}.
Arguments mkValidated {_}.

Record DungeonSession `{MapPayload} := mkSession {
  run : DungeonRun;
  scene : DungeonRoomScene;
  bindings : gmap HostileReference Z;
  defeated : gset Z
}.
Arguments mkSession {_}.

Section session.
Context `{MapPayload}.

(** ** Scenes *)

Definition set_runtime (sc : DungeonRoomScene) objs dead cl : DungeonRoomScene :=
  mkScene (sc_Coordinate sc) (sc_Start sc) (sc_Boss sc) (sc_Map sc) (sc_Monsters sc) (sc_NPCs sc)
    (sc_AICharacters sc) (sc_PassiveObjects sc) (sc_SpecialPassiveObjects sc) (sc_Portals sc)
    (sc_Summons sc) (ExpectedHostiles sc) (BlockingHostiles sc) objs dead cl.
Definition set_objects (sc : DungeonRoomScene) objs :=
  set_runtime sc objs (DefeatedObjects sc) (sc_Cleared sc).
Definition set_dead (sc : DungeonRoomScene) dead :=
  set_runtime sc (RuntimeObjects sc) dead (sc_Cleared sc).
Definition set_open (sc : DungeonRoomScene) cl :=
  set_runtime sc (RuntimeObjects sc) (DefeatedObjects sc) cl.
Definition set_blocking (sc : DungeonRoomScene) bl : DungeonRoomScene :=
  mkScene (sc_Coordinate sc) (sc_Start sc) (sc_Boss sc) (sc_Map sc) (sc_Monsters sc) (sc_NPCs sc)
    (sc_AICharacters sc) (sc_PassiveObjects sc) (sc_SpecialPassiveObjects sc) (sc_Portals sc)
    (sc_Summons sc) (ExpectedHostiles sc) bl (RuntimeObjects sc) (DefeatedObjects sc)
    (sc_Cleared sc).

Definition monsterSpawnBlocksRoom (m : Map) (monsterIndex : Z) : bool :=
  if (monsterIndex <? 0) || (zlen (map_MonsterTeam m) <=? monsterIndex) then true
  else negb (default 0 (map_MonsterTeam m !! Z.to_nat monsterIndex) =? 0).

(** The positions of a list, as the indices of a Go range. *)
Definition indices {A} (l : list A) : list Z := imap (λ i _, Z.of_nat i) l.

Definition monster_references (m : Map) : list HostileReference :=
  mkHostile HostileMonster <$> indices (map_Monsters m).

(** Artificial characters of the monster faction are expected, not blocking. *)
Definition is_monster_faction (a : AICharacter) : bool :=
  EqualFold (Trim (Faction a) ([91; 93; 32; 9])) (of_string "monster").

Definition ai_references (m : Map) : list HostileReference :=
  (λ '(i, _), mkHostile HostileAICharacter i) <$>
    filter (λ '(_, a), is_monster_faction a = true)
      (zip (indices (map_AICharacters m)) (map_AICharacters m)).

Definition dungeonRoomScene (room : DungeonRoom) : result DungeonRoomScene :=
  match room_Map room with
  | None => Fail ErrRoomMapUnresolved
  | Some resolved =>
      let m := rm_Map resolved in
      let blocking := filter (λ r, monsterSpawnBlocksRoom m (Index r) = true) (monster_references m) in
      Ret (mkScene (room_Coordinate room) (room_Start room) (room_Boss room)
             (mkResolvedMap m (rm_Source resolved) (rm_SpecificationType resolved))
             (map_Monsters m) (map_NPCs m) (map_AICharacters m) (map_PassiveObjects m)
             (map_SpecialPassiveObjects m) (map_Portals m) (map_Summons m)
             (monster_references m ++ ai_references m) blocking ∅ []
             (bool_decide (blocking = [])))
  end.

Definition containsHostileReference (values : list HostileReference) (want : HostileReference)
    : bool := existsb (λ v, bool_decide (v = want)) values.

(** ** Restoring a cached scene *)

Definition sameDungeonRoomPVFScene (expected cached : DungeonRoomScene) : bool :=
  bool_decide (set_runtime expected ∅ [] false = set_runtime cached ∅ [] false).

(** The loop over the runtime objects, which inverts them into bindings; the
    map order does not matter ([bind_objects_spec]). *)
Fixpoint bind_objects (expected : list HostileReference) (objs : list (Z * HostileReference))
    (bs : gmap HostileReference Z) : result (gmap HostileReference Z) :=
  match objs with
  | [] => mret bs
  | (objectKey, reference) :: objs =>
      if (objectKey =? 0) || negb (containsHostileReference expected reference)
      then Fail ErrRevisitSceneMismatch
      else match bs !! reference with
           | Some _ => Fail ErrRevisitSceneMismatch
           | None => bind_objects expected objs (<[reference := objectKey]> bs)
           end
  end.

Fixpoint collect_defeated (objs : gmap Z HostileReference) (dead : list Z) (acc : gset Z)
    : result (gset Z) :=
  match dead with
  | [] => mret acc
  | k :: dead =>
      match objs !! k with
      | None => Fail ErrRevisitSceneMismatch
      | Some _ => if bool_decide (k ∈ acc) then Fail ErrRevisitSceneMismatch
                  else collect_defeated objs dead ({[k]} ∪ acc)
      end
  end.

(** Every blocking hostile is bound to a defeated object. *)
Definition all_defeated (blocking : list HostileReference) (bs : gmap HostileReference Z)
    (dead : gset Z) : bool :=
  forallb (λ r, match bs !! r with Some k => bool_decide (k ∈ dead) | None => false end) blocking.

Definition validateRevisitDungeonRoomScene (expected cached : DungeonRoomScene) (runCleared : bool)
    : result (DungeonRoomScene * gmap HostileReference Z * gset Z) :=
  if negb (sameDungeonRoomPVFScene expected cached) then Fail ErrRevisitSceneMismatch
  else
    bs ← bind_objects (ExpectedHostiles cached) (map_to_list (RuntimeObjects cached)) ∅;
    if negb (forallb (λ r, bool_decide (is_Some (bs !! r))) (ExpectedHostiles cached))
    then Fail ErrRevisitSceneMismatch
    else
      dead ← collect_defeated (RuntimeObjects cached) (DefeatedObjects cached) ∅;
      let computedCleared := all_defeated (BlockingHostiles cached) bs dead in
      if negb (eqb (sc_Cleared cached) computedCleared) || negb (eqb (sc_Cleared cached) runCleared)
      then Fail ErrRevisitSceneMismatch
      else mret (cached, bs, dead).

(** ** Construction *)

Definition installSceneLocked (s : DungeonSession) (sc : DungeonRoomScene) : DungeonSession :=
  mkSession (run s) sc ∅ ∅.
Definition installRestoredSceneLocked (s : DungeonSession) (sc : DungeonRoomScene)
    (bs : gmap HostileReference Z) (dead : gset Z) : DungeonSession :=
  mkSession (run s) sc bs dead.
Definition set_run (s : DungeonSession) (r : DungeonRun) : DungeonSession :=
  mkSession r (scene s) (bindings s) (defeated s).
Definition set_scene (s : DungeonSession) (sc : DungeonRoomScene) : DungeonSession :=
  mkSession (run s) sc (bindings s) (defeated s).

(** [NewDungeonSession] with [loadRoomLocked]. *)
Definition NewDungeonSession (r : DungeonRun) : result DungeonSession :=
  room ← or_fail (CurrentRoom r) ErrRoomNotFound;
  sc ← dungeonRoomScene room;
  r ← (if sc_Cleared sc then MarkCurrentRoomCleared r else mret r);
  mret (mkSession r sc ∅ ∅).

(** ** Hostiles *)

Definition BindHostileObject (s : DungeonSession) (reference : HostileReference) (objectKey : Z)
    : DungeonSession * result unit :=
  if objectKey =? 0 then (s, Fail ErrRuntimeObjectKeyInvalid)
  else if negb (containsHostileReference (ExpectedHostiles (scene s)) reference)
  then (s, Fail ErrHostileReferenceInvalid)
  else match bindings s !! reference with
       | Some _ => (s, Fail ErrHostileAlreadyBound)
       | None =>
           match RuntimeObjects (scene s) !! objectKey with
           | Some _ => (s, Fail ErrRuntimeObjectKeyBound)
           | None =>
               (mkSession (run s)
                  (set_objects (scene s) (<[objectKey := reference]> (RuntimeObjects (scene s))))
                  (<[reference := objectKey]> (bindings s)) (defeated s), Ret tt)
           end
       end.

(** Opens the current room in the run, then in the scene. *)
Definition open_room (s : DungeonSession) : DungeonSession * result bool :=
  match MarkCurrentRoomCleared (run s) with
  | Ret r => (mkSession r (set_open (scene s) true) (bindings s) (defeated s), Ret true)
  | Fail e => (s, Fail e)
  | Panic => (s, Panic)
  end.

Definition MarkHostileNonBlocking (s : DungeonSession) (reference : HostileReference)
    : DungeonSession * result bool :=
  if negb (containsHostileReference (ExpectedHostiles (scene s)) reference)
  then (s, Fail ErrHostileReferenceInvalid)
  else
    let blocking := filter (λ r, r ≠ reference) (BlockingHostiles (scene s)) in
    if negb (containsHostileReference (BlockingHostiles (scene s)) reference) then (s, Ret false)
    else
      let s := set_scene s (set_blocking (scene s) blocking) in
      if bool_decide (blocking = []) && negb (sc_Cleared (scene s)) then open_room s
      else (s, Ret true).

Definition MarkHostileDefeated (s : DungeonSession) (objectKey : Z) : DungeonSession * result bool :=
  match RuntimeObjects (scene s) !! objectKey with
  | None => (s, Fail ErrHostileNotBound)
  | Some _ =>
      if bool_decide (objectKey ∈ defeated s) then (s, Fail ErrHostileAlreadyDefeated)
      else
        let s := mkSession (run s)
                   (set_dead (scene s) (DefeatedObjects (scene s) ++ [objectKey]))
                   (bindings s) ({[objectKey]} ∪ defeated s) in
        if sc_Cleared (scene s) then (s, Ret false)
        else if negb (all_defeated (BlockingHostiles (scene s)) (bindings s) (defeated s))
        then (s, Ret false)
        else open_room s
  end.

(** Lifts a computation that changes nothing when it fails. *)
Definition commit {A} (s : DungeonSession) (m : result (DungeonSession * A))
    : DungeonSession * result A :=
  match m with
  | Ret (s', a) => (s', Ret a)
  | Fail e => (s, Fail e)
  | Panic => (s, Panic)
  end.

(** ** Layers and story stages *)

Definition previewLayeredLocked (s : DungeonSession) (c : RoomCoordinate) (layerIndex : Z)
    : result DungeonRoomScene :=
  room ← previewCurrentLayered (run s) c layerIndex; dungeonRoomScene room.

Definition PreviewLayered := previewLayeredLocked.

Definition CommitLayered (s : DungeonSession) (c : RoomCoordinate) (layerIndex : Z)
    : DungeonSession * result DungeonRoomScene :=
  commit s (sc ← previewLayeredLocked s c layerIndex;
            '(r, _) ← commitCurrentLayered (run s) c layerIndex (map_ID (rm_Map (sc_Map sc)))
                        (sc_Cleared sc);
            mret (installSceneLocked (set_run s r) sc, sc)).

Definition PreviewStoryStage (s : DungeonSession) (stageIndex : Z) : result DungeonRoomTransition :=
  '(room, revisit) ← previewStoryStage (run s) stageIndex;
  sc ← dungeonRoomScene room;
  mret (mkTransition sc revisit).

Definition CommitStoryStage (s : DungeonSession) (stageIndex : Z)
    : DungeonSession * result DungeonRoomTransition :=
  commit s ('(room, revisit) ← previewStoryStage (run s) stageIndex;
            sc ← dungeonRoomScene room;
            '(r, _) ← commitStoryStage (run s) stageIndex (sc_Coordinate sc)
                        (map_ID (rm_Map (sc_Map sc))) revisit (sc_Cleared sc);
            mret (installSceneLocked (set_run s r) sc, mkTransition sc revisit)).

Definition validateLayeredBaseLocked (s : DungeonSession) (c : RoomCoordinate)
    (cachedScene : DungeonRoomScene)
    : result (DungeonRoomScene * gmap HostileReference Z * gset Z) :=
  '(baseRoom, _) ← previewCurrentLayeredBase (run s) c;
  expected ← dungeonRoomScene baseRoom;
  validateRevisitDungeonRoomScene expected cachedScene (sc_Cleared cachedScene).

Definition ValidateLayeredBase (s : DungeonSession) (c : RoomCoordinate)
    (cachedScene : DungeonRoomScene) : result DungeonRoomScene :=
  '(sc, _, _) ← validateLayeredBaseLocked s c cachedScene; mret sc.

Definition CommitLayeredBase (s : DungeonSession) (c : RoomCoordinate)
    (cachedScene : DungeonRoomScene) : DungeonSession * result DungeonRoomScene :=
  commit s ('(sc, bs, dead) ← validateLayeredBaseLocked s c cachedScene;
            '(r, _) ← commitCurrentLayeredBase (run s) c (map_ID (rm_Map (sc_Map sc)))
                        (sc_Cleared sc);
            mret (installRestoredSceneLocked (set_run s r) sc bs dead, sc)).

(** ** Moving; the coordinates are bytes *)

Definition previewMoveByteTransitionLocked (s : DungeonSession) (nextX nextY : Z)
    : result (DungeonRoomTransition * bool) :=
  '(room, revisit, targetCleared) ← previewMoveToVisit (run s) (mkRoom nextX nextY);
  sc ← dungeonRoomScene room;
  mret (mkTransition sc revisit, targetCleared).

Definition PreviewMoveByteTransition (s : DungeonSession) (nextX nextY : Z)
    : result DungeonRoomTransition :=
  '(t, _) ← previewMoveByteTransitionLocked s nextX nextY; mret t.

Definition SessionPreviewMoveByte (s : DungeonSession) (nextX nextY : Z) : result DungeonRoomScene :=
  t ← PreviewMoveByteTransition s nextX nextY; mret (tr_Scene t).

Definition validateMoveByteTransitionLocked (s : DungeonSession) (nextX nextY : Z)
    (revisitScene : option DungeonRoomScene) : result validatedDungeonRoomTransition :=
  '(preview, targetCleared) ← previewMoveByteTransitionLocked s nextX nextY;
  if Revisit preview then
    match revisitScene with
    | None => Fail ErrRevisitSceneRequired
    | Some cached =>
        '(sc, bs, dead) ←
          validateRevisitDungeonRoomScene (tr_Scene preview) cached targetCleared;
        mret (mkValidated (mkTransition sc true) bs dead)
    end
  else
    match revisitScene with
    | Some _ => Fail ErrRevisitSceneUnexpected
    | None => mret (mkValidated preview ∅ ∅)
    end.

Definition ValidateMoveByteTransition (s : DungeonSession) (nextX nextY : Z)
    (revisitScene : option DungeonRoomScene) : result DungeonRoomTransition :=
  v ← validateMoveByteTransitionLocked s nextX nextY revisitScene; mret (transition v).

Definition MoveByteTransition (s : DungeonSession) (nextX nextY : Z)
    (revisitScene : option DungeonRoomScene) : DungeonSession * result DungeonRoomTransition :=
  commit s (v ← validateMoveByteTransitionLocked s nextX nextY revisitScene;
            let sc := tr_Scene (transition v) in
            let revisit := Revisit (transition v) in
            '(r, _, _) ← moveToVisit (run s) (sc_Coordinate sc) (sc_Cleared sc) (Some revisit);
            let s := set_run s r in
            let s := if revisit then installRestoredSceneLocked s sc (va_bindings v) (va_defeated v)
                     else installSceneLocked s sc in
            mret (s, mkTransition sc revisit)).

Definition SessionMoveByte (s : DungeonSession) (nextX nextY : Z)
    : DungeonSession * result DungeonRoomScene :=
  let '(s, t) := MoveByteTransition s nextX nextY None in (s, t ← t; mret (tr_Scene t)).

(** ** Ending *)

Definition SessionAbandon (s : DungeonSession) : DungeonSession * result unit :=
  commit s (r ← Abandon (run s); mret (set_run s r, tt)).

Definition SessionComplete (s : DungeonSession) : DungeonSession * result unit :=
  commit s (r ← Complete (run s); mret (set_run s r, tt)).

Definition SessionCompleteCurrentRoom (s : DungeonSession) : DungeonSession * result unit :=
  commit s (r ← CompleteCurrentRoom (run s);
            mret (mkSession r (set_open (scene s) true) (bindings s) (defeated s), tt)).

End session.
