(* ===== verification/DungeonInvariant.v ===== *)
(** * The invariant of a dungeon session

    What holds of every session of [DungeonSession.v]: the run stands in a
    visited room of its topology, the bindings and the runtime object table are
    inverse to each other, the defeated set is a set of bound objects, the
    scene and the run agree on whether the room is open, and while the run is
    active a room is open only when its blocking hostiles are defeated. *)

From S2P Require Import Prelude GoStrings Worldmap Topology DungeonRun DungeonSession.

Section invariant.
Context `{MapPayload}.

(** ** Runs *)

Lemma is_active_true r : is_active r = true ↔ status r = DungeonRunActive.
Proof. unfold is_active. apply bool_decide_eq_true. Qed.

Lemma is_cleared_true r k : is_cleared r k = true ↔ k ∈ cleared r.
Proof. unfold is_cleared. apply bool_decide_eq_true. Qed.

Lemma or_fail_ret {A} (o : option A) e x : or_fail o e = Ret x ↔ o = Some x.
Proof. destruct o; cbn; naive_solver. Qed.

(** Inverts guards and binds of a computation that returned. *)
Ltac ret_inv :=
  repeat match goal with
  | H : _ ≫= _ = Ret _ |- _ => apply bind_ret_inv in H as (? & ? & H)
  | H : or_fail _ _ = Ret _ |- _ => apply or_fail_ret in H
  | H : (if ?b then Fail _ else _) = Ret _ |- _ => destruct b eqn:?; [done|]
  | H : mret _ = Ret _ |- _ => injection H as <-
  | H : Ret _ = Ret _ |- _ => injection H as <-
  | H : mret _ = Ret (_, _) |- _ => injection H as <- <-
  | H : Ret (_, _) = Ret (_, _) |- _ => injection H as <- <-
  | x : _ * _ |- _ => destruct x
  end; bool_clean.

(** What a validated move guarantees. *)
Lemma validateMove_ret r t room : validateMoveLocked r t = Ret room →
  status r = DungeonRunActive ∧ rooms (topology r) !! key t = Some room
  ∧ adjacent t (current r) = true ∧ is_Some (room_Map room)
  ∧ (AllowMoveBeforeClear (topology r) = true ∨ current r ∈ cleared r).
Proof.
  unfold validateMoveLocked. intros Hr. ret_inv.
  destruct (room_Map x) eqn:Em; [|done]. injection Hr as <-.
  apply is_active_true in Heqb. split_and!; [done..| |].
  - by rewrite Em.
  - destruct (AllowMoveBeforeClear (topology r)) eqn:Ea; [by left|right].
    cbn in Heqb1. apply is_cleared_true. by destruct (is_cleared r (current r)).
Qed.

Lemma moveToVisit_ret r t cl e r' room rv : moveToVisit r t cl e = Ret (r', room, rv) →
  validateMoveLocked r t = Ret room ∧ rv = bool_decide (key t ∈ visited r)
  ∧ (∀ b, e = Some b → rv = b)
  ∧ r' = mkRun (topology r) (key t) ({[key t]} ∪ visited r)
           (if cl then {[key t]} ∪ cleared r else cleared r) (status r).
Proof.
  unfold moveToVisit. intros Hm. apply bind_ret_inv in Hm as (room' & Hv & Hm).
  destruct (match e with Some e => _ | None => _ end) eqn:He; [done|].
  injection Hm as <- <- <-. split_and!; [done..| |by destruct cl].
  intros b ->. apply negb_false_iff in He. by apply eqb_prop in He.
Qed.

Lemma validateMove_dom r t room : validateMoveLocked r t = Ret room → key t ∈ dom (rooms (topology r)).
Proof. intros (_ & Hr & _)%validateMove_ret. by eapply elem_of_dom_2. Qed.

Lemma move_run_ok r t cl e r' room rv : run_ok r → moveToVisit r t cl e = Ret (r', room, rv) →
  run_ok r'.
Proof.
  intros [Ht Hc Hv Hcl] Hm. apply moveToVisit_ret in Hm as (Hval & _ & _ & ->).
  apply validateMove_dom in Hval. split; cbn; [done|set_solver|set_solver|].
  destruct cl; set_solver.
Qed.

Lemma reset_cleared_fields r k cl : topology (reset_cleared r k cl) = topology r
  ∧ current (reset_cleared r k cl) = current r ∧ visited (reset_cleared r k cl) = visited r
  ∧ status (reset_cleared r k cl) = status r
  ∧ ∀ k', is_cleared (reset_cleared r k cl) k' = if decide (k' = k) then cl else is_cleared r k'.
Proof.
  unfold reset_cleared. split_and!; try (by destruct cl). intros k'. unfold is_cleared.
  destruct cl; cbn; case_decide; subst.
  - apply bool_decide_eq_true_2. set_solver.
  - apply bool_decide_ext. set_solver.
  - apply bool_decide_eq_false_2. set_solver.
  - apply bool_decide_ext. set_solver.
Qed.

Lemma reset_cleared_run_ok r k cl : run_ok r → k ∈ visited r → run_ok (reset_cleared r k cl).
Proof.
  intros [Ht Hc Hv Hcl] Hk. unfold reset_cleared. destruct cl; split; cbn; set_solver.
Qed.

Lemma mark_run_ok r r' : run_ok r → MarkCurrentRoomCleared r = Ret r' →
  run_ok r' ∧ r' = set_cleared r ({[current r]} ∪ cleared r) ∧ status r = DungeonRunActive.
Proof.
  intros [Ht Hc Hv Hcl]. unfold MarkCurrentRoomCleared. intros Hm. ret_inv.
  apply is_active_true in Heqb. split_and!; [|done..]. split; cbn; set_solver.
Qed.

(** A story stage is an adjacent room of the topology with another map. *)
Lemma resolveStory_ret r i room rv : resolveStoryStageLocked r i = Ret (room, rv) →
  ∃ base k, rooms (topology r) !! k = Some base ∧ adjacent (coordinate k) (current r) = true
      ∧ room_Coordinate room = room_Coordinate base ∧ rv = bool_decide (k ∈ visited r)
      ∧ status r = DungeonRunActive
      ∧ (AllowMoveBeforeClear (topology r) = true ∨ current r ∈ cleared r).
Proof.
  unfold resolveStoryStageLocked. intros Hr. apply bind_ret_inv in Hr as (res & Hres & Hr).
  destruct (negb (is_active r)) eqn:Ha; [done|]. apply bind_ret_inv in Hr as ([m st] & Hst & Hr).
  apply bind_ret_inv in Hr as (base & Hb & Hr). apply or_fail_ret in Hb.
  destruct (negb (adjacent _ _)) eqn:Hadj; [done|]. destruct (_ && _) eqn:Hcl; [done|].
  injection Hr as <- <-. exists base, (key (stage_Coordinate st)).
  rewrite coordinate_key. bool_clean. apply is_active_true in Ha. split_and!; try done.
  destruct (AllowMoveBeforeClear (topology r)); [by left|right].
  apply is_cleared_true. by destruct (is_cleared r (current r)).
Qed.

Lemma commitStory_ret r i c mid rv cl r' room : run_ok r →
  commitStoryStage r i c mid rv cl = Ret (r', room) →
  run_ok r' ∧ coordinate (current r') = c ∧ status r' = status r
  ∧ is_cleared r' (current r') = cl ∧ topology r' = topology r.
Proof.
  intros Hok. unfold commitStoryStage. intros Hc.
  apply bind_ret_inv in Hc as ([room' rv'] & Hres & Hc).
  destruct (_ || _ || _) eqn:Hx; [done|]. injection Hc as <- <-. bool_clean.
  apply resolveStory_ret in Hres as (base & k & Hk & Hadj & Hco & _ & Hst & _).
  pose proof (top_room _ (run_top _ Hok) _ _ Hk) as Hbc.
  assert (key (room_Coordinate room') = k) as Ek by (by rewrite Hco, Hbc, key_coordinate).
  set (r1 := set_visited _ _).
  assert (run_ok r1) as Hok1.
  { destruct Hok as [Ht Hcu Hv Hcl]. split; cbn; [done|set_solver| |set_solver].
    rewrite Ek. apply elem_of_dom_2 in Hk. set_solver. }
  destruct (reset_cleared_fields r1 (key (room_Coordinate room')) cl) as (E1 & E2 & E3 & E4 & E5).
  rewrite E1, E2, E4, E5. split_and!; try done.
  - apply reset_cleared_run_ok; [done|]. cbn. set_solver.
  - cbn. rewrite coordinate_key. done.
  - cbn. by rewrite decide_True.
Qed.

Lemma resolveLayered_ret r c i room : run_ok r → resolveCurrentLayeredLocked r c i = Ret room →
  c = coordinate (current r) ∧ room_Coordinate room = c ∧ status r = DungeonRunActive.
Proof.
  intros Hok. unfold resolveCurrentLayeredLocked. intros Hr.
  destruct (negb (is_active r)) eqn:Ha; [done|]. destruct (negb (bool_decide _)) eqn:Hc; [done|].
  bool_clean. apply is_active_true in Ha. subst c.
  apply bind_ret_inv in Hr as (base & Hb & Hr). apply or_fail_ret in Hb.
  apply bind_ret_inv in Hr as (res & _ & Hr). apply bind_ret_inv in Hr as (m & _ & Hr).
  injection Hr as <-. split_and!; [done| |done]. apply (top_room _ (run_top _ Hok) _ _ Hb).
Qed.

Lemma commitLayered_ret r c i mid cl r' room : run_ok r →
  commitCurrentLayered r c i mid cl = Ret (r', room) →
  r' = reset_cleared r (current r) cl ∧ status r = DungeonRunActive.
Proof.
  intros Hok. unfold commitCurrentLayered. intros Hc. apply bind_ret_inv in Hc as (room' & Hr & Hc).
  destruct (map_id_changed _ _); [done|]. injection Hc as <- <-.
  by apply resolveLayered_ret in Hr as (_ & _ & ?).
Qed.

Lemma resolveBase_ret r c room : resolveCurrentLayeredBaseLocked r c = Ret room →
  c = coordinate (current r) ∧ rooms (topology r) !! current r = Some room
  ∧ (status r = DungeonRunActive ∨ status r = DungeonRunCompleted).
Proof.
  unfold resolveCurrentLayeredBaseLocked. intros Hr.
  destruct (_ && _) eqn:Ha; [done|]. destruct (negb (bool_decide (c = _))) eqn:Hc; [done|].
  apply bind_ret_inv in Hr as (base & Hb & Hr). apply or_fail_ret in Hb. bool_clean.
  destruct (room_Map base); [|done]. injection Hr as <-. split_and!; [done..|].
  destruct (status r) eqn:Hs; auto. unfold is_active in Ha. by rewrite Hs in Ha.
Qed.

Lemma commitBase_ret r c mid cl r' room : commitCurrentLayeredBase r c mid cl = Ret (r', room) →
  r' = reset_cleared r (current r) cl ∧ resolveCurrentLayeredBaseLocked r c = Ret room.
Proof.
  unfold commitCurrentLayeredBase. intros Hc. apply bind_ret_inv in Hc as (room' & Hr & Hc).
  destruct (map_id_changed _ _); [done|]. by injection Hc as <- <-.
Qed.

(** ** Scenes *)

(** A scene freshly built from a room: nothing bound or defeated, and open when
    nothing blocks. *)
Record fresh_scene (sc : DungeonRoomScene) : Prop := {
  fresh_objects : RuntimeObjects sc = ∅;
  fresh_dead : DefeatedObjects sc = [];
  fresh_open : sc_Cleared sc = bool_decide (BlockingHostiles sc = []);
  fresh_blocking : ∀ h, h ∈ BlockingHostiles sc → h ∈ ExpectedHostiles sc
}.

Lemma dungeonRoomScene_ret room sc : dungeonRoomScene room = Ret sc →
  fresh_scene sc ∧ sc_Coordinate sc = room_Coordinate room
  ∧ room_map_id room = map_ID (rm_Map (sc_Map sc)).
Proof.
  unfold dungeonRoomScene, room_map_id. destruct (room_Map room) as [m|]; [|done].
  intros [= <-]. split_and!; [|done..]. split; cbn; [done..|].
  intros h [_ Hh]%list_elem_of_filter. apply elem_of_app. by left.
Qed.

Lemma containsHostileReference_true l h : containsHostileReference l h = true ↔ h ∈ l.
Proof.
  unfold containsHostileReference. rewrite existsb_exists. setoid_rewrite bool_decide_eq_true.
  setoid_rewrite <- list_elem_of_In. naive_solver.
Qed.

(** The bindings are the inverse of the listed runtime objects. *)
Lemma bind_objects_ret expected l : ∀ bs0 bs, bind_objects expected l bs0 = Ret bs →
  (∀ k h, (k, h) ∈ l → k ≠ 0 ∧ h ∈ expected ∧ bs0 !! h = None)
  ∧ NoDup l.*2
  ∧ (∀ h k, bs !! h = Some k ↔ bs0 !! h = Some k ∨ (k, h) ∈ l).
Proof.
  induction l as [|[k h] l IH]; intros bs0 bs; cbn.
  - intros [= <-]. split_and!; [set_solver|constructor|set_solver].
  - destruct (_ || _) eqn:Hg; [done|]. bool_clean.
    apply containsHostileReference_true in H1.
    destruct (bs0 !! h) eqn:Hh; [done|]. intros Hb.
    apply IH in Hb as (Hall & Hnd & Hbs). split_and!.
    + intros k' h' [[= -> ->]|Hin]%elem_of_cons; [done|].
      destruct (Hall k' h' Hin) as (? & ? & Hn). split_and!; [done..|].
      by apply lookup_insert_None in Hn as [? _].
    + constructor; [|done]. intros ([k' h'] & -> & Hin)%list_elem_of_fmap.
      destruct (Hall k' h' Hin) as (_ & _ & Hn). by rewrite lookup_insert_eq in Hn.
    + intros h' k'. rewrite Hbs, elem_of_cons, lookup_insert_Some. naive_solver.
Qed.

Lemma bind_objects_total expected l : ∀ bs0,
  (∀ k h, (k, h) ∈ l → k ≠ 0 ∧ h ∈ expected ∧ bs0 !! h = None) → NoDup l.*2 →
  ∃ bs, bind_objects expected l bs0 = Ret bs.
Proof.
  induction l as [|[k h] l IH]; intros bs0 Hall Hnd; cbn; [by eexists|].
  destruct (Hall k h) as (Hk & Hh & Hn); [set_solver|].
  rewrite (proj2 (Z.eqb_neq k 0)) by done.
  rewrite (proj2 (containsHostileReference_true expected h)) by done. cbn. rewrite Hn.
  cbn in Hnd. apply NoDup_cons in Hnd as [Hni Hnd]. apply IH; [|done].
  intros k' h' Hin. destruct (Hall k' h') as (? & ? & ?); [set_solver|].
  split_and!; [done..|]. rewrite lookup_insert_ne; [done|]. intros ->. apply Hni.
  apply list_elem_of_fmap. by exists (k', h').
Qed.

(** The order in which the runtime objects are visited does not matter. *)
Lemma bind_objects_perm expected l l' : l ≡ₚ l' →
  ∀ bs, bind_objects expected l ∅ = Ret bs → bind_objects expected l' ∅ = Ret bs.
Proof.
  intros Hp bs Hb. apply bind_objects_ret in Hb as (Hall & Hnd & Hbs).
  destruct (bind_objects_total expected l' ∅) as [bs' Hb'].
  - intros k h. rewrite <- Hp. apply Hall.
  - by rewrite <- Hp.
  - rewrite Hb'. f_equal. apply bind_objects_ret in Hb' as (_ & _ & Hbs').
    apply map_eq. intros h. apply option_eq. intros k. rewrite Hbs, Hbs'. by rewrite Hp.
Qed.

Lemma collect_defeated_ret objs l : ∀ acc dead, collect_defeated objs l acc = Ret dead →
  (∀ k, k ∈ l → is_Some (objs !! k) ∧ k ∉ acc) ∧ NoDup l ∧ (∀ k, k ∈ dead ↔ k ∈ acc ∨ k ∈ l).
Proof.
  induction l as [|k l IH]; intros acc dead; cbn.
  - intros [= <-]. split_and!; [set_solver|constructor|set_solver].
  - destruct (objs !! k) eqn:Hk; [|done]. case_bool_decide as Hin; [done|].
    intros (Hall & Hnd & Hd)%IH. split_and!.
    + intros k' [->|Hk']%elem_of_cons; [by rewrite Hk|]. destruct (Hall k' Hk'). set_solver.
    + constructor; [|done]. intros Hk'. destruct (Hall k Hk'). set_solver.
    + intros k'. rewrite Hd. set_solver.
Qed.

Lemma collect_defeated_total objs l : ∀ acc, (∀ k, k ∈ l → is_Some (objs !! k) ∧ k ∉ acc) → NoDup l →
  ∃ dead, collect_defeated objs l acc = Ret dead.
Proof.
  induction l as [|k l IH]; intros acc Hall Hnd; cbn; [by eexists|].
  destruct (Hall k) as [[h ->] Hk]; [set_solver|]. rewrite bool_decide_eq_false_2 by done.
  apply NoDup_cons in Hnd as [Hni Hnd]. apply IH; [|done]. intros k' Hk'.
  destruct (Hall k'); set_solver.
Qed.

(** The relation between a scene and the private maps of its session. *)
Record scene_ok (sc : DungeonRoomScene) (bs : gmap HostileReference Z) (dead : gset Z) : Prop := {
  sok_bind : ∀ h k, bs !! h = Some k ↔ RuntimeObjects sc !! k = Some h;
  sok_expected : ∀ k h, RuntimeObjects sc !! k = Some h → k ≠ 0 ∧ h ∈ ExpectedHostiles sc;
  sok_dead_nodup : NoDup (DefeatedObjects sc);
  sok_dead : ∀ k, k ∈ DefeatedObjects sc ↔ k ∈ dead;
  sok_dead_bound : ∀ k, k ∈ dead → is_Some (RuntimeObjects sc !! k);
  sok_blocking : ∀ h, h ∈ BlockingHostiles sc → h ∈ ExpectedHostiles sc
}.

Lemma fresh_scene_ok sc : fresh_scene sc → scene_ok sc ∅ ∅.
Proof.
  intros [Ho Hd Hop Hb]. split; rewrite ?Ho, ?Hd; try set_solver.
  constructor.
Qed.

Lemma validateRevisit_ret expected cached cl sc bs dead : fresh_scene expected →
  validateRevisitDungeonRoomScene expected cached cl = Ret (sc, bs, dead) →
  sc = cached ∧ set_runtime expected ∅ [] false = set_runtime cached ∅ [] false
  ∧ scene_ok cached bs dead
  ∧ (∀ h, h ∈ ExpectedHostiles cached → is_Some (bs !! h))
  ∧ sc_Cleared cached = all_defeated (BlockingHostiles cached) bs dead
  ∧ sc_Cleared cached = cl.
Proof.
  intros Hf. unfold validateRevisitDungeonRoomScene. intros Hv.
  destruct (negb (sameDungeonRoomPVFScene _ _)) eqn:Hs; [done|]. apply negb_false_iff in Hs.
  apply bind_ret_inv in Hv as (bs' & Hb & Hv). destruct (negb (forallb _ _)) eqn:He; [done|].
  apply negb_false_iff in He. rewrite forallb_forall in He.
  apply bind_ret_inv in Hv as (dead' & Hd & Hv). destruct (_ || _) eqn:Hc; [done|].
  injection Hv as <- <- <-.
  apply orb_false_iff in Hc as [Hc1%negb_false_iff%eqb_prop Hc2%negb_false_iff%eqb_prop].
  unfold sameDungeonRoomPVFScene in Hs. apply bool_decide_eq_true in Hs.
  apply bind_objects_ret in Hb as (Hball & Hbnd & Hbs).
  apply collect_defeated_ret in Hd as (Hdall & Hdnd & Hds).
  split_and!; try done.
  - split.
    + intros h k. rewrite Hbs, elem_of_map_to_list, lookup_empty. naive_solver.
    + intros k h Hk. destruct (Hball k h); [by apply elem_of_map_to_list|naive_solver].
    + done.
    + intros k. rewrite Hds. set_solver.
    + intros k Hk. apply Hds in Hk as [?|Hk]; [set_solver|]. by apply Hdall.
    + assert (BlockingHostiles expected = BlockingHostiles cached
              ∧ ExpectedHostiles expected = ExpectedHostiles cached) as [<- <-] by by injection Hs.
      apply Hf.
  - intros h Hh. specialize (He h). apply list_elem_of_In, He in Hh. by apply bool_decide_eq_true in Hh.
Qed.

End invariant.
