(* ===== verification/DungeonSafety.v ===== *)
(** * Every session operation keeps the invariant

    The well-formedness of a session and its preservation by every mutating
    method of [DungeonSession.v], failed calls included. *)

From S2P Require Import Prelude GoStrings Worldmap Topology DungeonRun DungeonSession.
From S2P Require Import DungeonInvariant.

Section safety.
Context `{MapPayload}.

Record session_ok (s : DungeonSession) : Prop := {
  so_run : run_ok (run s);
  so_room : sc_Coordinate (scene s) = coordinate (current (run s));
  so_scene : scene_ok (scene s) (bindings s) (defeated s);
  so_open : sc_Cleared (scene s) = is_cleared (run s) (current (run s));
  so_safe : status (run s) = DungeonRunActive → sc_Cleared (scene s) = true →
    all_defeated (BlockingHostiles (scene s)) (bindings s) (defeated s) = true
}.

Lemma all_defeated_true bl bs dead : all_defeated bl bs dead = true ↔
  ∀ h, h ∈ bl → ∃ k, bs !! h = Some k ∧ k ∈ dead.
Proof.
  unfold all_defeated. rewrite forallb_forall. setoid_rewrite <- list_elem_of_In.
  split; intros Hall h Hh; specialize (Hall h Hh).
  - destruct (bs !! h) as [k|]; [|done]. apply bool_decide_eq_true in Hall. eauto.
  - destruct Hall as (k & -> & Hk). by apply bool_decide_eq_true.
Qed.

Lemma fresh_safe sc : fresh_scene sc → sc_Cleared sc = true →
  all_defeated (BlockingHostiles sc) ∅ ∅ = true.
Proof. intros Hf. rewrite (fresh_open _ Hf), bool_decide_eq_true. by intros ->. Qed.

(** The session obtained by installing a fresh scene in a run that agrees with
    it. *)
Lemma install_fresh_ok r sc : run_ok r → fresh_scene sc →
  sc_Coordinate sc = coordinate (current r) → sc_Cleared sc = is_cleared r (current r) →
  session_ok (mkSession r sc ∅ ∅).
Proof.
  intros Hr Hf Hc Ho. split; cbn; [done|done|by apply fresh_scene_ok|done|].
  intros _. by apply fresh_safe.
Qed.

Lemma new_run_ok t r : topology_ok t → NewDungeonRun t = Ret r → run_ok r.
Proof.
  intros Ht. unfold NewDungeonRun. intros Hr.
  apply bind_ret_inv in Hr as (c & Hc & Hr). apply bind_ret_inv in Hr as (room & Hroom & Hr).
  apply or_fail_ret in Hroom. destruct (room_Map room); [|done]. injection Hr as <-.
  split; cbn; [done|set_solver| |set_solver]. unfold Room in Hroom. apply elem_of_dom_2 in Hroom. set_solver.
Qed.

Lemma new_session_ok r s : run_ok r → cleared r = ∅ → NewDungeonSession r = Ret s → session_ok s.
Proof.
  intros Hr Hcl. unfold NewDungeonSession. intros Hs.
  apply bind_ret_inv in Hs as (room & Hroom & Hs). apply or_fail_ret in Hroom.
  apply bind_ret_inv in Hs as (sc & Hsc & Hs).
  pose proof (top_room _ (run_top _ Hr) _ _ Hroom) as Hco. rewrite key_coordinate in Hco.
  apply dungeonRoomScene_ret in Hsc as (Hf & Hcoord & _).
  apply bind_ret_inv in Hs as (r' & Hm & Hs). injection Hs as <-.
  destruct (sc_Cleared sc) eqn:Ho.
  - apply mark_run_ok in Hm as (Hr' & -> & _); [|done].
    apply install_fresh_ok; [done|done|by rewrite Hcoord, Hco|].
    rewrite Ho. symmetry. apply is_cleared_true. cbn. set_solver.
  - injection Hm as <-. apply install_fresh_ok; [done|done|by rewrite Hcoord, Hco|].
    rewrite Ho. symmetry. apply bool_decide_eq_false_2. rewrite Hcl. set_solver.
Qed.

(** ** Hostiles *)

Lemma bind_ok s h k : session_ok s → session_ok (BindHostileObject s h k).1.
Proof.
  intros [Hr Hroom Hs Ho Hsafe]. unfold BindHostileObject.
  destruct (k =? 0) eqn:Hk; [by split|]. destruct (negb _) eqn:Hh; [by split|].
  destruct (bindings s !! h) eqn:Hb; [by split|].
  destruct (RuntimeObjects (scene s) !! k) eqn:Hobj; [by split|]. bool_clean.
  apply containsHostileReference_true in Hh. destruct Hs as [Hbind Hexp Hnd Hdead Hbound Hbl].
  split; cbn; [done|done| |done|].
  - split; cbn; try done.
    + intros h' k'. rewrite !lookup_insert_Some, Hbind. split.
      * intros [[<- <-]|[Hne Hl]]; [by left|right]. split; [|done]. intros <-. congruence.
      * intros [[<- <-]|[Hne Hl]]; [by left|right]. split; [|done]. intros <-.
        apply Hbind in Hl. congruence.
    + intros k' h' [[<- <-]|[_ Hl]]%lookup_insert_Some; [done|by apply Hexp].
    + intros k' Hk'. rewrite lookup_insert_is_Some. destruct (decide (k = k')); [by left|right].
      auto.
  - intros Hst Hop. specialize (Hsafe Hst Hop).
      rewrite all_defeated_true in Hsafe. apply all_defeated_true.
    intros h' Hh'. destruct (Hsafe h' Hh') as (k' & Hk' & Hd). exists k'.
    rewrite lookup_insert_ne; [done|]. intros <-. congruence.
Qed.

(** Opening the room of a session whose blocking hostiles are all defeated. *)
Lemma open_room_ok s : run_ok (run s) → sc_Coordinate (scene s) = coordinate (current (run s)) →
  scene_ok (scene s) (bindings s) (defeated s) →
  sc_Cleared (scene s) = is_cleared (run s) (current (run s)) → sc_Cleared (scene s) = false →
  all_defeated (BlockingHostiles (scene s)) (bindings s) (defeated s) = true →
  session_ok (open_room s).1.
Proof.
  intros Hr Hroom [Hbind Hexp Hnd Hdead Hbound Hbl] Ho Hf Hall. unfold open_room.
  destruct (MarkCurrentRoomCleared (run s)) as [r|e|] eqn:Hm; cbn [fst].
  - apply mark_run_ok in Hm as (Hr' & -> & Hst); [|done]. split; cbn; [done|done|by split| |done].
    symmetry. apply is_cleared_true. cbn. set_solver.
  - split; [done..|]. by rewrite Hf.
  - split; [done..|]. by rewrite Hf.
Qed.

Lemma nonblocking_ok s h : session_ok s → session_ok (MarkHostileNonBlocking s h).1.
Proof.
  intros [Hr Hroom Hs Ho Hsafe]. unfold MarkHostileNonBlocking.
  destruct (negb (containsHostileReference (ExpectedHostiles _) _)); [by split|].
  destruct (negb (containsHostileReference (BlockingHostiles _) _)); [by split|].
  set (bl := filter _ _). cbv zeta. destruct Hs as [Hbind Hexp Hnd Hdead Hbound Hbl].
  assert (∀ x, x ∈ bl → x ∈ BlockingHostiles (scene s)) as Hsub by (intros x [_ ?]%list_elem_of_filter; done).
  destruct (_ && _) eqn:Hc; cbn [fst].
  - apply andb_true_iff in Hc as [Hnil%bool_decide_eq_true Hcl%negb_true_iff].
    apply open_room_ok; cbn; try done.
    + split; cbn; auto.
    + by rewrite Hnil.
  - split; cbn; try done.
    + split; cbn; auto.
    + intros Hst Hop. specialize (Hsafe Hst Hop).
      rewrite all_defeated_true in Hsafe. apply all_defeated_true. auto.
Qed.

Lemma defeat_ok s k : session_ok s → session_ok (MarkHostileDefeated s k).1.
Proof.
  intros Hok. pose proof Hok as [Hr Hroom Hs Ho Hsafe]. unfold MarkHostileDefeated.
  destruct (RuntimeObjects (scene s) !! k) as [h|] eqn:Hk; [|done].
  case_bool_decide as Hd; [done|]. set (s' := mkSession _ _ _ _).
  destruct Hs as [Hbind Hexp Hnd Hdead Hbound Hbl].
  assert (scene_ok (scene s') (bindings s') (defeated s')) as Hs'.
  { split; cbn; auto.
    - apply NoDup_app. split_and!; [done| |apply NoDup_singleton].
      intros x Hx%Hdead ->%list_elem_of_singleton. done.
    - intros x. rewrite elem_of_app, list_elem_of_singleton, elem_of_union, elem_of_singleton, Hdead.
      tauto.
    - intros x [->%elem_of_singleton|Hx]%elem_of_union; [by rewrite Hk|auto]. }
  assert (∀ bl bs, all_defeated bl bs (defeated s) = true → all_defeated bl bs (defeated s') = true)
    as Hmono.
  { intros bl bs. rewrite !all_defeated_true. intros Hall x Hx.
    destruct (Hall x Hx) as (k' & ? & ?). exists k'. cbn. set_solver. }
  cbn zeta. destruct (sc_Cleared (scene s')) eqn:Hop; cbn [fst].
  - split; [done|done|done|exact Ho|]. intros Hst _. apply Hmono, Hsafe; [done|exact Hop].
  - destruct (negb (all_defeated _ _ _)) eqn:Hall; cbn [fst].
    + split; [done|done|done|exact Ho|]. intros _ Hop'. cbn in Hop, Hop'. congruence.
    + apply negb_false_iff in Hall. by apply open_room_ok.
Qed.

(** ** Layers, stories and moves *)

Lemma commit_ok {A} s (m : result (DungeonSession * A)) : session_ok s →
  (∀ s' a, m = Ret (s', a) → session_ok s') → session_ok (commit s m).1.
Proof. intros Hs Hm. destruct m as [[s' a]|e|]; cbn; eauto. Qed.

Lemma layered_ok s c i : session_ok s → session_ok (CommitLayered s c i).1.
Proof.
  intros Hok. apply commit_ok; [done|]. intros s' a Hm. destruct Hok as [Hr Hroom _ _ _].
  apply bind_ret_inv in Hm as (sc & Hsc & Hm). apply bind_ret_inv in Hm as ([r room] & Hc & Hm).
  injection Hm as <- _. apply commitLayered_ret in Hc as [-> _]; [|done].
  unfold previewLayeredLocked in Hsc. apply bind_ret_inv in Hsc as (room' & Hp & Hsc).
  apply resolveLayered_ret in Hp as (-> & Hco & _); [|done].
  apply dungeonRoomScene_ret in Hsc as (Hf & Hcoord & _).
  destruct (reset_cleared_fields (run s) (current (run s)) (sc_Cleared sc)) as (_ & E2 & _ & _ & E5).
  apply install_fresh_ok; cbn; [|done|by rewrite Hcoord, Hco, E2|].
  - apply reset_cleared_run_ok; [done|apply Hr].
  - by rewrite E2, E5, decide_True.
Qed.

Lemma story_ok s i : session_ok s → session_ok (CommitStoryStage s i).1.
Proof.
  intros Hok. apply commit_ok; [done|]. intros s' a Hm. destruct Hok as [Hr Hroom _ _ _].
  apply bind_ret_inv in Hm as ([room rv] & Hp & Hm). apply bind_ret_inv in Hm as (sc & Hsc & Hm).
  apply bind_ret_inv in Hm as ([r room'] & Hc & Hm). injection Hm as <- _.
  apply dungeonRoomScene_ret in Hsc as (Hf & Hcoord & _).
  apply commitStory_ret in Hc as (Hr' & Hcur & _ & Hcl & _); [|done].
  by apply install_fresh_ok.
Qed.

(** Installing a validated cached scene. *)
Lemma install_restored_ok r expected cached cl sc bs dead : run_ok r → fresh_scene expected →
  validateRevisitDungeonRoomScene expected cached cl = Ret (sc, bs, dead) →
  sc_Coordinate expected = coordinate (current r) →
  is_cleared r (current r) = sc_Cleared sc →
  session_ok (mkSession r sc bs dead).
Proof.
  intros Hr Hf (-> & Heq & Hs & _ & Hop & _)%validateRevisit_ret Hco Hcl; [|done].
  assert (sc_Coordinate expected = sc_Coordinate cached) as Ec by by injection Heq.
  split; cbn; [done|congruence|done|done|]. intros _ Ho. by rewrite <- Hop.
Qed.

Lemma base_ok s c cached : session_ok s → session_ok (CommitLayeredBase s c cached).1.
Proof.
  intros Hok. apply commit_ok; [done|]. intros s' a Hm. destruct Hok as [Hr Hroom _ _ _].
  apply bind_ret_inv in Hm as ([[sc bs] dead] & Hv & Hm).
  apply bind_ret_inv in Hm as ([r room] & Hc & Hm). injection Hm as <- _.
  apply commitBase_ret in Hc as [-> Hbase]. apply resolveBase_ret in Hbase as (-> & Hroom' & _).
  unfold validateLayeredBaseLocked in Hv. apply bind_ret_inv in Hv as ([broom bcl] & Hp & Hv).
  apply bind_ret_inv in Hv as (expected & Hsc & Hv).
  apply bind_ret_inv in Hp as (broom' & Hp & Heq). injection Heq as -> <-.
  apply resolveBase_ret in Hp as (_ & Hb & _).
  apply dungeonRoomScene_ret in Hsc as (Hf & Hcoord & _).
  destruct (reset_cleared_fields (run s) (current (run s)) (sc_Cleared sc)) as (_ & E2 & _ & _ & E5).
  eapply install_restored_ok; try done.
  - apply reset_cleared_run_ok; [done|apply Hr].
  - cbn [run set_run]. rewrite E2, Hcoord. apply (top_room _ (run_top _ Hr) _ _ Hb).
  - cbn [run set_run]. by rewrite E2, E5, decide_True.
Qed.

(** The room a validated transition leads to. *)
Lemma previewMove_ret s x y t cl : session_ok s →
  previewMoveByteTransitionLocked s x y = Ret (t, cl) →
  ∃ room, validateMoveLocked (run s) (mkRoom x y) = Ret room ∧ fresh_scene (tr_Scene t)
    ∧ dungeonRoomScene room = Ret (tr_Scene t)
    ∧ sc_Coordinate (tr_Scene t) = mkRoom x y
    ∧ Revisit t = bool_decide (key (mkRoom x y) ∈ visited (run s))
    ∧ cl = is_cleared (run s) (key (mkRoom x y)).
Proof.
  intros Hok Hp. unfold previewMoveByteTransitionLocked in Hp.
  apply bind_ret_inv in Hp as ([[room rv] cl'] & Hv & Hp).
  apply bind_ret_inv in Hp as (sc & Hsc & Hp). injection Hp as <- <-.
  unfold previewMoveToVisit in Hv. apply bind_ret_inv in Hv as (room' & Hv & Heq).
  injection Heq as -> <- <-. pose proof (dungeonRoomScene_ret _ _ Hsc) as (Hf & Hco & _).
  pose proof (validateMove_ret _ _ _ Hv) as (_ & Hr & _).
  pose proof (top_room _ (run_top _ (so_run _ Hok)) _ _ Hr) as Ht.
  exists room. split_and!; try done. cbn. rewrite Hco, Ht. apply coordinate_key.
Qed.

Lemma move_ok s x y cached : session_ok s → session_ok (MoveByteTransition s x y cached).1.
Proof.
  intros Hok. apply commit_ok; [done|]. intros s' a Hm.
  apply bind_ret_inv in Hm as (v & Hv & Hm). apply bind_ret_inv in Hm as ([[r room] rv] & Hmove & Hm).
  injection Hm as <- _. unfold validateMoveByteTransitionLocked in Hv.
  apply bind_ret_inv in Hv as ([t cl] & Hp & Hv).
  apply previewMove_ret in Hp as (room' & Hval & Hf & _ & Hco & Hrv & ->); [|done].
  pose proof (so_run _ Hok) as Hr. destruct (Revisit t) eqn:Hrev.
  - destruct cached as [cached|]; [|done]. apply bind_ret_inv in Hv as ([[sc bs] dead] & Hre & Hv).
    injection Hv as <-. cbn in *.
    pose proof Hre as Hre'. apply validateRevisit_ret in Hre' as (-> & Heq & _ & _ & _ & Hcl); [|done].
    assert (sc_Coordinate (tr_Scene t) = sc_Coordinate cached) as Ec by by injection Heq.
    rewrite <- Ec, Hco in Hmove. pose proof (move_run_ok _ _ _ _ _ _ _ Hr Hmove) as Hr'.
    apply moveToVisit_ret in Hmove as (_ & _ & _ & ->).
    eapply install_restored_ok; [done|exact Hf|exact Hre|by rewrite Hco|].
    cbn. rewrite Hcl. destruct (is_cleared (run s) (key (mkRoom x y))) eqn:E; rewrite <- E, ?Hcl, ?E.
    + apply is_cleared_true. cbn. set_solver.
    + apply bool_decide_eq_false_2. cbn. by apply bool_decide_eq_false in E.
  - destruct cached; [done|]. injection Hv as <-. cbn in *. rewrite Hrev in *.
    rewrite Hco in Hmove. pose proof (move_run_ok _ _ _ _ _ _ _ Hr Hmove) as Hr'.
    apply moveToVisit_ret in Hmove as (_ & _ & _ & ->).
    apply install_fresh_ok; [done|done|by rewrite Hco|].
    symmetry in Hrv. apply bool_decide_eq_false in Hrv. cbn. destruct (sc_Cleared (tr_Scene t)) eqn:E.
    + symmetry. apply is_cleared_true. cbn. set_solver.
    + symmetry. apply bool_decide_eq_false_2. cbn. intros Hc. apply Hrv.
      by apply (run_cleared _ Hr).
Qed.

(** ** Ending *)

Lemma set_status_run_ok r st : run_ok r → run_ok (set_status r st).
Proof. intros []. by split. Qed.

Lemma abandon_ok s : session_ok s → session_ok (SessionAbandon s).1.
Proof.
  intros Hok. apply commit_ok; [done|]. intros s' a Hm. destruct Hok as [Hr Hroom Hs Ho Hsafe].
  apply bind_ret_inv in Hm as (r & Ha & Hm). injection Hm as <- _. unfold Abandon in Ha.
  destruct (negb _); [done|]. injection Ha as <-.
  split; cbn; [by apply set_status_run_ok|done..].
Qed.

Lemma complete_ok s : session_ok s → session_ok (SessionComplete s).1.
Proof.
  intros Hok. apply commit_ok; [done|]. intros s' a Hm. destruct Hok as [Hr Hroom Hs Ho Hsafe].
  apply bind_ret_inv in Hm as (r & Ha & Hm). injection Hm as <- _. unfold Complete in Ha.
  destruct (negb _); [done|]. destruct (negb _); [done|]. injection Ha as <-.
  split; cbn; [by apply set_status_run_ok|done..].
Qed.

Lemma completeCurrent_ok s : session_ok s → session_ok (SessionCompleteCurrentRoom s).1.
Proof.
  intros Hok. apply commit_ok; [done|]. intros s' a Hm.
  destruct Hok as [[Ht Hcu Hv Hcl] Hroom [Hbind Hexp Hnd Hdead Hbound Hbl] Ho Hsafe].
  apply bind_ret_inv in Hm as (r & Ha & Hm). injection Hm as <- _. unfold CompleteCurrentRoom in Ha.
  destruct (negb _); [done|]. injection Ha as <-.
  split; cbn; [split; cbn; set_solver|done|by split| |done].
  symmetry. apply is_cleared_true. cbn. set_solver.
Qed.

(** ** The session as a transition system *)

Inductive session_op :=
| OpBind (h : HostileReference) (objectKey : Z)
| OpNonBlocking (h : HostileReference)
| OpDefeated (objectKey : Z)
| OpLayered (c : RoomCoordinate) (layer : Z)
| OpLayeredBase (c : RoomCoordinate) (cached : DungeonRoomScene)
| OpStory (stage : Z)
| OpMove (x y : Z) (cached : option DungeonRoomScene)
| OpAbandon
| OpComplete
| OpCompleteCurrentRoom.

Definition apply_op (s : DungeonSession) (op : session_op) : DungeonSession :=
  match op with
  | OpBind h k => (BindHostileObject s h k).1
  | OpNonBlocking h => (MarkHostileNonBlocking s h).1
  | OpDefeated k => (MarkHostileDefeated s k).1
  | OpLayered c i => (CommitLayered s c i).1
  | OpLayeredBase c cached => (CommitLayeredBase s c cached).1
  | OpStory i => (CommitStoryStage s i).1
  | OpMove x y cached => (MoveByteTransition s x y cached).1
  | OpAbandon => (SessionAbandon s).1
  | OpComplete => (SessionComplete s).1
  | OpCompleteCurrentRoom => (SessionCompleteCurrentRoom s).1
  end.

Inductive session_step : DungeonSession → DungeonSession → Prop :=
| session_step_op s op : session_step s (apply_op s op).

Lemma apply_op_ok s op : session_ok s → session_ok (apply_op s op).
Proof.
  intros Hok. destruct op; cbn; eauto using bind_ok, nonblocking_ok, defeat_ok, layered_ok, base_ok,
    story_ok, move_ok, abandon_ok, complete_ok, completeCurrent_ok.
Qed.

(** Sessions reachable from a fresh run of a topology. *)
Definition session_reachable (t : DungeonTopology) (s : DungeonSession) : Prop :=
  ∃ r s0, NewDungeonRun t = Ret r ∧ NewDungeonSession r = Ret s0 ∧ star session_step s0 s.

Lemma reachable_ok t s : topology_ok t → session_reachable t s → session_ok s.
Proof.
  intros Ht (r & s0 & Hr & Hs0 & Hstar). eapply (star_invariant session_step session_ok).
  - intros a b Ha Hab. destruct Hab. by apply apply_op_ok.
  - exact Hstar.
  - apply (new_session_ok r); [by apply (new_run_ok t)| |done].
    unfold NewDungeonRun in Hr. apply bind_ret_inv in Hr as (c & _ & Hr).
    apply bind_ret_inv in Hr as (room & _ & Hr). destruct (room_Map room); [|done].
    by injection Hr as <-.
Qed.

End safety.
