(* ===== verification/DungeonTheorems.v ===== *)
(** * What the dungeon run and session guarantee

    The properties of the state machines of [DungeonRun.v] and
    [DungeonSession.v], each with an execution it applies to, and an execution
    in which a room can no longer be restored. *)

From S2P Require Import Prelude GoStrings Worldmap Topology DungeonRun DungeonSession.
From S2P Require Import DungeonInvariant DungeonSafety.

(** ** Text form of coordinates *)

Lemma parse_coordinate_string c : in_i64 (X c) → in_i64 (Y c) →
  ParseRoomCoordinate (RoomCoordinate_String c) = Ret c.
Proof.
  intros Hx Hy. unfold ParseRoomCoordinate, RoomCoordinate_String.
  assert (∀ n, 58 ∉ format_int n) as H58.
  { intros n Hin. apply format_int_runes in Hin. lia. }
  unfold TrimSpace. rewrite trim_func_id.
  2:{ intros r Hr. apply elem_of_app in Hr as [Hr|[->|Hr]%elem_of_cons]; [|done|];
      apply format_int_runes in Hr as [->|Hr]; try done; unfold IsSpace;
      rewrite !orb_false_iff, !andb_false_iff, !Z.leb_gt, !Z.eqb_neq; lia. }
  rewrite Cut_spec by apply H58.
  assert (∀ n, in_i64 n → bool_decide (format_int n = []) = false) as Hne.
  { intros n Hn. apply bool_decide_eq_false_2. intros E. pose proof (ParseInt_format n Hn) as Hp.
    by rewrite E in Hp. }
  rewrite !Hne, bool_decide_eq_false_2 by (done || apply H58). cbn [orb].
  rewrite !ParseInt_format by done. by destruct c.
Qed.

Section theorems.
Context `{MapPayload}.

(** ** Moving *)

(** A byte target cannot be reached around the ends of the int64 range. *)
Lemma adjacent_byte x y k : 0 <= x < two8 → 0 <= y < two8 → in_i64 k.1 → in_i64 k.2 →
  adjacent (mkRoom x y) k = true ↔ Z.abs (x - k.1) + Z.abs (y - k.2) = 1.
Proof.
  intros Hx Hy H1 H2. unfold adjacent. cbn [X Y]. rewrite Z.eqb_eq.
  rewrite abs64_sum_one by apply i64_range. unfold_width. Z.div_mod_to_equations. lia.
Qed.

Lemma move_ret s x y cached s' t : session_ok s →
  MoveByteTransition s x y cached = (s', Ret t) →
  ∃ room v, validateMoveLocked (run s) (mkRoom x y) = Ret room
    ∧ validateMoveByteTransitionLocked s x y cached = Ret v
    ∧ tr_Scene t = tr_Scene (transition v) ∧ Revisit t = Revisit (transition v)
    ∧ Revisit t = bool_decide (key (mkRoom x y) ∈ visited (run s))
    ∧ scene s' = tr_Scene t
    ∧ bindings s' = (if Revisit t then va_bindings v else ∅)
    ∧ defeated s' = (if Revisit t then va_defeated v else ∅)
    ∧ run s' = mkRun (topology (run s)) (x, y) ({[(x, y)]} ∪ visited (run s))
           (if sc_Cleared (tr_Scene t) then {[(x, y)]} ∪ cleared (run s) else cleared (run s))
           (status (run s)).
Proof.
  intros Hok Hm. unfold MoveByteTransition in Hm.
  destruct (validateMoveByteTransitionLocked s x y cached) as [v| |] eqn:Hv; try done.
  cbn [mbind outcome_bind] in Hm.
  destruct (moveToVisit _ _ _ _) as [[[r room] rv]| |] eqn:Hmove; try done. cbn in Hm.
  injection Hm as <- <-.
  pose proof Hv as Hv'. unfold validateMoveByteTransitionLocked in Hv'.
  apply bind_ret_inv in Hv' as ([tp cl] & Hp & Hv').
  apply previewMove_ret in Hp as (room' & Hval & Hf & _ & Hco & Hrv & ->); [|done].
  assert (sc_Coordinate (tr_Scene (transition v)) = mkRoom x y
          ∧ Revisit (transition v) = Revisit tp) as [Hcv Hrt].
  { destruct (Revisit tp) eqn:Hrev.
    - destruct cached as [cached|]; [|done].
      apply bind_ret_inv in Hv' as ([[sc bs] dead] & Hre & Hv'). injection Hv' as <-. cbn.
      apply validateRevisit_ret in Hre as (-> & Heq & _); [|done].
      split; [|done]. transitivity (sc_Coordinate (tr_Scene tp)); [by injection Heq|done].
    - destruct cached; [done|]. injection Hv' as <-. done. }
  rewrite Hcv in Hmove. apply moveToVisit_ret in Hmove as (Hval' & _ & _ & ->).
  exists room', v. split_and!; try done; cbn;
    first [by rewrite Hrt|by destruct (Revisit (transition v))].
Qed.

(** ** The life of a run *)

(** No call changes the topology of a run, and only three calls change its
    status, each of an active run: [Abandon], [Complete] in an open room, and
    [CompleteCurrentRoom], which opens the room itself. *)
Definition status_change (s : DungeonSession) (op : session_op) (s' : DungeonSession) : Prop :=
  status (run s) = DungeonRunActive ∧
  match op with
  | OpAbandon => status (run s') = DungeonRunAbandoned ∧ scene s' = scene s
  | OpComplete =>
      status (run s') = DungeonRunCompleted ∧ sc_Cleared (scene s) = true ∧ scene s' = scene s
  | OpCompleteCurrentRoom =>
      status (run s') = DungeonRunCompleted ∧ scene s' = set_open (scene s) true
  | _ => False
  end.

Lemma open_room_run s : topology (run (open_room s).1) = topology (run s)
  ∧ status (run (open_room s).1) = status (run s).
Proof. unfold open_room, MarkCurrentRoomCleared. by destruct (negb _). Qed.

Lemma op_run s op : session_ok s →
  topology (run (apply_op s op)) = topology (run s)
  ∧ (status (run (apply_op s op)) = status (run s) ∨ status_change s op (apply_op s op)).
Proof.
  intros Hok. pose proof (so_run _ Hok) as Hr. pose proof (so_open _ Hok) as Hop.
  unfold status_change. destruct op; cbn [apply_op].
  - unfold BindHostileObject. repeat case_match; auto.
  - unfold MarkHostileNonBlocking. cbv zeta. destruct (negb _); [auto|]. destruct (negb _); [auto|].
    destruct (_ && _); [|auto]. destruct (open_room_run (set_scene s (set_blocking (scene s)
      (filter (λ r, r ≠ h) (BlockingHostiles (scene s)))))); auto.
  - unfold MarkHostileDefeated. destruct (RuntimeObjects (scene s) !! objectKey); [|auto].
    case_bool_decide; [auto|]. cbv zeta. destruct (sc_Cleared _); [auto|].
    destruct (negb (all_defeated _ _ _)); [auto|].
    match goal with |- context [open_room ?x] => destruct (open_room_run x) end; auto.
  - unfold CommitLayered. destruct (previewLayeredLocked s c layer) as [sc| |]; cbn [mbind outcome_bind commit]; auto.
    destruct (commitCurrentLayered _ _ _ _ _) as [[r room]| |] eqn:Hc; cbn; auto.
    apply commitLayered_ret in Hc as [-> _]; [|done].
    destruct (reset_cleared_fields (run s) (current (run s)) (sc_Cleared sc)) as (? & _ & _ & ? & _); auto.
  - unfold CommitLayeredBase. destruct (validateLayeredBaseLocked s c cached) as [[[sc bs] dead]| |];
      cbn [mbind outcome_bind commit]; auto.
    destruct (commitCurrentLayeredBase _ _ _ _) as [[r room]| |] eqn:Hc; cbn; auto.
    apply commitBase_ret in Hc as [-> _].
    destruct (reset_cleared_fields (run s) (current (run s)) (sc_Cleared sc)) as (? & _ & _ & ? & _); auto.
  - unfold CommitStoryStage. destruct (previewStoryStage (run s) stage) as [[room rv]| |];
      cbn [mbind outcome_bind commit]; auto.
    destruct (dungeonRoomScene room) as [sc| |]; cbn [mbind outcome_bind commit]; auto.
    destruct (commitStoryStage _ _ _ _ _ _) as [[r room']| |] eqn:Hc; cbn; auto.
    apply commitStory_ret in Hc as (_ & _ & ? & _ & ?); auto.
  - destruct (MoveByteTransition s x y cached) as [s' [t|e|]] eqn:Hm; cbn [fst].
    1: apply move_ret in Hm as (room & v & _ & _ & _ & _ & _ & _ & _ & _ & ->); auto.
    all: unfold MoveByteTransition, commit in Hm; repeat case_match; simplify_eq; auto.
  - unfold SessionAbandon, Abandon. destruct (is_active (run s)) eqn:Ha; cbn; [|auto].
    apply is_active_true in Ha. auto.
  - unfold SessionComplete, Complete. destruct (is_active (run s)) eqn:Ha; cbn; [|auto].
    destruct (is_cleared (run s) (current (run s))) eqn:Hc; cbn; [|auto].
    apply is_active_true in Ha. rewrite Hop. auto 8.
  - unfold SessionCompleteCurrentRoom, CompleteCurrentRoom. destruct (is_active (run s)) eqn:Ha; cbn; [|auto].
    apply is_active_true in Ha. auto.
Qed.

Lemma reachable_topology t s : topology_ok t → session_reachable t s → topology (run s) = t.
Proof.
  intros Ht (r & s0 & Hr & Hs0 & Hstar).
  assert (session_ok s0) as Hs by (apply (reachable_ok t); [done|]; exists r, s0; by split_and!; [..|constructor]).
  assert (topology (run s0) = t) as Et.
  { unfold NewDungeonRun in Hr. apply bind_ret_inv in Hr as (c & _ & Hr).
    apply bind_ret_inv in Hr as (room & _ & Hr). destruct (room_Map room); [|done]. injection Hr as <-.
    unfold NewDungeonSession in Hs0. apply bind_ret_inv in Hs0 as (room' & _ & Hs0).
    apply bind_ret_inv in Hs0 as (sc & _ & Hs0). destruct (sc_Cleared sc); by injection Hs0 as <-. }
  apply (star_invariant session_step (λ s, session_ok s ∧ topology (run s) = t)) in Hstar; [by destruct Hstar| |done].
  intros a b [Ha E] Hab. destruct Hab as [a op]. split; [by apply apply_op_ok|].
  destruct (op_run a op Ha) as [-> _]. done.
Qed.

(** ** Restoring a scene *)

(** A complete snapshot of a room whose definition has not been altered: it is
    the scene of [room] up to the runtime state, every expected hostile is
    bound, and it is open exactly when its blocking hostiles are defeated. *)
Definition restorable (room : DungeonRoom) (s : DungeonSession) : Prop :=
  ∃ sc, dungeonRoomScene room = Ret sc
    ∧ set_runtime sc ∅ [] false = set_runtime (scene s) ∅ [] false
    ∧ (∀ h, h ∈ ExpectedHostiles (scene s) → is_Some (bindings s !! h))
    ∧ sc_Cleared (scene s)
      = all_defeated (BlockingHostiles (scene s)) (bindings s) (defeated s).

Lemma validateRevisit_complete expected s cl : session_ok s →
  set_runtime expected ∅ [] false = set_runtime (scene s) ∅ [] false →
  (∀ h, h ∈ ExpectedHostiles (scene s) → is_Some (bindings s !! h)) →
  sc_Cleared (scene s) = all_defeated (BlockingHostiles (scene s)) (bindings s) (defeated s) →
  sc_Cleared (scene s) = cl →
  validateRevisitDungeonRoomScene expected (scene s) cl = Ret (scene s, bindings s, defeated s).
Proof.
  intros Hok Heq Hall Hop Hcl. destruct (so_scene _ Hok) as [Hbind Hexp Hnd Hdead Hbound _].
  unfold validateRevisitDungeonRoomScene, sameDungeonRoomPVFScene.
  rewrite bool_decide_eq_true_2 by done. cbn [negb].
  destruct (bind_objects_total (ExpectedHostiles (scene s)) (map_to_list (RuntimeObjects (scene s))) ∅)
    as [bs Hb].
  { intros k h Hin. apply elem_of_map_to_list in Hin. destruct (Hexp k h Hin). auto. }
  { apply NoDup_fmap_2_strong; [|apply NoDup_map_to_list]. intros [k h] [k' h'] Hk Hk' [=]; cbn in *.
    apply elem_of_map_to_list, Hbind in Hk, Hk'. congruence. }
  rewrite Hb. cbn [mbind outcome_bind].
  apply bind_objects_ret in Hb as (_ & _ & Hbs).
  assert (bs = bindings s) as ->.
  { apply map_eq. intros h. apply option_eq. intros k.
    rewrite Hbs, Hbind, elem_of_map_to_list, lookup_empty. naive_solver. }
  assert (forallb (λ r, bool_decide (is_Some (bindings s !! r))) (ExpectedHostiles (scene s)) = true)
    as ->.
  { apply forallb_forall. intros h Hh%list_elem_of_In. apply bool_decide_eq_true. auto. }
  cbn [negb].
  destruct (collect_defeated_total (RuntimeObjects (scene s)) (DefeatedObjects (scene s)) ∅)
    as [dead Hd]; [|done|].
  { intros k Hk. split; [apply Hbound; by apply Hdead|set_solver]. }
  rewrite Hd. cbn [mbind outcome_bind]. apply collect_defeated_ret in Hd as (_ & _ & Hds).
  assert (dead = defeated s) as -> by (apply set_eq; intros k; rewrite Hds, Hdead; set_solver).
  rewrite <- Hop, <- Hcl, !eqb_reflx. done.
Qed.

(** Operations that stay in the current room and leave its definition alone. *)
Definition in_room (op : session_op) : Prop :=
  match op with OpBind _ _ | OpDefeated _ => True | _ => False end.

(** They change the run at most by opening the current room. *)
Lemma in_room_run s op : in_room op →
  topology (run (apply_op s op)) = topology (run s) ∧ current (run (apply_op s op)) = current (run s)
  ∧ visited (run (apply_op s op)) = visited (run s) ∧ status (run (apply_op s op)) = status (run s)
  ∧ (∀ k, k ≠ current (run s) → is_cleared (run (apply_op s op)) k = is_cleared (run s) k).
Proof.
  assert (∀ s', topology (run (open_room s').1) = topology (run s')
    ∧ current (run (open_room s').1) = current (run s')
    ∧ visited (run (open_room s').1) = visited (run s') ∧ status (run (open_room s').1) = status (run s')
    ∧ (∀ k, k ≠ current (run s') → is_cleared (run (open_room s').1) k = is_cleared (run s') k)) as Hop.
  { intros s'. unfold open_room, MarkCurrentRoomCleared. destruct (negb _); cbn; [done|].
    split_and!; try done. intros k Hk. unfold is_cleared. apply bool_decide_ext. cbn. set_solver. }
  destruct op; try done; intros _; cbn [apply_op].
  - unfold BindHostileObject. by repeat case_match.
  - unfold MarkHostileDefeated. destruct (RuntimeObjects (scene s) !! objectKey); [|done].
    case_bool_decide; [done|].
    set (s1 := mkSession (run s) (set_dead (scene s) (DefeatedObjects (scene s) ++ [objectKey]))
                 (bindings s) ({[objectKey]} ∪ defeated s)).
    cbv zeta. destruct (sc_Cleared (scene s1)); [done|].
    destruct (negb (all_defeated _ _ _)); [done|]. exact (Hop s1).
Qed.

Lemma in_room_fold ops : Forall in_room ops → ∀ s, let s' := foldl apply_op s ops in
  topology (run s') = topology (run s) ∧ current (run s') = current (run s)
  ∧ visited (run s') = visited (run s) ∧ status (run s') = status (run s)
  ∧ (∀ k, k ≠ current (run s) → is_cleared (run s') k = is_cleared (run s) k).
Proof.
  induction 1 as [|op ops Hop _ IH]; intros s s'; [done|].
  destruct (IH (apply_op s op)) as (E1 & E2 & E3 & E4 & E5).
  destruct (in_room_run s op Hop) as (F1 & F2 & F3 & F4 & F5).
  subst s'. cbn [foldl]. rewrite E1, E2, E3, E4. split_and!; try done.
  intros k Hk. rewrite E5 by by rewrite F2. by apply F5.
Qed.

Lemma fold_ok ops : ∀ s, session_ok s → session_ok (foldl apply_op s ops).
Proof. induction ops as [|op ops IH]; intros s Hs; [done|]. by apply IH, apply_op_ok. Qed.

(** A move to a visited room with the snapshot of a session that stood there. *)
Lemma restore_move s s' room x y : session_ok s → session_ok s' → restorable room s →
  sc_Coordinate (scene s) = mkRoom x y →
  validateMoveLocked (run s') (mkRoom x y) = Ret room →
  (x, y) ∈ visited (run s') → is_cleared (run s') (x, y) = sc_Cleared (scene s) →
  ∃ s'' t, MoveByteTransition s' x y (Some (scene s)) = (s'', Ret t) ∧ scene s'' = scene s
    ∧ bindings s'' = bindings s ∧ defeated s'' = defeated s ∧ current (run s'') = (x, y)
    ∧ cleared (run s'') = cleared (run s').
Proof.
  intros Hok Hok' (sc & Hsc & Heq & Hall & Hop) Hco Hval Hvis Hcl.
  unfold MoveByteTransition, validateMoveByteTransitionLocked, previewMoveByteTransitionLocked,
    previewMoveToVisit.
  rewrite Hval. cbn [mbind outcome_bind mret outcome_ret]. rewrite Hsc.
  cbn [mbind outcome_bind mret outcome_ret Revisit].
  change (key (mkRoom x y)) with (x, y). rewrite bool_decide_eq_true_2 by done. rewrite Hcl.
  cbn [Revisit tr_Scene]. rewrite (validateRevisit_complete sc s) by done.
  cbn [mbind outcome_bind mret outcome_ret transition tr_Scene Revisit].
  rewrite Hco. unfold moveToVisit. rewrite Hval. cbn [mbind outcome_bind].
  change (key (mkRoom x y)) with (x, y). rewrite bool_decide_eq_true_2 by done. cbn.
  eexists _, _. split; [reflexivity|]. cbn. split_and!; try done.
  - by destruct (sc_Cleared (scene s)).
  - destruct (sc_Cleared (scene s)) eqn:E; [|done]. apply is_cleared_true in Hcl. cbn. set_solver.
Qed.

(** ** Properties *)

(** C15: The decimal text form of a room coordinate parses back to the
    coordinate, over the whole int64 range. *)
Theorem coordinate_text_roundtrip c : in_i64 (X c) → in_i64 (Y c) →
  ParseRoomCoordinate (RoomCoordinate_String c) = Ret c.
Proof. apply parse_coordinate_string. Qed.

(** C16: In every session reachable from a fresh run of a topology, by any
    sequence of calls with any arguments, failing or not: the party stands in a
    visited room of the topology; scene and run agree on the room and on whether
    it is open; no two hostiles share an object and no object stands for two
    hostiles; every defeated object is bound; and while the run is active an
    open room has every blocking hostile bound to a defeated object.  The run
    keeps its topology, and every further call leaves its status as it is, or
    ends an active run: by abandoning it, by completing it in an open room, or
    by completing it together with the room. *)
Theorem session_safety t s : topology_ok t → session_reachable t s →
  topology (run s) = t
  ∧ current (run s) ∈ visited (run s)
  ∧ visited (run s) ⊆ dom (rooms t)
  ∧ sc_Coordinate (scene s) = coordinate (current (run s))
  ∧ (sc_Cleared (scene s) = true ↔ current (run s) ∈ cleared (run s))
  ∧ (∀ h k, bindings s !! h = Some k ↔ RuntimeObjects (scene s) !! k = Some h)
  ∧ (∀ k, k ∈ DefeatedObjects (scene s) → is_Some (RuntimeObjects (scene s) !! k))
  ∧ NoDup (DefeatedObjects (scene s))
  ∧ (status (run s) = DungeonRunActive → sc_Cleared (scene s) = true →
     ∀ h, h ∈ BlockingHostiles (scene s) →
     ∃ k, bindings s !! h = Some k ∧ k ∈ DefeatedObjects (scene s))
  ∧ (∀ op, let s' := apply_op s op in
     status (run s') = status (run s)
     ∨ status (run s) = DungeonRunActive ∧
       (op = OpAbandon ∧ status (run s') = DungeonRunAbandoned
        ∨ op = OpComplete ∧ sc_Cleared (scene s) = true ∧ status (run s') = DungeonRunCompleted
        ∨ op = OpCompleteCurrentRoom ∧ sc_Cleared (scene s') = true
          ∧ status (run s') = DungeonRunCompleted)).
Proof.
  intros Ht Hs. pose proof (reachable_topology t s Ht Hs) as Htop.
  apply (reachable_ok t s Ht) in Hs as Hok.
  pose proof Hok as [[_ Hc Hv _] Hroom [Hb He Hnd Hd Hdb _] Ho Hsafe].
  split_and!; try done.
  - by rewrite <- Htop.
  - rewrite Ho. apply is_cleared_true.
  - intros k Hk. by apply Hdb, Hd.
  - intros Hst Hop h Hh. specialize (Hsafe Hst Hop). rewrite all_defeated_true in Hsafe.
    destruct (Hsafe h Hh) as (k & ? & ?). exists k. by rewrite Hd.
  - intros op s'. destruct (op_run s op Hok) as [_ [?|[Hst Hop]]]; [by left|right].
    split; [done|]. unfold s'. destruct op; try done.
    + left. by destruct Hop.
    + right; left. by destruct Hop as (? & ? & _).
    + right; right. destruct Hop as [? ->]. done.
Qed.

(** C17: A move either changes nothing and reports an error, or goes, in an
    active run, from a room that is open (or a dungeon that allows leaving
    closed rooms) to a horizontally or vertically adjacent room of the topology
    whose map is resolved: the target becomes current and visited, the visited
    set only grows by it, a first visit installs the scene of that room, with
    nothing bound and open exactly when nothing blocks, and a revisit installs
    exactly the cached scene it was given, which is the scene of that room up to
    the runtime objects, the defeated objects and the open flag. *)
Theorem move_contract s x y cached s' r : session_ok s → 0 <= x < two8 → 0 <= y < two8 →
  MoveByteTransition s x y cached = (s', r) →
  match r with
  | Ret t =>
      status (run s) = DungeonRunActive
      ∧ Z.abs (x - (current (run s)).1) + Z.abs (y - (current (run s)).2) = 1
      ∧ (AllowMoveBeforeClear (topology (run s)) = true ∨ sc_Cleared (scene s) = true)
      ∧ current (run s') = (x, y) ∧ visited (run s') = {[(x, y)]} ∪ visited (run s)
      ∧ (x, y) ∈ dom (rooms (topology (run s)))
      ∧ Revisit t = bool_decide ((x, y) ∈ visited (run s))
      ∧ (∃ room m sc, rooms (topology (run s)) !! (x, y) = Some room ∧ room_Map room = Some m
         ∧ dungeonRoomScene room = Ret sc ∧ tr_Scene t = scene s'
         ∧ if Revisit t
           then cached = Some (scene s')
                ∧ set_runtime sc ∅ [] false = set_runtime (scene s') ∅ [] false
           else cached = None ∧ scene s' = sc ∧ fresh_scene (scene s')
                ∧ bindings s' = ∅ ∧ defeated s' = ∅)
  | _ => s' = s
  end.
Proof.
  intros Hok Hx Hy Hm. destruct r as [t|e|].
  2,3: unfold MoveByteTransition, commit in Hm; by repeat case_match; simplify_eq.
  apply move_ret in Hm as (room & v & Hval & Hv & Ht & Hrv & Hvis & Hsc & Hbi & Hde & Hrun); [|done].
  pose proof (validateMove_ret _ _ _ Hval) as (Hst & Hroom & Hadj & [m Hmap] & Hopen).
  pose proof (so_run _ Hok) as Hr.
  assert (current (run s) ∈ dom (rooms (topology (run s)))) as Hcd.
  { apply (run_visited _ Hr), (run_current _ Hr). }
  destruct (top_range _ (run_top _ Hr) _ Hcd) as [H1 H2].
  split_and!; try done.
  - by apply adjacent_byte.
  - destruct Hopen as [?|Hc]; [by left|right]. rewrite (so_open _ Hok). by apply is_cleared_true.
  - by rewrite Hrun.
  - by rewrite Hrun.
  - by eapply elem_of_dom_2.
  - unfold validateMoveByteTransitionLocked in Hv.
    apply bind_ret_inv in Hv as ([tp cl] & Hp & Hv).
    apply previewMove_ret in Hp as (room' & Hval' & Hf & Hsc' & _ & Hrtp & _); [|done].
    rewrite Hval in Hval'. injection Hval' as <-.
    exists room, m, (tr_Scene tp). split_and!; [done..|].
    rewrite Hrv. rewrite Hsc, Ht. destruct (Revisit tp) eqn:Erv.
    + destruct cached as [cached|]; [|done].
      apply bind_ret_inv in Hv as ([[sc bs] dead] & Hre & Hv). injection Hv as <-. cbn.
      by apply validateRevisit_ret in Hre as (-> & ? & _).
    + destruct cached; [done|]. injection Hv as <-. cbn in *. rewrite Hrv, Erv in *.
      split_and!; done.
Qed.

(** C18: Leaving a room and coming back restores it: after a successful move
    out of a restorable room, any bindings and defeats in the other room, and
    with the other room open (or a dungeon that allows leaving closed rooms),
    the move back with the snapshot taken before leaving succeeds as a revisit
    and reinstates the snapshot, its bindings and its defeated objects. *)
Theorem revisit_restores_room s a b x y cached s1 t ops room :
  session_ok s → 0 <= a < two8 → 0 <= b < two8 → 0 <= x < two8 → 0 <= y < two8 →
  sc_Coordinate (scene s) = mkRoom a b → rooms (topology (run s)) !! (a, b) = Some room →
  restorable room s →
  MoveByteTransition s x y cached = (s1, Ret t) → Forall in_room ops →
  AllowMoveBeforeClear (topology (run s)) = true
    ∨ sc_Cleared (scene (foldl apply_op s1 ops)) = true →
  ∃ s3 t', MoveByteTransition (foldl apply_op s1 ops) a b (Some (scene s)) = (s3, Ret t')
    ∧ scene s3 = scene s ∧ bindings s3 = bindings s ∧ defeated s3 = defeated s
    ∧ current (run s3) = (a, b).
Proof.
  intros Hok Ha Hb Hx Hy Hco Hroom Hres Hm Hops Hopen.
  pose proof Hm as Hm0. apply move_ret in Hm
    as (room' & v & Hval & Hv & Ht & Hrv & Hvis & Hsc & Hbi & Hde & Hrun); [|done].
  pose proof (validateMove_ret _ _ _ Hval) as (Hst & Hroom' & Hadj & _ & _).
  assert (session_ok s1) as Hok1 by (replace s1 with (MoveByteTransition s x y cached).1
    by (by rewrite Hm0); by apply move_ok).
  pose proof (fold_ok ops s1 Hok1) as Hok2.
  destruct (in_room_fold ops Hops s1) as (E1 & E2 & E3 & E4 & E5).
  set (s2 := foldl apply_op s1 ops) in *. rewrite Hrun in E1, E2, E3, E4. cbn in E1, E2, E3, E4.
  assert (current (run s) = (a, b)) as Hcur.
  { rewrite <- (key_coordinate (current (run s))), <- (so_room _ Hok). by rewrite Hco. }
  assert ((a, b) ≠ (x, y)) as Hne.
  { intros [= -> ->]. rewrite Hcur in Hadj. 
    apply adjacent_byte in Hadj; [cbn in Hadj; lia|cbn; unfold_width; lia..]. }
  assert (validateMoveLocked (run s2) (mkRoom a b) = Ret room) as Hback.
  { unfold validateMoveLocked. rewrite (proj2 (is_active_true (run s2))) by congruence.
    assert (rooms (topology (run s)) !! key (mkRoom a b) = Some room) as Hk by exact Hroom.
    rewrite E1, Hk. cbn [or_fail mbind outcome_bind].
    assert (adjacent (mkRoom a b) (current (run s2)) = true) as ->.
    { rewrite E2. rewrite Hcur in Hadj.
      rewrite adjacent_byte in Hadj by (cbn; unfold_width; lia). cbn in Hadj.
      apply adjacent_byte; cbn; unfold_width; lia. }
    cbn [negb]. rewrite <- (so_open _ Hok2).
    destruct Hres as (sc & Hs & _). unfold dungeonRoomScene in Hs.
    destruct (room_Map room); [|done].
    destruct Hopen as [->| ->]; [done|]. by rewrite andb_false_r. }
  destruct (restore_move s s2 room a b) as (s3 & t' & H1 & H2 & H3 & H4 & H5 & _); try done.
  - rewrite E3. apply elem_of_union_r. rewrite <- Hcur. apply (run_current _ (so_run _ Hok)).
  - rewrite E5 by by rewrite Hrun. rewrite (so_open _ Hok), Hcur, Hrun. unfold is_cleared. cbn.
    apply bool_decide_ext. destruct (sc_Cleared (tr_Scene t)); [set_solver|done].
  - by exists s3, t'.
Qed.

Lemma reset_cleared_cleared r k b :
  cleared (reset_cleared r k b) = if b then {[k]} ∪ cleared r else cleared r ∖ {[k]}.
Proof. unfold reset_cleared. destruct b; cbn; [|done]. apply set_eq. intros x. set_unfold. destruct (decide (x = k)); naive_solver. Qed.

Lemma run_eq (r r' : DungeonRun) : topology r = topology r' → current r = current r' →
  visited r = visited r' → (∀ k, is_cleared r k = is_cleared r' k) → status r = status r' → r = r'.
Proof.
  destruct r, r'; cbn. intros -> -> -> Hc ->. f_equal. apply set_eq. intros k.
  specialize (Hc k). unfold is_cleared in Hc. cbn in Hc.
  repeat case_bool_decide; naive_solver.
Qed.

(** C19: A detour through a layer of the current room is undone by the return
    to the base scene: whatever is bound and defeated in the layer, committing
    the base with the snapshot taken before the detour yields exactly the
    session before it, run, scene, bindings and defeats. *)
Theorem layer_detour_restores s i s1 sc1 ops room :
  session_ok s → rooms (topology (run s)) !! current (run s) = Some room → restorable room s →
  CommitLayered s (coordinate (current (run s))) i = (s1, Ret sc1) → Forall in_room ops →
  CommitLayeredBase (foldl apply_op s1 ops) (coordinate (current (run s))) (scene s)
  = (s, Ret (scene s)).
Proof.
  intros Hok Hroom (sc & Hsc & Heq & Hall & Hop) Hl Hops.
  set (c := coordinate (current (run s))) in *. unfold CommitLayered in Hl.
  destruct (previewLayeredLocked s c i) as [lsc| |]; try done. cbn [mbind outcome_bind] in Hl.
  destruct (commitCurrentLayered _ _ _ _ _) as [[r lroom]| |] eqn:Hc; try done.
  injection Hl as Hs1 _. apply commitLayered_ret in Hc as [-> Hst]; [|apply Hok].
  destruct (in_room_fold ops Hops s1) as (E1 & E2 & E3 & E4 & E5).
  set (s2 := foldl apply_op s1 ops) in *. rewrite <- Hs1 in E1, E2, E3, E4, E5. cbn in E1, E2, E3, E4, E5.
  destruct (reset_cleared_fields (run s) (current (run s)) (sc_Cleared lsc)) as (F1 & F2 & F3 & F4 & F5).
  rewrite F1 in E1. rewrite F2 in E2, E5. rewrite F3 in E3. rewrite F4 in E4.
  assert (resolveCurrentLayeredBaseLocked (run s2) c = Ret room) as Hbase.
  { unfold resolveCurrentLayeredBaseLocked. rewrite (proj2 (is_active_true (run s2))) by congruence.
    cbn. rewrite E2, E1. unfold c. rewrite bool_decide_eq_true_2 by done. cbn. rewrite Hroom. cbn.
    unfold dungeonRoomScene in Hsc. by destruct (room_Map room). }
  assert (map_id_changed room (map_ID (rm_Map (sc_Map (scene s)))) = false) as Hid.
  { unfold map_id_changed. unfold dungeonRoomScene in Hsc. destruct (room_Map room) as [m|]; [|done].
    injection Hsc as <-. assert (rm_Map m = rm_Map (sc_Map (scene s))) as ->.
    { by injection Heq as _ _ _ <-. }
    by rewrite Z.eqb_refl. }
  unfold CommitLayeredBase, validateLayeredBaseLocked, previewCurrentLayeredBase,
    commitCurrentLayeredBase. rewrite Hbase. cbn [mbind outcome_bind mret outcome_ret].
  rewrite Hsc. cbn [mbind outcome_bind]. rewrite (validateRevisit_complete sc s) by done.
  cbn [mbind outcome_bind]. rewrite Hid. cbn [mret outcome_ret mbind outcome_bind commit].
  f_equal. unfold installRestoredSceneLocked, set_run. cbn.
  destruct (reset_cleared_fields (run s2) (current (run s2)) (sc_Cleared (scene s)))
    as (G1 & G2 & G3 & G4 & G5).
  rewrite (run_eq (reset_cleared (run s2) (current (run s2)) (sc_Cleared (scene s))) (run s));
    [by destruct s|congruence..| |congruence].
  intros k. rewrite G5, E2. case_decide as Hk.
  - subst k. apply (so_open _ Hok).
  - rewrite E5, F5 by done. by rewrite decide_False.
Qed.

(** C20: A scene in which a scripted hostile was made non-blocking cannot be
    restored: every later validation of that scene against the definition of
    its room, for a revisit or a layer return, is rejected. *)
Theorem nonblocking_scene_not_restorable s h s1 ops room expected cl :
  MarkHostileNonBlocking s h = (s1, Ret true) → Forall in_room ops →
  dungeonRoomScene room = Ret expected →
  set_runtime expected ∅ [] false = set_runtime (scene s) ∅ [] false →
  validateRevisitDungeonRoomScene expected (scene (foldl apply_op s1 ops)) cl
  = Fail ErrRevisitSceneMismatch.
Proof.
  intros Hm Hops Hsc Heq.
  assert (∀ s0 op, in_room op → BlockingHostiles (scene (apply_op s0 op)) = BlockingHostiles (scene s0))
    as Hkeep.
  { intros s0 op. unfold apply_op. destruct op; try done; intros _.
    - unfold BindHostileObject. by repeat case_match.
    - unfold MarkHostileDefeated, open_room. by repeat case_match. }
  assert (∀ s0, BlockingHostiles (scene (foldl apply_op s0 ops)) = BlockingHostiles (scene s0)) as Hfold.
  { clear -Hops Hkeep. induction Hops as [|op ops Hop _ IH]; intros s0; [done|]. cbn. rewrite IH. by apply Hkeep. }
  assert (BlockingHostiles (scene s1) = filter (λ r, r ≠ h) (BlockingHostiles (scene s))
          ∧ h ∈ BlockingHostiles (scene s)) as [Hb Hin].
  { unfold MarkHostileNonBlocking in Hm. destruct (negb (containsHostileReference (ExpectedHostiles _) _)); [done|].
    destruct (containsHostileReference (BlockingHostiles (scene s)) h) eqn:Hc; [|done].
    apply containsHostileReference_true in Hc. split; [|done]. cbn in Hm.
    unfold open_room in Hm. repeat case_match; by simplify_eq. }
  unfold validateRevisitDungeonRoomScene, sameDungeonRoomPVFScene.
  rewrite bool_decide_eq_false_2; [done|]. intros Heq'.
  assert (BlockingHostiles (scene s) = BlockingHostiles (scene (foldl apply_op s1 ops))) as E.
  { transitivity (BlockingHostiles expected); [by injection Heq|by injection Heq']. }
  rewrite Hfold, Hb in E. rewrite E in Hin. apply list_elem_of_filter in Hin as [? _]. done.
Qed.

End theorems.

(** ** A concrete dungeon: two rooms, the first with two monsters *)

#[local] Instance unit_payload : MapPayload :=
  {| MapSummon := unit; MapRest := unit |}.

Definition monster (i : Z) : MonsterSpawn :=
  mkMonsterSpawn i 1 0 (mkPoint3 0 0 0) 0 0 [] [] [].
Definition sample_map (i : Z) (ms : list MonsterSpawn) : Map :=
  mkMap i [] [] ms [] [] [] [] [] [] [] tt.
Definition sample_room (x : Z) (m : Map) (start boss : bool) : DungeonRoom :=
  mkDungeonRoom (mkRoom x 0) start boss (Some (mkResolvedMap m ResolutionMapSpecification [])) None [].

Definition layer_spec : MapSpecification :=
  mkMapSpecification (of_string "layered") (mkRoom 0 0) [300] 0.
Definition sample_maze : Maze :=
  mkMaze 0 (mkOptInt 0 false) (mkOptInt 0 false) [] [] None None [] [] [layer_spec].
Definition sample_resolver : Resolver :=
  mkResolver (mkTable [sample_map 300 []] [mkDungeon 7 ∅ [sample_maze]] {[300 := 0%nat]})
    {[7 := mkDungeonMapIndex 0 [mkMazeMapIndex ∅ ∅ ∅ ∅ []]]}.

Definition sample_topology : DungeonTopology :=
  mkTopology 7 0 (mkOptInt 2 true) (mkOptInt 1 true) (Some (mkRoom 0 0)) [mkRoom 1 0] false []
    (<[(0, 0) := sample_room 0 (sample_map 100 [monster 1; monster 2]) true false]>
      {[(1, 0) := sample_room 1 (sample_map 200 []) false true]}) ∅ (Some sample_resolver).

Lemma sample_topology_ok : topology_ok sample_topology.
Proof.
  split.
  - intros k room. cbn. intros [[<- <-]|[_ Hk]]%lookup_insert_Some; [done|].
    apply lookup_singleton_Some in Hk as [<- <-]. done.
  - intros k Hk. cbn in Hk. rewrite dom_insert, dom_singleton in Hk.
    unfold in_i64, two63. set_unfold in Hk. destruct Hk as [->| ->]; cbn; lia.
Qed.

Definition h0 : HostileReference := mkHostile HostileMonster 0.
Definition h1 : HostileReference := mkHostile HostileMonster 1.

(** A computed session, for the executions below. *)
Definition session_of (t : DungeonTopology) (ops : list session_op) : option DungeonSession :=
  match NewDungeonRun t with
  | Ret r => match NewDungeonSession r with
             | Ret s => Some (foldl apply_op s ops)
             | _ => None
             end
  | _ => None
  end.

Lemma star_fold ops : ∀ s, star session_step s (foldl apply_op s ops).
Proof.
  induction ops as [|op ops IH]; intros s; [constructor|].
  econstructor; [apply session_step_op|apply IH].
Qed.

Lemma session_of_reachable t ops s : session_of t ops = Some s → session_reachable t s.
Proof.
  unfold session_of, session_reachable. destruct (NewDungeonRun t) as [r| |] eqn:Hr; try done.
  destruct (NewDungeonSession r) as [s0| |] eqn:Hs; try done. intros [= <-].
  exists r, s0. split_and!; [done..|apply star_fold].
Qed.

Definition fought : list session_op := [OpBind h0 11; OpBind h1 12; OpDefeated 11; OpDefeated 12].

(** ** The properties on this dungeon *)

Lemma coordinate_text_roundtrip_witness :
  ParseRoomCoordinate (RoomCoordinate_String (mkRoom (-7) 12)) = Ret (mkRoom (-7) 12).
Proof. apply coordinate_text_roundtrip; unfold in_i64, two63; cbn; lia. Defined.

Lemma session_safety_witness : ∃ s, session_of sample_topology fought = Some s ∧
  NoDup (DefeatedObjects (scene s)) ∧ sc_Cleared (scene s) = true.
Proof.
  destruct (session_of sample_topology fought) as [s|] eqn:E; [|vm_compute in E; discriminate].
  exists s. split; [reflexivity|].
  destruct (session_safety sample_topology s sample_topology_ok (session_of_reachable _ _ _ E))
    as (_ & _ & _ & _ & _ & _ & _ & Hnd & _).
  split; [exact Hnd|]. vm_compute in E. injection E as <-. reflexivity.
Defined.

(** The monsters of the first room are defeated and the second room entered. *)
Lemma fought_moves :
  match session_of sample_topology fought with
  | Some s =>
      match MoveByteTransition s 1 0 None with
      | (s1, Ret _) => sc_Cleared (scene s1) = true ∧ sc_Coordinate (scene s) = mkRoom 0 0
      | _ => False
      end
  | None => False
  end.
Proof. vm_compute. split; reflexivity. Qed.

Lemma fought_ok s : session_of sample_topology fought = Some s → session_ok s.
Proof.
  intros E. apply (reachable_ok sample_topology); [apply sample_topology_ok|].
  by apply (session_of_reachable _ fought).
Qed.

Lemma fought_restorable s : session_of sample_topology fought = Some s →
  ∃ room, rooms (topology (run s)) !! (0, 0) = Some room ∧ current (run s) = (0, 0)
          ∧ restorable room s.
Proof.
  intros E. exists (sample_room 0 (sample_map 100 [monster 1; monster 2]) true false).
  vm_compute in E. injection E as <-. split; [by vm_compute|]. split; [by vm_compute|].
  eexists. split; [vm_compute; reflexivity|]. split; [vm_compute; reflexivity|].
  split; [|vm_compute; reflexivity]. intros h Hh. vm_compute in Hh.
  apply elem_of_cons in Hh as [->|Hh]; [vm_compute; by eexists|].
  apply list_elem_of_singleton in Hh as ->. vm_compute. by eexists.
Qed.

Lemma move_contract_witness : ∃ s s' t, session_of sample_topology fought = Some s ∧
  MoveByteTransition s 1 0 None = (s', Ret t) ∧ current (run s') = (1, 0).
Proof.
  pose proof fought_moves as Hmv.
  destruct (session_of sample_topology fought) as [s|] eqn:E; [|destruct Hmv].
  destruct (MoveByteTransition s 1 0 None) as [s' [t| |]] eqn:Hm; [|destruct Hmv|destruct Hmv].
  exists s, s', t. split; [reflexivity|]. split; [exact Hm|].
  destruct (move_contract s 1 0 None s' (Ret t)) as (_ & _ & _ & Hc & _).
  - by apply fought_ok.
  - unfold two8; lia.
  - unfold two8; lia.
  - exact Hm.
  - exact Hc.
Defined.

Lemma revisit_restores_room_witness : ∃ s s1 t s3 t', session_of sample_topology fought = Some s ∧
  MoveByteTransition s 1 0 None = (s1, Ret t) ∧
  MoveByteTransition s1 0 0 (Some (scene s)) = (s3, Ret t') ∧ scene s3 = scene s ∧
  defeated s3 = defeated s.
Proof.
  pose proof fought_moves as Hmv.
  destruct (session_of sample_topology fought) as [s|] eqn:E; [|destruct Hmv].
  destruct (MoveByteTransition s 1 0 None) as [s1 [t| |]] eqn:Hm; [|destruct Hmv|destruct Hmv].
  destruct Hmv as [Hopen Hco]. destruct (fought_restorable s E) as (room & Hroom & _ & Hres).
  destruct (revisit_restores_room s 0 0 1 0 None s1 t [] room) as (s3 & t' & H1 & H2 & _ & H4 & _).
  - by apply fought_ok.
  - unfold two8; lia.
  - unfold two8; lia.
  - unfold two8; lia.
  - unfold two8; lia.
  - exact Hco.
  - exact Hroom.
  - exact Hres.
  - exact Hm.
  - constructor.
  - right. exact Hopen.
  - exists s, s1, t, s3, t'. auto.
Defined.

Lemma fought_layer :
  match session_of sample_topology fought with
  | Some s =>
      match CommitLayered s (mkRoom 0 0) 0 with
      | (s1, Ret sc) => map_ID (rm_Map (sc_Map sc)) = 300
      | _ => False
      end
  | None => False
  end.
Proof. vm_compute. reflexivity. Qed.

Lemma layer_detour_restores_witness : ∃ s s1 sc1, session_of sample_topology fought = Some s ∧
  CommitLayered s (mkRoom 0 0) 0 = (s1, Ret sc1) ∧
  CommitLayeredBase s1 (mkRoom 0 0) (scene s) = (s, Ret (scene s)).
Proof.
  pose proof fought_layer as Hl.
  destruct (session_of sample_topology fought) as [s|] eqn:E; [|destruct Hl].
  destruct (fought_restorable s E) as (room & Hroom & Hcur & Hres).
  destruct (CommitLayered s (mkRoom 0 0) 0) as [s1 [sc1| |]] eqn:Hc; [|destruct Hl|destruct Hl].
  exists s, s1, sc1. split; [reflexivity|]. split; [exact Hc|].
  pose proof (layer_detour_restores s 0 s1 sc1 [] room) as Hd. rewrite Hcur in Hd.
  apply Hd.
  - by apply fought_ok.
  - exact Hroom.
  - exact Hres.
  - exact Hc.
  - constructor.
Defined.

(** A scripted monster of the first room is made non-blocking. *)
Definition first_room : DungeonRoom := sample_room 0 (sample_map 100 [monster 1; monster 2]) true false.

Lemma scripted_marked :
  match session_of sample_topology [OpBind h0 11; OpBind h1 12], dungeonRoomScene first_room with
  | Some s, Ret expected =>
      set_runtime expected ∅ [] false = set_runtime (scene s) ∅ [] false
      ∧ (MarkHostileNonBlocking s h1).2 = Ret true
  | _, _ => False
  end.
Proof. vm_compute. split; reflexivity. Qed.

Lemma nonblocking_scene_not_restorable_witness : ∃ s s1 expected,
  session_of sample_topology [OpBind h0 11; OpBind h1 12] = Some s ∧
  MarkHostileNonBlocking s h1 = (s1, Ret true) ∧
  validateRevisitDungeonRoomScene expected (scene s1) true = Fail ErrRevisitSceneMismatch.
Proof.
  pose proof scripted_marked as Hm.
  destruct (session_of sample_topology [OpBind h0 11; OpBind h1 12]) as [s|]; [|destruct Hm].
  destruct (dungeonRoomScene first_room) as [expected| |] eqn:Hs; [|destruct Hm|destruct Hm].
  destruct Hm as [Heq Hr].
  destruct (MarkHostileNonBlocking s h1) as [s1 r] eqn:Hmark. cbn [snd] in Hr. subst r.
  exists s, s1, expected. split; [reflexivity|]. split; [exact Hmark|].
  apply (nonblocking_scene_not_restorable s h1 s1 [] first_room expected true).
  - exact Hmark.
  - constructor.
  - exact Hs.
  - exact Heq.
Defined.

(** The last blocking hostile may be made non-blocking after the others died:
    the room then stays closed although nothing blocks it any more, until
    another hostile dies. *)
Lemma nonblocking_leaves_room_closed :
  match session_of sample_topology [OpBind h0 11; OpBind h1 12; OpDefeated 11; OpNonBlocking h1] with
  | Some s => all_defeated (BlockingHostiles (scene s)) (bindings s) (defeated s) = true
              ∧ sc_Cleared (scene s) = false
  | None => False
  end.
Proof. vm_compute. split; reflexivity. Qed.
