(* ===== verification/TopologyTheorems.v ===== *)
(** * What the topology builder guarantees

    The room set, the room contents and the doors of a built topology, for any
    map iteration order, and the reading of a greed grid. *)

From S2P Require Import Prelude GoStrings Worldmap Topology DungeonRun DungeonInvariant.

(** ** What the maze data says *)

(** [boss_at maze c]: the boss entry of the maze names [c], either as its point
    or as one of the pairs of its trailing parameters. *)
Definition boss_at (maze : Maze) (c : RoomCoordinate) : Prop :=
  ∃ p, maze_Boss maze = Some p ∧
    (c = mkRoom (mp_X p) (mp_Y p) ∨
     ∃ i, mp_Params p !! (2 * i)%nat = Some (X c) ∧ mp_Params p !! (2 * i + 1)%nat = Some (Y c)).

Lemma boss_params_elem params : ∀ c, c ∈ boss_params params ↔
  ∃ i, params !! (2 * i)%nat = Some (X c) ∧ params !! (2 * i + 1)%nat = Some (Y c).
Proof.
  assert (∀ n l, (length l <= n)%nat → ∀ c, c ∈ boss_params l ↔
    ∃ i, l !! (2 * i)%nat = Some (X c) ∧ l !! (2 * i + 1)%nat = Some (Y c)) as Hall; [|by apply (Hall (length params))].
  induction n as [|n IH]; intros [|x [|y l]] Hl c; cbn [boss_params length] in *; try lia.
  1,2: split; [by intros ?%not_elem_of_nil|by intros ([|i] & ? & ?)].
  { split; [by intros ?%not_elem_of_nil|]. intros ([|i] & H1 & H2); [done|].
    by replace (2 * S i)%nat with (S (S (2 * i))) in H1 by lia. }
  rewrite elem_of_cons, (IH l) by lia. split.
  - intros [->|(i & H1 & H2)]; [by exists 0%nat|]. exists (S i).
    replace (2 * S i)%nat with (S (S (2 * i))) by lia. done.
  - intros ([|i] & H1 & H2); [left; destruct c; by injection H1 as ->; injection H2 as ->|right; exists i].
    by replace (2 * S i)%nat with (S (S (2 * i))) in H1, H2 by lia.
Qed.

Lemma boss_coordinates_elem maze c : c ∈ mazeBossCoordinates (maze_Boss maze) ↔ boss_at maze c.
Proof.
  unfold boss_at, mazeBossCoordinates. destruct (maze_Boss maze) as [p|].
  - rewrite elem_of_cons, boss_params_elem. naive_solver.
  - split; [by intros ?%not_elem_of_nil|by intros (? & ? & _)].
Qed.

(** [maze_cell maze index k]: the maze has a room at [k], because its grid has a
    door mask there, a map is specified for it, it is the start or a boss, or,
    without a grid, because an indexed map lies there within the bounds. *)
Definition maze_cell `{MapPayload} (maze : Maze) (index : mazeMapIndex) (k : coordinateKey) : Prop :=
  (∃ masks, (addGreedCells maze).2 = Some masks ∧ is_Some (masks !! k))
  ∨ (∃ spec, spec ∈ MapSpecifications maze ++ BossSpecifications maze ++ LayeredSpecifications maze
       ∧ k = key (spec_Coordinate spec))
  ∨ (∃ p, maze_Start maze = Some p ∧ k = (mp_X p, mp_Y p))
  ∨ (∃ c, boss_at maze c ∧ k = key c)
  ∨ ((addGreedCells maze).2 = None ∧ is_Some (byCoordinate index !! k)
     ∧ withinMazeBounds maze (coordinate k) = true).

Lemma addSpecificationCells_elem specs : ∀ cells k, k ∈ addSpecificationCells cells specs ↔
  k ∈ cells ∨ ∃ spec, spec ∈ specs ∧ k = key (spec_Coordinate spec).
Proof.
  unfold addSpecificationCells. induction specs as [|spec specs IH]; intros cells k; cbn [foldl].
  - set_solver.
  - rewrite IH. set_solver.
Qed.

Lemma addExplicitCell_elem maze code l : ∀ st k, k ∈ (foldl (addExplicitCell maze code) st l).2 ↔
  k ∈ st.2 ∨ ∃ c, c ∈ l ∧ k = key c.
Proof.
  induction l as [|c l IH]; intros st k; cbn [foldl].
  - set_solver.
  - rewrite IH. cbn [addExplicitCell snd]. set_solver.
Qed.

Lemma maze_cells_elem `{MapPayload} maze index diags cells greed :
  maze_cells maze index = (diags, cells, greed) →
  greed = (addGreedCells maze).2 ∧ ∀ k, k ∈ cells ↔ maze_cell maze index k.
Proof.
  unfold maze_cells, maze_cell. intros Hc. destruct (addGreedCells maze) as [d0 g0]. cbn [snd].
  set (c0 := match g0 with Some masks => dom masks | None => ∅ end) in Hc.
  set (specs := addSpecificationCells _ _) in Hc.
  set (st := match maze_Start maze with Some p => _ | None => _ end) in Hc.
  destruct (foldl _ st _) as [d1 c1] eqn:Hf. injection Hc as _ <- <-. split; [done|]. intros k.
  assert (k ∈ specs ↔ k ∈ c0 ∨ ∃ spec, spec ∈ MapSpecifications maze ++ BossSpecifications maze
    ++ LayeredSpecifications maze ∧ k = key (spec_Coordinate spec)) as Hspecs.
  { unfold specs. rewrite !addSpecificationCells_elem. setoid_rewrite elem_of_app.
    setoid_rewrite elem_of_app. naive_solver. }
  assert (k ∈ st.2 ↔ k ∈ specs ∨ ∃ p, maze_Start maze = Some p ∧ k = (mp_X p, mp_Y p)) as Hst.
  { unfold st. destruct (maze_Start maze) as [p|]; cbn [addExplicitCell snd]; set_solver. }
  assert (k ∈ c1 ↔ k ∈ st.2 ∨ ∃ c, boss_at maze c ∧ k = key c) as Hc1.
  { replace c1 with (foldl (addExplicitCell maze "boss_out_of_bounds") st
      (mazeBossCoordinates (maze_Boss maze))).2 by (by rewrite Hf).
    rewrite addExplicitCell_elem. by setoid_rewrite boss_coordinates_elem. }
  assert (k ∈ c0 ↔ ∃ masks, g0 = Some masks ∧ is_Some (masks !! k)) as Hc0.
  { unfold c0. destruct g0 as [masks|]; [rewrite elem_of_dom; naive_solver|set_solver]. }
  destruct g0 as [masks|].
  - rewrite Hc1, Hst, Hspecs, Hc0. naive_solver.
  - rewrite elem_of_union, elem_of_filter, elem_of_dom, Hc1, Hst, Hspecs, Hc0. naive_solver.
Qed.

(** [door greed cells k nb]: the maze has a door from [k] to [nb]: a step in one
    of the four directions leads to a cell and, with a grid, both cells have
    the mask bit of that door. *)
Definition door (cells : gset coordinateKey) (greed : option (gmap coordinateKey Z))
    (k : coordinateKey) (nb : RoomNeighbor) : Prop :=
  ∃ dl, dl ∈ topologyDeltas
    ∧ nb = mkNeighbor (direction dl) (mkRoom (i64 (k.1 + dx dl)) (i64 (k.2 + dy dl)))
    ∧ (i64 (k.1 + dx dl), i64 (k.2 + dy dl)) ∈ cells
    ∧ ∀ masks, greed = Some masks →
      ∃ m m', masks !! k = Some m ∧ masks !! (i64 (k.1 + dx dl), i64 (k.2 + dy dl)) = Some m'
        ∧ Z.land m (mask dl) ≠ 0 ∧ Z.land m' (opposite dl) ≠ 0.

Lemma neighbors_of_elem cells greed k nb : nb ∈ neighbors_of cells greed k ↔
  ∃ d, d ∈ topologyDeltas ∧ is_neighbor cells greed k d = true
     ∧ nb = mkNeighbor (direction d) (coordinate (neighborKey k d)).
Proof.
  unfold neighbors_of. rewrite list_elem_of_fmap. setoid_rewrite list_elem_of_filter. naive_solver.
Qed.

Lemma neighbors_of_door cells greed k nb : nb ∈ neighbors_of cells greed k ↔ door cells greed k nb.
Proof.
  assert (∀ dl, is_neighbor cells greed k dl = true ↔ neighborKey k dl ∈ cells ∧
    ∀ masks, greed = Some masks → ∃ m m', masks !! k = Some m ∧ masks !! neighborKey k dl = Some m'
      ∧ Z.land m (mask dl) ≠ 0 ∧ Z.land m' (opposite dl) ≠ 0) as Hnb.
  { intros dl. unfold is_neighbor. rewrite andb_true_iff, bool_decide_eq_true.
    destruct greed as [masks|]; [|naive_solver].
    destruct (masks !! k) as [m|] eqn:E1, (masks !! neighborKey k dl) as [m'|] eqn:E2; [|naive_solver..].
    rewrite andb_true_iff, !negb_true_iff, !Z.eqb_neq. naive_solver. }
  rewrite neighbors_of_elem. unfold door. setoid_rewrite Hnb. unfold neighborKey, coordinate. cbn [fst snd].
  naive_solver.
Qed.

(** ** The room loop *)

Section rooms.
Context `{MapPayload}.
Variable range : gset coordinateKey → list coordinateKey.
Hypothesis range_perm : ∀ s, range s ≡ₚ elements s.

(** What the room loop stores for a cell. *)
Definition room_spec (r : Resolver) (d mz : Z) (start : option RoomCoordinate)
    (bosses : gset coordinateKey) (errs : gmap coordinateKey wm_error) (k : coordinateKey)
    (room : DungeonRoom) : Prop :=
  room_Coordinate room = coordinate k
  ∧ room_Start room = bool_decide (start = Some (coordinate k))
  ∧ room_Boss room = bool_decide (k ∈ bosses)
  ∧ match room_Map room with
    | Some m => Resolve r d mz k.1 k.2 = Ret m
    | None => ∃ e, Resolve r d mz k.1 k.2 = Fail e ∧ errs !! k = Some e
    end.

Lemma add_rooms_spec r d mz start bosses ks : NoDup ks →
  ∀ diags errs rs diags' errs' rs',
  (∀ k, k ∈ ks → rs !! k = None) →
  (∀ k room, rs !! k = Some room → room_spec r d mz start bosses errs k room ∧ Neighbors room = []) →
  add_rooms r d mz start bosses (diags, errs, rs) ks = Ret (diags', errs', rs') →
  dom rs' = dom rs ∪ list_to_set ks
  ∧ (∀ k room, rs' !! k = Some room → room_spec r d mz start bosses errs' k room
       ∧ Neighbors room = []).
Proof.
  induction ks as [|k ks IH]; intros Hnd diags errs rs diags' errs' rs' Hfresh Hrs Hadd; cbn in Hadd.
  - injection Hadd as <- <- <-. split; [|done]. apply set_eq. set_solver.
  - apply NoDup_cons in Hnd as [Hni Hnd]. apply bind_ret_inv in Hadd as ([[diags1 errs1] rs1] & Hone & Hadd).
    assert (Hk : rs !! k = None) by (apply Hfresh; by left).
    assert (∃ room, rs1 = <[k := room]> rs ∧ room_spec r d mz start bosses errs1 k room
              ∧ Neighbors room = []
              ∧ (∀ k', k' ≠ k → errs1 !! k' = errs !! k')) as (room & -> & Hroom & Hnb & Herrs).
    { unfold add_room in Hone. destruct (Resolve r d mz k.1 k.2) as [m|e|] eqn:Hres; [| |done].
      - injection Hone as _ <- <-. eexists. split; [reflexivity|]. by repeat split.
      - injection Hone as _ <- <-. eexists. split; [reflexivity|]. split_and!; try done.
        + repeat split; try done. cbn. exists e. by rewrite lookup_insert_eq.
        + intros k' Hk'. by rewrite lookup_insert_ne. }
    apply IH in Hadd as [Hdom Hall]; [|done|..].
    + split; [|done]. rewrite Hdom, dom_insert_L. clear. set_solver.
    + intros k' Hk'. rewrite lookup_insert_ne by (by intros ->). apply Hfresh. by right.
    + intros k' room' [[<- <-]|[Hne Hl]]%lookup_insert_Some; [done|].
      destruct (Hrs k' room' Hl) as [(H1 & H2 & H3 & H4) Hn]. split; [|done].
      repeat split; try done. by rewrite Herrs.
Qed.

Lemma add_neighbors_lookup greed rs k :
  add_neighbors greed rs !! k
  = (λ room, set_neighbors room (Neighbors room ++ neighbors_of (dom rs) greed k)) <$> (rs !! k).
Proof. unfold add_neighbors. rewrite map_lookup_imap. by destruct (rs !! k). Qed.

Lemma built_topology r d mz t : BuildDungeonTopology range (Some r) d mz = Ret t →
  ∃ maze index diags cells greed, lookupMaze r d mz = Ret (maze, index)
    ∧ maze_cells maze index = (diags, cells, greed)
    ∧ dom (rooms t) = cells
    ∧ top_Start t = (λ p, mkRoom (mp_X p) (mp_Y p)) <$> maze_Start maze
    ∧ Bosses t = mazeBossCoordinates (maze_Boss maze)
    ∧ ∀ k room, rooms t !! k = Some room →
        room_spec r d mz (top_Start t) (list_to_set (key <$> Bosses t)) (resolutionErrors t) k room
        ∧ Neighbors room = neighbors_of cells greed k.
Proof using range_perm.
  intros Hb. unfold BuildDungeonTopology in Hb. cbn [or_fail mbind outcome_bind] in Hb.
  apply bind_ret_inv in Hb as (di & Hdi & Hb). apply bind_ret_inv in Hb as (index & Hix & Hb).
  apply bind_ret_inv in Hb as (dungeon & Hdun & Hb). apply bind_ret_inv in Hb as (maze & Hmaze & Hb).
  destruct (maze_cells maze index) as [[diags cells] greed] eqn:Hcells.
  case_bool_decide as Hne; [done|].
  apply bind_ret_inv in Hb as ([[diags' errs] rs] & Hadd & Hb). injection Hb as <-.
  exists maze, index, diags, cells, greed. cbn.
  apply add_rooms_spec in Hadd as [Hdom Hall]; [|rewrite range_perm; apply NoDup_elements|done..].
  assert (dom rs = cells) as Hdc.
  { rewrite Hdom, dom_empty_L, (left_id_L ∅ (∪)). apply set_eq. intros k.
    rewrite elem_of_list_to_set, range_perm. by rewrite elem_of_elements. }
  split_and!; try done.
  - unfold lookupMaze. rewrite Hdi. cbn [mbind outcome_bind]. rewrite Hix. cbn [mbind outcome_bind].
    rewrite Hdun. cbn [mbind outcome_bind]. by rewrite Hmaze.
  - unfold add_neighbors. rewrite dom_imap_L with (X := dom rs); [done|].
    intros i. rewrite elem_of_dom. split; [|naive_solver]. intros [x Hx]. eauto.
  - intros k room Hk. rewrite add_neighbors_lookup in Hk.
    destruct (rs !! k) as [room0|] eqn:Hr; [|done]. injection Hk as <-.
    destruct (Hall k room0 Hr) as [(H1 & H2 & H3 & H4) Hn]. split; [by repeat split|].
    cbn. by rewrite Hn, Hdc.
Qed.

(** C21: Whatever the order in which Go ranges over its maps, a topology that is
    built has a room exactly at the cells of the maze ([maze_cell]: grid masks,
    map specifications, start, bosses and, without a grid, indexed maps within
    the bounds); its start is the start of the maze and its bosses are exactly
    the coordinates the boss entry of the maze names, in their order; every room
    sits at its coordinate, carries the start and boss flags of that start and
    those bosses, the map the resolver yields for its coordinate or else the
    resolver's error; and it lists a neighbour exactly when the maze has a
    door there ([door]). *)
Theorem topology_spec r d mz t : BuildDungeonTopology range (Some r) d mz = Ret t →
  ∃ maze index diags cells greed, lookupMaze r d mz = Ret (maze, index)
    ∧ maze_cells maze index = (diags, cells, greed)
    ∧ dom (rooms t) = cells
    ∧ (∀ k, is_Some (rooms t !! k) ↔ maze_cell maze index k)
    ∧ top_Start t = (λ p, mkRoom (mp_X p) (mp_Y p)) <$> maze_Start maze
    ∧ Bosses t = mazeBossCoordinates (maze_Boss maze)
    ∧ (∀ c, c ∈ Bosses t ↔ boss_at maze c)
    ∧ (∀ c, top_Start t = Some c ∨ c ∈ Bosses t → key c ∈ cells)
    ∧ ∀ k room, rooms t !! k = Some room →
        room_spec r d mz (top_Start t) (list_to_set (key <$> Bosses t)) (resolutionErrors t) k room
        ∧ (room_Boss room = true ↔ boss_at maze (coordinate k))
        ∧ Neighbors room = neighbors_of cells greed k
        ∧ ∀ nb, nb ∈ Neighbors room ↔ door (dom (rooms t)) (addGreedCells maze).2 k nb.
Proof using range_perm.
  intros Hb. apply built_topology in Hb
    as (maze & index & diags & cells & greed & Hl & Hc & Hdom & Hst & Hbo & Hall).
  destruct (maze_cells_elem _ _ _ _ _ Hc) as [Hg Hcell].
  exists maze, index, diags, cells, greed. split_and!; try done.
  - intros k. by rewrite <- elem_of_dom, Hdom.
  - intros c. by rewrite Hbo, boss_coordinates_elem.
  - intros c Hin. apply Hcell. destruct Hin as [Hs|Hin].
    + right; right; left. rewrite Hst in Hs. destruct (maze_Start maze) as [p|]; [|done].
      injection Hs as <-. by exists p.
    + right; right; right; left. exists c. by rewrite <- boss_coordinates_elem, <- Hbo.
  - intros k room Hk. destruct (Hall k room Hk) as [Hr Hn]. split_and!; [done| |done|].
    + destruct Hr as (_ & _ & -> & _). rewrite bool_decide_eq_true, elem_of_list_to_set, Hbo.
      rewrite list_elem_of_fmap. setoid_rewrite boss_coordinates_elem. split.
      * intros (c & -> & Hc'). by rewrite coordinate_key.
      * intros Hc'. exists (coordinate k). by rewrite key_coordinate.
    + intros nb. rewrite Hn, neighbors_of_door, Hg, Hdom. done.
Qed.

(** ** Doors *)

Definition opposite_direction (d : RoomDirection) : RoomDirection :=
  match d with
  | RoomDirectionUp => RoomDirectionDown | RoomDirectionDown => RoomDirectionUp
  | RoomDirectionLeft => RoomDirectionRight | RoomDirectionRight => RoomDirectionLeft
  end.

(** Every delta has its reverse in the table, with the masks exchanged. *)
Lemma delta_reverse d : d ∈ topologyDeltas →
  ∃ d', d' ∈ topologyDeltas ∧ direction d' = opposite_direction (direction d)
    ∧ dx d' = - dx d ∧ dy d' = - dy d ∧ mask d' = opposite d ∧ opposite d' = mask d
    ∧ - 1 <= dx d <= 1 ∧ - 1 <= dy d <= 1.
Proof.
  unfold topologyDeltas. rewrite !elem_of_cons. intros [->|[->|[->|[->|[]%not_elem_of_nil]]]].
  - exists (mkDelta RoomDirectionDown 0 1 8 2). cbn. repeat split; try lia. set_solver.
  - exists (mkDelta RoomDirectionLeft (-1) 0 4 1). cbn. repeat split; try lia. set_solver.
  - exists (mkDelta RoomDirectionUp 0 (-1) 2 8). cbn. repeat split; try lia. set_solver.
  - exists (mkDelta RoomDirectionRight 1 0 1 4). cbn. repeat split; try lia. set_solver.
Qed.

Lemma i64_back a b : in_i64 a → - 1 <= b <= 1 → i64 (i64 (a + b) + - b) = a.
Proof. intros. int_lia. Qed.

Lemma masks_swap (m m' : option Z) a b :
  match m', m with
  | Some v', Some v => negb (Z.land v' b =? 0) && negb (Z.land v a =? 0)
  | _, _ => false
  end = match m, m' with
        | Some v, Some v' => negb (Z.land v a =? 0) && negb (Z.land v' b =? 0)
        | _, _ => false
        end.
Proof. destruct m, m'; [apply andb_comm|done..]. Qed.

Lemma neighbors_symmetric cells greed k nb : in_i64 k.1 → in_i64 k.2 → k ∈ cells →
  nb ∈ neighbors_of cells greed k →
  key (nb_Coordinate nb) ∈ cells
  ∧ mkNeighbor (opposite_direction (nb_Direction nb)) (coordinate k)
      ∈ neighbors_of cells greed (key (nb_Coordinate nb)).
Proof.
  intros H1 H2 Hk (d & Hd & Hn & ->)%neighbors_of_elem. cbn [nb_Coordinate nb_Direction].
  rewrite key_coordinate. destruct (delta_reverse d Hd) as (d' & Hd' & E1 & E2 & E3 & E4 & E5 & Hx & Hy).
  assert (neighborKey (neighborKey k d) d' = k) as Hback.
  { unfold neighborKey. cbn. rewrite E2, E3, !i64_back by done. by destruct k. }
  unfold is_neighbor in Hn. apply andb_true_iff in Hn as [Hc Hn]. apply bool_decide_eq_true in Hc.
  split; [done|]. apply neighbors_of_elem. exists d'. split_and!; [done| |by rewrite E1, Hback].
  unfold is_neighbor. rewrite Hback, bool_decide_eq_true_2 by done. cbn [andb].
  destruct greed as [masks|]; [|done]. rewrite E4, E5.
  refine (eq_trans _ Hn). apply masks_swap.
Qed.

(** C22: Doors lead both ways: if a room of a built topology lists a neighbour,
    the neighbour is a room of the topology, the two rooms are one step apart
    in the listed direction, and the neighbour lists the first room in the
    opposite direction. *)
Theorem doors_symmetric r d mz t k room nb : BuildDungeonTopology range (Some r) d mz = Ret t →
  rooms t !! k = Some room → in_i64 k.1 → in_i64 k.2 → nb ∈ Neighbors room →
  ∃ room', rooms t !! key (nb_Coordinate nb) = Some room'
    ∧ mkNeighbor (opposite_direction (nb_Direction nb)) (coordinate k) ∈ Neighbors room'
    ∧ adjacent (nb_Coordinate nb) k = true.
Proof using range_perm.
  intros Hb Hk H1 H2 Hnb. apply built_topology in Hb
    as (maze & index & diags & cells & greed & _ & _ & Hdom & _ & _ & Hall).
  destruct (Hall k room Hk) as [_ Hn]. rewrite Hn in Hnb.
  assert (k ∈ cells) as Hkc by (rewrite <- Hdom; by eapply elem_of_dom_2).
  pose proof (neighbors_symmetric _ _ _ _ H1 H2 Hkc Hnb) as [Hc Hback].
  rewrite <- Hdom in Hc. apply elem_of_dom in Hc as [room' Hr']. exists room'.
  destruct (Hall _ _ Hr') as [_ Hn']. rewrite Hn'. split_and!; [done..|].
  apply neighbors_of_elem in Hnb as (dl & Hd & _ & ->). cbn.
  unfold topologyDeltas in Hd. unfold adjacent. cbn [X Y nb_Coordinate].
  rewrite Z.eqb_eq, abs64_sum_one by apply i64_range.
  rewrite !elem_of_cons in Hd. destruct Hd as [->|[->|[->|[->|[]%not_elem_of_nil]]]];
    cbn; int_lia.
Qed.

End rooms.

(** ** Reading a greed grid *)

(** A grid row as the client data writes it: every cell symbol twice. *)
Fixpoint render_row (row : list Z) : runes :=
  match row with [] => [] | m :: row => 65 + m :: 65 + m :: render_row row end.

Fixpoint render_grid (rows : list (list Z)) : runes :=
  match rows with
  | [] => []
  | [row] => render_row row
  | row :: rows => render_row row ++ 10 :: render_grid rows
  end.

Definition mask_row (row : list Z) : Prop := Forall (λ m, 0 <= m < 16) row.

Lemma render_row_runes row r : mask_row row → r ∈ render_row row → 65 <= r <= 80.
Proof.
  induction 1 as [|m row Hm _ IH]; cbn; [by intros ?%not_elem_of_nil|].
  rewrite !elem_of_cons. intros [->|[->|Hr]]; [lia|lia|auto].
Qed.

Lemma render_row_length row : zlen (render_row row) = 2 * zlen row.
Proof. unfold zlen. induction row as [|m row IH]; cbn; lia. Qed.

Lemma render_row_lookup row x :
  render_row row !! (2 * x)%nat = (λ m, 65 + m) <$> row !! x
  ∧ render_row row !! (2 * x + 1)%nat = (λ m, 65 + m) <$> row !! x.
Proof.
  revert x. induction row as [|m row IH]; intros [|x]; [done|done|done|].
  replace (2 * S x)%nat with (S (S (2 * x))) by lia.
  replace (S (S (2 * x)) + 1)%nat with (S (S (2 * x + 1))) by lia. apply IH.
Qed.

Lemma Split_app l rest sep : sep ∉ l → Split (l ++ sep :: rest) sep = l :: Split rest sep.
Proof.
  induction l as [|r l IH]; cbn; intros Hs.
  - by rewrite Z.eqb_refl.
  - rewrite (proj2 (Z.eqb_neq r sep)) by set_solver. by rewrite IH by set_solver.
Qed.

Lemma Split_none l sep : sep ∉ l → Split l sep = [l].
Proof.
  induction l as [|r l IH]; cbn; intros Hs; [done|].
  rewrite (proj2 (Z.eqb_neq r sep)) by set_solver. by rewrite IH by set_solver.
Qed.

Lemma replace_crlf_id s : 13 ∉ s → replace_crlf s = s.
Proof.
  induction s as [|r s IH]; intros Hs; [done|]. cbn [replace_crlf].
  destruct s as [|r' s]; [done|]. rewrite (proj2 (Z.eqb_neq r 13)) by set_solver. cbn [andb].
  by rewrite IH by set_solver.
Qed.

Lemma Split_grid rows : rows ≠ [] → Forall mask_row rows →
  Split (render_grid rows) 10 = render_row <$> rows.
Proof.
  intros Hne Hr. assert (∀ row, mask_row row → 10 ∉ render_row row) as H10.
  { intros row Hrow Hin. apply (render_row_runes row 10) in Hrow; [lia|done]. }
  induction Hr as [|row rows Hrow Hr IH]; [done|].
  destruct rows as [|row' rows]; [by apply Split_none, H10|].
  change (render_grid (row :: row' :: rows)) with (render_row row ++ 10 :: render_grid (row' :: rows)).
  rewrite Split_app by (by apply H10). by rewrite IH.
Qed.

Lemma render_grid_runes rows r : Forall mask_row rows → r ∈ render_grid rows →
  r = 10 ∨ 65 <= r <= 80.
Proof.
  induction 1 as [|row rows Hrow _ IH]; [by intros ?%not_elem_of_nil|].
  destruct rows as [|row' rows]; [right; by eapply render_row_runes|].
  change (render_grid (row :: row' :: rows)) with (render_row row ++ 10 :: render_grid (row' :: rows)).
  intros [Hr|[->|Hr]%elem_of_cons]%elem_of_app; [right; by eapply render_row_runes|by left|auto].
Qed.

Lemma drop_empty_id rows : Forall (λ row : runes, row ≠ []) rows → drop_empty rows = rows.
Proof. by destruct 1 as [|[] rows]. Qed.

Lemma filter_id {A} (P : A → Prop) `{!∀ x, Decision (P x)} l : Forall P l → filter P l = l.
Proof. induction 1 as [|x l Hx _ IH]; [done|]. by rewrite filter_cons_True, IH. Qed.

Lemma filter_separators_id row : mask_row row →
  filter (λ r, is_separator r = false) (render_row row) = render_row row.
Proof.
  intros Hrow. apply filter_id. apply Forall_forall. intros r Hr.
  apply (render_row_runes row r Hrow) in Hr. unfold is_separator, IsSpace.
  apply not_true_iff_false. rewrite !orb_true_iff, !andb_true_iff, !Z.eqb_eq, !Z.leb_le. lia.
Qed.

Lemma normalized_render rows : rows ≠ [] → Forall mask_row rows →
  Forall (λ row, row ≠ []) rows → normalizedGreedRows (render_grid rows) = render_row <$> rows.
Proof.
  intros Hne Hr He. unfold normalizedGreedRows.
  rewrite replace_crlf_id by (intros Hin; apply render_grid_runes in Hin; [lia|done]).
  rewrite Split_grid by done. rewrite <- list_fmap_compose.
  rewrite (Forall_fmap_ext_1 _ render_row rows)
    by (eapply Forall_impl; [exact Hr|intros row; apply filter_separators_id]).
  assert (Forall (λ row : runes, row ≠ []) (render_row <$> rows)) as Hn.
  { apply Forall_fmap. eapply Forall_impl; [exact He|]. by intros []. }
  rewrite (drop_empty_id _ Hn). rewrite drop_empty_id; [by rewrite rev_involutive|].
  rewrite rev_alt. by apply Forall_reverse.
Qed.

(** The masks of a row, once the first [n] cells are read. *)
Lemma cells_fold row y n : mask_row row → (n <= length row)%nat → ∀ st : greed_state,
  (∀ x, st.2 !! (x, y) = None) →
  let st' := foldl (greed_cell (render_row row) true y) st (seq 0 n) in
  st'.1 = st.1
  ∧ ∀ k m, st'.2 !! k = Some m ↔
      st.2 !! k = Some m ∨ ∃ x, (x < n)%nat ∧ k = (Z.of_nat x, y) ∧ row !! x = Some m ∧ m ≠ 0.
Proof.
  intros Hrow Hn st Hst. cbn zeta. induction n as [|n IH].
  { split; [done|]. intros k m. split; [by left|]. intros [|(x & Hx & _)]; [done|lia]. }
  rewrite seq_S, foldl_app. cbn [foldl Nat.add].
  specialize (IH ltac:(lia)) as [IH1 IH2].
  set (st' := foldl _ st (seq 0 n)) in *.
  destruct (lookup_lt_is_Some_2 row n ltac:(lia)) as [v Hv].
  destruct (render_row_lookup row n) as [E1 E2]. rewrite Hv in E1, E2. cbn [fmap option_fmap option_map] in E1, E2.
  assert (0 <= v < 16) as Hv16 by exact (Forall_lookup_1 _ _ _ _ Hrow Hv).
  assert (greedRoomMask (65 + v) = Some v) as Hm.
  { unfold greedRoomMask. rewrite (proj2 (Z.leb_gt 97 (65 + v))) by lia. cbn [andb].
    rewrite (proj2 (Z.leb_le 65 _)), (proj2 (Z.leb_le _ 80)) by lia. cbn [andb]. f_equal. lia. }
  unfold greed_cell. rewrite E1, E2, Z.eqb_refl. cbn [negb]. unfold greed_code. rewrite Hm.
  destruct (v =? 0) eqn:E0; bool_clean.
  - split; [done|]. intros k m. rewrite IH2. split; (intros [|(x & Hx & ? & Hl & ?)]; [by left|right]).
    + exists x. split_and!; [lia|done..].
    + exists x. assert (x ≠ n) by (intros ->; congruence). split_and!; [lia|done..].
  - split; [done|]. intros k m. cbn [snd]. rewrite lookup_insert_Some, IH2. split.
    + intros [[<- <-]|[_ [|(x & Hx & ? & Hl & ?)]]]; [right; exists n; split_and!; [lia|done..]|by left|].
      right. exists x. split_and!; [lia|done..].
    + intros [Hk|(x & Hx & -> & Hl & ?)].
      * right. split; [|by left]. intros <-. by rewrite Hst in Hk.
      * destruct (decide (x = n)) as [->|]; [left; split; congruence|].
        right. split; [intros [=]; lia|]. right. exists x. split_and!; [lia|done..].
Qed.

Lemma greed_row_render row y w st : mask_row row → zlen row = w → (∀ x, st.2 !! (x, y) = None) →
  let st' := greed_row w true st y (render_row row) in
  st'.1 = st.1
  ∧ ∀ k m, st'.2 !! k = Some m ↔
      st.2 !! k = Some m ∨ ∃ x, k = (Z.of_nat x, y) ∧ row !! x = Some m ∧ m ≠ 0.
Proof.
  intros Hrow Hw Hst. unfold greed_row. rewrite render_row_length, Hw.
  rewrite (Z.mul_comm 2 w), Z.mod_mul, Z.div_mul, Z.ltb_irrefl by lia. cbn [Z.eqb negb andb].
  unfold zlen in Hw. replace (Z.to_nat w) with (length row) by lia.
  destruct (cells_fold row y (length row) Hrow ltac:(lia) st Hst) as [H1 H2].
  cbn zeta. split; [exact H1|]. intros k m. rewrite H2.
  split; (intros [|(x & Hx)]; [by left|right; exists x]); [tauto|].
  destruct Hx as (? & Hl & ?). split_and!; [by eapply lookup_lt_Some|done..].
Qed.

Lemma greed_rows_render rows w : Forall mask_row rows → Forall (λ row, zlen row = w) rows →
  ∀ y st, (∀ x y', y <= y' → st.2 !! (x, y') = None) →
  let st' := greed_rows w true y st (render_row <$> rows) in
  st'.1 = st.1
  ∧ ∀ k m, st'.2 !! k = Some m ↔
      st.2 !! k = Some m
      ∨ ∃ x j row, k = (Z.of_nat x, y + Z.of_nat j) ∧ rows !! j = Some row
                   ∧ row !! x = Some m ∧ m ≠ 0.
Proof.
  intros Hr Hw. induction Hr as [|row rows Hrow Hr IH]; intros y st Hst; cbn zeta.
  { split; [done|]. intros k m. split; [by left|]. by intros [|(x & j & row & _ & ? & _)]. }
  apply Forall_cons in Hw as [Hw Hws]. cbn [fmap list_fmap greed_rows].
  destruct (greed_row_render row y w st Hrow Hw ltac:(intros x; apply Hst; lia)) as [H1 H2].
  set (st1 := greed_row w true st y (render_row row)) in *.
  assert (∀ x y', y + 1 <= y' → st1.2 !! (x, y') = None) as Hst1.
  { intros x y' Hy. apply eq_None_not_Some. intros [m [Hk|(x' & [=] & _)]%H2]; [|lia].
    by rewrite Hst in Hk by lia. }
  destruct (IH Hws (y + 1) st1 Hst1) as [H3 H4]. cbn zeta in H3, H4. split; [by rewrite H3|].
  intros k m. rewrite H4, H2. split.
  - intros [[|(x & -> & ?)]|(x & j & row' & -> & ?)]; [by left|right; exists x, 0%nat, row|right].
    + split; [f_equal; lia|done].
    + exists x, (S j), row'. split; [f_equal; lia|done].
  - intros [|(x & [|j] & row' & -> & Hj & ?)]; [by left; left|left; right|right].
    + cbn in Hj. injection Hj as ->. exists x. split; [f_equal; lia|done].
    + exists x, j, row'. split; [f_equal; lia|done].
Qed.

(** C23: A grid drawn with [n] rows of [w] doubled symbols, as the client data
    draws it, is read back exactly: no diagnostic, and a room with its door
    mask at (x, y) precisely where row y has a non-zero mask at x. *)
Theorem greed_grid_roundtrip maze rows w : rows ≠ [] → 0 < w →
  Forall mask_row rows → Forall (λ row, zlen row = w) rows →
  Greed maze = render_grid rows →
  Width maze = mkOptInt w true → Height maze = mkOptInt (zlen rows) true →
  ∃ masks, addGreedCells maze = ([], Some masks)
    ∧ ∀ k m, masks !! k = Some m ↔
        ∃ x y row, k = (Z.of_nat x, Z.of_nat y) ∧ rows !! y = Some row ∧ row !! x = Some m ∧ m ≠ 0.
Proof.
  intros Hne Hw Hr Hrw HG HW HH. unfold addGreedCells. rewrite HG, HW, HH. cbn [oi_Set oi_Value].
  assert (Forall (λ row : list Z, row ≠ []) rows) as He.
  { eapply Forall_impl; [exact Hrw|]. intros row Hl ->. unfold zlen in Hl. cbn in Hl. lia. }
  destruct rows as [|row rows]; [done|].
  destruct (render_grid (row :: rows)) as [|r g] eqn:Eg.
  { exfalso. apply (f_equal normalizedGreedRows) in Eg. by rewrite normalized_render in Eg. }
  rewrite <- Eg, normalized_render by done. rewrite (proj2 (Z.leb_gt w 0)) by done.
  assert (0 < zlen (row :: rows)) as Hlen by (unfold zlen; cbn; lia).
  rewrite (proj2 (Z.leb_gt (zlen (row :: rows)) 0)) by done. cbn [negb orb].
  destruct (render_row <$> row :: rows) as [|r1 rs1] eqn:Ers; [done|]. rewrite <- Ers. clear Ers.
  assert (greedRowsArePaired (render_row <$> row :: rows) w = true) as ->.
  { unfold greedRowsArePaired. cbn [fmap list_fmap paired_loop]. rewrite render_row_length.
    apply Forall_cons_1 in Hrw as [-> _]. by rewrite (proj2 (Z.ltb_lt w (2 * w))) by lia. }
  assert (zlen (render_row <$> row :: rows) = zlen (row :: rows)) as Hl
    by (unfold zlen; by rewrite length_fmap).
  rewrite Hl, Z.ltb_irrefl, take_ge by (rewrite <- Hl; unfold zlen; lia).
  destruct (greed_rows_render (row :: rows) w Hr Hrw 0 ([], ∅)) as [H1 H2]; [done|].
  cbn zeta in H1, H2. destruct (greed_rows w true 0 ([], ∅) _) as [ds masks].
  cbn [fst snd] in H1, H2. subst ds. exists masks. split; [done|]. intros k m. rewrite H2.
  split; [by intros [|?]|by right].
Qed.

(** ** The properties on a dungeon of two rooms *)

#[local] Instance unit_payload : MapPayload := {| MapSummon := unit; MapRest := unit |}.

(** Two rooms in a row, a door on the right of the first and on the left of the
    second; the map table has a map for the first room only. *)
Definition two_rooms : Maze :=
  mkMaze 0 (mkOptInt 2 true) (mkOptInt 1 true) (render_grid [[1; 4]]) []
    (Some (mkMazePoint 0 0 [])) (Some (mkMazePoint 1 0 [])) [] [] [].
Definition two_rooms_resolver : Resolver :=
  mkResolver (mkTable [mkMap 300 [] [] [] [] [] [] [] [] [] [] tt] [mkDungeon 7 ∅ [two_rooms]]
                {[300 := 0%nat]})
    {[7 := mkDungeonMapIndex 0 [mkMazeMapIndex ∅ ∅
      {[(0, 0) := [mkIndexedMap 0 MapFileStart []]]} ∅ []]]}.
Definition two_rooms_topology : DungeonTopology :=
  match BuildDungeonTopology elements (Some two_rooms_resolver) 7 0 with
  | Ret t => t
  | _ => mkTopology 0 0 (mkOptInt 0 false) (mkOptInt 0 false) None [] false [] ∅ ∅ None
  end.

Lemma two_rooms_built :
  BuildDungeonTopology elements (Some two_rooms_resolver) 7 0 = Ret two_rooms_topology.
Proof. vm_compute. reflexivity. Qed.

Lemma topology_spec_witness : ∃ cells, dom (rooms two_rooms_topology) = cells
  ∧ (0, 0) ∈ cells ∧ (1, 0) ∈ cells
  ∧ ∀ k room, rooms two_rooms_topology !! k = Some room →
      room_spec two_rooms_resolver 7 0 (Some (mkRoom 0 0)) {[(1, 0)]}
        (resolutionErrors two_rooms_topology) k room.
Proof.
  destruct (topology_spec elements (λ s, reflexivity _) _ _ _ _ two_rooms_built)
    as (maze & index & diags & cells & greed & _ & _ & Hdom & _ & _ & _ & _ & Hc & Hall).
  exists cells. split; [exact Hdom|]. split; [|split].
  - apply (Hc (mkRoom 0 0)). left. vm_compute. reflexivity.
  - apply (Hc (mkRoom 1 0)). right. vm_compute. left.
  - intros k room Hk. destruct (Hall k room Hk) as [Hr _].
    replace (Some (mkRoom 0 0)) with (top_Start two_rooms_topology) by (vm_compute; reflexivity).
    replace ({[(1, 0)]} : gset coordinateKey)
      with (list_to_set (key <$> Bosses two_rooms_topology) : gset coordinateKey)
      by (vm_compute; reflexivity).
    exact Hr.
Defined.

Lemma doors_symmetric_witness : ∃ room',
  rooms two_rooms_topology !! (1, 0) = Some room'
  ∧ mkNeighbor RoomDirectionLeft (mkRoom 0 0) ∈ Neighbors room'
  ∧ adjacent (mkRoom 1 0) (0, 0) = true.
Proof.
  refine (doors_symmetric elements (λ s, reflexivity _) two_rooms_resolver 7 0 two_rooms_topology
    (0, 0) (default (mkDungeonRoom (mkRoom 0 0) false false None None [])
              (rooms two_rooms_topology !! (0, 0)))
    (mkNeighbor RoomDirectionRight (mkRoom 1 0)) two_rooms_built _ _ _ _).
  - vm_compute. reflexivity.
  - unfold in_i64, two63. cbn. lia.
  - unfold in_i64, two63. cbn. lia.
  - vm_compute. left.
Defined.

Lemma greed_grid_roundtrip_witness : ∃ masks, addGreedCells two_rooms = ([], Some masks)
  ∧ masks !! (1, 0) = Some 4.
Proof.
  destruct (greed_grid_roundtrip two_rooms [[1; 4]] 2 ltac:(done) ltac:(lia)
    ltac:(constructor; [constructor; [lia|constructor; [lia|constructor]]|constructor])
    ltac:(constructor; [reflexivity|constructor]) eq_refl eq_refl eq_refl) as (masks & H1 & H2).
  exists masks. split; [exact H1|]. apply H2. exists 1%nat, 0%nat, [1; 4]. by vm_compute.
Defined.
