(* ===== verification/GoHeap.v ===== *)
(** * Go's binary heap

    The package [container/heap] of the Go library on a slice: [up], [down],
    [Init], [Push] and [Pop], for a comparison given by the client.  For a
    comparison that is a strict weak order the operations keep the slice a heap
    and permute its elements, and [Pop] returns a least one. *)

From S2P Require Import Prelude.

#[local] Open Scope nat_scope.

Section heap.
Context {A : Type}.
Variable less : A → A → bool.

Definition swap (l : list A) (i j : nat) : list A :=
  match l !! i, l !! j with
  | Some a, Some b => <[i := b]> (<[j := a]> l)
  | _, _ => l
  end.

(** [Less (i, j)] on the slice. *)
Definition less_at (l : list A) (i j : nat) : bool :=
  match l !! i, l !! j with Some a, Some b => less a b | _, _ => false end.

Fixpoint up (fuel : nat) (l : list A) (j : nat) : list A :=
  match fuel with
  | O => l
  | S fuel =>
      let i := (j - 1) / 2 in
      if (i =? j) || negb (less_at l j i) then l else up fuel (swap l i j) i
  end.

Fixpoint down (fuel : nat) (l : list A) (i n : nat) : list A :=
  match fuel with
  | O => l
  | S fuel =>
      let j1 := 2 * i + 1 in
      if n <=? j1 then l
      else
        let j := if (j1 + 1 <? n) && less_at l (j1 + 1) j1 then j1 + 1 else j1 in
        if negb (less_at l j i) then l else down fuel (swap l i j) j n
  end.

(** [Init] runs [down] at n/2-1, ..., 1, 0; the index bounds the rounds of
    [up], and the length those of [down]. *)
Definition heap_init (l : list A) : list A :=
  foldl (λ l i, down (length l) l i (length l)) l (rev (seq 0 (length l / 2))).

Definition heap_push (l : list A) (x : A) : list A :=
  up (S (length l)) (l ++ [x]) (length l).

Definition heap_pop (l : list A) : option (A * list A) :=
  let n := length l - 1 in
  let l := down (length l) (swap l 0 n) 0 n in
  x ← l !! n; Some (x, take n l).

(** ** Heaps *)

Definition le (a b : A) : Prop := less b a = false.
Definition child (i c : nat) : Prop := c = 2 * i + 1 ∨ c = 2 * i + 2.

(** Every child in the first [n] elements is above its parent, if that is not
    before [lo]. *)
Definition heap_from (lo n : nat) (l : list A) : Prop :=
  ∀ p c a b, lo <= p → child p c → c < n → l !! p = Some a → l !! c = Some b → le a b.
Definition heap (l : list A) : Prop := heap_from 0 (length l) l.

Hypothesis less_asym : ∀ a b, less a b = true → less b a = false.
Hypothesis le_trans : ∀ a b c, le a b → le b c → le a c.

Lemma le_refl a : le a a.
Proof using less_asym. unfold le. destruct (less a a) eqn:E; [by rewrite less_asym in E|done]. Qed.

Lemma length_swap l i j : length (swap l i j) = length l.
Proof using. unfold swap. repeat case_match; by rewrite ?length_insert. Qed.

Lemma swap_lookup l i j a b k : l !! i = Some a → l !! j = Some b →
  swap l i j !! k = if decide (k = i) then Some b else if decide (k = j) then Some a else l !! k.
Proof using.
  intros Hi Hj. unfold swap. rewrite Hi, Hj.
  destruct (decide (k = i)) as [->|].
  - apply list_lookup_insert_eq. rewrite length_insert. by eapply lookup_lt_Some.
  - rewrite list_lookup_insert_ne by done. destruct (decide (k = j)) as [->|].
    + apply list_lookup_insert_eq. by eapply lookup_lt_Some.
    + by rewrite list_lookup_insert_ne.
Qed.

Lemma swap_perm l i j : swap l i j ≡ₚ l.
Proof using.
  destruct (l !! i) as [a|] eqn:Hi; [|unfold swap; by rewrite Hi].
  destruct (l !! j) as [b|] eqn:Hj; [|unfold swap; by rewrite Hi, Hj].
  apply Permutation_inj. split; [apply length_swap|].
  exists (λ k, if decide (k = i) then j else if decide (k = j) then i else k). split.
  - intros x y. repeat case_decide; congruence.
  - intros k. rewrite (swap_lookup _ _ _ _ _ _ Hi Hj). repeat case_decide; congruence.
Qed.

Lemma up_perm fuel : ∀ l j, up fuel l j ≡ₚ l.
Proof using.
  induction fuel as [|fuel IH]; intros l j; cbn [up]; [done|].
  case_match; [done|]. by rewrite IH, swap_perm.
Qed.

Lemma down_perm fuel : ∀ l i n, down fuel l i n ≡ₚ l.
Proof using.
  induction fuel as [|fuel IH]; intros l i n; cbn [down]; [done|].
  case_match; [done|]. case_match; [done|]. by rewrite IH, swap_perm.
Qed.

(** ** [up] restores a heap whose only defect is at its argument *)

Definition up_inv (n : nat) (l : list A) (j : nat) : Prop :=
  (∀ p c a b, child p c → c < n → c ≠ j → l !! p = Some a → l !! c = Some b → le a b)
  ∧ ∀ p c a b, child p j → child j c → c < n → l !! p = Some a → l !! c = Some b → le a b.

Lemma child_parent j : j ≠ 0 → child ((j - 1) / 2) j.
Proof using.
  intros Hj. pose proof (Nat.div_mod_eq (j - 1) 2). pose proof (Nat.mod_upper_bound (j - 1) 2).
  unfold child. lia.
Qed.

Lemma child_fun p p' c : child p c → child p' c → p = p'.
Proof using. unfold child. lia. Qed.

Lemma up_heap fuel : ∀ l j, j < fuel → j < length l → up_inv (length l) l j →
  heap (up fuel l j).
Proof using less_asym le_trans.
  induction fuel as [|fuel IH]; intros l j Hf Hj [H1 H2]; [lia|]. cbn [up].
  destruct (decide (j = 0)) as [->|Hj0].
  { cbn. intros p c a b _ Hc Hl. apply H1; [done|done|unfold child in Hc; lia]. }
  pose proof (child_parent j Hj0) as Hc. set (i := (j - 1) / 2) in *. clearbody i.
  assert (i < j) as Hij by (unfold child in Hc; lia).
  destruct (lookup_lt_is_Some_2 l i ltac:(lia)) as [a Ha].
  destruct (lookup_lt_is_Some_2 l j ltac:(lia)) as [b Hb].
  rewrite (proj2 (Nat.eqb_neq i j)) by lia. cbn [orb]. unfold less_at. rewrite Hb, Ha.
  destruct (less b a) eqn:Hlt; cbn [negb].
  - assert (le b a) as Hba by (by apply less_asym).
    apply IH; [lia|by rewrite length_swap; lia|]. rewrite length_swap.
    split; intros p c x y; rewrite !(swap_lookup _ _ _ _ _ _ Ha Hb).
    + intros Hpc Hcn Hci. rewrite (decide_False (P := c = i)) by done.
      destruct (decide (c = j)) as [->|Hcj].
      * rewrite (child_fun _ _ _ Hpc Hc), decide_True by done. by intros [= <-] [= <-].
      * destruct (decide (p = i)) as [->|]; [|destruct (decide (p = j)) as [->|]].
        -- intros [= <-] Hy. eapply le_trans; [exact Hba|]. by eapply (H1 i c).
        -- intros [= <-] Hy. by eapply (H2 i c).
        -- by apply H1.
    + intros Hpi Hic Hcn. assert (p < i) by (unfold child in Hpi; lia).
      rewrite (decide_False (P := p = i)), (decide_False (P := p = j)) by lia. intros Hx.
      rewrite (decide_False (P := c = i)) by (unfold child in Hic; lia).
      assert (le x a) as Hxa by (eapply (H1 p i); [done|lia|lia|done|done]).
      destruct (decide (c = j)); [by intros [= <-]|]. intros Hy.
      eapply le_trans; [exact Hxa|]. by eapply (H1 i c).
  - intros p c x y _ Hpc Hcn Hx Hy. destruct (decide (c = j)) as [->|].
    + rewrite (child_fun _ _ _ Hpc Hc) in Hx. unfold le. congruence.
    + by eapply (H1 p c).
Qed.

(** ** [down] restores a heap whose only defect is at its argument *)

Definition down_inv (lo n : nat) (l : list A) (i : nat) : Prop :=
  (∀ p c a b, lo <= p → child p c → c < n → p ≠ i → l !! p = Some a → l !! c = Some b → le a b)
  ∧ ∀ p c a b, lo <= p → child p i → child i c → c < n → l !! p = Some a → l !! c = Some b → le a b.

(** The smaller child, as [down] picks it. *)
Lemma smaller_child l i n x : n <= length l → 2 * i + 1 < n →
  let j := if (2 * i + 1 + 1 <? n) && less_at l (2 * i + 1 + 1) (2 * i + 1)
           then 2 * i + 1 + 1 else 2 * i + 1 in
  l !! j = Some x → child i j ∧ j < n
  ∧ ∀ c y, child i c → c < n → l !! c = Some y → le x y.
Proof using less_asym.
  intros Hn Hi. cbn zeta. unfold less_at.
  destruct (2 * i + 1 + 1 <? n) eqn:E; [apply Nat.ltb_lt in E|apply Nat.ltb_ge in E].
  - destruct (lookup_lt_is_Some_2 l (2 * i + 1) ltac:(lia)) as [a Ha].
    destruct (lookup_lt_is_Some_2 l (2 * i + 1 + 1) ltac:(lia)) as [b Hb]. rewrite Ha, Hb.
    destruct (less b a) eqn:Hlt; cbn [andb]; intros Hx; (split; [unfold child; lia|]); (split; [lia|]);
      intros c y Hc _ Hy; assert (c = 2 * i + 1 ∨ c = 2 * i + 1 + 1) as [->| ->]
        by (unfold child in Hc; lia); rewrite ?Ha, ?Hb in *; simplify_eq;
      first [apply le_refl | exact Hlt | by apply less_asym].
  - cbn [andb]. intros Hx. split; [unfold child; lia|]. split; [lia|]. intros c y Hc Hcn Hy.
    assert (c = 2 * i + 1) as -> by (unfold child in Hc; lia). simplify_eq. apply le_refl.
Qed.

Lemma down_heap fuel lo : ∀ l i n, n <= i + fuel → n <= length l → lo <= i → down_inv lo n l i →
  heap_from lo n (down fuel l i n).
Proof using less_asym le_trans.
  induction fuel as [|fuel IH]; intros l i n Hf Hn Hlo [H1 H2]; cbn [down].
  { intros p c a b Hp Hpc Hc. apply H1; [done|done|done|]. unfold child in Hpc. lia. }
  destruct (n <=? 2 * i + 1) eqn:En; [apply Nat.leb_le in En|apply Nat.leb_gt in En].
  { intros p c a b Hp Hpc Hc. apply H1; [done|done|done|]. unfold child in Hpc. lia. }
  pose proof (smaller_child l i n) as Hs. cbn zeta in Hs.
  set (j := if _ && _ then _ else _) in *.
  assert (j < length l) as Hj by (subst j; destruct (_ && _) eqn:E; [|lia];
    apply andb_true_iff in E as [E _]; apply Nat.ltb_lt in E; lia).
  destruct (lookup_lt_is_Some_2 l j Hj) as [b Hb].
  destruct (Hs b Hn En Hb) as (Hij & Hjn & Hmin). clear Hs. clearbody j.
  assert (i < j) as Hlt by (unfold child in Hij; lia).
  destruct (lookup_lt_is_Some_2 l i ltac:(lia)) as [a Ha].
  unfold less_at. rewrite Ha, Hb. destruct (less b a) eqn:Hba; cbn [negb].
  - assert (le b a) as Hle by (by apply less_asym).
    apply IH; [lia|by rewrite length_swap|lia|].
    split; intros p c x y; rewrite !(swap_lookup _ _ _ _ _ _ Ha Hb).
    + intros Hp Hpc Hcn Hpj. destruct (decide (p = i)) as [->|Hpi].
      * intros [= <-]. rewrite (decide_False (P := c = i)) by (unfold child in Hpc; lia).
        destruct (decide (c = j)); [by intros [= <-]|]. intros Hy. by apply (Hmin c y).
      * rewrite (decide_False (P := p = j)) by done. intros Hx.
        rewrite (decide_False (P := c = j)) by (intros ->; by apply Hpi, (child_fun p i j)).
        destruct (decide (c = i)) as [->|]; [|by apply (H1 p c)].
        intros [= <-]. by apply (H2 p j x b).
    + intros Hp Hpj Hjc Hcn. rewrite (child_fun _ _ _ Hpj Hij), decide_True by done.
      intros [= <-]. rewrite (decide_False (P := c = i)), (decide_False (P := c = j))
        by (unfold child in Hjc; lia).
      intros Hy. apply (H1 j c); [lia|done|done|lia|done|done].
  - intros p c x y Hp Hpc Hcn Hx Hy. destruct (decide (p = i)) as [->|]; [|by apply (H1 p c)].
    simplify_eq. eapply le_trans; [exact Hba|]. by apply (Hmin c y).
Qed.

(** [down] stays below its bound. *)
Lemma down_above fuel : ∀ l i n k, n <= k → down fuel l i n !! k = l !! k.
Proof using.
  induction fuel as [|fuel IH]; intros l i n k Hk; cbn [down]; [done|].
  destruct (n <=? 2 * i + 1) eqn:En; [done|apply Nat.leb_gt in En].
  set (j := if _ && _ then _ else _).
  assert (j < n) as Hj by (subst j; destruct (_ && _) eqn:E; [|lia];
    apply andb_true_iff in E as [E _]; apply Nat.ltb_lt in E; lia). clearbody j.
  destruct (negb _); [done|]. rewrite IH by lia.
  unfold swap. destruct (l !! i), (l !! j); try done.
  by rewrite !list_lookup_insert_ne by lia.
Qed.

(** ** The operations *)

Lemma heap_init_perm l : heap_init l ≡ₚ l.
Proof using.
  unfold heap_init. generalize (rev (seq 0 (length l / 2))) as ks. intros ks. revert l. induction ks as [|k ks IH]; intros l; cbn [foldl]; [done|].
  by rewrite IH, down_perm.
Qed.

Lemma heap_init_loop m : ∀ l, m <= length l → heap_from m (length l) l →
  heap (foldl (λ l i, down (length l) l i (length l)) l (rev (seq 0 m))).
Proof using less_asym le_trans.
  induction m as [|m IH]; intros l Hm Hl; [done|].
  rewrite seq_S, rev_app_distr. cbn [rev app Nat.add foldl].
  assert (length (down (length l) l m (length l)) = length l) as E by (by rewrite down_perm).
  apply IH; [lia|]. rewrite E. apply down_heap; [lia|lia|lia|]. split.
  - intros p c a b Hp Hpc Hc Hpm. apply Hl; [lia|done|done].
  - intros p c a b Hp Hpm Hc. unfold child in Hpm. lia.
Qed.

Lemma heap_init_heap l : heap (heap_init l).
Proof using less_asym le_trans.
  apply heap_init_loop.
  - pose proof (Nat.div_mod_eq (length l) 2). lia.
  - intros p c a b Hp Hpc Hc. pose proof (Nat.div_mod_eq (length l) 2).
    pose proof (Nat.mod_upper_bound (length l) 2). unfold child in Hpc. lia.
Qed.

Lemma heap_push_perm l x : heap_push l x ≡ₚ x :: l.
Proof using. unfold heap_push. rewrite up_perm. symmetry. apply Permutation_cons_append. Qed.

Lemma heap_push_heap l x : heap l → heap (heap_push l x).
Proof using less_asym le_trans.
  intros Hl. apply up_heap; [lia|rewrite length_app; cbn; lia|]. split.
  - intros p c a b Hpc Hc Hne. rewrite length_app in Hc. cbn in Hc.
    rewrite !lookup_app_l by (unfold child in Hpc; lia). apply Hl; [lia|done|lia].
  - intros p c a b _ Hc Hlt. rewrite length_app in Hlt. cbn in Hlt. unfold child in Hc. lia.
Qed.

Lemma heap_min l a : heap l → l !! 0 = Some a → ∀ b, b ∈ l → le a b.
Proof using less_asym le_trans.
  intros Hl Ha b [k Hk]%list_elem_of_lookup. revert b Hk.
  induction (lt_wf k) as [k _ IH]. intros b Hk.
  destruct (decide (k = 0)) as [->|Hk0]; [simplify_eq; apply le_refl|].
  pose proof (child_parent k Hk0) as Hc. set (i := (k - 1) / 2) in *. clearbody i.
  assert (i < k) as Hi by (unfold child in Hc; lia). apply lookup_lt_Some in Hk as Hlt.
  destruct (lookup_lt_is_Some_2 l i ltac:(lia)) as [x Hx].
  eapply le_trans; [by apply (IH i)|]. by eapply (Hl i k); [lia|..].
Qed.

Lemma heap_pop_spec l x l' : heap l → heap_pop l = Some (x, l') →
  x :: l' ≡ₚ l ∧ heap l' ∧ l !! 0 = Some x ∧ ∀ y, y ∈ l → le x y.
Proof using less_asym le_trans.
  intros Hl. unfold heap_pop. set (n := length l - 1).
  destruct (decide (l = [])) as [->|Hne]; [done|].
  assert (length l = S n) as Hlen by (subst n; destruct l; [done|cbn; lia]).
  destruct (lookup_lt_is_Some_2 l 0 ltac:(lia)) as [a Ha].
  set (d := down (length l) (swap l 0 n) 0 n). intros Hd.
  destruct (lookup_lt_is_Some_2 l n ltac:(lia)) as [b Hb].
  assert (heap_from 0 n d) as Hh.
  { subst d. apply down_heap; [lia|rewrite length_swap; lia|lia|]. split.
    - intros p c u v _ Hpc Hc Hp. rewrite !(swap_lookup _ _ _ _ _ _ Ha Hb).
      rewrite (decide_False (P := p = 0)), (decide_False (P := p = n)),
        (decide_False (P := c = 0)), (decide_False (P := c = n)) by (unfold child in Hpc; lia).
      apply Hl; [lia|done|lia].
    - intros p c u v _ Hp. unfold child in Hp. lia. }
  assert (d !! n = Some a) as Hdn.
  { subst d. rewrite down_above by lia. rewrite (swap_lookup _ _ _ _ _ _ Ha Hb).
    destruct (decide (n = 0)); [|by rewrite decide_True]. congruence. }
  rewrite Hdn in Hd. cbn in Hd. injection Hd as <- <-.
  assert (length d = S n) as Hld by (subst d; by rewrite down_perm, swap_perm).
  assert (a :: take n d ≡ₚ l) as Hp.
  { transitivity d; [|subst d; by rewrite down_perm, swap_perm].
    rewrite <- (take_drop_middle d n a Hdn) at 2. rewrite drop_ge by lia.
    apply Permutation_cons_append. }
  split; [exact Hp|]. split; [|split; [exact Ha|by apply heap_min]].
  intros p c u v Hp0 Hpc Hc. rewrite length_take in Hc.
  rewrite !lookup_take_lt by (unfold child in Hpc; lia). apply Hh; [lia|done|lia].
Qed.

Lemma heap_pop_some l : l ≠ [] → is_Some (heap_pop l).
Proof using.
  intros Hl. unfold heap_pop. destruct (lookup_lt_is_Some_2
    (down (length l) (swap l 0 (length l - 1)) 0 (length l - 1)) (length l - 1)) as [x Hx].
  - rewrite down_perm, swap_perm. destruct l; [done|cbn; lia].
  - rewrite Hx. by eexists.
Qed.
End heap.
