(* ===== verification/TimeQueue.v ===== *)
(** * The due-time queue

    Models [src/go-server/internal/platform/timequeue]: named one-shot and
    recurring tasks in a binary heap, cancellation by name, prefix or handle,
    the collection of due tasks, and the calendar that gives a recurring task
    its next moment.  A moment is the number of nanoseconds since the Unix
    epoch; a location is a fixed offset from UTC in nanoseconds, as the default
    one is.  Names are valid UTF-8, as rune lists.  The mutex makes every method
    atomic; the moment read from the clock is an argument of the methods that
    read it.  A callback is an opaque value, and running it is the pair of the
    callback and the moment it is given. *)

From S2P Require Import Prelude GoStrings GoHeap.

(** ** Package time, on moments *)

Definition second_ns : Z := 1000000000.
Definition minute_ns : Z := 60 * second_ns.
Definition hour_ns : Z := 60 * minute_ns.
Definition day_ns : Z := 24 * hour_ns.

(** The zero [time.Time], the first of January of the year one. *)
Definition zero_time : Z := -62135596800 * second_ns.
Definition IsZero (t : Z) : bool := t =? zero_time.

(** [t.Truncate (d)] rounds down to a multiple of [d] since the zero time. *)
Definition Truncate (t d : Z) : Z := t - (t - zero_time) mod d.

(** [t.Sub (u)] saturates at the ends of the duration type. *)
Definition Sub (t u : Z) : Z := Z.max (- two63) (Z.min (t - u) max_int64).

(** Days since the epoch and the weekday (0 is Sunday) of a local moment. *)
Definition local_day (offset t : Z) : Z := (t + offset) / day_ns.
Definition local_weekday (offset t : Z) : Z := (local_day offset t + 4) mod 7.
(** [time.Date] of a given day, hour and minute in a location. *)
Definition date_at (offset day hour minute : Z) : Z :=
  day * day_ns + hour * hour_ns + minute * minute_ns - offset.

Inductive tq_error := ErrNameRequired | ErrCallbackRequired | ErrInvalidMoment.

Inductive taskKind := kindOneShot | kindMinute | kindDaily | kindWeekly.
#[export] Instance taskKind_eq_dec : EqDecision taskKind.
Proof. solve_decision. Defined.

Definition is_one_shot (k : taskKind) : bool := bool_decide (k = kindOneShot).

Section timequeue.
Context {Callback : Type}.

Record task := mkTask {
  id : Z; name : runes; due : Z; kind : taskKind; callback : Callback;
  hour : Z; minute : Z; weekday : Z
}.

Record Service := mkService {
  location : Z;
  staleThreshold : Z;
  nextID : Z;
  items : list task;
  byName : gmap runes Z;
  canceled : gset Z;
  lastNow : Z;
  wake : bool
}.

Record Handle := mkHandle { handle_name : runes; handle_id : Z }.
Record Snapshot := mkSnapshot { Pending : Z; Named : Z; Canceled : Z }.

Definition set_items (q : Service) l : Service :=
  mkService (location q) (staleThreshold q) (nextID q) l (byName q) (canceled q) (lastNow q) (wake q).
Definition set_byName (q : Service) m : Service :=
  mkService (location q) (staleThreshold q) (nextID q) (items q) m (canceled q) (lastNow q) (wake q).
Definition set_canceled (q : Service) c : Service :=
  mkService (location q) (staleThreshold q) (nextID q) (items q) (byName q) c (lastNow q) (wake q).
Definition set_nextID (q : Service) n : Service :=
  mkService (location q) (staleThreshold q) n (items q) (byName q) (canceled q) (lastNow q) (wake q).
Definition set_lastNow (q : Service) t : Service :=
  mkService (location q) (staleThreshold q) (nextID q) (items q) (byName q) (canceled q) t (wake q).
Definition signalLocked (q : Service) : Service :=
  mkService (location q) (staleThreshold q) (nextID q) (items q) (byName q) (canceled q) (lastNow q)
    true.

(** [New]; no location is UTC+8. *)
Definition New (loc : option Z) (threshold : Z) : Service :=
  mkService (default (8 * hour_ns) loc) (if threshold <=? 0 then 64 else threshold) 0 [] ∅ ∅
    zero_time false.

(** ** The order of tasks *)

Definition Less (a b : task) : bool :=
  (due a <? due b) || ((due a =? due b) && (id a <? id b)).

(** ** The calendar *)

Definition nextDaily (q : Service) (now h m : Z) : Z :=
  let dueLocal := date_at (location q) (local_day (location q) now) h m in
  if negb (now <? dueLocal) then dueLocal + day_ns else dueLocal.

(** [%] is the remainder of Go, with the sign of the dividend. *)
Definition nextWeekly (q : Service) (now wd h m : Z) : Z :=
  let day := local_day (location q) now in
  let days := Z.rem (wd - local_weekday (location q) now + 7) 7 in
  let dueLocal := date_at (location q) (day + days) h m in
  if negb (now <? dueLocal) then date_at (location q) (day + days + 7) h m else dueLocal.

Definition nextMinute (now : Z) : Z := Truncate now minute_ns + minute_ns.

(** The moment a recurring task is given after [now]. *)
Definition next_due (q : Service) (now : Z) (t : task) : Z :=
  match kind t with
  | kindOneShot => due t
  | kindMinute => nextMinute now
  | kindDaily => nextDaily q now (hour t) (minute t)
  | kindWeekly => nextWeekly q now (weekday t) (hour t) (minute t)
  end.

Definition with_due (t : task) (d : Z) : task :=
  mkTask (id t) (name t) d (kind t) (callback t) (hour t) (minute t) (weekday t).
Definition with_id (t : task) (i : Z) : task :=
  mkTask i (name t) (due t) (kind t) (callback t) (hour t) (minute t) (weekday t).

(** ** Stale tasks *)

(** [byName[name] = id]; a missing name reads as zero. *)
Definition is_current (q : Service) (t : task) : bool := default 0 (byName q !! name t) =? id t.

Definition isCanceledLocked (q : Service) (t : task) : bool * Service :=
  if bool_decide (id t ∈ canceled q) then (true, set_canceled q (canceled q ∖ {[id t]}))
  else (false, q).

Fixpoint compact_loop (byName : gmap runes Z) (l : list task) (canceled : gset Z)
    : list task * gset Z :=
  match l with
  | [] => ([], canceled)
  | t :: l =>
      if bool_decide (id t ∈ canceled) then compact_loop byName l (canceled ∖ {[id t]})
      else if negb (default 0 (byName !! name t) =? id t) then compact_loop byName l canceled
      else let '(filtered, canceled) := compact_loop byName l canceled in (t :: filtered, canceled)
  end.

Definition compactLocked (q : Service) : Service :=
  if Z.of_nat (size (canceled q)) <? staleThreshold q then q
  else let '(filtered, c) := compact_loop (byName q) (items q) (canceled q) in
       set_canceled (set_items q (heap_init Less filtered)) c.

(** ** Scheduling *)

(** The counter is a [uint64]; every caller passes [replace]. *)
Definition addTask (q : Service) (t : task) (replace : bool) : Service * Handle :=
  let q := set_nextID q (u64 (nextID q + 1)) in
  let t := with_id t (nextID q) in
  let q :=
    if replace then
      let q := match byName q !! name t with
               | Some old => set_canceled q ({[old]} ∪ canceled q)
               | None => q
               end in
      set_byName q (<[name t := id t]> (byName q))
    else q in
  let q := set_items q (heap_push Less (items q) t) in
  (signalLocked (compactLocked q), mkHandle (name t) (id t)).

Definition validate (nm : runes) (cb : option Callback) : outcome tq_error Callback :=
  if bool_decide (TrimSpace nm = []) then Fail ErrNameRequired
  else match cb with None => Fail ErrCallbackRequired | Some cb => Ret cb end.

Definition invalid_moment (h m : Z) : bool := (h <? 0) || (23 <? h) || (m <? 0) || (59 <? m).

Definition ScheduleAt (q : Service) (nm : runes) (d : Z) (cb : option Callback)
    : Service * outcome tq_error Handle :=
  match validate nm cb with
  | Ret cb => let '(q, h) := addTask q (mkTask 0 (TrimSpace nm) d kindOneShot cb 0 0 0) true in
              (q, Ret h)
  | Fail e => (q, Fail e)
  | Panic => (q, Panic)
  end.

Definition ScheduleAfter (q : Service) (clock : Z) (nm : runes) (delay : Z) (cb : option Callback)
    : Service * outcome tq_error Handle := ScheduleAt q nm (clock + delay) cb.

Definition RegisterMinute (q : Service) (clock : Z) (nm : runes) (cb : option Callback)
    : Service * outcome tq_error Handle :=
  match validate nm cb with
  | Ret cb =>
      let '(q, h) := addTask q (mkTask 0 (TrimSpace nm) (nextMinute clock) kindMinute cb 0 0 0) true
      in (q, Ret h)
  | Fail e => (q, Fail e)
  | Panic => (q, Panic)
  end.

Definition RegisterDaily (q : Service) (clock : Z) (nm : runes) (h m : Z) (cb : option Callback)
    : Service * outcome tq_error Handle :=
  match validate nm cb with
  | Ret cb =>
      if invalid_moment h m then (q, Fail ErrInvalidMoment)
      else
        let '(q, hd) :=
          addTask q (mkTask 0 (TrimSpace nm) (nextDaily q clock h m) kindDaily cb h m 0) true in
        (q, Ret hd)
  | Fail e => (q, Fail e)
  | Panic => (q, Panic)
  end.

Definition RegisterWeekly (q : Service) (clock : Z) (nm : runes) (wd h m : Z)
    (cb : option Callback) : Service * outcome tq_error Handle :=
  match validate nm cb with
  | Ret cb =>
      if invalid_moment h m then (q, Fail ErrInvalidMoment)
      else
        let '(q, hd) :=
          addTask q (mkTask 0 (TrimSpace nm) (nextWeekly q clock wd h m) kindWeekly cb h m wd) true
        in (q, Ret hd)
  | Fail e => (q, Fail e)
  | Panic => (q, Panic)
  end.

(** ** Cancelling *)

Definition cancel_id (q : Service) (nm : runes) (i : Z) : Service :=
  set_canceled (set_byName q (delete nm (byName q))) ({[i]} ∪ canceled q).

Definition Cancel (q : Service) (nm : runes) : Service * bool :=
  let nm := TrimSpace nm in
  if bool_decide (nm = []) then (q, false)
  else match byName q !! nm with
       | None => (q, false)
       | Some i => (signalLocked (cancel_id q nm i), true)
       end.

Definition cancelHandle (q : Service) (nm : runes) (i : Z) : Service * bool :=
  if negb (default 0 (byName q !! nm) =? i) then (q, false)
  else (signalLocked (cancel_id q nm i), true).

Definition HandleCancel (q : Service) (h : Handle) : Service * bool :=
  if handle_id h =? 0 then (q, false) else cancelHandle q (handle_name h) (handle_id h).

(** The loop deletes each matching name once; their order does not matter. *)
Definition CancelPrefix (q : Service) (prefix : runes) : Service * Z :=
  let prefix := TrimSpace prefix in
  if bool_decide (prefix = []) then (q, 0)
  else
    let hit := filter (λ '(nm, _), prefix `prefix_of` nm) (byName q) in
    let q' := set_canceled (set_byName q (byName q ∖ hit))
                (list_to_set (map_to_list hit).*2 ∪ canceled q) in
    let count := Z.of_nat (size hit) in
    (if 0 <? count then signalLocked q' else q', count).

(** ** Running *)

Definition rescheduleRecurringLocked (q : Service) (t : task) (now : Z) : Service :=
  let q := set_nextID q (u64 (nextID q + 1)) in
  let t := with_due (with_id t (nextID q)) (next_due q now t) in
  let q := set_byName q (<[name t := id t]> (byName q)) in
  set_items q (heap_push Less (items q) t).

(** The loop of [takeDue]; [None] is lack of fuel. *)
Fixpoint take_loop (fuel : nat) (q : Service) (now : Z) (callbacks : list task)
    : option (Service * list task) :=
  match fuel with
  | O => None
  | S fuel =>
      match items q with
      | [] => Some (q, callbacks)
      | next :: _ =>
          if now <? due next then Some (q, callbacks)
          else
            '(_, l) ← heap_pop Less (items q);
            let q := set_items q l in
            let '(stale, q) := isCanceledLocked q next in
            if stale then take_loop fuel q now callbacks
            else if negb (is_current q next)
            then take_loop fuel (set_canceled q ({[id next]} ∪ canceled q)) now callbacks
            else
              let callbacks := callbacks ++ [next] in
              if is_one_shot (kind next)
              then take_loop fuel (set_byName q (delete (name next) (byName q))) now callbacks
              else take_loop fuel (rescheduleRecurringLocked q next now) now callbacks
      end
  end.

Definition reanchorLocked (q : Service) (now : Z) : Service :=
  set_items q (heap_init Less
    ((λ t, if negb (is_current q t) || is_one_shot (kind t) then t
           else with_due t (next_due q now t)) <$> items q)).

Definition takeDue (q : Service) (now : Z) : option (Service * list task) :=
  if negb (IsZero (lastNow q)) && (now <? lastNow q)
  then Some (signalLocked (set_lastNow (reanchorLocked q now) now), [])
  else
    '(q, callbacks) ← take_loop (S (length (items q))) (set_lastNow q now) now [];
    Some (signalLocked (compactLocked q), callbacks).

(** The callbacks in the order they are invoked, with their moments. *)
Definition RunDue (q : Service) (now : Z) : option (Service * list (Callback * Z)) :=
  match takeDue q now with
  | Some (q, callbacks) => Some (q, (λ t, (callback t, due t)) <$> callbacks)
  | None => None
  end.

Fixpoint delay_loop (fuel : nat) (q : Service) (now : Z) : Service * Z :=
  match fuel with
  | O => (q, hour_ns)
  | S fuel =>
      match items q with
      | [] => (q, hour_ns)
      | t :: _ =>
          let '(stale, q) := isCanceledLocked q t in
          if stale || negb (is_current q t)
          then delay_loop fuel (set_items q (default [] (snd <$> heap_pop Less (items q)))) now
          else (q, Sub (due t) now)
      end
  end.
(** Every round of the loop pops a task. *)
Definition nextDelay (q : Service) (now : Z) : Service * Z :=
  delay_loop (S (length (items q))) q now.

Definition TakeSnapshot (q : Service) : Snapshot :=
  mkSnapshot (zlen (items q)) (Z.of_nat (size (byName q))) (Z.of_nat (size (canceled q))).

End timequeue.
Arguments task : clear implicits.
Arguments Service : clear implicits.
