(* ===== verification/TimeQueueInvariant.v ===== *)
(** * The invariant of the due-time queue

    The heap holds, besides the current task of every name, the cancelled ones
    that have not been dropped yet.  [inv] relates the tasks in the heap, in any
    order, to the name table and the set of cancelled identifiers; [view] is the
    abstract queue, the current task of each name. *)

From S2P Require Import Prelude GoStrings GoHeap TimeQueue.

Lemma size_remove (X : gset Z) x : x ∈ X → size X = S (size (X ∖ {[x]})).
Proof.
  intros Hx. rewrite (union_difference_singleton_L x X Hx) at 1.
  rewrite size_union by set_solver. by rewrite size_singleton.
Qed.

Lemma filter_ext_in {A} (P Q : A → Prop) `{!∀ x, Decision (P x), !∀ x, Decision (Q x)} (l : list A) :
  (∀ x, x ∈ l → (P x ↔ Q x)) → filter P l = filter Q l.
Proof.
  induction l as [|x l IH]; intros Hpq; [done|]. rewrite !filter_cons.
  rewrite IH by (intros y Hy; apply Hpq; by right). specialize (Hpq x ltac:(left)).
  repeat case_decide; tauto.
Qed.

Lemma NoDup_fmap_filter {A B} (f : A → B) (P : A → Prop) `{!∀ x, Decision (P x)} (l : list A) :
  NoDup (f <$> l) → NoDup (f <$> filter P l).
Proof.
  induction l as [|x l IH]; [done|]. rewrite filter_cons, fmap_cons. intros [Hx Hl]%NoDup_cons.
  case_decide; [|auto]. rewrite fmap_cons. apply NoDup_cons. split; [|auto].
  intros (y & E & [_ Hy]%list_elem_of_filter)%list_elem_of_fmap. apply Hx. rewrite E.
  by apply list_elem_of_fmap_2.
Qed.

Lemma not_or_and (P Q : Prop) : ¬ (P ∨ Q) → ¬ P ∧ ¬ Q.
Proof. tauto. Qed.

Section invariant.
Context {Callback : Type}.
#[local] Abbreviation task := (task Callback).
#[local] Abbreviation Service := (Service Callback).

(** ** The order *)

Lemma Less_true (a b : task) :
  Less a b = true ↔ due a < due b ∨ (due a = due b ∧ id a < id b).
Proof.
  unfold Less. rewrite orb_true_iff, andb_true_iff, !Z.ltb_lt, Z.eqb_eq. done.
Qed.

Lemma Less_false (a b : task) :
  Less a b = false ↔ due b < due a ∨ (due a = due b ∧ id b <= id a).
Proof. rewrite <- not_true_iff_false, Less_true. lia. Qed.

Lemma Less_asym (a b : task) : Less a b = true → Less b a = false.
Proof. rewrite Less_true, Less_false. lia. Qed.

Lemma Less_le_trans (a b c : task) : le Less a b → le Less b c → le Less a c.
Proof. unfold le. rewrite !Less_false. lia. Qed.

Lemma Less_total (a b : task) : le Less a b → id a ≠ id b → Less a b = true.
Proof. unfold le. rewrite Less_false, Less_true. lia. Qed.

(** ** The tasks, the names and the cancelled identifiers *)

Definition task_ok (t : task) : Prop := 0 <= hour t ∧ 0 <= minute t.

Record inv (l : list task) (n : Z) (bn : gmap runes Z) (cn : gset Z) : Prop := {
  inv_ids : NoDup (id <$> l);
  inv_bound : ∀ t, t ∈ l → 0 < id t <= n;
  inv_ok : ∀ t, t ∈ l → task_ok t;
  inv_status : ∀ t, t ∈ l → id t ∈ cn ∨ bn !! name t = Some (id t);
  inv_named : ∀ nm i, bn !! nm = Some i → i ∉ cn ∧ ∃ t, t ∈ l ∧ id t = i ∧ name t = nm;
  inv_canceled : ∀ i, i ∈ cn → ∃ t, t ∈ l ∧ id t = i
}.

Record wf (q : Service) : Prop := {
  wf_heap : heap Less (items q);
  wf_inv : inv (items q) (nextID q) (byName q) (canceled q);
  wf_next : 0 <= nextID q < two64
}.

#[export] Instance inv_proper : Proper ((≡ₚ) ==> eq ==> eq ==> eq ==> iff) inv.
Proof.
  assert (∀ l l' n bn cn, l ≡ₚ l' → inv l n bn cn → inv l' n bn cn) as Himp.
  { intros l l' n bn cn Hp [H1 H2 H3 H4 H5 H6]. split.
    - by rewrite <- Hp.
    - intros t. rewrite <- Hp. apply H2.
    - intros t. rewrite <- Hp. apply H3.
    - intros t. rewrite <- Hp. apply H4.
    - intros nm i Hi. destruct (H5 nm i Hi) as (Hc & t & Ht & ?). split; [done|].
      exists t. by rewrite <- Hp.
    - intros i Hi. destruct (H6 i Hi) as (t & Ht & ?). exists t. by rewrite <- Hp. }
  intros l l' Hp n ? <- bn ? <- cn ? <-. split; by apply Himp.
Qed.

Lemma inv_unique l n bn cn t t' : inv l n bn cn → t ∈ l → t' ∈ l → id t = id t' → t = t'.
Proof.
  intros [Hnd _ _ _ _ _] [i Hi]%list_elem_of_lookup [j Hj]%list_elem_of_lookup Heq.
  assert (i = j) as ->; [|congruence].
  eapply (NoDup_lookup (id <$> l)); [done|rewrite list_lookup_fmap, Hi; reflexivity|].
  rewrite list_lookup_fmap, Hj. cbn. congruence.
Qed.

(** A task is current exactly if it is not cancelled. *)
Lemma inv_current l n bn cn t : inv l n bn cn → t ∈ l →
  (id t ∉ cn ↔ bn !! name t = Some (id t)).
Proof.
  intros Hi Ht. split.
  - intros Hc. destruct (inv_status _ _ _ _ Hi t Ht); [done|done].
  - intros Hn. by destruct (inv_named _ _ _ _ Hi _ _ Hn).
Qed.

Lemma inv_is_current l n bn cn t : inv l n bn cn → t ∈ l →
  (default 0 (bn !! name t) =? id t) = bool_decide (id t ∉ cn).
Proof.
  intros Hi Ht. apply eq_true_iff_eq. rewrite Z.eqb_eq, bool_decide_eq_true.
  rewrite (inv_current _ _ _ _ _ Hi Ht). pose proof (inv_bound _ _ _ _ Hi t Ht).
  destruct (bn !! name t); cbn; [split; congruence|split; [lia|done]].
Qed.

(** ** The steps *)

Lemma inv_new l n bn cn t : inv l n bn cn → n < id t → 0 <= n → task_ok t →
  inv (t :: l) (id t) (<[name t := id t]> bn)
    (match bn !! name t with Some old => {[old]} ∪ cn | None => cn end).
Proof.
  intros Hi Hn H0 Hok.
  assert (∀ i, i ∈ (match bn !! name t with Some old => {[old]} ∪ cn | None => cn end : gset Z)
    ↔ bn !! name t = Some i ∨ i ∈ cn) as Hcn by (intros i; destruct (bn !! name t); set_solver).
  destruct Hi as [H1 H2 H3 H4 H5 H6].
  assert (∀ t', t' ∈ l → id t' ≠ id t) as Hne by (intros t' Ht'; specialize (H2 t' Ht'); lia).
  split.
  - cbn. apply NoDup_cons. split; [|done]. intros (t' & E & Ht')%list_elem_of_fmap. by apply (Hne t').
  - intros t' [->|Ht']%elem_of_cons; [lia|]. specialize (H2 t' Ht'). lia.
  - intros t' [->|Ht']%elem_of_cons; auto.
  - intros t' [->|Ht']%elem_of_cons; [right; apply lookup_insert_eq|]. rewrite Hcn.
    destruct (H4 t' Ht') as [|Hb]; [by left; right|].
    destruct (decide (name t' = name t)) as [E|E]; [left; left; congruence|].
    right. by rewrite lookup_insert_ne.
  - intros nm i [[<- <-]|[Hnm Hi]]%lookup_insert_Some.
    + split; [|exists t; split_and!; [left|done..]]. rewrite Hcn. intros [Hb|Hc].
      * destruct (H5 _ _ Hb) as (_ & t' & Ht' & E & _). by apply (Hne t').
      * destruct (H6 _ Hc) as (t' & Ht' & E). by apply (Hne t').
    + destruct (H5 _ _ Hi) as (Hc & t' & Ht' & E & En). split.
      * rewrite Hcn. intros [Hb|]; [|done]. destruct (H5 _ _ Hb) as (_ & t2 & Ht2 & E2 & En2).
        assert (t' = t2) as ->; [|congruence].
        apply (inv_unique l n bn cn); [by split|done|done|congruence].
      * exists t'. split; [by right|done].
  - intros i [Hb|Hc]%Hcn.
    + destruct (H5 _ _ Hb) as (_ & t' & Ht' & E & _). exists t'. split; [by right|done].
    + destruct (H6 _ Hc) as (t' & Ht' & E). exists t'. split; [by right|done].
Qed.

Lemma inv_weaken l n n' bn cn : inv l n bn cn → n <= n' → inv l n' bn cn.
Proof. intros [H1 H2 H3 H4 H5 H6] Hn. split; try done. intros t Ht. specialize (H2 t Ht). lia. Qed.

Lemma inv_cons_ids t l n bn cn t' : inv (t :: l) n bn cn → t' ∈ l → id t' ≠ id t.
Proof.
  intros [Hnd _ _ _ _ _] Ht' E. cbn in Hnd. apply NoDup_cons in Hnd as [Hnd _].
  apply Hnd. rewrite <- E. by apply list_elem_of_fmap_2.
Qed.

Lemma inv_pop_canceled t l n bn cn : inv (t :: l) n bn cn → id t ∈ cn →
  inv l n bn (cn ∖ {[id t]}).
Proof.
  intros Hi Ht. pose proof (λ t', inv_cons_ids t l n bn cn t' Hi) as Hne.
  destruct Hi as [H1 H2 H3 H4 H5 H6]. cbn in H1. apply NoDup_cons in H1 as [_ H1]. split.
  - done.
  - intros t' Ht'. apply H2. by right.
  - intros t' Ht'. apply H3. by right.
  - intros t' Ht'. specialize (Hne t' Ht'). destruct (H4 t' ltac:(by right)); [left; set_solver|by right].
  - intros nm i Hi. destruct (H5 nm i Hi) as (Hc & t' & [->|Ht']%elem_of_cons & E & En).
    + set_solver.
    + split; [set_solver|]. by exists t'.
  - intros i [Hc Hne']%elem_of_difference. destruct (H6 i Hc) as (t' & [->|Ht']%elem_of_cons & E).
    + set_solver.
    + by exists t'.
Qed.

Lemma inv_pop_current t l n bn cn : inv (t :: l) n bn cn → id t ∉ cn →
  bn !! name t = Some (id t) ∧ inv l n (delete (name t) bn) cn.
Proof.
  intros Hi Ht. pose proof (proj1 (inv_current _ _ _ _ t Hi ltac:(left)) Ht) as Hb.
  split; [done|]. pose proof (λ t', inv_cons_ids t l n bn cn t' Hi) as Hne.
  destruct Hi as [H1 H2 H3 H4 H5 H6]. cbn in H1. apply NoDup_cons in H1 as [_ H1]. split.
  - done.
  - intros t' Ht'. apply H2. by right.
  - intros t' Ht'. apply H3. by right.
  - intros t' Ht'. specialize (Hne t' Ht'). destruct (H4 t' ltac:(by right)) as [|Hb']; [by left|].
    right. rewrite lookup_delete_ne; [done|]. congruence.
  - intros nm i [Hnm Hi]%lookup_delete_Some. destruct (H5 nm i Hi) as (Hc & t' & Ht' & E & En).
    split; [done|]. apply elem_of_cons in Ht' as [->|Ht']; [by destruct Hnm|]. by exists t'.
  - intros i Hc. destruct (H6 i Hc) as (t' & [->|Ht']%elem_of_cons & E); [congruence|]. by exists t'.
Qed.

(** Cancelling some names. *)
Lemma inv_drop l n bn cn bn' cn' (drop : runes → Prop) :
  inv l n bn cn →
  (∀ nm i, bn' !! nm = Some i ↔ bn !! nm = Some i ∧ ¬ drop nm) →
  (∀ i, i ∈ cn' ↔ i ∈ cn ∨ ∃ nm, drop nm ∧ bn !! nm = Some i) →
  (∀ nm, Decision (drop nm)) → inv l n bn' cn'.
Proof.
  intros Hi Hbn Hcn Hdec. assert (H0 := Hi). destruct Hi as [H1 H2 H3 H4 H5 H6]. split; try done.
  - intros t Ht. rewrite Hcn, Hbn. destruct (H4 t Ht) as [|Hb]; [by left; left|].
    destruct (decide (drop (name t))); [left; right; by exists (name t)|by right].
  - intros nm i [Hb Hd]%Hbn. destruct (H5 nm i Hb) as (Hc & t & Ht & E & En). split; [|by exists t].
    rewrite Hcn. intros [|(nm' & Hd' & Hb')]; [done|].
    destruct (H5 _ _ Hb') as (_ & t' & Ht' & E' & En').
    assert (t = t') as -> by (apply (inv_unique l n bn cn); [done..|congruence]). congruence.
  - intros i [Hc|(nm & _ & Hb)]%Hcn; [by apply H6|]. destruct (H5 _ _ Hb) as (_ & t & Ht & E & _).
    by exists t.
Qed.

Lemma inv_map f l n bn cn : (∀ t, t ∈ l → id (f t) = id t ∧ name (f t) = name t ∧ task_ok (f t)) →
  inv l n bn cn → inv (f <$> l) n bn cn.
Proof.
  intros Hf [H1 H2 H3 H4 H5 H6]. split.
  - rewrite <- list_fmap_compose. erewrite list_fmap_ext; [exact H1|].
    intros i t Ht. cbn. apply Hf. by eapply list_elem_of_lookup_2.
  - intros t' (t & -> & Ht)%list_elem_of_fmap. destruct (Hf t Ht) as (-> & _ & _). by apply H2.
  - intros t' (t & -> & Ht)%list_elem_of_fmap. by apply Hf.
  - intros t' (t & -> & Ht)%list_elem_of_fmap. destruct (Hf t Ht) as (-> & -> & _). by apply H4.
  - intros nm i Hb. destruct (H5 nm i Hb) as (Hc & t & Ht & E & En). split; [done|].
    exists (f t). destruct (Hf t Ht) as (-> & -> & _). split; [by apply list_elem_of_fmap_2|done].
  - intros i Hc. destruct (H6 i Hc) as (t & Ht & E). exists (f t).
    destruct (Hf t Ht) as (-> & _ & _). split; [by apply list_elem_of_fmap_2|done].
Qed.

(** ** Accounting *)

Lemma inv_size (l : list task) : ∀ n bn cn, inv l n bn cn → length l = (size bn + size cn)%nat.
Proof.
  induction l as [|t l IH]; intros n bn cn Hi.
  - assert (bn = ∅) as ->.
    { apply map_eq. intros nm. rewrite lookup_empty. apply eq_None_not_Some. intros [i Hb].
      destruct (inv_named _ _ _ _ Hi _ _ Hb) as (_ & t & []%not_elem_of_nil & _). }
    assert (cn = ∅) as ->.
    { apply set_eq. intros i. split; [|set_solver]. intros Hc.
      destruct (inv_canceled _ _ _ _ Hi _ Hc) as (t & []%not_elem_of_nil & _). }
    done.
  - destruct (decide (id t ∈ cn)) as [Hc|Hc].
    + cbn. rewrite (IH _ _ _ (inv_pop_canceled _ _ _ _ _ Hi Hc)).
      rewrite (size_remove cn (id t)) by done. lia.
    + destruct (inv_pop_current _ _ _ _ _ Hi Hc) as [Hb Hi']. cbn. rewrite (IH _ _ _ Hi').
      rewrite map_size_delete_Some by (by rewrite Hb; eexists).
      assert (size bn ≠ 0)%nat by (rewrite map_size_non_empty_iff; intros ->; done). lia.
Qed.

(** ** Compaction *)

Lemma compact_loop_spec bn (l : list task) : ∀ cn, NoDup (id <$> l) →
  (∀ t, t ∈ l → (default 0 (bn !! name t) =? id t) = bool_decide (id t ∉ cn)) →
  compact_loop bn l cn = (filter (λ t : task, id t ∉ cn) l, cn ∖ list_to_set (id <$> l)).
Proof.
  induction l as [|t l IH]; intros cn Hnd Hcur; cbn [compact_loop].
  { cbn. f_equal. set_solver. }
  cbn in Hnd. apply NoDup_cons in Hnd as [Hnt Hnd].
  assert (∀ t', t' ∈ l → id t' ≠ id t) as Hne
    by (intros t' Ht' E; apply Hnt; rewrite <- E; by apply list_elem_of_fmap_2).
  rewrite (Hcur t) by left. rewrite filter_cons. cbn.
  destruct (decide (id t ∈ cn)) as [Hc|Hc].
  - rewrite bool_decide_eq_true_2 by done. rewrite decide_False by tauto.
    rewrite IH; [|done|].
    + f_equal; [|set_solver]. apply filter_ext_in. intros t' Ht'. specialize (Hne t' Ht'). set_solver.
    + intros t' Ht'. specialize (Hne t' Ht'). rewrite Hcur by (by right).
      apply bool_decide_ext. set_solver.
  - rewrite !bool_decide_eq_false_2 by tauto. rewrite bool_decide_eq_true_2 by done. cbn [negb].
    rewrite decide_True by done. rewrite IH; [|done|by intros; apply Hcur; right].
    f_equal. set_solver.
Qed.

Lemma inv_compact l n bn cn : inv l n bn cn →
  compact_loop bn l cn = (filter (λ t : task, id t ∉ cn) l, ∅)
  ∧ inv (filter (λ t : task, id t ∉ cn) l) n bn ∅.
Proof.
  intros Hi. split.
  - rewrite compact_loop_spec; [|apply Hi|intros t Ht; by eapply inv_is_current].
    f_equal. apply set_eq. intros i. rewrite elem_of_difference, elem_of_list_to_set.
    split; [|set_solver]. intros [Hc Hn]. destruct (inv_canceled _ _ _ _ Hi _ Hc) as (t & Ht & <-).
    destruct Hn. by apply list_elem_of_fmap_2.
  - assert (H0 := Hi). destruct Hi as [H1 H2 H3 H4 H5 H6]. split.
    + by apply NoDup_fmap_filter.
    + intros t [_ Ht]%list_elem_of_filter. auto.
    + intros t [_ Ht]%list_elem_of_filter. auto.
    + intros t [Hc Ht]%list_elem_of_filter. right. by eapply inv_current.
    + intros nm i Hb. destruct (H5 nm i Hb) as (Hc & t & Ht & E & En). split; [set_solver|].
      exists t. split; [|done]. apply list_elem_of_filter. by rewrite E.
    + set_solver.
Qed.

(** ** The abstract queue *)

Definition view_of (l : list task) (bn : gmap runes Z) : gmap runes task :=
  map_imap (λ _ i, snd <$> list_find (λ t : task, id t = i) l) bn.
Definition view (q : Service) : gmap runes task := view_of (items q) (byName q).

Lemma view_of_lookup l n bn cn nm t : inv l n bn cn →
  (view_of l bn !! nm = Some t ↔ t ∈ l ∧ name t = nm ∧ id t ∉ cn).
Proof.
  intros Hi. unfold view_of. rewrite map_lookup_imap. split.
  - destruct (bn !! nm) as [i|] eqn:Hb; [|done]. cbn.
    intros ([j t'] & Hf & E)%fmap_Some. cbn in E. subst t'. apply list_find_Some in Hf as (Hl & <- & _).
    destruct (inv_named _ _ _ _ Hi _ _ Hb) as (Hc & t' & Ht' & E & En).
    apply list_elem_of_lookup_2 in Hl. assert (t = t') as -> by (by eapply inv_unique). done.
  - intros (Ht & <- & Hc). apply (inv_current _ _ _ _ _ Hi Ht) in Hc as ->. cbn.
    destruct (list_find (λ t', id t' = id t) l) as [[j t']|] eqn:Hf; cbn.
    + apply list_find_Some in Hf as (Hl & E & _). apply list_elem_of_lookup_2 in Hl.
      f_equal. by eapply inv_unique.
    + apply list_find_None in Hf. exfalso.
      by apply (proj1 (Forall_forall _ _) Hf t Ht).
Qed.
(** The view does not see the order of the heap nor the cancelled tasks. *)
Lemma view_of_perm l l' n bn cn : inv l n bn cn → l ≡ₚ l' → view_of l bn = view_of l' bn.
Proof.
  intros Hi Hp. assert (inv l' n bn cn) as Hi' by (by rewrite <- Hp).
  apply map_eq. intros nm. apply option_eq. intros t.
  rewrite (view_of_lookup _ _ _ _ _ _ Hi), (view_of_lookup _ _ _ _ _ _ Hi'). by rewrite Hp.
Qed.

Lemma view_of_new l n bn cn t : inv l n bn cn → n < id t → 0 <= n → task_ok t →
  view_of (t :: l) (<[name t := id t]> bn) = <[name t := t]> (view_of l bn).
Proof.
  intros Hi Hn H0 Hok. pose proof (inv_new _ _ _ _ t Hi Hn H0 Hok) as Hi'.
  apply map_eq. intros nm. apply option_eq. intros t'.
  rewrite (view_of_lookup _ _ _ _ _ _ Hi'), lookup_insert_Some, (view_of_lookup _ _ _ _ _ _ Hi).
  assert (∀ x, x ∈ l → id x ≠ id t) as Hne.
  { intros x Hx. pose proof (inv_bound _ _ _ _ Hi x Hx). lia. }
  assert (∀ i, i ∈ (match bn !! name t with Some old => {[old]} ∪ cn | None => cn end : gset Z)
    ↔ bn !! name t = Some i ∨ i ∈ cn) as Hcn by (intros i; destruct (bn !! name t); set_solver).
  rewrite Hcn. split.
  - intros ([->|Ht']%elem_of_cons & <- & Hc); [by left|]. apply not_or_and in Hc as [Hb Hc].
    right. split; [|done]. intros E. apply Hb. rewrite E. by eapply inv_current.
  - intros [[<- <-]|(Hnm & Ht' & <- & Hc)].
    + split; [left|]. split; [done|]. intros [Hb|Hc].
      * destruct (inv_named _ _ _ _ Hi _ _ Hb) as (_ & x & Hx & E & _). by apply (Hne x).
      * destruct (inv_canceled _ _ _ _ Hi _ Hc) as (x & Hx & E). by apply (Hne x).
    + split; [by right|]. split; [done|]. intros [Hb|]; [|done].
      destruct (inv_named _ _ _ _ Hi _ _ Hb) as (_ & x & Hx & E & En).
      assert (t' = x) as -> by (eapply inv_unique; [exact Hi|done..]). congruence.
Qed.

Lemma view_of_pop_canceled t l n bn cn : inv (t :: l) n bn cn → id t ∈ cn →
  view_of (t :: l) bn = view_of l bn.
Proof.
  intros Hi Hc. pose proof (inv_pop_canceled _ _ _ _ _ Hi Hc) as Hi'.
  apply map_eq. intros nm. apply option_eq. intros t'.
  rewrite (view_of_lookup _ _ _ _ _ _ Hi), (view_of_lookup _ _ _ _ _ _ Hi'), elem_of_cons.
  split; [intros ([->|Ht] & En & Hn); [done|set_solver]|].
  intros (Ht & En & Hn). pose proof (inv_cons_ids _ _ _ _ _ _ Hi Ht). set_solver.
Qed.

Lemma view_of_pop_current t l n bn cn : inv (t :: l) n bn cn → id t ∉ cn →
  view_of (t :: l) bn !! name t = Some t
  ∧ view_of l (delete (name t) bn) = delete (name t) (view_of (t :: l) bn).
Proof.
  intros Hi Hc. destruct (inv_pop_current _ _ _ _ _ Hi Hc) as [Hb Hi']. split.
  { apply (view_of_lookup _ _ _ _ _ _ Hi). split; [left|done]. }
  apply map_eq. intros nm. apply option_eq. intros t'.
  rewrite lookup_delete_Some, (view_of_lookup _ _ _ _ _ _ Hi), (view_of_lookup _ _ _ _ _ _ Hi').
  rewrite elem_of_cons. split.
  - intros (Ht & <- & Hn). split_and!; [|by right|done|done]. intros E.
    apply (inv_current _ _ _ _ _ Hi') in Ht as Hcur. apply Hcur in Hn. rewrite <- E in Hn.
    by rewrite lookup_delete_eq in Hn.
  - intros (Hnm & [->|Ht] & <- & Hn); [done|]. done.
Qed.

Lemma view_of_drop (l : list task) n bn cn bn' (cn' : gset Z) (drop : runes → Prop) :
  inv l n bn cn →
  (∀ nm i, bn' !! nm = Some i ↔ bn !! nm = Some i ∧ ¬ drop nm) →
  (∀ i, i ∈ cn' ↔ i ∈ cn ∨ ∃ nm, drop nm ∧ bn !! nm = Some i) →
  (∀ nm, Decision (drop nm)) →
  ∀ nm t, view_of l bn' !! nm = Some t ↔ view_of l bn !! nm = Some t ∧ ¬ drop nm.
Proof.
  intros Hi Hbn Hcn Hdec nm t. pose proof (inv_drop _ _ _ _ _ _ drop Hi Hbn Hcn Hdec) as Hi'.
  rewrite (view_of_lookup _ _ _ _ _ _ Hi), (view_of_lookup _ _ _ _ _ _ Hi'), Hcn. split.
  - intros (Ht & <- & Hn). apply not_or_and in Hn as [Hn Hd]. split; [done|]. intros Hdr. apply Hd.
    exists (name t). split; [done|]. by eapply inv_current.
  - intros ((Ht & <- & Hn) & Hd). split_and!; [done..|]. intros [|(nm' & Hdr & Hb)]; [done|].
    destruct (inv_named _ _ _ _ Hi _ _ Hb) as (_ & x & Hx & E & En).
    assert (t = x) as -> by (eapply inv_unique; [exact Hi|done..]). congruence.
Qed.

Lemma view_of_map f l n bn cn : (∀ t, t ∈ l → id (f t) = id t ∧ name (f t) = name t ∧ task_ok (f t)) →
  inv l n bn cn → ∀ nm, view_of (f <$> l) bn !! nm = f <$> view_of l bn !! nm.
Proof.
  intros Hf Hi nm. pose proof (inv_map f _ _ _ _ Hf Hi) as Hi'. apply option_eq. intros t.
  rewrite (view_of_lookup _ _ _ _ _ _ Hi'), fmap_Some. split.
  - intros ((x & -> & Hx)%list_elem_of_fmap & En & Hc). destruct (Hf x Hx) as (E1 & E2 & _).
    exists x. split; [|done]. apply (view_of_lookup _ _ _ _ _ _ Hi). by rewrite <- E1, <- E2.
  - intros (x & (Hx & En & Hc)%(view_of_lookup _ _ _ _ _ _ Hi) & ->).
    destruct (Hf x Hx) as (E1 & E2 & _). rewrite E1, E2. split; [by apply list_elem_of_fmap_2|done].
Qed.
End invariant.
