(* ===== verification/TimeQueueSteps.v ===== *)
(** * The operations of the due-time queue

    The calendar, and what each operation does to the invariant and to the
    abstract queue: a new task replaces the one of its name, a cancellation
    removes it, and [takeDue] runs exactly the due tasks, in order. *)

From Stdlib Require Import Sorting.Sorted.
From S2P Require Import Prelude GoStrings GoHeap TimeQueue TimeQueueInvariant.

(** ** The calendar *)

Ltac unfold_time := unfold day_ns, hour_ns, minute_ns, second_ns in *.

Lemma local_day_bounds offset t :
  local_day offset t * day_ns <= t + offset < local_day offset t * day_ns + day_ns.
Proof.
  unfold local_day. pose proof (Z.div_mod (t + offset) day_ns ltac:(by unfold_time)).
  pose proof (Z.mod_pos_bound (t + offset) day_ns ltac:(by unfold_time)). lia.
Qed.

Lemma local_day_unique offset t d : d * day_ns <= t + offset < d * day_ns + day_ns →
  local_day offset t = d.
Proof.
  intros Hd. unfold local_day. symmetry. apply (Z.div_unique_pos _ _ _ (t + offset - d * day_ns)); lia.
Qed.

Section steps.
Context {Callback : Type}.
#[local] Abbreviation task := (task Callback).
#[local] Abbreviation Service := (Service Callback).

(** A moment has the clock [h:m:00] in a location. *)
Definition at_clock (offset h m t : Z) : Prop :=
  t + offset = local_day offset t * day_ns + h * hour_ns + m * minute_ns.

Lemma date_at_clock offset d h m : 0 <= h <= 23 → 0 <= m <= 59 →
  at_clock offset h m (date_at offset d h m) ∧ local_day offset (date_at offset d h m) = d.
Proof.
  intros Hh Hm. assert (local_day offset (date_at offset d h m) = d) as E.
  { apply local_day_unique. unfold date_at. unfold_time. lia. }
  split; [|done]. unfold at_clock. rewrite E. unfold date_at. lia.
Qed.

Lemma at_clock_date offset h m t : at_clock offset h m t →
  t = date_at offset (local_day offset t) h m.
Proof. unfold at_clock, date_at. lia. Qed.

Lemma nextMinute_spec now : now < nextMinute now <= now + minute_ns
  ∧ (nextMinute now - zero_time) mod minute_ns = 0.
Proof.
  unfold nextMinute, Truncate.
  pose proof (Z.mod_pos_bound (now - zero_time) minute_ns ltac:(by unfold_time)). split; [lia|].
  pose proof (Z.div_mod (now - zero_time) minute_ns ltac:(by unfold_time)).
  replace (now - (now - zero_time) mod minute_ns + minute_ns - zero_time)
    with (((now - zero_time) / minute_ns + 1) * minute_ns) by lia.
  apply Z.mod_mul. by unfold_time.
Qed.

Lemma nextDaily_future (q : Service) now h m : 0 <= h → 0 <= m → now < nextDaily q now h m.
Proof.
  intros Hh Hm. pose proof (local_day_bounds (location q) now). unfold nextDaily, date_at.
  destruct (now <? _) eqn:E; cbn [negb]; [by apply Z.ltb_lt in E|]. unfold_time. lia.
Qed.

Lemma nextDaily_spec (q : Service) now h m : 0 <= h <= 23 → 0 <= m <= 59 →
  now < nextDaily q now h m ∧ at_clock (location q) h m (nextDaily q now h m)
  ∧ ∀ t, now < t → at_clock (location q) h m t → nextDaily q now h m <= t.
Proof.
  intros Hh Hm. split; [apply nextDaily_future; lia|].
  pose proof (local_day_bounds (location q) now) as Hb. unfold nextDaily.
  set (d := local_day (location q) now) in *. pose proof (date_at_clock (location q) d h m Hh Hm) as [Hc _].
  pose proof (date_at_clock (location q) (d + 1) h m Hh Hm) as [Hc1 _].
  assert (date_at (location q) d h m + day_ns = date_at (location q) (d + 1) h m) as E1
    by (unfold date_at; lia).
  destruct (now <? _) eqn:E; cbn [negb]; bool_clean; rewrite ?E1; (split; [done|]);
    intros t Ht Hct; apply at_clock_date in Hct; set (dt := local_day (location q) t) in *;
    unfold date_at in *; unfold_time; nia.
Qed.

Lemma nextWeekly_future (q : Service) now wd h m : 0 <= h → 0 <= m → now < nextWeekly q now wd h m.
Proof.
  intros Hh Hm. pose proof (local_day_bounds (location q) now). unfold nextWeekly.
  destruct (now <? _) eqn:E; cbn [negb]; [by apply Z.ltb_lt in E|].
  pose proof (Z.rem_bound_abs (wd - local_weekday (location q) now + 7) 7). unfold date_at.
  unfold_time. lia.
Qed.

Lemma nextWeekly_spec (q : Service) now wd h m : 0 <= h <= 23 → 0 <= m <= 59 →
  let wd_at t := local_weekday (location q) t = wd mod 7 in
  now < nextWeekly q now wd h m ∧ at_clock (location q) h m (nextWeekly q now wd h m)
  ∧ wd_at (nextWeekly q now wd h m)
  ∧ ∀ t, now < t → at_clock (location q) h m t → wd_at t → nextWeekly q now wd h m <= t.
Proof.
  intros Hh Hm. cbn zeta. split; [apply nextWeekly_future; lia|].
  pose proof (local_day_bounds (location q) now) as Hb. unfold nextWeekly.
  set (days := Z.rem _ 7). set (d := local_day (location q) now) in *.
  assert (-6 <= days <= 6 ∧ (d + days + 4) mod 7 = wd mod 7) as [Hd Hw].
  { unfold local_weekday in days. fold d in days.
    pose proof (Z.rem_bound_abs (wd - (d + 4) mod 7 + 7) 7 ltac:(done)).
    pose proof (Z.quot_rem (wd - (d + 4) mod 7 + 7) 7 ltac:(done)) as Hq. fold days in H, Hq.
    split; [lia|]. set (k := Z.quot _ 7) in *. clearbody k days.
    pose proof (Z.div_mod (d + 4) 7 ltac:(done)).
    replace (d + days + 4) with (wd + ((d + 4) / 7 + 1 - k) * 7) by lia. apply Z.mod_add. done. }
  pose proof (date_at_clock (location q) (d + days) h m Hh Hm) as [Hc E0].
  pose proof (date_at_clock (location q) (d + days + 7) h m Hh Hm) as [Hc1 E1].
  assert ((d + days + 7 + 4) mod 7 = wd mod 7) as Hw1.
  { replace (d + days + 7 + 4) with (d + days + 4 + 1 * 7) by lia. by rewrite Z.mod_add. }
  unfold local_weekday. destruct (now <? _) eqn:E; cbn [negb]; bool_clean;
    rewrite ?E0, ?E1; (split; [done|]); (split; [done|]); intros t Ht Hct Hwt;
    apply at_clock_date in Hct; set (dt := local_day (location q) t) in *;
    pose proof (Z.div_mod (dt + 4) 7 ltac:(done)); pose proof (Z.div_mod (d + days + 4) 7 ltac:(done));
    set (a := (dt + 4) / 7) in *; set (b := (d + days + 4) / 7) in *;
    unfold date_at in *; unfold_time; nia.
Qed.

Lemma next_due_future (q : Service) now t : task_ok t → kind t ≠ kindOneShot →
  now < next_due q now t.
Proof.
  intros [Hh Hm] Hk. unfold next_due. destruct (kind t); [done|apply nextMinute_spec|..].
  - by apply nextDaily_future.
  - by apply nextWeekly_future.
Qed.
(** ** Single steps *)

Lemma u64_next n : 0 <= n → n + 1 < two64 → u64 (n + 1) = n + 1.
Proof. intros. apply Z.mod_small. lia. Qed.

#[local] Hint Resolve Less_asym Less_le_trans : core.

(** A queue whose heap is a permutation of a list that satisfies the
    invariant, with the view of that list. *)
Lemma wf_view_perm (q : Service) l : heap Less (items q) → items q ≡ₚ l →
  inv l (nextID q) (byName q) (canceled q) → 0 <= nextID q < two64 →
  wf q ∧ view q = view_of l (byName q).
Proof.
  intros Hh Hp Hi Hn. split.
  - split; [done|by rewrite Hp|done].
  - unfold view. symmetry. by eapply view_of_perm.
Qed.

Lemma wf_signal (q : Service) : wf q → wf (signalLocked q).
Proof. intros [H1 H2 H3]. split; [exact H1|exact H2|exact H3]. Qed.

Lemma compact_ok (q : Service) : wf q →
  wf (compactLocked q) ∧ view (compactLocked q) = view q
  ∧ nextID (compactLocked q) = nextID q ∧ location (compactLocked q) = location q
  ∧ lastNow (compactLocked q) = lastNow q ∧ staleThreshold (compactLocked q) = staleThreshold q
  ∧ (0 < staleThreshold q → Z.of_nat (size (canceled (compactLocked q))) < staleThreshold q)
  ∧ ∀ t, t ∈ items (compactLocked q) → t ∈ items q.
Proof.
  intros Hwf. unfold compactLocked. destruct (_ <? _) eqn:E; bool_clean; [by split_and!|].
  destruct (inv_compact _ _ _ _ (wf_inv _ Hwf)) as [Ec Hi]. rewrite Ec.
  set (l := filter _ _) in *.
  destruct (wf_view_perm (set_canceled (set_items q (heap_init Less l)) ∅) l) as [H1 H2].
  - apply heap_init_heap; eauto.
  - apply heap_init_perm.
  - exact Hi.
  - apply Hwf.
  - split; [done|]. split; [|split_and!; [done..| |]].
    + rewrite H2. cbn [byName set_canceled set_items]. apply map_eq. intros nm. apply option_eq.
      intros t. unfold view. rewrite (view_of_lookup _ _ _ _ _ _ Hi),
        (view_of_lookup _ _ _ _ _ _ (wf_inv _ Hwf)). subst l. rewrite list_elem_of_filter.
      set_solver.
    + cbn. rewrite size_empty. lia.
    + intros t. cbn [items set_canceled set_items]. rewrite heap_init_perm. subst l.
      rewrite list_elem_of_filter. tauto.
Qed.

Lemma addTask_ok (q : Service) t q' h : wf q → nextID q + 1 < two64 → task_ok t →
  addTask q t true = (q', h) →
  wf q' ∧ view q' = <[name t := with_id t (nextID q + 1)]> (view q)
  ∧ nextID q' = nextID q + 1 ∧ h = mkHandle (name t) (nextID q + 1)
  ∧ location q' = location q ∧ lastNow q' = lastNow q ∧ staleThreshold q' = staleThreshold q
  ∧ (0 < staleThreshold q → Z.of_nat (size (canceled q')) < staleThreshold q).
Proof.
  intros Hwf Hn Hok. unfold addTask. pose proof (wf_next _ Hwf) as Hn0. cbn [nextID set_nextID].
  rewrite u64_next by lia.
  set (t' := with_id t (nextID q + 1)). intros [= <- <-].
  match goal with |- context [compactLocked ?x] => set (q1 := x) end.
  assert (q1 = mkService (location q) (staleThreshold q) (nextID q + 1) (heap_push Less (items q) t')
    (<[name t' := id t']> (byName q))
    (match byName q !! name t' with Some old => {[old]} ∪ canceled q | None => canceled q end)
    (lastNow q) (wake q)) as E1 by (subst q1; cbn; destruct (byName q !! name t); done).
  clearbody q1. assert (byName q1 = <[name t' := id t']> (byName q)
    ∧ location q1 = location q ∧ staleThreshold q1 = staleThreshold q
    ∧ nextID q1 = nextID q + 1 ∧ lastNow q1 = lastNow q) as (Eb & El & Es & En & Ew) by (by rewrite E1).
  pose proof (wf_inv _ Hwf) as Hi.
  assert (nextID q < id t') as Hlt by (cbn; lia).
  assert (0 <= nextID q) as H0 by lia.
  destruct (wf_view_perm q1 (t' :: items q)) as [H1 H2].
  - rewrite E1. apply heap_push_heap; [eauto..|apply Hwf].
  - rewrite E1. apply heap_push_perm.
  - rewrite E1. exact (inv_new _ _ _ _ t' Hi Hlt H0 Hok).
  - lia.
  - destruct (compact_ok q1 H1) as (C1 & C2 & C3 & C4 & C5 & C6 & C7 & C8).
    rewrite H2, Eb, (view_of_new _ _ _ _ t' Hi Hlt H0 Hok) in C2.
    split; [by apply wf_signal|]. split; [exact C2|]. split; [exact (eq_trans C3 En)|].
    split; [done|]. split; [exact (eq_trans C4 El)|]. split; [exact (eq_trans C5 Ew)|].
    split; [exact (eq_trans C6 Es)|]. rewrite <- Es. exact C7.
Qed.

Lemma cancel_ok (q q' : Service) (drop : runes → Prop) `{!∀ nm, Decision (drop nm)} : wf q →
  items q' = items q → nextID q' = nextID q →
  (∀ nm i, byName q' !! nm = Some i ↔ byName q !! nm = Some i ∧ ¬ drop nm) →
  (∀ i, i ∈ canceled q' ↔ i ∈ canceled q ∨ ∃ nm, drop nm ∧ byName q !! nm = Some i) →
  wf q' ∧ ∀ nm t, view q' !! nm = Some t ↔ view q !! nm = Some t ∧ ¬ drop nm.
Proof.
  intros [Hh Hi Hn] E1 E2 Hbn Hcn. split.
  - split; rewrite ?E1, ?E2; [done| |done]. by apply (inv_drop _ _ _ _ _ _ drop Hi).
  - unfold view. rewrite E1. by apply (view_of_drop _ _ _ _ _ (canceled q') drop Hi).
Qed.

Lemma cancel_id_ok (q : Service) nm i : wf q → byName q !! nm = Some i →
  wf (cancel_id q nm i) ∧ view (cancel_id q nm i) = delete nm (view q).
Proof.
  intros Hwf Hb. destruct (cancel_ok q (cancel_id q nm i) (λ x, x = nm) Hwf) as [H1 H2]; [done|done|..].
  - intros nm' j. cbn. rewrite lookup_delete_Some. split; [|intros [? ?]; split; congruence].
    intros [? ?]. split; congruence.
  - intros j. cbn. rewrite elem_of_union, elem_of_singleton. split.
    + intros [->|]; [right; by exists nm|by left].
    + intros [|(nm' & -> & Hj)]; [by right|left; congruence].
  - split; [done|]. apply map_eq. intros nm'. apply option_eq. intros t.
    rewrite H2, lookup_delete_Some. split; intros [? ?]; split; congruence.
Qed.

Lemma heap_top (q : Service) t l0 : items q = t :: l0 → wf q →
  ∃ l, heap_pop Less (items q) = Some (t, l) ∧ t :: l ≡ₚ items q ∧ heap Less l
    ∧ ∀ t', t' ∈ l → Less t t' = true.
Proof.
  intros El Hwf. destruct (heap_pop_some Less (items q)) as [[x l] Hp]; [by rewrite El|].
  destruct (heap_pop_spec Less ltac:(eauto) ltac:(eauto) _ _ _ (wf_heap _ Hwf) Hp)
    as (Hperm & Hh & H0 & Hmin).
  rewrite El in H0. cbn in H0. injection H0 as <-. exists l. split_and!; [done..|].
  intros t' Ht'. apply Less_total.
  - apply Hmin. rewrite <- Hperm. by right.
  - pose proof (wf_inv _ Hwf) as Hi. rewrite <- Hperm in Hi.
    intros E. by apply (inv_cons_ids _ _ _ _ _ _ Hi Ht').
Qed.
(** ** The loop of [takeDue] *)

Definition is_due (now : Z) (t : task) : Prop := due t <= now.
#[export] Instance is_due_dec now t : Decision (is_due now t).
Proof. unfold is_due. apply _. Defined.

Definition due_count (now : Z) (l : list task) : nat := length (filter (is_due now) l).

(** What running a task does to the counter and the abstract queue. *)
Definition run_task (q : Service) (now : Z) (a : Z * gmap runes task) (t : task)
    : Z * gmap runes task :=
  if is_one_shot (kind t) then (a.1, delete (name t) a.2)
  else (a.1 + 1, <[name t := with_due (with_id t (a.1 + 1)) (next_due q now t)]> a.2).

(** The outcome of the loop from [q]: it ends in [q'] having collected [cbs]. *)
Record drained (q : Service) (now : Z) (q' : Service) (cbs : list task) : Prop := {
  drained_wf : wf q';
  drained_same : location q' = location q ∧ lastNow q' = lastNow q
    ∧ staleThreshold q' = staleThreshold q;
  drained_sorted : StronglySorted (λ a b, Less a b = true) cbs;
  drained_due : ∀ t, t ∈ cbs ↔ due t <= now ∧ view q !! name t = Some t;
  drained_view : (nextID q', view q') = foldl (run_task q now) (nextID q, view q) cbs;
  drained_rest : ∀ t, t ∈ items q' → now < due t
}.

Lemma due_count_cons now t l : due t <= now → due_count now (t :: l) = S (due_count now l).
Proof. intros H. unfold due_count. by rewrite filter_cons_True. Qed.

Lemma due_count_perm now l l' : l ≡ₚ l' → due_count now l = due_count now l'.
Proof. intros Hp. unfold due_count. by rewrite Hp. Qed.

Lemma next_due_loc (q q' : Service) now t : location q' = location q →
  next_due q' now t = next_due q now t.
Proof. intros E. unfold next_due, nextDaily, nextWeekly. by rewrite E. Qed.

Lemma run_task_loc (q q' : Service) now : location q' = location q →
  ∀ cbs a, foldl (run_task q' now) a cbs = foldl (run_task q now) a cbs.
Proof.
  intros E cbs. induction cbs as [|t cbs IH]; intros a; cbn; [done|]. rewrite IH. f_equal.
  unfold run_task. by rewrite (next_due_loc q q').
Qed.

(** Nothing is due. *)
Lemma drained_done (q : Service) now : wf q → (∀ t, t ∈ items q → now < due t) →
  drained q now q [].
Proof.
  intros Hwf Hd. split; [done|done|constructor| |done|done].
  intros t. split; [by intros ?%not_elem_of_nil|].
  intros [Ht (Hin & _)%(view_of_lookup _ _ _ _ _ _ (wf_inv _ Hwf))]. specialize (Hd t Hin). lia.
Qed.

(** A cancelled task is dropped. *)
Lemma drained_stale (q q1 q' : Service) now cbs : drained q1 now q' cbs → view q1 = view q →
  nextID q1 = nextID q → location q1 = location q → lastNow q1 = lastNow q →
  staleThreshold q1 = staleThreshold q → drained q now q' cbs.
Proof.
  intros [D1 (S1 & S2 & S3) D3 D4 D5 D6] E1 E2 E3 E4 E5. split; try done.
  - split_and!; congruence.
  - intros t. by rewrite D4, E1.
  - rewrite D5, E2, E1. by apply run_task_loc.
Qed.

(** The least task is current: it is run. *)
Lemma drained_run (q q1 q' : Service) now t cbs : drained q1 now q' cbs → due t <= now →
  view q !! name t = Some t →
  (nextID q1, view q1) = run_task q now (nextID q, view q) t →
  (∀ t', view q !! name t' = Some t' → id t' ≠ id t → Less t t' = true) →
  (∀ t', view q !! name t' = Some t' → id t' = id t → t' = t) →
  (kind t ≠ kindOneShot → now < next_due q now t) →
  location q1 = location q → lastNow q1 = lastNow q → staleThreshold q1 = staleThreshold q →
  drained q now q' (t :: cbs).
Proof.
  intros [D1 (S1 & S2 & S3) D3 D4 D5 D6] Hd Hv Ev Hmin Hun Hfut E3 E4 E5.
  assert (∀ t', due t' <= now → (view q1 !! name t' = Some t' ↔ view q !! name t' = Some t' ∧ id t' ≠ id t))
    as Hv1.
  { intros t' Hd'. unfold run_task in Ev. destruct (is_one_shot (kind t)) eqn:Ek; cbn [fst snd] in Ev;
      injection Ev as _ ->.
    - rewrite lookup_delete_Some. split.
      + intros [Hne Hv']. split; [done|]. intros E. apply Hne. f_equal. symmetry. by apply Hun.
      + intros [Hv' Hne]. split; [|done]. intros E. rewrite <- E in Hv'. congruence.
    - unfold is_one_shot in Ek. apply bool_decide_eq_false_1 in Ek. specialize (Hfut Ek).
      rewrite lookup_insert_Some. split.
      + intros [[_ <-]|[Hne Hv']]; [cbn in Hd'; lia|]. split; [done|]. intros E. apply Hne. f_equal.
        symmetry. by apply Hun.
      + intros [Hv' Hne]. right. split; [|done]. intros E. rewrite <- E in Hv'. congruence. }
  split; try done.
  - split_and!; congruence.
  - constructor; [done|]. apply Forall_forall. intros t' [Hd' Hv']%D4. apply Hv1 in Hv' as [? ?]; auto.
  - intros t'. rewrite elem_of_cons, D4. split.
    + intros [->|[Hd' Hv']]; [done|]. apply Hv1 in Hv' as [? ?]; auto.
    + intros [Hd' Hv']. destruct (decide (id t' = id t)) as [Ei|Ei]; [left; by apply Hun|].
      right. split; [done|]. by apply Hv1.
  - cbn [foldl]. rewrite <- Ev, D5. by apply run_task_loc.
Qed.
Lemma reschedule_ok (q q1 : Service) t l now : wf q → t :: l ≡ₚ items q → id t ∉ canceled q →
  heap Less l → kind t ≠ kindOneShot → nextID q + 1 < two64 →
  q1 = rescheduleRecurringLocked (set_items q l) t now →
  wf q1 ∧ (nextID q1, view q1) = run_task q now (nextID q, view q) t
  ∧ items q1 ≡ₚ with_due (with_id t (nextID q + 1)) (next_due q now t) :: l
  ∧ location q1 = location q ∧ lastNow q1 = lastNow q ∧ staleThreshold q1 = staleThreshold q.
Proof.
  intros Hwf Hp Hc Hh Hk Hn ->. pose proof (wf_next _ Hwf) as Hn0.
  assert (inv (t :: l) (nextID q) (byName q) (canceled q)) as Hi
    by (rewrite Hp; apply Hwf).
  destruct (inv_pop_current _ _ _ _ _ Hi Hc) as [Hb Hi'].
  destruct (view_of_pop_current _ _ _ _ _ Hi Hc) as [_ Hv'].
  unfold rescheduleRecurringLocked. cbn [nextID set_nextID set_items]. rewrite u64_next by lia.
  set (t' := with_due _ _).
  assert (t' = with_due (with_id t (nextID q + 1)) (next_due q now t)) as Et by done.
  assert (task_ok t') as Hok by exact (inv_ok _ _ _ _ Hi t ltac:(left)).
  match goal with |- wf ?x ∧ _ => set (q2 := x) end.
  assert (inv (t' :: l) (nextID q + 1) (<[name t := nextID q + 1]> (byName q)) (canceled q)) as Hi2.
  { pose proof (inv_new _ _ _ _ t' Hi' ltac:(cbn; lia) ltac:(lia) Hok) as Hx.
    change (name t') with (name t) in Hx. change (id t') with (nextID q + 1) in Hx.
    by rewrite lookup_delete_eq, insert_delete_eq in Hx. }
  destruct (wf_view_perm q2 (t' :: l)) as [H1 H2].
  - apply heap_push_heap; eauto.
  - apply heap_push_perm.
  - exact Hi2.
  - cbn. lia.
  - split; [done|]. split; [|split; [apply heap_push_perm|done]].
    rewrite H2. unfold run_task, is_one_shot. rewrite bool_decide_eq_false_2 by done. cbn [fst snd].
    f_equal. rewrite <- Et. cbn [byName q2 set_items set_byName set_nextID].
    change (view q) with (view_of (items q) (byName q)).
    rewrite <- (view_of_perm _ _ _ _ _ Hi Hp).
    pose proof (view_of_new _ _ _ _ t' Hi' ltac:(cbn; lia) ltac:(lia) Hok) as Hx.
    change (name t') with (name t) in Hx. change (id t') with (nextID q + 1) in Hx.
    rewrite insert_delete_eq, Hv', insert_delete_eq in Hx. exact Hx.
Qed.

Lemma one_shot_ok (q q1 : Service) t l now : wf q → t :: l ≡ₚ items q → id t ∉ canceled q →
  heap Less l → kind t = kindOneShot → q1 = set_byName (set_items q l) (delete (name t) (byName q)) →
  wf q1 ∧ (nextID q1, view q1) = run_task q now (nextID q, view q) t.
Proof.
  intros Hwf Hp Hc Hh Hk ->.
  assert (inv (t :: l) (nextID q) (byName q) (canceled q)) as Hi by (rewrite Hp; apply Hwf).
  destruct (inv_pop_current _ _ _ _ _ Hi Hc) as [Hb Hi'].
  destruct (view_of_pop_current _ _ _ _ _ Hi Hc) as [_ Hv'].
  destruct (wf_view_perm (set_byName (set_items q l) (delete (name t) (byName q))) l) as [H1 H2];
    [done|done|exact Hi'|apply Hwf|].
  split; [done|]. rewrite H2. unfold run_task, is_one_shot.
  rewrite bool_decide_eq_true_2 by done. cbn [nextID set_byName set_items byName fst snd]. f_equal.
  rewrite Hv'. change (view q) with (view_of (items q) (byName q)).
  by rewrite (view_of_perm _ _ _ _ _ Hi Hp).
Qed.

Lemma popped_stale_ok (q q1 : Service) t l : wf q → t :: l ≡ₚ items q → id t ∈ canceled q →
  heap Less l → q1 = set_canceled (set_items q l) (canceled q ∖ {[id t]}) →
  wf q1 ∧ view q1 = view q.
Proof.
  intros Hwf Hp Hc Hh ->.
  assert (inv (t :: l) (nextID q) (byName q) (canceled q)) as Hi by (rewrite Hp; apply Hwf).
  destruct (wf_view_perm (set_canceled (set_items q l) (canceled q ∖ {[id t]})) l) as [H1 H2];
    [done|done|by apply inv_pop_canceled|apply Hwf|].
  split; [done|]. rewrite H2. cbn [byName set_canceled set_items].
  rewrite <- (view_of_pop_canceled _ _ _ _ _ Hi Hc). change (view q) with (view_of (items q) (byName q)).
  by apply (view_of_perm _ _ _ _ _ Hi).
Qed.

Lemma take_loop_ok now fuel : ∀ (q : Service) acc, wf q → (due_count now (items q) < fuel)%nat →
  nextID q + Z.of_nat (due_count now (items q)) < two64 →
  ∃ q' cbs, take_loop fuel q now acc = Some (q', acc ++ cbs) ∧ drained q now q' cbs.
Proof.
  induction fuel as [|fuel IH]; intros q acc Hwf Hf Hn; [lia|]. cbn [take_loop].
  destruct (items q) as [|t l0] eqn:El.
  { exists q, []. rewrite app_nil_r. split; [done|]. apply drained_done; [done|].
    rewrite El. by intros t ?%not_elem_of_nil. }
  destruct (heap_top q t l0 El Hwf) as (l & Hpop & Hp & Hh & Hmin). rewrite El in Hpop, Hp.
  destruct (now <? due t) eqn:Ed; bool_clean.
  { exists q, []. rewrite app_nil_r. split; [done|]. apply drained_done; [done|].
    rewrite El. intros t'. rewrite <- Hp, elem_of_cons. intros [->|Ht']; [done|].
    specialize (Hmin t' Ht'). apply Less_true in Hmin. lia. }
  rewrite Hpop. cbn [mbind option_bind]. rewrite <- (due_count_perm _ _ _ Hp) in Hf, Hn.
  rewrite due_count_cons in Hf, Hn by done. rewrite <- El in Hp.
  unfold isCanceledLocked. cbn [canceled set_items].
  destruct (bool_decide (id t ∈ canceled q)) eqn:Ec; bool_clean.
  - destruct (popped_stale_ok q _ t l Hwf Hp Ec Hh eq_refl) as [H1 H2].
    destruct (IH _ acc H1) as (q' & cbs & E & Hd); [cbn [items set_canceled set_items]; lia|cbn [items nextID set_canceled set_items]; lia|].
    exists q', cbs. split; [exact E|]. by eapply drained_stale.
  - assert (inv (t :: l) (nextID q) (byName q) (canceled q)) as Hi by (rewrite Hp; apply Hwf).
    assert (is_current (set_items q l) t = true) as ->.
    { unfold is_current. cbn [byName set_items]. rewrite (inv_is_current _ _ _ _ _ Hi) by left.
      by apply bool_decide_eq_true. }
    assert (∀ t', view q !! name t' = Some t' → t' ∈ t :: l) as Hin.
    { intros t' (Ht' & _)%(view_of_lookup _ _ _ _ _ _ (wf_inv _ Hwf)). by rewrite Hp. }
    assert (view q !! name t = Some t) as Hv.
    { apply (view_of_lookup _ _ _ _ _ _ (wf_inv _ Hwf)). split_and!; [|done..]. rewrite <- Hp. left. }
    assert (∀ q1 : Service, wf q1 → (nextID q1, view q1) = run_task q now (nextID q, view q) t →
      (due_count now (items q1) < fuel)%nat →
      nextID q1 + Z.of_nat (due_count now (items q1)) < two64 →
      (kind t ≠ kindOneShot → now < next_due q now t) →
      location q1 = location q → lastNow q1 = lastNow q → staleThreshold q1 = staleThreshold q →
      ∃ q' cbs, take_loop fuel q1 now (acc ++ [t]) = Some (q', acc ++ cbs) ∧ drained q now q' cbs)
      as Hnext.
    { intros q1 H1 Hr Hf1 Hn1 Hfut E1 E2 E3. destruct (IH q1 (acc ++ [t]) H1 Hf1 Hn1) as (q' & cbs & E & Hd).
      exists q', (t :: cbs). rewrite E, <- app_assoc. split; [done|].
      apply (drained_run q q1); try done.
      - intros t' Hv' Hne. apply Hin, elem_of_cons in Hv' as [->|]; [done|auto].
      - intros t' Hv' Eid. apply Hin in Hv'. by apply (inv_unique _ _ _ _ _ _ Hi); [|left|]. }
    cbn [negb]. destruct (is_one_shot (kind t)) eqn:Ek; unfold is_one_shot in Ek; bool_clean.
    + destruct (one_shot_ok q _ t l now Hwf Hp Ec Hh Ek eq_refl) as [H1 H2].
      apply Hnext; [done|done|cbn [items set_byName set_items]; lia
        |cbn [nextID items set_byName set_items]; lia|done|done|done|done].
    + destruct (reschedule_ok q _ t l now Hwf Hp Ec Hh Ek ltac:(lia) eq_refl)
        as (H1 & H2 & Hp1 & E1 & E2 & E3).
      assert (now < next_due q now t) as Hfut
        by (apply next_due_future; [apply (inv_ok _ _ _ _ Hi); left|done]).
      assert (due_count now (items (rescheduleRecurringLocked (set_items q l) t now)) = due_count now l)
        as Edc.
      { rewrite (due_count_perm _ _ _ Hp1). unfold due_count. rewrite filter_cons_False; [done|].
        unfold is_due. cbn. lia. }
      assert (nextID (rescheduleRecurringLocked (set_items q l) t now) = nextID q + 1) as En.
      { unfold run_task, is_one_shot in H2. rewrite bool_decide_eq_false_2 in H2 by done.
        by injection H2. }
      apply Hnext; [done|exact H2|rewrite Edc; lia|rewrite Edc, En; lia|done|done|done|done].
Qed.
End steps.
