(* ===== verification/TimeQueueTheorems.v ===== *)
(** * What the due-time queue guarantees

    The operations of the queue as a transition system, its invariant, and the
    properties of the reachable queues. *)

From Stdlib Require Import Sorting.Sorted.
From S2P Require Import Prelude GoStrings GoHeap TimeQueue TimeQueueInvariant TimeQueueSteps.

Lemma filter_none {A} (P : A → Prop) `{!∀ x, Decision (P x)} (l : list A) :
  (∀ x, x ∈ l → ¬ P x) → filter P l = [].
Proof.
  induction l as [|x l IH]; intros Hn; [done|]. rewrite filter_cons_False by (apply Hn; left).
  apply IH. intros y Hy. apply Hn. by right.
Qed.

Section theorems.
Context {Callback : Type}.
#[local] Abbreviation task := (task Callback).
#[local] Abbreviation Service := (Service Callback).

(** ** The transition system *)

Inductive tq_op :=
| OpScheduleAt (nm : runes) (d : Z) (cb : option Callback)
| OpScheduleAfter (clock : Z) (nm : runes) (delay : Z) (cb : option Callback)
| OpRegisterMinute (clock : Z) (nm : runes) (cb : option Callback)
| OpRegisterDaily (clock : Z) (nm : runes) (h m : Z) (cb : option Callback)
| OpRegisterWeekly (clock : Z) (nm : runes) (wd h m : Z) (cb : option Callback)
| OpCancel (nm : runes)
| OpHandleCancel (h : Handle)
| OpCancelPrefix (pre : runes)
| OpTakeDue (now : Z)
| OpNextDelay (now : Z).

(** The next queue and the tasks that are run. *)
Definition apply_op (q : Service) (op : tq_op) : option (Service * list task) :=
  match op with
  | OpScheduleAt nm d cb => Some ((ScheduleAt q nm d cb).1, [])
  | OpScheduleAfter clock nm delay cb => Some ((ScheduleAfter q clock nm delay cb).1, [])
  | OpRegisterMinute clock nm cb => Some ((RegisterMinute q clock nm cb).1, [])
  | OpRegisterDaily clock nm h m cb => Some ((RegisterDaily q clock nm h m cb).1, [])
  | OpRegisterWeekly clock nm wd h m cb => Some ((RegisterWeekly q clock nm wd h m cb).1, [])
  | OpCancel nm => Some ((Cancel q nm).1, [])
  | OpHandleCancel h => Some ((HandleCancel q h).1, [])
  | OpCancelPrefix prefix => Some ((CancelPrefix q prefix).1, [])
  | OpTakeDue now => takeDue q now
  | OpNextDelay now => Some ((nextDelay q now).1, [])
  end.

(** The identifiers an operation may take are below 2^64: at one per
    nanosecond they last for five centuries. *)
Definition ids_left (q : Service) : Prop := nextID q + zlen (items q) + 1 < two64.

Definition tq_step (q q' : Service) : Prop :=
  ids_left q ∧ ∃ op ran, apply_op q op = Some (q', ran).

Definition tq_reachable (q : Service) : Prop :=
  ∃ loc threshold, star tq_step (New loc threshold) q.

(** ** Every operation *)

Lemma new_queue_wf loc threshold : wf (New (Callback := Callback) loc threshold).
Proof.
  split.
  - intros p c a b _ _ Hc. cbn in Hc. lia.
  - split; try (intros ? []%not_elem_of_nil); [constructor|..].
    + intros nm i Hb. cbn [byName New] in Hb. by rewrite lookup_empty in Hb.
    + intros i Hc. cbn [canceled New] in Hc. by apply not_elem_of_empty in Hc.
  - cbn. unfold two64. lia.
Qed.

(** A registration either fails and changes nothing, or adds its task. *)
Definition added (q q' : Service) (t : task) (h : Handle) : Prop :=
  wf q' ∧ view q' = <[name t := with_id t (nextID q + 1)]> (view q)
  ∧ nextID q' = nextID q + 1 ∧ h = mkHandle (name t) (nextID q + 1)
  ∧ location q' = location q ∧ lastNow q' = lastNow q ∧ staleThreshold q' = staleThreshold q
  ∧ (0 < staleThreshold q → Z.of_nat (size (canceled q')) < staleThreshold q).

Lemma register_cases (q : Service) op q' ran : wf q → nextID q + 1 < two64 →
  apply_op q op = Some (q', ran) →
  match op with
  | OpScheduleAt nm _ _ | OpScheduleAfter _ nm _ _ | OpRegisterMinute _ nm _
  | OpRegisterDaily _ nm _ _ _ | OpRegisterWeekly _ nm _ _ _ _ =>
      ran = [] ∧ (q' = q ∨ ∃ t h, name t = TrimSpace nm ∧ added q q' t h)
  | _ => True
  end.
Proof.
  intros Hwf Hn. destruct op; cbn [apply_op]; try done; intros [= <- <-]; (split; [done|]);
    unfold ScheduleAfter, ScheduleAt, RegisterMinute, RegisterDaily, RegisterWeekly;
    (destruct (validate nm cb) as [cb'| |] eqn:Ev; [|by left|by left]);
    try (destruct (invalid_moment h m) eqn:Em; [by left|];
         unfold invalid_moment in Em; bool_clean);
    match goal with |- context [addTask q ?t true] =>
      destruct (addTask q t true) as [q1 h1] eqn:Ea; right; exists t, h1 end;
    (split; [done|]); (apply (addTask_ok q); [done|done|unfold task_ok; cbn; lia|done]).
Qed.

Lemma canceled_name_ok (q : Service) nm i q' : wf q → byName q !! nm = Some i →
  q' = signalLocked (cancel_id q nm i) → wf q' ∧ view q' = delete nm (view q).
Proof.
  intros Hwf Hb ->. destruct (cancel_id_ok q nm i Hwf Hb) as [H1 H2].
  split; [by apply wf_signal|exact H2].
Qed.

(** A cancellation removes some names from the abstract queue. *)
Lemma Cancel_ok (q : Service) nm : wf q →
  wf (Cancel q nm).1
  ∧ view (Cancel q nm).1 = (if (Cancel q nm).2 then delete (TrimSpace nm) (view q) else view q).
Proof.
  intros Hwf. unfold Cancel. destruct (bool_decide _); [done|].
  destruct (byName q !! TrimSpace nm) as [i|] eqn:Hb; [|done]. cbn [fst snd].
  by eapply canceled_name_ok.
Qed.

(** A cancellation by handle removes the task of that name if it still has the
    identifier of the handle. *)
Lemma HandleCancel_ok (q : Service) h : wf q →
  wf (HandleCancel q h).1
  ∧ view (HandleCancel q h).1
    = (if (HandleCancel q h).2 then delete (handle_name h) (view q) else view q)
  ∧ ((HandleCancel q h).2 = true ↔ ∃ t, view q !! handle_name h = Some t ∧ id t = handle_id h).
Proof.
  intros Hwf. pose proof (wf_inv _ Hwf) as Hi. unfold HandleCancel, cancelHandle.
  assert (∀ t, view q !! handle_name h = Some t → byName q !! handle_name h = Some (id t)) as Hv.
  { intros t (Ht & <- & Hc)%(view_of_lookup _ _ _ _ _ _ Hi). by eapply inv_current. }
  destruct (handle_id h =? 0) eqn:E0; bool_clean.
  { split; [done|]. split; [done|]. split; [done|]. intros (t & Ht & E).
    apply (view_of_lookup _ _ _ _ _ _ Hi) in Ht as (Ht & _ & _).
    pose proof (inv_bound _ _ _ _ Hi t Ht). lia. }
  destruct (byName q !! handle_name h) as [i|] eqn:Hb.
  - change (default 0 (Some i)) with i. destruct (i =? handle_id h) eqn:Ei; cbn [negb fst snd]; bool_clean.
    + subst i. destruct (canceled_name_ok q _ _ _ Hwf Hb eq_refl) as [H1 H2].
      split; [done|]. split; [done|]. split; [|done]. intros _.
      destruct (inv_named _ _ _ _ Hi _ _ Hb) as (Hc & t & Ht & E & En). exists t.
      split; [|done]. apply (view_of_lookup _ _ _ _ _ _ Hi). by rewrite E.
    + split; [done|]. split; [done|]. split; [done|]. intros (t & Ht & E).
      apply Hv in Ht. congruence.
  - change (default 0 None) with 0. rewrite (proj2 (Z.eqb_neq 0 _)) by congruence.
    cbn [negb fst snd]. split; [done|]. split; [done|]. split; [done|]. intros (t & Ht & E). apply Hv in Ht. congruence.
Qed.

Definition prefix_hit (prefix nm : runes) : Prop := TrimSpace prefix ≠ [] ∧ TrimSpace prefix `prefix_of` nm.
#[export] Instance prefix_hit_dec prefix nm : Decision (prefix_hit prefix nm).
Proof. unfold prefix_hit. apply _. Defined.

Lemma CancelPrefix_ok (q : Service) prefix : wf q →
  wf (CancelPrefix q prefix).1
  ∧ ∀ nm t, view (CancelPrefix q prefix).1 !! nm = Some t
      ↔ view q !! nm = Some t ∧ ¬ prefix_hit prefix nm.
Proof.
  intros Hwf. unfold CancelPrefix. destruct (bool_decide _) eqn:E; bool_clean.
  { split; [done|]. intros nm t. unfold prefix_hit. cbn. tauto. }
  set (hit := filter _ _). set (q1 := set_canceled _ _).
  assert (∀ nm i, hit !! nm = Some i ↔ byName q !! nm = Some i ∧ TrimSpace prefix `prefix_of` nm) as Hh
    by (intros nm i; subst hit; by rewrite map_lookup_filter_Some).
  destruct (cancel_ok q q1 (prefix_hit prefix) Hwf) as [H1 H2]; [done|done|..].
  - intros nm i. cbn [byName q1 set_canceled set_byName]. rewrite lookup_difference_Some.
    unfold prefix_hit. rewrite eq_None_not_Some. split.
    + intros [Hb Hn]. split; [done|]. intros [_ Hp]. apply Hn. exists i. by apply Hh.
    + intros [Hb Hn]. split; [done|]. intros [j Hj]. apply Hh in Hj as [_ Hp]. by apply Hn.
  - intros i. cbn [canceled q1 set_canceled]. rewrite elem_of_union, elem_of_list_to_set.
    rewrite list_elem_of_fmap. split.
    + intros [([nm j] & -> & Hm%elem_of_map_to_list)|]; [|by left].
      right. exists nm. apply Hh in Hm as [? ?]. by split.
    + intros [|(nm & [_ Hp] & Hb)]; [by right|]. left. exists (nm, i). split; [done|].
      apply elem_of_map_to_list. by apply Hh.
  - destruct (0 <? _); cbn [fst]; [|done]. split; [by apply wf_signal|exact H2].
Qed.
(** The moment of a task after the clock was set back to [now]. *)
Definition reanchored (q : Service) (now : Z) (t : task) : task :=
  if is_one_shot (kind t) then t else with_due t (next_due q now t).

Lemma reanchor_ok (q : Service) now : wf q →
  wf (reanchorLocked q now)
  ∧ ∀ nm, view (reanchorLocked q now) !! nm = reanchored q now <$> view q !! nm.
Proof.
  intros Hwf. pose proof (wf_inv _ Hwf) as Hi. unfold reanchorLocked.
  set (f := λ t : task, if negb (is_current q t) || is_one_shot (kind t) then t
                        else with_due t (next_due q now t)).
  assert (∀ t, t ∈ items q → id (f t) = id t ∧ name (f t) = name t ∧ task_ok (f t)) as Hf.
  { intros t Ht. pose proof (inv_ok _ _ _ _ Hi t Ht). subst f. cbn beta.
    by destruct (negb _ || _). }
  destruct (wf_view_perm (set_items q (heap_init Less (f <$> items q))) (f <$> items q)) as [H1 H2].
  - apply heap_init_heap; eauto using Less_asym, Less_le_trans.
  - apply heap_init_perm.
  - by apply inv_map.
  - apply Hwf.
  - split; [done|]. intros nm. rewrite H2. cbn [byName set_items].
    rewrite (view_of_map f _ _ _ _ Hf Hi). fold (view q).
    destruct (view q !! nm) as [t|] eqn:Hv; [|done]. cbn. f_equal.
    apply (view_of_lookup _ _ _ _ _ _ Hi) in Hv as (Ht & _ & Hc). subst f. cbn beta.
    unfold is_current, reanchored. rewrite (inv_is_current _ _ _ _ _ Hi Ht).
    by rewrite bool_decide_eq_true_2.
Qed.

(** The clock was set back. *)
Definition rewound (q : Service) (now : Z) : Prop := lastNow q ≠ zero_time ∧ now < lastNow q.
#[export] Instance rewound_dec q now : Decision (rewound q now).
Proof. unfold rewound. apply _. Defined.

Lemma rewound_bool (q : Service) now :
  negb (IsZero (lastNow q)) && (now <? lastNow q) = bool_decide (rewound q now).
Proof.
  apply eq_true_iff_eq. rewrite andb_true_iff, negb_true_iff, bool_decide_eq_true. unfold IsZero.
  by rewrite Z.eqb_neq, Z.ltb_lt.
Qed.

Lemma set_lastNow_wf (q : Service) now : wf q → wf (set_lastNow q now).
Proof. intros [H1 H2 H3]. split; [exact H1|exact H2|exact H3]. Qed.

Lemma due_count_le now (l : list task) : (due_count now l <= length l)%nat.
Proof. apply length_filter. Qed.

Lemma takeDue_run (q : Service) now : wf q → ids_left q → ¬ rewound q now →
  ∃ q' cbs, takeDue q now = Some (q', cbs) ∧ wf q'
    ∧ StronglySorted (λ a b, Less a b = true) cbs
    ∧ (∀ t, t ∈ cbs ↔ due t <= now ∧ view q !! name t = Some t)
    ∧ (nextID q', view q') = foldl (run_task q now) (nextID q, view q) cbs
    ∧ (∀ nm t, view q' !! nm = Some t → now < due t)
    ∧ lastNow q' = now ∧ location q' = location q ∧ staleThreshold q' = staleThreshold q
    ∧ (0 < staleThreshold q → Z.of_nat (size (canceled q')) < staleThreshold q).
Proof.
  intros Hwf Hn Hr. unfold takeDue. rewrite rewound_bool, bool_decide_eq_false_2 by done.
  pose proof (due_count_le now (items q)). unfold ids_left, zlen in Hn.
  destruct (take_loop_ok now (S (length (items q))) (set_lastNow q now) [])
    as (q1 & cbs & E & [D1 (D2 & D3 & D4) D5 D6 D7 D8]);
    [by apply set_lastNow_wf|cbn [items set_lastNow]; lia|cbn [items nextID set_lastNow]; lia|].
  rewrite E. cbn [mbind option_bind app]. exists (signalLocked (compactLocked q1)), cbs.
  destruct (compact_ok q1 D1) as (C1 & C2 & C3 & C4 & C5 & C6 & C7 & _).
  split; [done|]. split; [by apply wf_signal|]. split; [done|]. split; [exact D6|].
  change (view (signalLocked (compactLocked q1))) with (view (compactLocked q1)).
  change (nextID (signalLocked (compactLocked q1))) with (nextID (compactLocked q1)).
  rewrite C2, C3, D7. split; [by apply run_task_loc|]. split; [|split_and!].
  - intros nm t (Ht & _)%(view_of_lookup _ _ _ _ _ _ (wf_inv _ D1)). auto.
  - exact (eq_trans C5 D3).
  - exact (eq_trans C4 D2).
  - exact (eq_trans C6 D4).
  - change (staleThreshold q) with (staleThreshold (set_lastNow q now)). rewrite <- D4. exact C7.
Qed.

Lemma takeDue_rewound (q : Service) now : wf q → rewound q now →
  ∃ q', takeDue q now = Some (q', []) ∧ wf q' ∧ nextID q' = nextID q ∧ lastNow q' = now
    ∧ location q' = location q ∧ staleThreshold q' = staleThreshold q
    ∧ ∀ nm, view q' !! nm = reanchored q now <$> view q !! nm.
Proof.
  intros Hwf Hr. unfold takeDue. rewrite rewound_bool, bool_decide_eq_true_2 by done.
  destruct (reanchor_ok q now Hwf) as [H1 H2]. eexists. split; [done|].
  split; [by apply wf_signal, set_lastNow_wf|]. split_and!; [done..|exact H2].
Qed.

(** ** The delay until the next task *)

Lemma delay_loop_ok now fuel : ∀ q : Service, wf q → (length (items q) < fuel)%nat →
  let r := delay_loop fuel q now in
  wf r.1 ∧ view r.1 = view q ∧ nextID r.1 = nextID q ∧ location r.1 = location q
  ∧ lastNow r.1 = lastNow q ∧ staleThreshold r.1 = staleThreshold q
  ∧ match r.1 with q' =>
      (view q' = ∅ ∧ r.2 = hour_ns)
      ∨ ∃ t, view q' !! name t = Some t ∧ r.2 = Sub (due t) now
          ∧ ∀ nm t', view q' !! nm = Some t' → due t <= due t'
    end.
Proof.
  induction fuel as [|fuel IH]; intros q Hwf Hf; [lia|]. cbn [delay_loop].
  pose proof (wf_inv _ Hwf) as Hi. destruct (items q) as [|t l0] eqn:El.
  { cbn. split_and!; try done. left. split; [|done]. apply map_eq. intros nm. rewrite lookup_empty.
    apply eq_None_not_Some. intros [t Ht]. unfold view in Ht. rewrite El in Ht.
    apply (view_of_lookup _ _ _ _ _ _ Hi) in Ht as ([]%not_elem_of_nil & _). }
  rewrite <- El in Hi. destruct (heap_top q t l0 El Hwf) as (l & Hpop & Hp & Hh & Hmin).
  assert (inv (t :: l) (nextID q) (byName q) (canceled q)) as Hi' by (by rewrite Hp).
  unfold isCanceledLocked. destruct (bool_decide (id t ∈ canceled q)) eqn:Ec; bool_clean.
  - cbn [orb items set_canceled]. rewrite Hpop. cbn [default from_option fmap option_fmap option_map snd].
    destruct (popped_stale_ok q _ t l Hwf Hp Ec Hh eq_refl) as [H1 H2].
    destruct (IH _ H1) as (I1 & I2 & I3); [cbn [items set_canceled set_items]|].
    { apply Permutation_length in Hp. rewrite El in Hp. cbn in Hp, Hf. lia. }
    split; [exact I1|]. split; [exact (eq_trans I2 H2)|]. exact I3.
  - assert (is_current q t = true) as Hcur.
    { unfold is_current. rewrite (inv_is_current _ _ _ _ _ Hi') by left. by apply bool_decide_eq_true. }
    rewrite Hcur. cbn. split_and!; try done. right. exists t. split_and!; [|done|].
    + apply (view_of_lookup _ _ _ _ _ _ Hi). split_and!; [|done..]. rewrite <- Hp. left.
    + intros nm t' (Ht' & _)%(view_of_lookup _ _ _ _ _ _ Hi). rewrite <- Hp in Ht'.
      apply elem_of_cons in Ht' as [->|Ht']; [lia|]. specialize (Hmin t' Ht').
      apply Less_true in Hmin. lia.
Qed.

Lemma nextDelay_ok (q : Service) now : wf q →
  let r := nextDelay q now in
  wf r.1 ∧ view r.1 = view q ∧ nextID r.1 = nextID q ∧ location r.1 = location q
  ∧ lastNow r.1 = lastNow q ∧ staleThreshold r.1 = staleThreshold q
  ∧ ((view r.1 = ∅ ∧ r.2 = hour_ns)
     ∨ ∃ t, view r.1 !! name t = Some t ∧ r.2 = Sub (due t) now
         ∧ ∀ nm t', view r.1 !! nm = Some t' → due t <= due t').
Proof. intros Hwf. apply delay_loop_ok; [done|lia]. Qed.
(** ** Reachable queues *)

Lemma same_threshold (q : Service) op q' ran : wf q → ids_left q → apply_op q op = Some (q', ran) →
  wf q' ∧ staleThreshold q' = staleThreshold q.
Proof.
  intros Hwf Hn Ha. pose proof (zlen_nonneg (items q)). unfold ids_left in Hn.
  pose proof (register_cases q op q' ran Hwf ltac:(lia) Ha) as Hreg.
  destruct op; try (destruct Hreg as [_ [->|(t & h' & _ & ? & _ & _ & _ & _ & _ & ? & _)]]; done);
    cbn [apply_op] in Ha; try (injection Ha as <- <-).
  - split; [by apply Cancel_ok|]. unfold Cancel. by repeat case_match.
  - split; [by apply HandleCancel_ok|]. unfold HandleCancel, cancelHandle. by repeat case_match.
  - split; [by apply CancelPrefix_ok|]. unfold CancelPrefix. destruct (bool_decide _); [done|].
    cbn zeta. by destruct (0 <? _).
  - destruct (decide (rewound q now)) as [Hr|Hr].
    + destruct (takeDue_rewound q now Hwf Hr) as (q1 & E & ? & _ & _ & _ & ? & _).
      rewrite E in Ha. injection Ha as <- <-. done.
    + destruct (takeDue_run q now Hwf Hn Hr) as (q1 & cbs & E & ? & _ & _ & _ & _ & _ & _ & ? & _).
      rewrite E in Ha. injection Ha as <- <-. done.
  - destruct (nextDelay_ok q now Hwf) as (? & _ & _ & _ & _ & ? & _). done.
Qed.

Lemma reachable_queue_wf (q : Service) : tq_reachable q → wf q ∧ 0 < staleThreshold q.
Proof.
  intros (loc & threshold & Hstar).
  apply (star_invariant tq_step (λ q, wf q ∧ 0 < staleThreshold q) _ _) in Hstar; [done| |].
  - intros q1 q2 [Hwf Ht] (Hn & op & ran & Ha).
    destruct (same_threshold q1 op q2 ran Hwf Hn Ha) as [H1 ->]. done.
  - split; [apply new_queue_wf|]. cbn. destruct (threshold <=? 0) eqn:E; bool_clean; lia.
Qed.

(** ** Which operations leave the task of a name alone *)

Definition avoids (nm : runes) (op : tq_op) : Prop :=
  match op with
  | OpScheduleAt n _ _ | OpScheduleAfter _ n _ _ | OpRegisterMinute _ n _
  | OpRegisterDaily _ n _ _ _ | OpRegisterWeekly _ n _ _ _ _ | OpCancel n => TrimSpace n ≠ nm
  | OpHandleCancel h => handle_name h ≠ nm
  | OpCancelPrefix prefix => ¬ prefix_hit prefix nm
  | OpTakeDue _ | OpNextDelay _ => True
  end.

Inductive runs : Service → list tq_op → Service → list task → Prop :=
| runs_nil q : runs q [] q []
| runs_cons q op q1 ran ops q' ran' : ids_left q → apply_op q op = Some (q1, ran) →
    runs q1 ops q' ran' → runs q (op :: ops) q' (ran ++ ran').

Lemma StronglySorted_NoDup (l : list task) :
  StronglySorted (λ a b, Less a b = true) l → NoDup l.
Proof.
  induction 1 as [|t l _ IH Hl]; constructor; [|done]. intros Ht.
  pose proof (proj1 (Forall_forall _ _) Hl t Ht) as Hx. apply Less_true in Hx. lia.
Qed.

Lemma fold_run_other (q : Service) now nm cbs : ∀ a, nm ∉ (name <$> cbs) →
  (foldl (run_task q now) a cbs).2 !! nm = a.2 !! nm.
Proof.
  induction cbs as [|t cbs IH]; intros a Hn; [done|]. cbn [fmap list_fmap] in Hn.
  apply not_elem_of_cons in Hn as [Hne Hn]. cbn [foldl]. rewrite IH by done.
  unfold run_task. destruct (is_one_shot _); cbn [snd].
  - by rewrite lookup_delete_ne.
  - by rewrite lookup_insert_ne.
Qed.

Lemma fold_run_one_shot (q : Service) now t cbs a : t ∈ cbs → NoDup (name <$> cbs) →
  kind t = kindOneShot → (foldl (run_task q now) a cbs).2 !! name t = None.
Proof.
  intros (l1 & l2 & ->)%list_elem_of_split Hnd Hk. rewrite foldl_app. cbn [foldl].
  rewrite fmap_app, fmap_cons in Hnd. apply NoDup_app in Hnd as (_ & _ & Hnd).
  apply NoDup_cons in Hnd as [Hn _]. rewrite fold_run_other by done.
  unfold run_task at 1. unfold is_one_shot. rewrite bool_decide_eq_true_2 by done. cbn [snd].
  apply lookup_delete_eq.
Qed.

(** The tasks that are run are distinct, with distinct names. *)
Lemma due_names (q : Service) now cbs : wf q →
  StronglySorted (λ a b, Less a b = true) cbs →
  (∀ t, t ∈ cbs ↔ due t <= now ∧ view q !! name t = Some t) → NoDup (name <$> cbs).
Proof.
  intros Hwf Hs Hc. apply NoDup_fmap_2_strong; [|by apply StronglySorted_NoDup].
  intros x y [_ Hx]%Hc [_ Hy]%Hc E. rewrite E in Hx. congruence.
Qed.

Lemma filter_id_once (q : Service) now cbs t : wf q →
  StronglySorted (λ a b, Less a b = true) cbs →
  (∀ t, t ∈ cbs ↔ due t <= now ∧ view q !! name t = Some t) → view q !! name t = Some t →
  filter (λ x, id x = id t) cbs = if decide (due t <= now) then [t] else [].
Proof.
  intros Hwf Hs Hc Hv. apply StronglySorted_NoDup in Hs as Hnd.
  pose proof (wf_inv _ Hwf) as Hi.
  assert (∀ x, x ∈ cbs → id x = id t → x = t) as Hun.
  { intros x [_ (Hx & _)%(view_of_lookup _ _ _ _ _ _ Hi)]%Hc E.
    apply (view_of_lookup _ _ _ _ _ _ Hi) in Hv as (Ht & _). by apply (inv_unique _ _ _ _ _ _ Hi). }
  case_decide as Hd.
  - assert (t ∈ cbs) as (l1 & l2 & ->)%list_elem_of_split by (by apply Hc).
    apply NoDup_app in Hnd as (_ & Hd1 & Hnd). apply NoDup_cons in Hnd as [Hd2 _].
    rewrite filter_app, filter_cons_True by done.
    assert (∀ l, t ∉ l → (∀ x, x ∈ l → x ∈ l1 ++ t :: l2) → filter (λ x, id x = id t) l = []) as Hnil.
    { intros l Ht Hl. apply filter_none. intros x Hx E. apply Ht.
      by rewrite <- (Hun x (Hl x Hx) E). }
    rewrite (Hnil l1), (Hnil l2); [done|done|intros; set_solver| |intros; set_solver].
    intros Ht. apply (Hd1 t Ht). left.
  - apply filter_none. intros x Hx E. rewrite (Hun x Hx E) in Hx.
    by apply Hc in Hx as [? _].
Qed.
(** ** A one-shot task *)

(** Before it runs. *)
Definition pending (q : Service) (t : task) : Prop := wf q ∧ view q !! name t = Some t.
(** After it ran: its name is free and its identifier is never used again. *)
Definition spent (q : Service) (t : task) : Prop :=
  wf q ∧ view q !! name t = None ∧ 0 < id t <= nextID q ∧ ∀ x, view q !! name x = Some x → id x ≠ id t.

Lemma take_or_not op : (∃ now, op = OpTakeDue now) ∨ ∀ now, op ≠ OpTakeDue now.
Proof. destruct op; (left; by eexists) || by right. Qed.

(** What an operation that avoids a name does to it, unless it runs tasks. *)
Lemma avoid_view (q : Service) op q' ran nm : wf q → ids_left q → apply_op q op = Some (q', ran) →
  avoids nm op → (∀ now, op ≠ OpTakeDue now) →
  ran = [] ∧ view q' !! nm = view q !! nm ∧ nextID q <= nextID q'
  ∧ ∀ x, view q' !! name x = Some x → view q !! name x = Some x ∨ id x = nextID q + 1.
Proof.
  intros Hwf Hn Ha Hav Hop. pose proof (zlen_nonneg (items q)). unfold ids_left in Hn.
  pose proof (register_cases q op q' ran Hwf ltac:(lia) Ha) as Hreg.
  assert (∀ t h', name t ≠ nm → added q q' t h' → view q' !! nm = view q !! nm ∧ nextID q <= nextID q'
    ∧ ∀ x, view q' !! name x = Some x → view q !! name x = Some x ∨ id x = nextID q + 1) as Hadd.
  { intros t h' Hne (_ & -> & -> & _). split; [by rewrite lookup_insert_ne|]. split; [lia|].
    intros x [[_ <-]|[_ Hx]]%lookup_insert_Some; [by right|by left]. }
  destruct op; cbn [avoids] in Hav;
    try (destruct Hreg as [-> [->|(t & h' & En & Hr)]]; (split; [done|]);
         [split_and!; [done|lia|by left]|apply (Hadd t h'); [congruence|exact Hr]]);
    cbn [apply_op] in Ha; try (injection Ha as <- <-; split; [done|]).
  - destruct (Cancel_ok q nm0 Hwf) as [_ Hv]. rewrite Hv. destruct (Cancel q nm0).2 eqn:E.
    + rewrite lookup_delete_ne by done. split; [done|]. split; [unfold Cancel; by repeat case_match|].
      intros x [_ Hx]%lookup_delete_Some. by left.
    + split; [done|]. split; [unfold Cancel; by repeat case_match|]. by left.
  - destruct (HandleCancel_ok q h Hwf) as (_ & Hv & _). rewrite Hv. destruct (HandleCancel q h).2 eqn:E.
    + rewrite lookup_delete_ne by done.
      split; [done|]. split; [unfold HandleCancel, cancelHandle; by repeat case_match|].
      intros x [_ Hx]%lookup_delete_Some. by left.
    + split; [done|]. split; [unfold HandleCancel, cancelHandle; by repeat case_match|]. by left.
  - destruct (CancelPrefix_ok q pre Hwf) as [_ Hv]. split; [|split].
    + apply option_eq. intros x. rewrite Hv. tauto.
    + unfold CancelPrefix. destruct (bool_decide _); [done|]. cbn zeta. by destruct (0 <? _).
    + intros x [Hx _]%Hv. by left.
  - by destruct (Hop now).
  - destruct (nextDelay_ok q now Hwf) as (_ & Hv & -> & _). rewrite Hv. split_and!; [done|lia|by left].
Qed.

(** The fold only adds tasks with new identifiers. *)
Lemma fold_run_new (q : Service) now cbs : ∀ a x, (foldl (run_task q now) a cbs).2 !! name x = Some x →
  a.2 !! name x = Some x ∨ a.1 < id x.
Proof.
  induction cbs as [|t cbs IH]; intros a x Hx; [by left|]. cbn [foldl] in Hx. apply IH in Hx.
  unfold run_task in Hx. destruct (is_one_shot _); cbn [fst snd] in Hx.
  - destruct Hx as [[_ Hx]%lookup_delete_Some|Hx]; [by left|by right].
  - destruct Hx as [[[_ <-]|[_ Hx]]%lookup_insert_Some|Hx]; [right; cbn; lia|by left|right; lia].
Qed.

Lemma fold_run_next (q : Service) now cbs : ∀ a, a.1 <= (foldl (run_task q now) a cbs).1.
Proof.
  induction cbs as [|t cbs IH]; intros a; [done|]. cbn [foldl]. etrans; [|apply IH].
  unfold run_task. destruct (is_one_shot _); cbn; lia.
Qed.

Lemma pending_step (q : Service) op q' ran t : pending q t → kind t = kindOneShot → ids_left q →
  avoids (name t) op → apply_op q op = Some (q', ran) →
  (pending q' t ∧ filter (λ x, id x = id t) ran = [])
  ∨ (spent q' t ∧ filter (λ x, id x = id t) ran = [t]).
Proof.
  intros [Hwf Hv] Hk Hn Hav Ha. destruct (same_threshold q op q' ran Hwf Hn Ha) as [Hwf' _].
  destruct (take_or_not op) as [[now ->]|Hop].
  - cbn [apply_op] in Ha. destruct (decide (rewound q now)) as [Hr|Hr].
    + destruct (takeDue_rewound q now Hwf Hr) as (q1 & E & _ & _ & _ & _ & _ & Hv').
      rewrite E in Ha. injection Ha as <- <-. left. split; [split; [done|]|done].
      rewrite Hv', Hv. cbn. unfold reanchored, is_one_shot. by rewrite bool_decide_eq_true_2.
    + destruct (takeDue_run q now Hwf Hn Hr) as (q1 & cbs & E & _ & Hs & Hc & Hf & _).
      rewrite E in Ha. injection Ha as <- <-.
      pose proof (filter_id_once q now cbs t Hwf Hs Hc Hv) as Hfil. case_decide as Hd.
      * right. split; [split; [done|]|done].
        assert (t ∈ cbs) as Hin by (by apply Hc). pose proof (f_equal snd Hf) as Hvf.
        pose proof (f_equal fst Hf) as Hnf. cbn [fst snd] in Hvf, Hnf. pose proof (wf_inv _ Hwf) as Hi.
        assert (0 < id t <= nextID q) as Hb.
        { apply (view_of_lookup _ _ _ _ _ _ Hi) in Hv as (Ht & _). by apply Hi. }
        pose proof (fold_run_next q now cbs (nextID q, view q)) as Hle. cbn [fst] in Hle.
        assert (view q1 !! name t = None) as Hnone.
        { rewrite Hvf. apply fold_run_one_shot; [done|exact (due_names q now cbs Hwf Hs Hc)|done]. }
        split; [done|]. split; [lia|]. intros x Hx E0. assert (Hx' := Hx).
        rewrite Hvf in Hx'. apply fold_run_new in Hx' as [Hx'|Hx']; cbn [fst snd] in Hx'; [|lia].
        apply (view_of_lookup _ _ _ _ _ _ Hi) in Hx' as (Hx1 & _).
        apply (view_of_lookup _ _ _ _ _ _ Hi) in Hv as (Ht & _).
        rewrite (inv_unique _ _ _ _ _ _ Hi Hx1 Ht E0) in Hx. congruence.
      * left. split; [split; [done|]|done]. pose proof (f_equal snd Hf) as Hvf. cbn [snd] in Hvf.
        rewrite Hvf, fold_run_other; [done|]. intros (x & En & [Hdx Hx]%Hc)%list_elem_of_fmap.
        rewrite <- En, Hv in Hx. injection Hx as ->. lia.
  - destruct (avoid_view q op q' ran (name t) Hwf Hn Ha Hav Hop)
      as (-> & Hv' & _ & _).
    left. split; [split; [done|congruence]|done].
Qed.
Lemma spent_step (q : Service) op q' ran t : spent q t → ids_left q →
  avoids (name t) op → apply_op q op = Some (q', ran) →
  spent q' t ∧ filter (λ x, id x = id t) ran = [].
Proof.
  intros (Hwf & Hv & Hb & Hun) Hn Hav Ha.
  destruct (same_threshold q op q' ran Hwf Hn Ha) as [Hwf' _].
  destruct (take_or_not op) as [[now ->]|Hop].
  - cbn [apply_op] in Ha. destruct (decide (rewound q now)) as [Hr|Hr].
    + destruct (takeDue_rewound q now Hwf Hr) as (q1 & E & _ & En & _ & _ & _ & Hv').
      rewrite E in Ha. injection Ha as <- <-. split; [|done]. split_and!; [done| |lia|lia|].
      * by rewrite Hv', Hv.
      * intros x Hx. rewrite Hv' in Hx. apply fmap_Some in Hx as (y & Hy & Ex).
        assert (id x = id y ∧ name x = name y) as [E1 E2]
          by (rewrite Ex; unfold reanchored; by destruct (is_one_shot _)).
        rewrite E1. apply Hun. by rewrite <- E2.
    + destruct (takeDue_run q now Hwf Hn Hr) as (q1 & cbs & E & _ & Hs & Hc & Hf & _).
      rewrite E in Ha. injection Ha as <- <-.
      pose proof (f_equal snd Hf) as Hvf. pose proof (f_equal fst Hf) as Hnf. cbn [fst snd] in Hvf, Hnf.
      pose proof (fold_run_next q now cbs (nextID q, view q)) as Hle. cbn [fst] in Hle.
      split; [split_and!; [done| |lia|lia|]|].
      * rewrite Hvf, fold_run_other; [done|]. intros (x & En & [_ Hx]%Hc)%list_elem_of_fmap.
        rewrite <- En in Hx. congruence.
      * intros x Hx. rewrite Hvf in Hx. apply fold_run_new in Hx as [Hx|Hx]; cbn [fst snd] in Hx; [auto|lia].
      * apply filter_none. intros x [_ Hx]%Hc. auto.
  - destruct (avoid_view q op q' ran (name t) Hwf Hn Ha Hav Hop) as (-> & Hv' & Hle & Hx).
    split; [|done]. split_and!; [done|congruence|lia|lia|].
    intros x [Hx'|Hx']%Hx; [auto|lia].
Qed.

Lemma spent_runs q ops q' ran t : runs q ops q' ran → spent q t → Forall (avoids (name t)) ops →
  spent q' t ∧ filter (λ x, id x = id t) ran = [].
Proof.
  induction 1 as [q|q op q1 r1 ops q' r2 Hn Ha _ IH]; intros Hs Hav; [done|].
  apply Forall_cons in Hav as [Hav1 Hav].
  destruct (spent_step q op q1 r1 t Hs Hn Hav1 Ha) as [Hs1 E1].
  destruct (IH Hs1 Hav) as [Hs2 E2]. split; [done|]. by rewrite filter_app, E1, E2.
Qed.

Lemma pending_runs q ops q' ran t : runs q ops q' ran → pending q t → kind t = kindOneShot →
  Forall (avoids (name t)) ops →
  (pending q' t ∧ filter (λ x, id x = id t) ran = [])
  ∨ (spent q' t ∧ filter (λ x, id x = id t) ran = [t]).
Proof.
  induction 1 as [q|q op q1 r1 ops q' r2 Hn Ha Hr IH]; intros Hp Hk Hav; [by left|].
  apply Forall_cons in Hav as [Hav1 Hav].
  destruct (pending_step q op q1 r1 t Hp Hk Hn Hav1 Ha) as [[Hp1 E1]|[Hs1 E1]].
  - destruct (IH Hp1 Hk Hav) as [[Hp2 E2]|[Hs2 E2]]; [left|right]; (split; [done|]);
      by rewrite filter_app, E1, E2.
  - destruct (spent_runs _ _ _ _ t Hr Hs1 Hav) as [Hs2 E2]. right. split; [done|].
    by rewrite filter_app, E1, E2.
Qed.

(** ** The properties *)

(** C24: Whatever the operations performed, every task in the heap is either the
    current task of its name or a cancelled one waiting to be dropped, never
    both, so that the counters of a snapshot always balance; and a collection
    with the clock not set back, which runs the due tasks, leaves fewer cancelled
    tasks than the threshold. *)
Theorem queue_accounting (q : Service) : tq_reachable q →
  let s := TakeSnapshot q in
  Pending s = Named s + Canceled s
  ∧ (∀ t, t ∈ items q → (id t ∈ canceled q ↔ byName q !! name t ≠ Some (id t)))
  ∧ ∀ now q' ran, ids_left q → ¬ rewound q now → takeDue q now = Some (q', ran) →
      Canceled (TakeSnapshot q') < staleThreshold q'.
Proof.
  intros [Hwf Ht]%reachable_queue_wf. cbn zeta. pose proof (wf_inv _ Hwf) as Hi. split; [|split].
  - unfold TakeSnapshot, zlen. cbn [Pending Named Canceled]. rewrite (inv_size _ _ _ _ Hi). lia.
  - intros t Hin. rewrite <- (inv_current _ _ _ _ _ Hi Hin). destruct (decide (id t ∈ canceled q)); tauto.
  - intros now q' ran Hn Hr E. destruct (takeDue_run q now Hwf Hn Hr)
      as (q1 & cbs & E1 & _ & _ & _ & _ & _ & _ & _ & Es & Hc).
    rewrite E in E1. injection E1 as -> ->. rewrite Es. apply Hc, Ht.
Qed.

(** C25: The heap with its lazily dropped tasks implements a table from names to
    tasks.  Unless the clock was set back, collecting the due tasks ends; it
    runs exactly the current tasks whose moment has come, in the order of their
    moments and, at the same moment, of their registration; afterwards one-shot
    tasks are gone, recurring ones have a new identifier and their next moment,
    which is in the future, and the rest of the table is as before. *)
Theorem take_due_spec (q : Service) now : tq_reachable q → ids_left q → ¬ rewound q now →
  ∃ q' cbs, takeDue q now = Some (q', cbs)
    ∧ StronglySorted (λ a b, due a < due b ∨ (due a = due b ∧ id a < id b)) cbs
    ∧ (∀ t, t ∈ cbs ↔ due t <= now ∧ view q !! name t = Some t)
    ∧ (nextID q', view q') = foldl (run_task q now) (nextID q, view q) cbs
    ∧ ∀ nm t, view q' !! nm = Some t → now < due t.
Proof.
  intros [Hwf _]%reachable_queue_wf Hn Hr.
  destruct (takeDue_run q now Hwf Hn Hr) as (q' & cbs & E & _ & Hs & Hc & Hf & Hd & _).
  exists q', cbs. split; [done|]. split; [|done].
  clear - Hs. induction Hs as [|t l _ IH Hl]; constructor; [done|].
  eapply Forall_impl; [exact Hl|]. intros x Hx. by apply Less_true.
Qed.

(** C26: The next moment of a recurring task is the first one after now that
    has its clock: the next full minute, the next h:m of the location, the next
    h:m on the given weekday, for every weekday number. *)
Theorem recurring_moments (q : Service) now wd h m : 0 <= h <= 23 → 0 <= m <= 59 →
  let off := location q in
  (now < nextMinute now <= now + minute_ns ∧ (nextMinute now - zero_time) mod minute_ns = 0)
  ∧ (now < nextDaily q now h m ∧ at_clock off h m (nextDaily q now h m)
     ∧ ∀ t, now < t → at_clock off h m t → nextDaily q now h m <= t)
  ∧ (now < nextWeekly q now wd h m ∧ at_clock off h m (nextWeekly q now wd h m)
     ∧ local_weekday off (nextWeekly q now wd h m) = wd mod 7
     ∧ ∀ t, now < t → at_clock off h m t → local_weekday off t = wd mod 7 →
         nextWeekly q now wd h m <= t).
Proof.
  intros Hh Hm. cbn zeta. split; [apply nextMinute_spec|].
  split; [by apply nextDaily_spec|by apply nextWeekly_spec].
Qed.

(** C27: A one-shot task that is neither cancelled nor replaced runs exactly
    once: through any sequence of other operations it either is still scheduled
    and has not run, or it ran once and its name is free; and while it is
    scheduled, the first collection at or after its moment runs it. *)
Theorem one_shot_exactly_once (q : Service) t ops q' ran : tq_reachable q →
  view q !! name t = Some t → kind t = kindOneShot → Forall (avoids (name t)) ops →
  runs q ops q' ran →
  ((view q' !! name t = Some t ∧ filter (λ x, id x = id t) ran = [])
   ∨ (view q' !! name t = None ∧ filter (λ x, id x = id t) ran = [t]))
  ∧ ∀ now, view q' !! name t = Some t → ids_left q' → ¬ rewound q' now → due t <= now →
      ∃ q'' cbs, takeDue q' now = Some (q'', cbs) ∧ t ∈ cbs.
Proof.
  intros [Hwf _]%reachable_queue_wf Hv Hk Hav Hr.
  destruct (pending_runs q ops q' ran t Hr (conj Hwf Hv) Hk Hav) as [[[Hwf' Hv'] E]|[(Hwf' & Hv' & _) E]].
  - split; [by left|]. intros now _ Hn Hrw Hd.
    destruct (takeDue_run q' now Hwf' Hn Hrw) as (q2 & cbs & Et & _ & _ & Hc & _).
    exists q2, cbs. split; [done|]. by apply Hc.
  - split; [by right|]. intros now Hx. congruence.
Qed.

(** C28: The delay until the next wake-up never oversleeps: it is the time to
    the earliest current task, or an hour if there is none; computing it drops
    cancelled tasks and changes nothing else. *)
Theorem next_delay_spec (q : Service) now : tq_reachable q →
  let r := nextDelay q now in
  view r.1 = view q
  ∧ ((view q = ∅ ∧ r.2 = hour_ns)
     ∨ ∃ t, view q !! name t = Some t ∧ r.2 = Sub (due t) now
         ∧ ∀ nm t', view q !! nm = Some t' → due t <= due t').
Proof.
  intros [Hwf _]%reachable_queue_wf. cbn zeta.
  destruct (nextDelay_ok q now Hwf) as (_ & Hv & _ & _ & _ & _ & Hd). by rewrite Hv in Hd.
Qed.
End theorems.

(** ** The properties on a small queue *)

Section sample.
#[local] Abbreviation Service := (Service Z).

(** Performs operations while identifiers are left. *)
Fixpoint run_ops (q : Service) (ops : list tq_op) : option (Service * list (task Z)) :=
  match ops with
  | [] => Some (q, [])
  | op :: ops =>
      if nextID q + zlen (items q) + 1 <? two64 then
        match apply_op q op with
        | Some (q1, r1) => match run_ops q1 ops with
                           | Some (q2, r2) => Some (q2, r1 ++ r2)
                           | None => None
                           end
        | None => None
        end
      else None
  end.

Lemma run_ops_runs ops : ∀ q q' ran, run_ops q ops = Some (q', ran) →
  runs q ops q' ran ∧ star tq_step q q'.
Proof.
  induction ops as [|op ops IH]; intros q q' ran; cbn [run_ops].
  { intros [= <- <-]. split; constructor. }
  destruct (_ <? _) eqn:En; [|done]. apply Z.ltb_lt in En.
  destruct (apply_op q op) as [[q1 r1]|] eqn:Ea; [|done].
  destruct (run_ops q1 ops) as [[q2 r2]|] eqn:Er; [|done]. intros [= <- <-].
  destruct (IH q1 q2 r2 Er) as [H1 H2]. split; [by econstructor|].
  econstructor; [|exact H2]. split; [done|]. by exists op, r1.
Qed.

Definition word_a : runes := [97].
Definition word_b : runes := [98].
Definition setup : list tq_op :=
  [OpScheduleAt word_a (5 * second_ns) (Some 1); OpRegisterMinute 0 word_b (Some 2);
   OpScheduleAt [99] 0 (Some 3); OpCancel [99]].
Definition setup_queue : Service :=
  match run_ops (New None 0) setup with Some (q, _) => q | None => New None 0 end.
Definition setup_task : task Z := mkTask 1 word_a (5 * second_ns) kindOneShot 1 0 0 0.

Lemma setup_reachable : tq_reachable setup_queue.
Proof.
  exists None, 0. eapply (run_ops_runs setup). vm_compute. reflexivity.
Qed.

Lemma setup_ids_left : ids_left setup_queue.
Proof. vm_compute. reflexivity. Qed.

Lemma setup_not_rewound now : ¬ rewound setup_queue now.
Proof. intros [H _]. by apply H. Qed.

Lemma queue_accounting_witness : TakeSnapshot setup_queue = mkSnapshot 3 2 1
  ∧ Pending (TakeSnapshot setup_queue) = Named (TakeSnapshot setup_queue) + Canceled (TakeSnapshot setup_queue).
Proof.
  split; [vm_compute; reflexivity|]. exact (proj1 (queue_accounting setup_queue setup_reachable)).
Defined.

Lemma take_due_spec_witness : ∃ q' cbs, takeDue setup_queue (60 * second_ns) = Some (q', cbs)
  ∧ (∀ t, t ∈ cbs ↔ due t <= 60 * second_ns ∧ view setup_queue !! name t = Some t).
Proof.
  destruct (take_due_spec setup_queue (60 * second_ns) setup_reachable setup_ids_left
    (setup_not_rewound _)) as (q' & cbs & H1 & _ & H2 & _).
  exists q', cbs. split; assumption.
Defined.

(** Nine in the evening on a Thursday, from the first moment of 1970. *)
Lemma recurring_moments_witness : nextDaily setup_queue 0 21 0 = 13 * hour_ns
  ∧ at_clock (8 * hour_ns) 21 0 (nextDaily setup_queue 0 21 0).
Proof.
  split; [vm_compute; reflexivity|].
  exact (proj1 (proj2 (proj1 (proj2 (recurring_moments setup_queue 0 4 21 0 ltac:(lia) ltac:(lia)))))).
Defined.

Lemma one_shot_exactly_once_witness : ∃ q' ran,
  runs setup_queue [OpTakeDue (4 * second_ns); OpTakeDue (60 * second_ns)] q' ran
  ∧ filter (λ x, id x = 1) ran = [setup_task].
Proof.
  destruct (run_ops setup_queue [OpTakeDue (4 * second_ns); OpTakeDue (60 * second_ns)])
    as [[q' ran]|] eqn:E; [|vm_compute in E; discriminate E].
  destruct (run_ops_runs _ _ _ _ E) as [Hr _]. exists q', ran. split; [exact Hr|].
  destruct (one_shot_exactly_once setup_queue setup_task
    [OpTakeDue (4 * second_ns); OpTakeDue (60 * second_ns)] q' ran setup_reachable
    ltac:(vm_compute; reflexivity) eq_refl ltac:(repeat constructor) Hr) as [[[Hv _]|[_ Hf]] _].
  - exfalso. vm_compute in E. injection E as <- <-. vm_compute in Hv. discriminate Hv.
  - exact Hf.
Defined.

Lemma next_delay_spec_witness : (nextDelay setup_queue 0).2 = 5 * second_ns
  ∧ view (nextDelay setup_queue 0).1 = view setup_queue.
Proof.
  split; [vm_compute; reflexivity|]. exact (proj1 (next_delay_spec setup_queue 0 setup_reachable)).
Defined.

(** The handle of a recurring task is stale once the task has run: it cancels
    nothing, and the task stays scheduled. *)
Lemma recurring_handle_goes_stale :
  let '(q, h) := RegisterMinute (New None 0 : Service) 0 word_b (Some 2) in
  match h, takeDue q (60 * second_ns) with
  | Ret h, Some (q, _) => (HandleCancel q h).2 = false ∧ is_Some (view (HandleCancel q h).1 !! word_b)
  | _, _ => False
  end.
Proof. vm_compute. split; [reflexivity|]. by eexists. Qed.
End sample.
