(* ===== verification/GoState.v ===== *)
(** * Stateful, fallible Go calls

    A call reads and writes a state [S] and ends with an [outcome].  What it
    wrote before an error return stays written, as in Go.  Calls also consult
    the environment (the clock, the cancellation of a context, a repository
    that refuses an access): the environment answers by the number of
    consultations made so far, which the calls count, so that every
    interleaving with the outside is one environment. *)

From S2P Require Import Prelude.

Definition call (S E A : Type) : Type := nat * S → (nat * S) * outcome E A.

#[export] Instance call_ret S E : MRet (call S E) := λ A a s, (s, Ret a).
#[export] Instance call_bind S E : MBind (call S E) := λ A B f m s,
  match m s with
  | (s1, Ret a) => f a s1
  | (s1, Fail e) => (s1, Fail e)
  | (s1, Panic) => (s1, Panic)
  end.

Section Calls.
Context {S E : Type}.

Definition fail {A} (e : E) : call S E A := λ s, (s, Fail e).
Definition read : call S E S := λ s, (s, Ret s.2).
Definition write (f : S → S) : call S E unit := λ s, ((s.1, f s.2), Ret tt).

(** One consultation of the environment. *)
Definition consult {A} (f : nat → A) : call S E A := λ s, ((Datatypes.S s.1, s.2), Ret (f s.1)).

(** A computation without effects, and an early return. *)
Definition lift {A} (m : outcome E A) : call S E A := λ s, (s, m).
Definition fail_when (b : bool) (e : E) : call S E unit := if b then fail e else mret tt.

(** Runs a call and hands its error, if any, to the caller. *)
Definition attempt {A} (m : call S E A) : call S E (option E) := λ s,
  match m s with
  | (s1, Ret _) => (s1, Ret None)
  | (s1, Fail e) => (s1, Ret (Some e))
  | (s1, Panic) => (s1, Panic)
  end.

(** [for _, x := range l] with an accumulator. *)
Fixpoint for_range {A B} (f : B → A → call S E B) (acc : B) (l : list A) : call S E B :=
  match l with
  | [] => mret acc
  | x :: l' => acc' ← f acc x; for_range f acc' l'
  end.

Lemma call_bind_ret {A B} (m : call S E A) (f : A → call S E B) s s' b :
  (m ≫= f) s = (s', Ret b) → ∃ s1 a, m s = (s1, Ret a) ∧ f a s1 = (s', Ret b).
Proof. unfold mbind, call_bind. destruct (m s) as [s1 []]; naive_solver. Qed.

Lemma call_bind_eq {A B} (m : call S E A) (f : A → call S E B) s s1 a :
  m s = (s1, Ret a) → (m ≫= f) s = f a s1.
Proof. intros H. unfold mbind, call_bind. by rewrite H. Qed.

Lemma fail_when_ret b (e : E) s s' r :
  fail_when b e s = (s', Ret r) → b = false ∧ s' = s.
Proof. destruct b; cbn; by intros [= <- <-]. Qed.

End Calls.

(** Runs a call on a part of the state that it owns. *)
Definition within {S T E A} (init : T) (m : call T E A) : call S E (T * outcome E A) :=
  λ s, let '((n, t), o) := m (s.1, init) in ((n, s.2), Ret (t, o)).

Lemma within_ret {S T E A} (init : T) (m : call T E A) (s s' : nat * S) t o :
  within init m s = (s', Ret (t, o)) → m (s.1, init) = ((s'.1, t), o) ∧ s'.2 = s.2.
Proof. unfold within. destruct (m _) as [[n t'] o']. by intros [= <- -> ->]. Qed.

(** Inverts the first bind of a call that is known to return. *)
Tactic Notation "call_inv" hyp(H) "as" simple_intropattern(s) simple_intropattern(a) ident(H1) :=
  apply call_bind_ret in H as (s & a & H1 & H).

(** Runs the elementary calls at the head of the goal. *)
Ltac run_call := unfold mbind, call_bind, consult, lift, read, write; cbn [fst snd].

(** ** Calls that keep the state *)

(** A call that keeps a property of the state, whatever it returns; one that
    leaves the state alone; one that always returns; and one that leaves the
    state alone unless it returns. *)
Definition keeps {S E A} (P : S → Prop) (m : call S E A) : Prop := ∀ s, P s.2 → P (m s).1.2.
Definition quiet {S E A} (m : call S E A) : Prop := ∀ s, (m s).1.2 = s.2.
Definition always {S E A} (m : call S E A) : Prop := ∀ s, ∃ r, (m s).2 = Ret r.
Definition atomic {S E A} (m : call S E A) : Prop :=
  ∀ s, (∀ r, (m s).2 ≠ Ret r) → (m s).1.2 = s.2.

Section Keeps.
Context {S E : Type}.

Lemma keeps_bind {A B} P (m : call S E A) (f : A → call S E B) :
  keeps P m → (∀ a, keeps P (f a)) → keeps P (m ≫= f).
Proof.
  intros Hm Hf s Hs. specialize (Hm s Hs). unfold mbind, call_bind.
  destruct (m s) as [s1 []]; [by apply Hf|done..].
Qed.

Lemma keeps_for_range {A B} P (f : B → A → call S E B) l : ∀ acc,
  (∀ b a, keeps P (f b a)) → keeps P (for_range f acc l).
Proof.
  induction l as [|a l IH]; intros acc Hf; [by intros s|]. cbn.
  apply keeps_bind; [done|]. intros b. by apply IH.
Qed.

Lemma keeps_still {A} P (m : call S E A) : quiet m → keeps P m.
Proof. intros Hm s Hs. by rewrite Hm. Qed.

Lemma quiet_bind {A B} (m : call S E A) (f : A → call S E B) :
  quiet m → (∀ a, quiet (f a)) → quiet (m ≫= f).
Proof.
  intros Hm Hf s. specialize (Hm s). unfold mbind, call_bind.
  destruct (m s) as [s1 [a| |]]; [|done..]. cbn in Hm. by rewrite (Hf a s1).
Qed.

Lemma quiet_for_range {A B} (f : B → A → call S E B) l : ∀ acc,
  (∀ b a, quiet (f b a)) → quiet (for_range f acc l).
Proof.
  induction l as [|a l IH]; intros acc Hf; [by intros s|]. cbn.
  apply quiet_bind; [done|]. intros b. by apply IH.
Qed.

Lemma quiet_ret {A} (a : A) : quiet (mret a : call S E A).
Proof. by intros s. Qed.
Lemma quiet_lift {A} (o : outcome E A) : quiet (lift o : call S E A).
Proof. by intros s. Qed.
Lemma quiet_read : quiet (read : call S E S).
Proof. by intros s. Qed.
Lemma quiet_consult {A} (f : nat → A) : quiet (consult f : call S E A).
Proof. by intros s. Qed.
Lemma quiet_fail_when b (e : E) : quiet (fail_when b e : call S E unit).
Proof. by destruct b. Qed.

Lemma quiet_within {T A} (t : T) (m : call T E A) : quiet (within t m : call S E _).
Proof. intros s. unfold within. by destruct (m _) as [[] ?]. Qed.

Lemma always_ret {A} (a : A) : always (mret a : call S E A).
Proof. intros s. by exists a. Qed.

Lemma always_bind {A B} (m : call S E A) (f : A → call S E B) :
  always m → (∀ a, always (f a)) → always (m ≫= f).
Proof.
  intros Hm Hf s. destruct (Hm s) as [a Ha]. unfold mbind, call_bind.
  destruct (m s) as [s1 o]. cbn in Ha. rewrite Ha. apply Hf.
Qed.

Lemma always_for_range {A B} (f : B → A → call S E B) l : ∀ acc,
  (∀ b a, always (f b a)) → always (for_range f acc l).
Proof.
  induction l as [|a l IH]; intros acc Hf; [apply always_ret|]. cbn.
  apply always_bind; [done|]. intros b. by apply IH.
Qed.

Lemma atomic_always {A} (m : call S E A) : always m → atomic m.
Proof. intros Hm s Hs. destruct (Hm s) as [a Ha]. by destruct (Hs a). Qed.

Lemma atomic_bind {A B} (m : call S E A) (f : A → call S E B) :
  quiet m → (∀ s s1 a, m s = (s1, Ret a) → atomic (f a)) → atomic (m ≫= f).
Proof.
  intros Hm Hf s. specialize (Hm s). unfold mbind, call_bind.
  destruct (m s) as [s1 [a| |]] eqn:E0; cbn in *; [|done..]. intros Hn.
  rewrite (Hf _ _ _ E0 s1 Hn). done.
Qed.

End Keeps.

Create HintDb quiet.
#[export] Hint Resolve quiet_bind quiet_for_range quiet_ret quiet_lift quiet_read quiet_consult
  quiet_fail_when quiet_within : quiet.
