(* ===== verification/Repository.v ===== *)
(** * Character and inventory records and their memory repositories

    [repository/inventory_repository.go], [repository/character_repository.go]
    and the stores behind the memory group, [platform/db/memory_store.go] and
    [repository/memory/memory_char.go].  The stores clone what they keep and
    what they hand out, so records are values here. *)

From S2P Require Import Prelude GoStrings GoState.

(** Instants are nanoseconds since the zero [time.Time]. *)
Definition IsZero (t : Z) : bool := t =? 0.

Record ItemStack := mkItemStack {
  ItemID : Z; Count : Z; Bind : bool; ExpireAt : Z;
  RawEntry : list Z; Extra : gmap runes runes
}.

Record InventoryRecord := mkInventoryRecord {
  i_CharacterID : runes; Slots : gmap runes ItemStack;
  Warehouse : gmap runes ItemStack; i_UpdatedAt : Z
}.

(** [Roster] stands for the roster data, of which no modelled operation reads
    a field; [Location] for the four fields of the location. *)
Record CharacterRecord := mkCharacterRecord {
  c_CharacterID : runes; AccountID : runes; c_Slot : Z; c_Name : runes; c_Job : runes;
  c_Level : Z; Stats : gmap runes Z; Location : Z * Z * Z * runes; Roster : list Z;
  c_CreatedAt : Z; c_UpdatedAt : Z
}.

Definition zero_stack : ItemStack := mkItemStack 0 0 false 0 [] ∅.
Definition zero_inventory : InventoryRecord := mkInventoryRecord [] ∅ ∅ 0.
Definition zero_character : CharacterRecord :=
  mkCharacterRecord [] [] 0 [] [] 0 ∅ (0, 0, 0, []) [] 0 0.

Definition set_Count (n : Z) (s : ItemStack) : ItemStack :=
  mkItemStack (ItemID s) n (Bind s) (ExpireAt s) (RawEntry s) (Extra s).
Definition set_Slots (m : gmap runes ItemStack) (r : InventoryRecord) : InventoryRecord :=
  mkInventoryRecord (i_CharacterID r) m (Warehouse r) (i_UpdatedAt r).
Definition set_i_UpdatedAt (t : Z) (r : InventoryRecord) : InventoryRecord :=
  mkInventoryRecord (i_CharacterID r) (Slots r) (Warehouse r) t.
Definition set_Stats (m : gmap runes Z) (r : CharacterRecord) : CharacterRecord :=
  mkCharacterRecord (c_CharacterID r) (AccountID r) (c_Slot r) (c_Name r) (c_Job r)
    (c_Level r) m (Location r) (Roster r) (c_CreatedAt r) (c_UpdatedAt r).
Definition set_c_UpdatedAt (t : Z) (r : CharacterRecord) : CharacterRecord :=
  mkCharacterRecord (c_CharacterID r) (AccountID r) (c_Slot r) (c_Name r) (c_Job r)
    (c_Level r) (Stats r) (Location r) (Roster r) (c_CreatedAt r) t.

(** A Go map read: the zero value where the key is absent. *)
Definition at_key {A} (zero : A) (m : gmap runes A) (k : runes) : A := default zero (m !! k).

(** ** Keys *)

Definition MainInventoryListType : Z := 0.
Definition CrystalWarehouseFirstSlot : Z := 354.
Definition SoulWarehouseLastSlot : Z := 365.

Definition IsAccountSharedInventorySlot (listType slot : Z) : bool :=
  (listType =? MainInventoryListType)
  && ((CrystalWarehouseFirstSlot <=? slot) && (slot <=? SoulWarehouseLastSlot)).

Definition InventoryKey (record : InventoryRecord) : runes := TrimSpace (i_CharacterID record).
Definition CharacterKey (record : CharacterRecord) : runes := TrimSpace (c_CharacterID record).

(** ** The interface of a record type to the stores: its key and its zero *)

Class Keyed (T : Type) : Type := { record_key : T → runes; zero_record : T }.

#[export] Instance inventory_keyed : Keyed InventoryRecord :=
  {| record_key := InventoryKey; zero_record := zero_inventory |}.
#[export] Instance character_keyed : Keyed CharacterRecord :=
  {| record_key := CharacterKey; zero_record := zero_character |}.

Inductive error :=
| ErrRecordKeyRequired
| ErrContext                (** the error of a cancelled context *)
| ErrStore                  (** a repository that refuses an access *)
| ErrTransactionUnavailable
| ErrRepositoryUnavailable
| ErrInvalidParticipants
| ErrInvalidOffer
| ErrItemUnavailable
| ErrItemNotTradeable
| ErrInventoryFull
| ErrGoldUnavailable
| ErrGoldOverflow
| ErrJoin (errs : list error).

(** What the calls learn from outside: whether the context is cancelled,
    whether the repository refuses the access, and the time. *)
Record env := Env {
  cancelled : nat → bool;
  refused : nat → bool;
  clock : nat → Z
}.

Section Store.
Context {T : Type} `{Keyed T} (e : env).

Abbreviation records := (gmap runes T).

Definition RecordKey (record : T) : outcome error runes :=
  let key := record_key record in
  fail_if bool_decide (key = []) with_ ErrRecordKeyRequired;;
  Ret key.

(** [MemoryStore.Load]: the key is used as it is given. *)
Definition mem_Load (s : records) (key : runes) : T * bool :=
  match s !! key with
  | Some record => (record, true)
  | None => (zero_record, false)
  end.

(** [MemoryStore.Save]. *)
Definition mem_Save (s : records) (record : T) : outcome error records :=
  key ← RecordKey record;
  Ret (<[key := record]> s).

(** [MemoryStore.Delete]. *)
Definition mem_Delete (s : records) (key : runes) : outcome error records :=
  let key := TrimSpace key in
  fail_if bool_decide (key = []) with_ ErrRecordKeyRequired;;
  Ret (delete key s).

End Store.

(** ** The repositories behind a unit of work *)

Record stores := mkStores {
  characters : gmap runes CharacterRecord;
  inventories : gmap runes InventoryRecord
}.

Definition set_characters (m : gmap runes CharacterRecord) (s : stores) : stores :=
  mkStores m (inventories s).
Definition set_inventories (m : gmap runes InventoryRecord) (s : stores) : stores :=
  mkStores (characters s) m.

Definition CharacterStoryDigestLastLevelStatKey : runes :=
  of_string "story_digest_last_level"%string.
Definition CharacterStoryDigestMigrationVersionStatKey : runes :=
  of_string "story_digest_migration_version"%string.

(** [for _, key := range keys { if existing.Stats[key] > record.Stats[key] ... }] *)
Definition keep_greater (existing stats : gmap runes Z) (key : runes) : gmap runes Z :=
  if at_key 0 stats key <? at_key 0 existing key
  then <[key := at_key 0 existing key]> stats else stats.

Definition savePreservingStoryDigest (s : gmap runes CharacterRecord) (record : CharacterRecord)
    : outcome error (gmap runes CharacterRecord) :=
  let '(existing, found) := mem_Load s (c_CharacterID record) in
  mem_Save s (if found : bool
    then set_Stats (foldl (keep_greater (Stats existing)) (Stats record)
      [CharacterStoryDigestLastLevelStatKey; CharacterStoryDigestMigrationVersionStatKey]) record
    else record).

Section Access.
Context (e : env).

Abbreviation access A := (call stores error A).

(** [ctx.Err()] where the caller returns it. *)
Definition check_context {S} : call S error unit :=
  b ← (consult (cancelled e) : call S error bool);
  fail_when b ErrContext.

(** An access to a repository that may be refused. *)
Definition guarded {A} (m : access A) : access A :=
  b ← (consult (refused e) : access bool);
  fail_when b ErrStore;; m.

Definition character_Load (id : runes) : access (CharacterRecord * bool) :=
  guarded (s ← (read : access stores); mret (mem_Load (characters s) id)).
Definition inventory_Load (id : runes) : access (InventoryRecord * bool) :=
  guarded (s ← (read : access stores); mret (mem_Load (inventories s) id)).

Definition character_Save (record : CharacterRecord) : access unit :=
  guarded (s ← (read : access stores);
    m ← (lift (savePreservingStoryDigest (characters s) record) : access _);
    write (set_characters m)).
Definition inventory_Save (record : InventoryRecord) : access unit :=
  guarded (s ← (read : access stores);
    m ← (lift (mem_Save (inventories s) record) : access _);
    write (set_inventories m)).

Definition character_Delete (id : runes) : access unit :=
  guarded (s ← (read : access stores);
    m ← (lift (mem_Delete (characters s) id) : access _);
    write (set_characters m)).
Definition inventory_Delete (id : runes) : access unit :=
  guarded (s ← (read : access stores);
    m ← (lift (mem_Delete (inventories s) id) : access _);
    write (set_inventories m)).

Definition restoreCharacterRecord (id : runes) (record : CharacterRecord) (existed dirty : bool)
    : access unit :=
  if negb dirty then mret tt
  else if existed then character_Save record
  else character_Delete id.

Definition restoreInventoryRecord (id : runes) (record : InventoryRecord) (existed : bool)
    : access unit :=
  if existed then inventory_Save record
  else inventory_Delete id.

End Access.
