(* ===== verification/TradeUnit.v ===== *)
(** * The unit of work of a trade between two characters

    [repository/memory/memory_transaction.go], [WithinCharacterTrade] and its
    two transactions: the callback reads and writes buffered copies of the two
    characters' records, and the buffers are saved after it. *)

From S2P Require Import Prelude GoStrings GoState Repository.

(** ** The transactions *)

(** [memoryCharacterTradeCharacterTransaction] and
    [memoryCharacterTradeInventoryTransaction]. *)
Record table (T : Type) := mkTable {
  allowed : gset runes; t_records : gmap runes T;
  t_exists : gmap runes bool; t_dirty : gmap runes bool
}.
Arguments mkTable {T} _ _ _ _.
Arguments allowed {T} _.
Arguments t_records {T} _.
Arguments t_exists {T} _.
Arguments t_dirty {T} _.

Section Table.
Context {T : Type} `{Keyed T}.

(** [Load], after the context check. *)
Definition table_Load (t : table T) (id : runes) : outcome error (T * bool) :=
  fail_if bool_decide (id ∉ allowed t) with_ ErrRecordKeyRequired;;
  Ret (at_key zero_record (t_records t) id, at_key false (t_exists t) id).

(** [Save], after the context check. *)
Definition table_Save (t : table T) (record : T) : outcome error (table T) :=
  let id := record_key record in
  fail_if bool_decide (id ∉ allowed t) with_ ErrRecordKeyRequired;;
  Ret (mkTable (allowed t) (<[id := record]> (t_records t))
    (<[id := true]> (t_exists t)) (<[id := true]> (t_dirty t))).

End Table.

Record trade_tx := mkTradeTx {
  tx_characters : table CharacterRecord;
  tx_inventories : table InventoryRecord
}.

(** ** Comparison of strings *)

Fixpoint runes_lt (a b : runes) : bool :=
  match a, b with
  | [], [] => false
  | [], _ :: _ => true
  | _ :: _, [] => false
  | x :: a', y :: b' => (x <? y) || ((x =? y) && runes_lt a' b')
  end.

Section Unit.
Context (e : env).

Abbreviation access A := (call stores error A).
Abbreviation trade A := (call trade_tx error A).

Definition tx_character_Load (id : runes) : trade (CharacterRecord * bool) :=
  let id := TrimSpace id in
  check_context e;;
  tx ← (read : trade trade_tx);
  lift (table_Load (tx_characters tx) id).

Definition tx_character_Save (record : CharacterRecord) : trade unit :=
  check_context e;;
  tx ← (read : trade trade_tx);
  t ← (lift (table_Save (tx_characters tx) record) : trade _);
  write (λ tx, mkTradeTx t (tx_inventories tx)).

Definition tx_inventory_Load (id : runes) : trade (InventoryRecord * bool) :=
  let id := TrimSpace id in
  check_context e;;
  tx ← (read : trade trade_tx);
  lift (table_Load (tx_inventories tx) id).

Definition tx_inventory_Save (record : InventoryRecord) : trade unit :=
  check_context e;;
  tx ← (read : trade trade_tx);
  t ← (lift (table_Save (tx_inventories tx) record) : trade _);
  write (λ tx, mkTradeTx (tx_characters tx) t).

(** ** The unit of work *)

(** [sort.Strings] on two strings. *)
Definition sort_Strings (a b : runes) : list runes :=
  if runes_lt b a then [b; a] else [a; b].

(** The records read for one participant. *)
Definition load_records (tx : trade_tx) (id : runes) : access trade_tx :=
  '(character, cfound) ← character_Load e id;
  let c := tx_characters tx in
  let c := mkTable (allowed c) (<[id := character]> (t_records c))
             (<[id := cfound]> (t_exists c)) (t_dirty c) in
  '(inventory, ifound) ← inventory_Load e id;
  let i := tx_inventories tx in
  mret (mkTradeTx c (mkTable (allowed i) (<[id := inventory]> (t_records i))
                       (<[id := ifound]> (t_exists i)) (t_dirty i))).

(** [committedTradeRecord]. *)
Record committed_record := mkCommitted { row_id : runes; wallet : bool }.

(** One restore of the rollback.  [characterRecords], [characterExists],
    [inventoryRecords] and [inventoryExists] are the maps that the
    transactions hold, and so are read here as the callback left them. *)
Definition restore_row (tx : trade_tx) (errs : list error) (row : committed_record)
    : access (list error) :=
  err ← attempt (if wallet row
    then restoreCharacterRecord e (row_id row)
           (at_key zero_character (t_records (tx_characters tx)) (row_id row))
           (at_key false (t_exists (tx_characters tx)) (row_id row)) true
    else restoreInventoryRecord e (row_id row)
           (at_key zero_inventory (t_records (tx_inventories tx)) (row_id row))
           (at_key false (t_exists (tx_inventories tx)) (row_id row)));
  mret (errs ++ option_list err).

Definition rollback {A} (tx : trade_tx) (committed : list committed_record) (cause : error)
    : access A :=
  errs ← for_range (restore_row tx) [cause] (rev committed);
  fail (ErrJoin errs).

(** [if err := save; err != nil { return rollback(err) }], then the row is
    recorded. *)
Definition commit_row (tx : trade_tx) (save : access unit) (row : committed_record)
    (committed : list committed_record) : access (list committed_record) :=
  err ← attempt save;
  match err with
  | Some cause => rollback tx committed cause
  | None => mret (committed ++ [row])
  end.

Definition commit_character (tx : trade_tx) (committed : list committed_record) (id : runes)
    : access (list committed_record) :=
  if at_key false (t_dirty (tx_characters tx)) id
  then commit_row tx
         (character_Save e (at_key zero_character (t_records (tx_characters tx)) id))
         (mkCommitted id true) committed
  else mret committed.

Definition commit_inventory (tx : trade_tx) (committed : list committed_record) (id : runes)
    : access (list committed_record) :=
  if at_key false (t_dirty (tx_inventories tx)) id
  then commit_row tx
         (inventory_Save e (at_key zero_inventory (t_records (tx_inventories tx)) id))
         (mkCommitted id false) committed
  else mret committed.

Definition new_table {T : Type} (a : gset runes) : table T := mkTable a ∅ ∅ ∅.

Definition WithinCharacterTrade {A} (firstID secondID : runes) (apply : trade A) : access A :=
  let first := TrimSpace firstID in
  let second := TrimSpace secondID in
  fail_when (bool_decide (first = []) || bool_decide (second = []) || bool_decide (first = second))
    ErrTransactionUnavailable;;
  check_context e;;
  let ids := sort_Strings first second in
  tx0 ← for_range load_records
          (mkTradeTx (new_table (list_to_set ids)) (new_table (list_to_set ids))) ids;
  '(tx, o) ← (within tx0 apply : access _);
  a ← (lift o : access A);
  check_context e;;
  committed ← for_range (commit_character tx) [] ids;
  _ ← for_range (commit_inventory tx) committed ids;
  mret a.

End Unit.
