(* ===== verification/Trade.v ===== *)
(** * The exchange of items and gold between two characters

    [modules/dnf/itemtrade/owner.go]: the validation of the two offers, the
    removal of the offered stacks, their insertion into free slots of the other
    bag, and the two purses, as one callback of the unit of work of [TradeUnit].
    Offers are sorted by their trade slot; two offers of one slot are refused, so
    that the result does not depend on how the sort orders them. *)

From S2P Require Import Prelude GoStrings GoState Repository TradeUnit.

Record Offer := mkOffer {
  TradeSlot : Z; SourceList : Z; SourceSlot : Z; o_Count : Z; ExpectedItem : Z
}.

Record Participant := mkParticipant { CharacterID : runes; Offers : list Offer; Gold : Z }.

Record Transfer := mkTransfer {
  FromCharacterID : runes; ToCharacterID : runes; t_TradeSlot : Z;
  DestinationList : Z; DestinationSlot : Z; Stack : ItemStack
}.

Record Result := mkResult {
  Inventories : gmap runes InventoryRecord;
  Characters : gmap runes CharacterRecord;
  Received : gmap runes (list Transfer)
}.

Record stagedOffer := mkStaged { offer : Offer; sourceKey : runes; stack : ItemStack }.

(** ** Slots *)

Definition mainListType : Z := 0.
Definition avatarListType : Z := 1.
Definition avatarFirst : Z := 0.
Definition avatarLast : Z := 500.

(** The pages of the bag: equipment, consumable, material, quest, profession,
    emblem and special. *)
Definition pages : list (Z * Z) :=
  [(9, 64); (65, 120); (121, 176); (177, 232); (233, 288); (289, 344); (345, 353)].

Definition supportedSourceList (listType : Z) : bool :=
  (listType =? mainListType) || (listType =? avatarListType).

Definition destinationSlotRange (listType sourceSlot : Z) : option (Z * Z) :=
  if listType =? avatarListType then
    if (sourceSlot <? avatarFirst) || (avatarLast <? sourceSlot) then None
    else Some (avatarFirst, avatarLast)
  else snd <$> list_find (λ page, page.1 <= sourceSlot ∧ sourceSlot <= page.2) pages.

Definition slotKey (listType slot : Z) : runes := format_int listType ++ [58] ++ format_int slot.

(** [for slot := start; slot <= end; slot++] up to the first free key. *)
Definition allocateDestinationSlot (slots : gmap runes ItemStack) (listType preferred : Z)
    : outcome error Z :=
  fail_if negb (supportedSourceList listType) with_ ErrInvalidOffer;;
  match destinationSlotRange listType preferred with
  | None => Fail ErrInvalidOffer
  | Some (first, last) =>
      match list_find (λ slot, slots !! slotKey listType slot = None)
              (seqZ first (last - first + 1)) with
      | Some (_, slot) => Ret slot
      | None => Fail ErrInventoryFull
      end
  end.

(** ** Validation of the offers *)

(** [sort.Slice] by trade slot, stable as Go's insertion sort is; two offers
    with one trade slot are refused in any order. *)
Fixpoint insert_offer (o : Offer) (l : list Offer) : list Offer :=
  match l with
  | [] => [o]
  | h :: l' => if TradeSlot o <? TradeSlot h then o :: l else h :: insert_offer o l'
  end.
Definition sort_offers (l : list Offer) : list Offer := foldl (λ acc o, insert_offer o acc) [] l.

Record validation := mkValidation {
  rows : list stagedOffer; tradeSlots : gset Z; sourceCounts : gmap runes Z
}.

Definition validate_offer (record : InventoryRecord) (now : Z) (v : validation) (o : Offer)
    : outcome error validation :=
  fail_if bool_decide (TradeSlot o ∈ tradeSlots v) || (o_Count o <=? 0)
          || negb (supportedSourceList (SourceList o)) || (SourceSlot o <? 0)
    with_ ErrInvalidOffer;;
  fail_if IsAccountSharedInventorySlot (SourceList o) (SourceSlot o) with_ ErrItemNotTradeable;;
  let key := slotKey (SourceList o) (SourceSlot o) in
  match Slots record !! key with
  | None => Fail ErrItemUnavailable
  | Some stack =>
      fail_if (ItemID stack <=? 0) || (Count stack <=? 0)
              || ((0 <? ExpectedItem o) && negb (ItemID stack =? ExpectedItem o))
        with_ ErrItemUnavailable;;
      fail_if Bind stack || (negb (IsZero (ExpireAt stack)) && negb (now <? ExpireAt stack))
        with_ ErrItemNotTradeable;;
      let count := i64 (at_key 0 (sourceCounts v) key + o_Count o) in
      fail_if Count stack <? count with_ ErrItemUnavailable;;
      Ret (mkValidation (rows v ++ [mkStaged o key stack])
             ({[TradeSlot o]} ∪ tradeSlots v) (<[key := count]> (sourceCounts v)))
  end.

Fixpoint validate_loop (record : InventoryRecord) (now : Z) (v : validation) (l : list Offer)
    : outcome error validation :=
  match l with
  | [] => Ret v
  | o :: l' => v' ← validate_offer record now v o; validate_loop record now v' l'
  end.

Definition validateOffers (record : InventoryRecord) (offers : list Offer) (now : Z)
    : outcome error (list stagedOffer) :=
  v ← validate_loop record now (mkValidation [] ∅ ∅) (sort_offers offers);
  Ret (rows v).

(** ** Moving the items *)

(** Takes one offered quantity out of its stack. *)
Definition remove_row (slots : gmap runes ItemStack) (row : stagedOffer) : gmap runes ItemStack :=
  let stack := at_key zero_stack slots (sourceKey row) in
  if o_Count (offer row) =? Count stack then delete (sourceKey row) slots
  else <[sourceKey row := set_Count (i64 (Count stack - o_Count (offer row))) stack]> slots.

(** Puts one offered quantity into a free slot of the recipient. *)
Definition place_row (from to : runes)
    (acc : gmap runes ItemStack * gmap runes (list Transfer)) (row : stagedOffer)
    : outcome error (gmap runes ItemStack * gmap runes (list Transfer)) :=
  let '(slots, received) := acc in
  slot ← allocateDestinationSlot slots (SourceList (offer row)) (SourceSlot (offer row));
  let stack := set_Count (o_Count (offer row)) (stack row) in
  let t := mkTransfer from to (TradeSlot (offer row)) (SourceList (offer row)) slot stack in
  Ret (<[slotKey (SourceList (offer row)) slot := stack]> slots,
       <[to := at_key [] received to ++ [t]]> received).

Fixpoint place_rows (from to : runes)
    (acc : gmap runes ItemStack * gmap runes (list Transfer)) (l : list stagedOffer)
    : outcome error (gmap runes ItemStack * gmap runes (list Transfer)) :=
  match l with
  | [] => Ret acc
  | row :: l' => acc' ← place_row from to acc row; place_rows from to acc' l'
  end.

(** ** Moving the gold *)

Definition gold_key : runes := of_string "gold"%string.

Definition move_gold (participant recipient : Participant) (record : CharacterRecord)
    : outcome error CharacterRecord :=
  let balance := at_key 0 (Stats record) gold_key in
  fail_if balance <? Gold participant with_ ErrGoldUnavailable;;
  let balance := i64 (balance - Gold participant) in
  fail_if i64 (max_int64 - balance) <? Gold recipient with_ ErrGoldOverflow;;
  Ret (set_Stats (<[gold_key := i64 (balance + Gold recipient)]> (Stats record)) record).

Section Owner.
Context (e : env).

Abbreviation access A := (call stores error A).
Abbreviation trade A := (call trade_tx error A).

Abbreviation loaded_inventories := (gmap runes InventoryRecord).
Abbreviation loaded_characters := (gmap runes CharacterRecord).

Definition time_now : trade Z := consult (clock e).

(** ** The loops of the exchange, over the two participants in order *)

Definition load_inventory (loaded : loaded_inventories) (p : Participant)
    : trade loaded_inventories :=
  '(record, found) ← tx_inventory_Load e (CharacterID p);
  let record := if found : bool then record
                else mkInventoryRecord (CharacterID p) ∅ ∅ 0 in
  mret (<[CharacterID p := record]> loaded).

Definition load_character (loaded : loaded_characters) (p : Participant)
    : trade loaded_characters :=
  '(record, found) ← tx_character_Load e (CharacterID p);
  fail_when (negb found) ErrGoldUnavailable;;
  mret (<[CharacterID p := record]> loaded).

Definition pay (loaded : loaded_characters) (pair : Participant * Participant)
    : trade loaded_characters :=
  let '(participant, recipient) := pair in
  record ← (lift (move_gold participant recipient
                    (at_key zero_character loaded (CharacterID participant))) : trade _);
  mret (<[CharacterID participant := record]> loaded).

Definition stage (loaded : loaded_inventories) (staged : gmap runes (list stagedOffer))
    (p : Participant) : trade (gmap runes (list stagedOffer)) :=
  now ← time_now;
  rows ← (lift (validateOffers (at_key zero_inventory loaded (CharacterID p)) (Offers p) now)
           : trade _);
  mret (<[CharacterID p := rows]> staged).

Definition take_out (staged : gmap runes (list stagedOffer)) (loaded : loaded_inventories)
    (p : Participant) : loaded_inventories :=
  let record := at_key zero_inventory loaded (CharacterID p) in
  <[CharacterID p := set_Slots
      (foldl remove_row (Slots record) (at_key [] staged (CharacterID p))) record]> loaded.

Definition hand_over (staged : gmap runes (list stagedOffer))
    (acc : loaded_inventories * gmap runes (list Transfer)) (pair : Participant * Participant)
    : trade (loaded_inventories * gmap runes (list Transfer)) :=
  let '(loaded, received) := acc in
  let '(participant, recipient) := pair in
  let record := at_key zero_inventory loaded (CharacterID recipient) in
  '(slots, received) ← (lift (place_rows (CharacterID participant) (CharacterID recipient)
      (Slots record, received) (at_key [] staged (CharacterID participant))) : trade _);
  mret (<[CharacterID recipient := set_Slots slots record]> loaded, received).

Definition save_inventory (loaded : loaded_inventories) (p : Participant)
    : trade loaded_inventories :=
  now ← time_now;
  let record := set_i_UpdatedAt now (at_key zero_inventory loaded (CharacterID p)) in
  tx_inventory_Save e record;;
  mret (<[CharacterID p := record]> loaded).

Definition save_character (loaded : loaded_characters) (p : Participant)
    : trade loaded_characters :=
  match loaded !! CharacterID p with
  | None => mret loaded
  | Some record =>
      now ← time_now;
      let record := set_c_UpdatedAt now record in
      tx_character_Save e record;;
      mret (<[CharacterID p := record]> loaded)
  end.

(** The callback of [Exchange], for the sorted participants. *)
Definition trade_body (a b : Participant) : trade Result :=
  loaded ← for_range load_inventory ∅ [a; b];
  wallets ← (if (0 <? Gold a) || (0 <? Gold b)
    then w ← for_range load_character ∅ [a; b]; for_range pay w [(a, b); (b, a)]
    else mret ∅);
  staged ← for_range (stage loaded) ∅ [a; b];
  let loaded := foldl (take_out staged) loaded [a; b] in
  '(loaded, received) ← for_range (hand_over staged) (loaded, ∅) [(a, b); (b, a)];
  loaded ← for_range save_inventory loaded [a; b];
  wallets ← for_range save_character wallets [a; b];
  mret (mkResult loaded wallets received).

Definition trimmed (p : Participant) : Participant :=
  mkParticipant (TrimSpace (CharacterID p)) (Offers p) (Gold p).

Definition Exchange (first second : Participant) : access Result :=
  let first := trimmed first in
  let second := trimmed second in
  fail_when (bool_decide (CharacterID first = []) || bool_decide (CharacterID second = [])
             || bool_decide (CharacterID first = CharacterID second)) ErrInvalidParticipants;;
  check_context e;;
  fail_when ((Gold first <? 0) || (Gold second <? 0)) ErrInvalidOffer;;
  let '(a, b) := if runes_lt (CharacterID second) (CharacterID first)
                 then (second, first) else (first, second) in
  WithinCharacterTrade e (CharacterID a) (CharacterID b) (trade_body a b).

End Owner.
