(* ===== verification/TradeItems.v ===== *)
(** * The item movements of a trade

    What validation guarantees of the offered rows, what taking them out
    leaves, where they are put, and the item and gold totals along the way. *)

From S2P Require Import Prelude GoStrings GoState Repository TradeUnit Trade.

(** ** Counting items *)

Definition part (id : Z) (s : ItemStack) : Z := if ItemID s =? id then Count s else 0.

(** How many pieces of an item a bag holds. *)
Definition held (id : Z) (slots : gmap runes ItemStack) : Z :=
  map_fold (λ _ s n, part id s + n) 0 slots.

Lemma held_insert id slots k s : slots !! k = None →
  held id (<[k := s]> slots) = part id s + held id slots.
Proof. intros Hk. unfold held. rewrite map_fold_insert_L; [done| |done]. intros; lia. Qed.

Lemma held_delete id slots k s : slots !! k = Some s →
  held id (delete k slots) = held id slots - part id s.
Proof.
  intros Hk. unfold held. rewrite (map_fold_delete_L _ 0 k s slots); [lia| |done]. intros; lia.
Qed.

Lemma held_update id slots k s s' : slots !! k = Some s →
  held id (<[k := s']> slots) = held id slots - part id s + part id s'.
Proof.
  intros Hk. rewrite <- insert_delete_eq, held_insert by apply lookup_delete_eq.
  rewrite (held_delete _ _ _ s) by done. lia.
Qed.

(** The quantity that rows take from one slot, and the pieces of an item
    that they move. *)
Fixpoint taken (key : runes) (l : list stagedOffer) : Z :=
  match l with
  | [] => 0
  | r :: l' => (if bool_decide (sourceKey r = key) then o_Count (offer r) else 0) + taken key l'
  end.
Fixpoint moved (id : Z) (l : list stagedOffer) : Z :=
  match l with
  | [] => 0
  | r :: l' => (if ItemID (stack r) =? id then o_Count (offer r) else 0) + moved id l'
  end.

(** The pieces asked for by the offers of a participant. *)
Definition offered (l : list Offer) : Z := foldr (λ o n, Z.max 0 (o_Count o) + n) 0 l.

Lemma taken_app key l1 l2 : taken key (l1 ++ l2) = taken key l1 + taken key l2.
Proof. induction l1; cbn; lia. Qed.

Definition positive_rows (l : list stagedOffer) : Prop := ∀ r, r ∈ l → 0 < o_Count (offer r).

Lemma positive_cons r l : positive_rows (r :: l) ↔ 0 < o_Count (offer r) ∧ positive_rows l.
Proof. unfold positive_rows. set_solver. Qed.

Lemma taken_nonneg key l : positive_rows l → 0 <= taken key l.
Proof.
  induction l as [|r l IH]; [done|]. intros [??]%positive_cons. cbn. specialize (IH ltac:(done)).
  case_bool_decide; lia.
Qed.

Lemma taken_pos key l r : positive_rows l → r ∈ l → sourceKey r = key → 0 < taken key l.
Proof.
  induction l as [|r' l IH]; [set_solver|].
  intros [Hr' Hl]%positive_cons [->|Hin]%elem_of_cons Hk; cbn.
  - rewrite bool_decide_true by done. pose proof (taken_nonneg key l Hl). lia.
  - specialize (IH Hl Hin Hk). case_bool_decide; lia.
Qed.

Lemma taken_ge l r : positive_rows l → r ∈ l → o_Count (offer r) <= taken (sourceKey r) l.
Proof.
  induction l as [|r' l IH]; [set_solver|].
  intros [Hr' Hl]%positive_cons [->|Hin]%elem_of_cons; cbn.
  - rewrite bool_decide_true by done. pose proof (taken_nonneg (sourceKey r') l Hl). lia.
  - specialize (IH Hl Hin). case_bool_decide; lia.
Qed.

Lemma taken_zero key l : (∀ r, r ∈ l → sourceKey r ≠ key) → taken key l = 0.
Proof.
  induction l as [|r l IH]; [done|]. intros H. cbn. rewrite bool_decide_false, IH; set_solver.
Qed.

(** ** Validation *)

(** An offered stack may leave: it is a real, unbound, unexpired one. *)
Definition tradeable (now : Z) (s : ItemStack) : Prop :=
  0 < ItemID s ∧ 0 < Count s ∧ Bind s = false ∧ (ExpireAt s = 0 ∨ now < ExpireAt s).

Definition row_ok (record : InventoryRecord) (now : Z) (r : stagedOffer) : Prop :=
  let o := offer r in
  0 < o_Count o ∧ supportedSourceList (SourceList o) = true ∧ 0 <= SourceSlot o ∧
  IsAccountSharedInventorySlot (SourceList o) (SourceSlot o) = false ∧
  sourceKey r = slotKey (SourceList o) (SourceSlot o) ∧
  Slots record !! sourceKey r = Some (stack r) ∧ tradeable now (stack r) ∧
  (0 < ExpectedItem o → ItemID (stack r) = ExpectedItem o).

(** The validated rows cover their slots: no slot is asked for more than it
    holds. *)
Definition rows_ok (record : InventoryRecord) (now : Z) (l : list stagedOffer) : Prop :=
  Forall (row_ok record now) l ∧
  ∀ r, r ∈ l → taken (sourceKey r) l <= Count (stack r).

Lemma row_ok_positive record now l : Forall (row_ok record now) l → positive_rows l.
Proof. rewrite Forall_forall. intros H r Hr. apply (H r Hr). Qed.

Lemma insert_offer_perm o l : insert_offer o l ≡ₚ o :: l.
Proof.
  induction l as [|h l IH]; [done|]. cbn. destruct (_ <? _); [done|]. rewrite IH. apply Permutation_swap.
Qed.

Lemma sort_offers_perm l : sort_offers l ≡ₚ l.
Proof.
  unfold sort_offers. cut (∀ acc, foldl (λ acc o, insert_offer o acc) acc l ≡ₚ acc ++ l).
  { intros H. apply (H []). }
  induction l as [|o l IH]; intros acc; cbn; [by rewrite app_nil_r|].
  rewrite IH, insert_offer_perm. cbn. apply Permutation_middle.
Qed.

Lemma offered_perm l1 l2 : l1 ≡ₚ l2 → offered l1 = offered l2.
Proof. intros H. induction H; unfold offered in *; cbn in *; lia. Qed.

Lemma offered_nonneg l : 0 <= offered l.
Proof. induction l; unfold offered in *; cbn in *; lia. Qed.

Definition counted (v : validation) : Prop :=
  ∀ key, at_key 0 (sourceCounts v) key = taken key (rows v).

Lemma at_key_insert {A} (zero x : A) m k k' :
  at_key zero (<[k := x]> m) k' = if bool_decide (k = k') then x else at_key zero m k'.
Proof.
  unfold at_key. case_bool_decide as Hk.
  - subst. by rewrite lookup_insert_eq.
  - by rewrite lookup_insert_ne.
Qed.

(** What one accepted offer adds. *)
Lemma validate_offer_ret record now v v' o :
  validate_offer record now v o = Ret v' → ∃ s,
  let r := mkStaged o (slotKey (SourceList o) (SourceSlot o)) s in
  let count := i64 (at_key 0 (sourceCounts v) (sourceKey r) + o_Count o) in
  TradeSlot o ∉ tradeSlots v ∧ row_ok record now r ∧ count <= Count s ∧
  v' = mkValidation (rows v ++ [r]) ({[TradeSlot o]} ∪ tradeSlots v)
         (<[sourceKey r := count]> (sourceCounts v)).
Proof.
  unfold validate_offer, guard_. intros Hv.
  destruct (_ || (SourceSlot o <? 0)) eqn:E1 in Hv; [done|].
  destruct (IsAccountSharedInventorySlot _ _) eqn:E2 in Hv; [done|].
  destruct (Slots record !! _) as [s|] eqn:E3; [|done]. exists s. cbn [sourceKey].
  destruct ((_ || _) || (_ && _)) eqn:E4 in Hv; [done|].
  destruct (Bind s || _) eqn:E5 in Hv; [done|].
  destruct (Count s <? _) eqn:E6 in Hv; [done|]. injection Hv as <-.
  bool_clean. unfold row_ok, tradeable. cbn [offer sourceKey stack].
  repeat split; try done; try lia.
  - unfold IsZero in *. destruct (ExpireAt s =? 0) eqn:?; cbn in *; bool_clean; [by left|right; lia].
Qed.

Lemma validate_offer_ok record now v v' o :
  validate_offer record now v o = Ret v' →
  counted v → rows_ok record now (rows v) →
  (∀ key, taken key (rows v) + o_Count o <= max_int64) →
  counted v' ∧ rows_ok record now (rows v') ∧ 0 < o_Count o ∧
  ∀ key, taken key (rows v') <= taken key (rows v) + o_Count o.
Proof.
  intros (s & Hslot & Hrow & Hle & ->)%validate_offer_ret Hc [Hrows Hsum] Hfit.
  cbn [sourceKey] in *. set (key := slotKey _ _) in *.
  pose proof (row_ok_positive _ _ _ Hrows) as Hpos.
  assert (0 < o_Count o) as Ho by apply Hrow.
  pose proof (taken_nonneg key _ Hpos). specialize (Hfit key) as Hk.
  rewrite Hc, i64_id in * by int_lia. unfold counted, rows_ok; cbn [rows sourceCounts].
  split_and!; [| | |done|].
  - intros k. rewrite at_key_insert, taken_app; cbn.
    case_bool_decide; subst; [rewrite ?Hc|by rewrite Hc, Z.add_0_r]; lia.
  - apply Forall_app. by split; [|apply Forall_singleton].
  - intros r [Hr| ->%list_elem_of_singleton]%elem_of_app; rewrite taken_app; cbn.
    + case_bool_decide as E; [|specialize (Hsum r Hr); lia].
      rewrite Forall_forall in Hrows. destruct (Hrows r Hr) as (_ & _ & _ & _ & _ & Hr1 & _).
      destruct Hrow as (_ & _ & _ & _ & _ & Hr2 & _). cbn [sourceKey stack] in Hr2.
      rewrite <- E, Hr2 in Hr1. injection Hr1 as <-. rewrite <- E. lia.
    + rewrite bool_decide_true by done. lia.
  - intros k. rewrite taken_app; cbn. case_bool_decide; lia.
Qed.

Lemma validate_loop_ok record now l : ∀ v v',
  validate_loop record now v l = Ret v' →
  counted v → rows_ok record now (rows v) →
  (∀ key, taken key (rows v) + offered l <= max_int64) →
  rows_ok record now (rows v').
Proof.
  induction l as [|o l IH]; cbn [validate_loop]; intros v v'; [by intros [= <-]|].
  intros (v1 & H1 & H2)%bind_ret_inv Hc Hr Hfit.
  assert (offered (o :: l) = Z.max 0 (o_Count o) + offered l) as E by done.
  pose proof (offered_nonneg l).
  edestruct (validate_offer_ok record now v v1 o) as (Hc1 & Hr1 & Ho & Hle); [done..| |].
  { intros key. specialize (Hfit key). lia. }
  apply (IH v1 v' H2 Hc1 Hr1). intros key. specialize (Hfit key). specialize (Hle key). lia.
Qed.

Lemma validateOffers_ok record offers now l :
  validateOffers record offers now = Ret l → offered offers <= max_int64 →
  rows_ok record now l.
Proof.
  unfold validateOffers. intros (v & H & [= <-])%bind_ret_inv Hfit.
  eapply (validate_loop_ok _ _ _ _ _ H); [done| |].
  - split; [constructor|]. set_solver.
  - intros key. cbn. by rewrite (offered_perm _ _ (sort_offers_perm offers)).
Qed.

(** The rows are the offers, in the order of their trade slots. *)
Lemma validate_loop_offers record now l : ∀ v v',
  validate_loop record now v l = Ret v' →
  offer <$> rows v' = (offer <$> rows v) ++ l.
Proof.
  induction l as [|o l IH]; cbn [validate_loop]; intros v v'.
  { intros [= <-]. by rewrite app_nil_r. }
  intros (v1 & (s & _ & _ & _ & ->)%validate_offer_ret & H2)%bind_ret_inv.
  rewrite (IH _ _ H2). cbn [rows]. rewrite fmap_app. cbn. by rewrite <- app_assoc.
Qed.

Lemma validateOffers_offers record offers now l :
  validateOffers record offers now = Ret l → offer <$> l = sort_offers offers.
Proof.
  unfold validateOffers. intros (v & H & [= <-])%bind_ret_inv.
  by rewrite (validate_loop_offers _ _ _ _ _ H).
Qed.

(** ** Taking out *)

Definition typed_slots (slots : gmap runes ItemStack) : Prop :=
  ∀ k s, slots !! k = Some s → in_i64 (Count s).

(** The rows still to be taken out are covered by the slots. *)
Definition covers (slots : gmap runes ItemStack) (l : list stagedOffer) : Prop :=
  positive_rows l ∧
  ∀ r, r ∈ l → ∃ s, slots !! sourceKey r = Some s ∧ ItemID s = ItemID (stack r) ∧
    taken (sourceKey r) l <= Count s ∧ in_i64 (Count s).

Lemma rows_ok_covers record now l :
  typed_slots (Slots record) → rows_ok record now l → covers (Slots record) l.
Proof.
  intros Ht [Hl Hs]. split; [by eapply row_ok_positive|]. intros r Hr. exists (stack r).
  rewrite Forall_forall in Hl. destruct (Hl r Hr) as (_ & _ & _ & _ & _ & H & _).
  split_and!; [done|done|by apply Hs|by eapply Ht].
Qed.

(** What a slot keeps after the rows have taken their part. *)
Definition left_over (slots : gmap runes ItemStack) (l : list stagedOffer) (key : runes)
    : option ItemStack :=
  s ← slots !! key;
  if bool_decide (taken key l = 0) then Some s
  else if bool_decide (taken key l = Count s) then None
  else Some (set_Count (Count s - taken key l) s).

Lemma remove_row_spec slots r l : covers slots (r :: l) →
  ∃ s, slots !! sourceKey r = Some s ∧ ItemID s = ItemID (stack r) ∧
    0 < o_Count (offer r) <= Count s ∧
    (∀ id, held id (remove_row slots r)
           = held id slots - (if ItemID (stack r) =? id then o_Count (offer r) else 0)) ∧
    remove_row slots r !! sourceKey r
      = (if o_Count (offer r) =? Count s then None
         else Some (set_Count (Count s - o_Count (offer r)) s)) ∧
    (∀ k, k ≠ sourceKey r → remove_row slots r !! k = slots !! k).
Proof.
  intros [[Hr Hl]%positive_cons Hc]. destruct (Hc r) as (s & Hs & Hid & Hle & Hty); [set_solver|].
  cbn [taken] in Hle. rewrite bool_decide_true in Hle by done.
  pose proof (taken_nonneg (sourceKey r) l Hl). exists s.
  unfold remove_row, at_key. rewrite Hs. change (default zero_stack (Some s)) with s.
  split_and!; try done; try lia.
  - intros id. rewrite <- Hid. destruct (o_Count (offer r) =? Count s) eqn:E; bool_clean.
    + rewrite (held_delete _ _ _ s) by done. unfold part. destruct (ItemID s =? id); lia.
    + rewrite (held_update _ _ _ s) by done. unfold part, set_Count; cbn [ItemID Count].
      rewrite i64_id by (unfold_width; lia). destruct (ItemID s =? id); lia.
  - destruct (o_Count (offer r) =? Count s); [apply lookup_delete_eq|].
    by rewrite lookup_insert_eq, i64_id by (unfold_width; lia).
  - intros k Hk. destruct (o_Count (offer r) =? Count s); [by rewrite lookup_delete_ne|by rewrite lookup_insert_ne].
Qed.

Lemma remove_row_covers slots r l : covers slots (r :: l) → covers (remove_row slots r) l.
Proof.
  intros Hcov. destruct (remove_row_spec _ _ _ Hcov) as (s & Hs & Hid & Hle & _ & Hat & Hne).
  destruct Hcov as [[Hr Hl]%positive_cons Hc]. split; [done|]. intros r' Hr'.
  destruct (Hc r') as (s' & Hs' & Hid' & Hle' & Hty'); [set_solver|]. cbn [taken] in Hle'.
  destruct (decide (sourceKey r = sourceKey r')) as [E|E].
  - rewrite bool_decide_true in Hle' by done. rewrite <- E, Hs in Hs'. injection Hs' as <-.
    pose proof (taken_pos (sourceKey r') l r' Hl Hr' eq_refl).
    exists (set_Count (Count s - o_Count (offer r)) s). rewrite <- E at 1. rewrite Hat.
    destruct (o_Count (offer r) =? Count s) eqn:E'; bool_clean; [lia|].
    cbn [set_Count ItemID Count]. split_and!; try done; unfold_width; lia.
  - rewrite bool_decide_false in Hle' by done. exists s'. rewrite Hne by done.
    split_and!; try done; lia.
Qed.

Lemma remove_rows_held id l : ∀ slots, covers slots l →
  held id (foldl remove_row slots l) = held id slots - moved id l.
Proof.
  induction l as [|r l IH]; intros slots Hc; cbn [foldl moved]; [lia|].
  rewrite IH by by apply remove_row_covers.
  destruct (remove_row_spec _ _ _ Hc) as (s & _ & _ & _ & -> & _). lia.
Qed.

Lemma remove_rows_lookup key l : ∀ slots, covers slots l →
  foldl remove_row slots l !! key = left_over slots l key.
Proof.
  induction l as [|r l IH]; intros slots Hc; cbn [foldl].
  { unfold left_over; cbn. by destruct (slots !! key). }
  rewrite IH by by apply remove_row_covers.
  destruct (remove_row_spec _ _ _ Hc) as (s & Hs & _ & Hle & _ & Hat & Hne).
  destruct Hc as [[Hr Hl]%positive_cons Hc]. pose proof (taken_nonneg key l Hl).
  destruct (Hc r) as (s' & Hs' & _ & Hle' & _); [set_solver|].
  rewrite Hs in Hs'. injection Hs' as <-. cbn [taken] in Hle'. rewrite bool_decide_true in Hle' by done.
  unfold left_over. cbn [taken].
  destruct (decide (sourceKey r = key)) as [<-|E].
  - rewrite Hat, Hs, !(bool_decide_true (sourceKey r = sourceKey r)) by done. cbn [mbind option_bind].
    destruct (o_Count (offer r) =? Count s) eqn:E; bool_clean; cbn [mbind option_bind set_Count Count].
    + by rewrite bool_decide_false, bool_decide_true by lia.
    + rewrite (bool_decide_false (_ + _ = 0)) by lia.
      repeat case_bool_decide; try lia; try done; f_equal; unfold set_Count; f_equal; cbn; lia.
  - rewrite Hne by done. by rewrite (bool_decide_false (_ = key)), Z.add_0_l.
Qed.

(** ** Putting in *)

Definition dest (t : Transfer) : runes := slotKey (DestinationList t) (DestinationSlot t).

(** A transfer delivers a row: the offered quantity of the offered stack, into
    the page of its source slot. *)
Definition delivers (from to : runes) (r : stagedOffer) (t : Transfer) : Prop :=
  FromCharacterID t = from ∧ ToCharacterID t = to ∧
  t_TradeSlot t = TradeSlot (offer r) ∧ DestinationList t = SourceList (offer r) ∧
  Stack t = set_Count (o_Count (offer r)) (stack r) ∧
  ∃ lo hi, destinationSlotRange (SourceList (offer r)) (SourceSlot (offer r)) = Some (lo, hi) ∧
    lo <= DestinationSlot t <= hi ∧ lo <= SourceSlot (offer r) <= hi.

Definition put (slots : gmap runes ItemStack) (t : Transfer) : gmap runes ItemStack :=
  <[dest t := Stack t]> slots.

(** Transfers put one after the other into empty slots. *)
Fixpoint into_empty (slots : gmap runes ItemStack) (l : list Transfer) : Prop :=
  match l with
  | [] => True
  | t :: l' => slots !! dest t = None ∧ into_empty (put slots t) l'
  end.

Lemma destinationSlotRange_source listType slot lo hi :
  destinationSlotRange listType slot = Some (lo, hi) → lo <= slot <= hi.
Proof.
  unfold destinationSlotRange. destruct (_ =? avatarListType).
  - destruct (_ || _) eqn:E; [done|]. intros [= <- <-]. bool_clean. lia.
  - intros ([i [? ?]] & Hf & E)%fmap_Some. cbn in E. injection E as -> ->.
    apply list_find_Some in Hf as (_ & H & _). done.
Qed.

Lemma allocate_ret slots listType preferred slot :
  allocateDestinationSlot slots listType preferred = Ret slot →
  slots !! slotKey listType slot = None ∧
  ∃ lo hi, destinationSlotRange listType preferred = Some (lo, hi) ∧ lo <= slot <= hi.
Proof.
  unfold allocateDestinationSlot, guard_. destruct (negb _); [done|].
  destruct (destinationSlotRange _ _) as [[lo hi]|]; [|done].
  destruct (list_find _ _) as [[i s]|] eqn:E; [|done]. intros [= <-].
  apply list_find_Some in E as (Hi & Hn & _). split; [done|]. exists lo, hi. split; [done|].
  apply list_elem_of_lookup_2, elem_of_seqZ in Hi. lia.
Qed.

Lemma place_rows_ret from to l : ∀ slots rec slots' rec',
  place_rows from to (slots, rec) l = Ret (slots', rec') →
  ∃ ts, Forall2 (delivers from to) l ts ∧ into_empty slots ts ∧ slots' = foldl put slots ts ∧
    at_key [] rec' to = at_key [] rec to ++ ts ∧
    ∀ k, k ≠ to → at_key [] rec' k = at_key [] rec k.
Proof.
  induction l as [|r l IH]; cbn [place_rows]; intros slots rec slots' rec'.
  { intros [= <- <-]. exists []. rewrite app_nil_r. split_and!; [constructor|done..]. }
  intros ([slots1 rec1] & H1 & H2)%bind_ret_inv.
  unfold place_row in H1. apply bind_ret_inv in H1 as (slot & Ha & [= <- <-]).
  destruct (IH _ _ _ _ H2) as (ts & Hts & He & -> & Hto & Hne).
  apply allocate_ret in Ha as (Hfree & lo & hi & Hr & Hb).
  exists (mkTransfer from to (TradeSlot (offer r)) (SourceList (offer r)) slot
            (set_Count (o_Count (offer r)) (stack r)) :: ts). split_and!.
  - constructor; [|done]. pose proof (destinationSlotRange_source _ _ _ _ Hr).
    unfold delivers; cbn. split_and!; [done..|]. exists lo, hi. split; [done|split; done].
  - cbn. split; [|done]. exact Hfree.
  - done.
  - rewrite Hto, at_key_insert, bool_decide_true by done. by rewrite <- app_assoc.
  - intros k Hk. by rewrite Hne, at_key_insert, bool_decide_false.
Qed.

Lemma put_held id from to l ts : Forall2 (delivers from to) l ts → ∀ slots,
  into_empty slots ts → held id (foldl put slots ts) = held id slots + moved id l.
Proof.
  induction 1 as [|r t l ts (_ & _ & _ & _ & Hst & _) _ IH]; intros slots; cbn [foldl moved]; [lia|].
  intros [Hfree He]. rewrite IH by done. unfold put. rewrite held_insert by done.
  rewrite Hst. unfold part, set_Count; cbn. destruct (_ =? id); lia.
Qed.

(** What the transfers leave: their stacks in their slots, the rest as it was. *)
Lemma put_lookup_other ts k : ∀ slots, (∀ t, t ∈ ts → dest t ≠ k) →
  foldl put slots ts !! k = slots !! k.
Proof.
  induction ts as [|t ts IH]; intros slots Hk; [done|]. cbn [foldl].
  rewrite IH by set_solver. unfold put. rewrite lookup_insert_ne; [done|]. apply Hk. set_solver.
Qed.

Lemma into_empty_fresh ts : ∀ slots t, into_empty slots ts → t ∈ ts → slots !! dest t = None.
Proof.
  induction ts as [|t' ts IH]; intros slots t; [set_solver|].
  intros [Hfree He] [->|Ht]%elem_of_cons; [done|].
  specialize (IH _ _ He Ht). unfold put in IH. by apply lookup_insert_None in IH as [? _].
Qed.

Lemma put_lookup_in ts : ∀ slots t, into_empty slots ts → t ∈ ts →
  foldl put slots ts !! dest t = Some (Stack t).
Proof.
  induction ts as [|t' ts IH]; intros slots t; [set_solver|].
  intros [Hfree He] [->|Ht]%elem_of_cons; cbn [foldl]; [|by apply IH].
  rewrite put_lookup_other; [by unfold put; rewrite lookup_insert_eq|].
  intros t Ht E. pose proof (into_empty_fresh _ _ _ He Ht) as Hn.
  unfold put in Hn. rewrite E, lookup_insert_eq in Hn. done.
Qed.

(** ** Gold *)

Definition gold (record : CharacterRecord) : Z := at_key 0 (Stats record) gold_key.

Lemma move_gold_ret participant recipient record record' :
  move_gold participant recipient record = Ret record' →
  in_i64 (gold record) → 0 <= Gold participant → in_i64 (Gold participant) →
  0 <= Gold recipient →
  0 <= gold record - Gold participant ∧
  gold record' = gold record - Gold participant + Gold recipient ∧
  in_i64 (gold record') ∧ c_CharacterID record' = c_CharacterID record ∧
  (∀ k, k ≠ gold_key → Stats record' !! k = Stats record !! k).
Proof.
  unfold move_gold, guard_. fold (gold record). intros H Hb Hp Hp' Hr.
  destruct (gold record <? _) eqn:E1; [done|].
  destruct (_ <? Gold recipient) eqn:E2; [done|]. injection H as <-. bool_clean.
  rewrite !i64_id in E2 by (rewrite ?i64_id; unfold_width; lia).
  rewrite (i64_id (gold record - _)) by (unfold_width; lia).
  rewrite i64_id by (unfold_width; lia).
  unfold gold in *; cbn [set_Stats Stats c_CharacterID]. rewrite at_key_insert, bool_decide_true by done.
  split_and!; try done; try (unfold_width; lia). intros k Hk. by rewrite lookup_insert_ne.
Qed.
