(* ===== verification/TradeSteps.v ===== *)
(** * The calls of a trade, one by one

    What each call of the repositories, the transactions and the exchange has
    done when it returns, and which state the calls keep whatever they
    return. *)

From S2P Require Import Prelude GoStrings GoState Repository TradeUnit Trade TradeItems.

(** ** Strings *)

Lemma drop_while_head f s : drop_while f (drop_while f s) = drop_while f s.
Proof. induction s as [|r s IH]; [done|]. cbn. destruct (f r) eqn:E; [done|]. cbn. by rewrite E. Qed.

Lemma drop_while_suffix f s : ∃ p, s = p ++ drop_while f s.
Proof.
  induction s as [|r s [p IH]]; [by exists []|]. cbn. destruct (f r); [|by exists []].
  exists (r :: p). cbn. by rewrite <- IH.
Qed.

Lemma trim_func_idem f s : trim_func f (trim_func f s) = trim_func f s.
Proof.
  unfold trim_func. set (u := drop_while f s).
  assert (drop_while f u = u) as Hu by apply drop_while_head. clearbody u.
  set (v := drop_while f (rev u)).
  assert (drop_while f (rev v) = rev v) as ->.
  { destruct (drop_while_suffix f (rev u)) as [p Hp]. fold v in Hp.
    apply (f_equal (@rev Z)) in Hp. rewrite rev_involutive, rev_app_distr in Hp.
    apply drop_while_ext in Hu. apply drop_while_ext. rewrite Hp in Hu. by destruct (rev v). }
  rewrite rev_involutive. subst v. by rewrite drop_while_head.
Qed.

Lemma TrimSpace_idem s : TrimSpace (TrimSpace s) = TrimSpace s.
Proof. apply trim_func_idem. Qed.

Lemma runes_lt_asym a : ∀ b, runes_lt a b = true → runes_lt b a = false.
Proof.
  induction a as [|x a IH]; intros [|y b]; cbn; [done..|].
  intros H. apply orb_true_iff in H as [H|[H1 H2]%andb_true_iff].
  - apply orb_false_iff. split; [lia|]. apply andb_false_iff. left. lia.
  - apply orb_false_iff. split; [lia|]. by rewrite (IH _ H2), andb_false_r.
Qed.

(** ** Repository accesses *)

Section Accesses.
Context (e : env).

Lemma check_context_ret {S} (s s' : nat * S) r :
  check_context e s = (s', Ret r) → s'.2 = s.2.
Proof. unfold check_context. intros H. call_inv H as s1 b H1. injection H1 as <- <-.
  by apply fail_when_ret in H as [_ ->]. Qed.

Lemma guarded_ret {A} (m : call stores error A) s s' a :
  guarded e m s = (s', Ret a) → ∃ n, m (n, s.2) = (s', Ret a).
Proof.
  unfold guarded. intros H. call_inv H as s1 b H1. injection H1 as <- <-.
  call_inv H as s2 u H2. apply fail_when_ret in H2 as [_ ->]. by exists (S s.1).
Qed.

Lemma character_Load_ret id s s' r :
  character_Load e id s = (s', Ret r) → s'.2 = s.2 ∧ r = mem_Load (characters s.2) id.
Proof. intros (n & [= <- <-])%guarded_ret. done. Qed.

Lemma inventory_Load_ret id s s' r :
  inventory_Load e id s = (s', Ret r) → s'.2 = s.2 ∧ r = mem_Load (inventories s.2) id.
Proof. intros (n & [= <- <-])%guarded_ret. done. Qed.

Lemma character_Save_ret record s s' r :
  character_Save e record s = (s', Ret r) →
  ∃ m, savePreservingStoryDigest (characters s.2) record = Ret m ∧ s'.2 = set_characters m s.2.
Proof.
  intros (n & H)%guarded_ret. call_inv H as s1 st H1. injection H1 as <- <-.
  call_inv H as s2 m H2. injection H2 as <- Hm. injection H as <- <-. by exists m.
Qed.

Lemma inventory_Save_ret record s s' r :
  inventory_Save e record s = (s', Ret r) →
  ∃ m, mem_Save (inventories s.2) record = Ret m ∧ s'.2 = set_inventories m s.2.
Proof.
  intros (n & H)%guarded_ret. call_inv H as s1 st H1. injection H1 as <- <-.
  call_inv H as s2 m H2. injection H2 as <- Hm. injection H as <- <-. by exists m.
Qed.

Lemma mem_Save_ret {T} `{Keyed T} (m m' : gmap runes T) record :
  mem_Save m record = Ret m' → m' = <[record_key record := record]> m.
Proof.
  unfold mem_Save, RecordKey, guard_. destruct (bool_decide _); [done|]. by intros [= <-].
Qed.

Lemma gold_key_digest : gold_key ≠ CharacterStoryDigestLastLevelStatKey ∧
  gold_key ≠ CharacterStoryDigestMigrationVersionStatKey.
Proof. by split. Qed.

Lemma keep_greater_gold existing stats key : gold_key ≠ key →
  at_key 0 (keep_greater existing stats key) gold_key = at_key 0 stats gold_key.
Proof.
  intros Hk. unfold keep_greater. destruct (_ <? _); [|done].
  by rewrite at_key_insert, bool_decide_false.
Qed.

(** Saving a wallet keeps its gold: only the story summary may be raised. *)
Lemma save_wallet_ret m m' record :
  savePreservingStoryDigest m record = Ret m' →
  ∃ record', m' = <[CharacterKey record := record']> m ∧ gold record' = gold record ∧
    CharacterKey record' = CharacterKey record.
Proof.
  unfold savePreservingStoryDigest. destruct (mem_Load _ _) as [existing []];
    intros ->%mem_Save_ret; [|by eexists].
  eexists. split_and!; [done| |done]. unfold gold. cbn [set_Stats Stats foldl].
  destruct gold_key_digest. by rewrite !keep_greater_gold.
Qed.

(** ** The transactions *)

Lemma table_Load_ret {T} `{Keyed T} (t : table T) id r :
  table_Load t id = Ret r →
  r = (at_key zero_record (t_records t) id, at_key false (t_exists t) id).
Proof. unfold table_Load, guard_. destruct (bool_decide _); [done|]. by intros [= <-]. Qed.

Lemma table_Save_ret {T} `{Keyed T} (t t' : table T) record :
  table_Save t record = Ret t' → record_key record ∈ allowed t ∧
  t' = mkTable (allowed t) (<[record_key record := record]> (t_records t))
         (<[record_key record := true]> (t_exists t)) (<[record_key record := true]> (t_dirty t)).
Proof.
  unfold table_Save, guard_. case_bool_decide as Hd; [done|]. intros [= <-].
  split; [|done]. by destruct (decide (record_key record ∈ allowed t)).
Qed.

Lemma tx_inventory_Load_ret id s s' r :
  tx_inventory_Load e id s = (s', Ret r) → TrimSpace id = id → s'.2 = s.2 ∧
  r = (at_key zero_record (t_records (tx_inventories s.2)) id,
       at_key false (t_exists (tx_inventories s.2)) id).
Proof.
  unfold tx_inventory_Load. intros H Hid. call_inv H as s1 u H1. apply check_context_ret in H1.
  call_inv H as s2 tx H2. injection H2 as <- <-. injection H as <- ->%table_Load_ret.
  by rewrite <- H1, Hid.
Qed.

Lemma tx_character_Load_ret id s s' r :
  tx_character_Load e id s = (s', Ret r) → TrimSpace id = id → s'.2 = s.2 ∧
  r = (at_key zero_record (t_records (tx_characters s.2)) id,
       at_key false (t_exists (tx_characters s.2)) id).
Proof.
  unfold tx_character_Load. intros H Hid. call_inv H as s1 u H1. apply check_context_ret in H1.
  call_inv H as s2 tx H2. injection H2 as <- <-. injection H as <- ->%table_Load_ret.
  by rewrite <- H1, Hid.
Qed.

Lemma tx_inventory_Save_ret record s s' r :
  tx_inventory_Save e record s = (s', Ret r) →
  ∃ t, table_Save (tx_inventories s.2) record = Ret t ∧
    s'.2 = mkTradeTx (tx_characters s.2) t.
Proof.
  unfold tx_inventory_Save. intros H. call_inv H as s1 u H1. apply check_context_ret in H1.
  call_inv H as s2 tx H2. injection H2 as <- <-. call_inv H as s3 t H3. injection H3 as <- Ht.
  injection H as <- <-. exists t. by rewrite <- H1.
Qed.

Lemma tx_character_Save_ret record s s' r :
  tx_character_Save e record s = (s', Ret r) →
  ∃ t, table_Save (tx_characters s.2) record = Ret t ∧
    s'.2 = mkTradeTx t (tx_inventories s.2).
Proof.
  unfold tx_character_Save. intros H. call_inv H as s1 u H1. apply check_context_ret in H1.
  call_inv H as s2 tx H2. injection H2 as <- <-. call_inv H as s3 t H3. injection H3 as <- Ht.
  injection H as <- <-. exists t. by rewrite <- H1.
Qed.

End Accesses.
