(* ===== verification/TradeBody.v ===== *)
(** * The body of an exchange

    What the callback of [Exchange] has computed when it returns: the two
    validated lists of rows, the two lists of transfers, and the records left
    in the transactions. *)

From S2P Require Import Prelude GoStrings GoState Repository TradeUnit Trade TradeItems TradeSteps.

Lemma for_range_two {S E A B} (f : B → A → call S E B) acc x y s s' r :
  for_range f acc [x; y] s = (s', Ret r) →
  ∃ s1 b, f acc x s = (s1, Ret b) ∧ f b y s1 = (s', Ret r).
Proof.
  cbn [for_range]. intros H. call_inv H as s1 b H1. call_inv H as s2 c H2.
  injection H as <- <-. eauto.
Qed.

(** The record the exchange starts from. *)
Definition tx_bag (tx : trade_tx) (id : runes) : InventoryRecord :=
  if at_key false (t_exists (tx_inventories tx)) id
  then at_key zero_inventory (t_records (tx_inventories tx)) id
  else mkInventoryRecord id ∅ ∅ 0.
Definition tx_wallet (tx : trade_tx) (id : runes) : CharacterRecord :=
  at_key zero_character (t_records (tx_characters tx)) id.

(** A table after [Save]. *)
Definition saved {T} (id : runes) (record : T) (t : table T) : table T :=
  mkTable (allowed t) (<[id := record]> (t_records t))
    (<[id := true]> (t_exists t)) (<[id := true]> (t_dirty t)).

(** [if participants[0].Gold > 0 || participants[1].Gold > 0]. *)
Definition gold_moves (a b : Participant) : bool := (0 <? Gold a) || (0 <? Gold b).

Section Body.
Context (e : env) (a b : Participant).

Abbreviation A := (CharacterID a).
Abbreviation B := (CharacterID b).

Hypothesis Hne : A ≠ B.
Hypothesis Ha : TrimSpace A = A.
Hypothesis Hb : TrimSpace B = B.

Lemma at_two {V} (zero x y : V) m :
  at_key zero (<[B := y]> (<[A := x]> m)) A = x ∧ at_key zero (<[B := y]> (<[A := x]> m)) B = y.
Proof.
  rewrite !at_key_insert, (bool_decide_false (B = A)), !bool_decide_true by done. done.
Qed.

Lemma over_two {V} (x y x' y' : V) (m : gmap runes V) :
  <[B := y]> (<[A := x]> (<[B := y']> (<[A := x']> m))) = <[B := y]> (<[A := x]> m).
Proof.
  rewrite (insert_insert_ne (<[A := x']> m) A B) by done. by rewrite !insert_insert_eq.
Qed.

Lemma load_inventories_ret s s' r :
  for_range (load_inventory e) ∅ [a; b] s = (s', Ret r) →
  s'.2 = s.2 ∧ r = <[B := tx_bag s.2 B]> (<[A := tx_bag s.2 A]> ∅).
Proof.
  intros (s1 & l1 & H1 & H2)%for_range_two. unfold load_inventory in H1, H2.
  call_inv H1 as t1 r1 E1. apply tx_inventory_Load_ret in E1 as [Es1 ->]; [|done].
  call_inv H2 as t2 r2 E2. apply tx_inventory_Load_ret in E2 as [Es2 ->]; [|done].
  injection H1 as <- <-. injection H2 as <- <-. by rewrite Es2, Es1.
Qed.

Lemma load_characters_ret s s' r :
  for_range (load_character e) ∅ [a; b] s = (s', Ret r) →
  s'.2 = s.2 ∧ r = <[B := tx_wallet s.2 B]> (<[A := tx_wallet s.2 A]> ∅) ∧
  at_key false (t_exists (tx_characters s.2)) A = true ∧
  at_key false (t_exists (tx_characters s.2)) B = true.
Proof.
  intros (s1 & l1 & H1 & H2)%for_range_two. unfold load_character in H1, H2.
  call_inv H1 as t1 r1 E1. apply tx_character_Load_ret in E1 as [Es1 ->]; [|done].
  call_inv H1 as t3 u E3. apply fail_when_ret in E3 as [F1 ->].
  call_inv H2 as t2 r2 E2. apply tx_character_Load_ret in E2 as [Es2 ->]; [|done].
  call_inv H2 as t4 u' E4. apply fail_when_ret in E4 as [F2 ->].
  injection H1 as <- <-. injection H2 as <- <-. apply negb_false_iff in F1, F2.
  rewrite Es1 in *. by rewrite Es2.
Qed.

Lemma pay_both_ret w s s' r :
  for_range pay w [(a, b); (b, a)] s = (s', Ret r) →
  at_key zero_character w A = at_key zero_character w A →
  ∃ ra rb, s' = s ∧ move_gold a b (at_key zero_character w A) = Ret ra ∧
    move_gold b a (at_key zero_character w B) = Ret rb ∧ r = <[B := rb]> (<[A := ra]> w).
Proof.
  intros (s1 & l1 & H1 & H2)%for_range_two _. unfold pay in H1, H2.
  call_inv H1 as t1 ra E1. injection E1 as <- E1. injection H1 as <- <-.
  call_inv H2 as t2 rb E2. injection E2 as <- E2. injection H2 as <- <-.
  rewrite at_key_insert, bool_decide_false in E2 by done. by exists ra, rb.
Qed.

(** The wallets after the gold phase. *)
Definition wallets_moved (tx : trade_tx) (w : gmap runes CharacterRecord) : Prop :=
  if gold_moves a b then
    ∃ ra rb, move_gold a b (tx_wallet tx A) = Ret ra ∧ move_gold b a (tx_wallet tx B) = Ret rb ∧
      at_key false (t_exists (tx_characters tx)) A = true ∧
      at_key false (t_exists (tx_characters tx)) B = true ∧
      w = <[B := rb]> (<[A := ra]> ∅)
  else w = ∅.

Lemma gold_phase_ret s s' w :
  (if gold_moves a b
   then w ← for_range (load_character e) ∅ [a; b]; for_range pay w [(a, b); (b, a)]
   else mret ∅) s = (s', Ret w) → s'.2 = s.2 ∧ wallets_moved s.2 w.
Proof.
  unfold wallets_moved. destruct (gold_moves a b); [|by intros [= <- <-]].
  intros H. call_inv H as s1 w0 H1.
  apply load_characters_ret in H1 as (Es & -> & F1 & F2).
  apply pay_both_ret in H as (ra & rb & -> & M1 & M2 & ->); [|done].
  destruct (at_two zero_character (tx_wallet s.2 A) (tx_wallet s.2 B) ∅) as [E1 E2].
  rewrite E1 in M1. rewrite E2 in M2. split; [done|]. exists ra, rb. split_and!; try done.
  apply over_two.
Qed.

Lemma stage_ret loaded s s' r :
  for_range (stage e loaded) ∅ [a; b] s = (s', Ret r) →
  ∃ na nb la lb, s'.2 = s.2 ∧ r = <[B := lb]> (<[A := la]> ∅) ∧
    validateOffers (at_key zero_inventory loaded A) (Offers a) na = Ret la ∧
    validateOffers (at_key zero_inventory loaded B) (Offers b) nb = Ret lb.
Proof.
  intros (s1 & l1 & H1 & H2)%for_range_two. unfold stage, time_now in H1, H2.
  call_inv H1 as t1 na E1. injection E1 as <- <-. call_inv H1 as t2 la E2. injection E2 as <- E2.
  injection H1 as <- <-.
  call_inv H2 as t1 nb E1. injection E1 as <- <-. call_inv H2 as t2 lb E3. injection E3 as <- E3.
  injection H2 as <- <-. by exists (clock e s.1), (clock e (S s.1)), la, lb.
Qed.

Lemma hand_over_ret staged loaded s s' loaded' rec' :
  for_range (hand_over staged) (loaded, ∅) [(a, b); (b, a)] s = (s', Ret (loaded', rec')) →
  ∃ sa sb rec, s' = s ∧
    place_rows A B (Slots (at_key zero_inventory loaded B), ∅) (at_key [] staged A)
      = Ret (sb, rec) ∧
    place_rows B A (Slots (at_key zero_inventory loaded A), rec) (at_key [] staged B)
      = Ret (sa, rec') ∧
    loaded' = <[A := set_Slots sa (at_key zero_inventory loaded A)]>
                (<[B := set_Slots sb (at_key zero_inventory loaded B)]> loaded).
Proof.
  intros (s1 & [l1 r1] & H1 & H2)%for_range_two. unfold hand_over in H1, H2.
  call_inv H1 as t1 [sb rec] E1. injection E1 as <- E1. injection H1 as <- <- <-.
  rewrite (at_key_insert _ _ _ B A), bool_decide_false in H2 by done.
  call_inv H2 as t2 [sa rec2] E2. injection E2 as <- E2. injection H2 as <- <- <-.
  by exists sa, sb, rec.
Qed.

Lemma save_inventory_ret loaded p s s' r :
  save_inventory e loaded p s = (s', Ret r) →
  InventoryKey (at_key zero_inventory loaded (CharacterID p)) = CharacterID p →
  ∃ t, let record := set_i_UpdatedAt t (at_key zero_inventory loaded (CharacterID p)) in
    r = <[CharacterID p := record]> loaded ∧
    s'.2 = mkTradeTx (tx_characters s.2) (saved (CharacterID p) record (tx_inventories s.2)) ∧
    CharacterID p ∈ allowed (tx_inventories s.2).
Proof.
  unfold save_inventory, time_now. intros H Hk.
  call_inv H as s1 t E1. injection E1 as <- <-.
  call_inv H as s2 u E2. apply tx_inventory_Save_ret in E2 as (tb & Hs & Es).
  apply table_Save_ret in Hs as [Hin ->]. injection H as <- <-. exists (clock e s.1).
  set (record := set_i_UpdatedAt _ _) in *.
  assert (record_key record = CharacterID p) as Ek by exact Hk.
  rewrite Ek in *. by rewrite Es.
Qed.

Lemma save_character_ret loaded p s s' r record :
  save_character e loaded p s = (s', Ret r) →
  loaded !! CharacterID p = Some record → CharacterKey record = CharacterID p →
  ∃ t, let record := set_c_UpdatedAt t record in
    r = <[CharacterID p := record]> loaded ∧
    s'.2 = mkTradeTx (saved (CharacterID p) record (tx_characters s.2)) (tx_inventories s.2) ∧
    CharacterID p ∈ allowed (tx_characters s.2).
Proof.
  unfold save_character, time_now. intros H Hl Hk. rewrite Hl in H.
  call_inv H as s1 t E1. injection E1 as <- <-.
  call_inv H as s2 u E2. apply tx_character_Save_ret in E2 as (tb & Hs & Es).
  apply table_Save_ret in Hs as [Hin ->]. injection H as <- <-. exists (clock e s.1).
  set (record' := set_c_UpdatedAt _ _) in *.
  assert (record_key record' = CharacterID p) as Ek by exact Hk.
  rewrite Ek in *. by rewrite Es.
Qed.

(** The transactions hold each participant's records under its own id. *)
Definition tx_keyed (tx : trade_tx) (id : runes) : Prop :=
  InventoryKey (tx_bag tx id) = id ∧
  (at_key false (t_exists (tx_characters tx)) id = true → CharacterKey (tx_wallet tx id) = id).

Definition gold_done (tx tx' : trade_tx) : Prop :=
  if gold_moves a b then
    ∃ ra rb va vb, move_gold a b (tx_wallet tx A) = Ret ra ∧
      move_gold b a (tx_wallet tx B) = Ret rb ∧
      at_key false (t_exists (tx_characters tx)) A = true ∧
      at_key false (t_exists (tx_characters tx)) B = true ∧
      tx_characters tx' =
        saved B (set_c_UpdatedAt vb rb) (saved A (set_c_UpdatedAt va ra) (tx_characters tx))
  else tx_characters tx' = tx_characters tx.

Definition items_done (tx tx' : trade_tx) (res : Result) : Prop :=
  ∃ na nb la lb sa sb rec1 ua ub,
    validateOffers (tx_bag tx A) (Offers a) na = Ret la ∧
    validateOffers (tx_bag tx B) (Offers b) nb = Ret lb ∧
    place_rows A B (foldl remove_row (Slots (tx_bag tx B)) lb, ∅) la = Ret (sb, rec1) ∧
    place_rows B A (foldl remove_row (Slots (tx_bag tx A)) la, rec1) lb
      = Ret (sa, Received res) ∧
    tx_inventories tx' =
      saved B (set_i_UpdatedAt ub (set_Slots sb (tx_bag tx B)))
        (saved A (set_i_UpdatedAt ua (set_Slots sa (tx_bag tx A))) (tx_inventories tx)).

Lemma save_inventories_ret ra rb m s s' r :
  for_range (save_inventory e) (<[A := ra]> (<[B := rb]> m)) [a; b] s = (s', Ret r) →
  InventoryKey ra = A → InventoryKey rb = B →
  ∃ ua ub, s'.2 = mkTradeTx (tx_characters s.2)
    (saved B (set_i_UpdatedAt ub rb) (saved A (set_i_UpdatedAt ua ra) (tx_inventories s.2))).
Proof.
  intros (s1 & l1 & H1 & H2)%for_range_two Ka Kb.
  apply save_inventory_ret in H1 as (ua & -> & E1 & _);
    rewrite at_key_insert, bool_decide_true in *; [|done..].
  apply save_inventory_ret in H2 as (ub & -> & E2 & _);
    rewrite ?insert_insert_eq, at_key_insert, bool_decide_false, at_key_insert,
      bool_decide_true in *; [|done..].
  exists ua, ub. by rewrite E2, E1.
Qed.

Lemma save_characters_ret s s' w r tx :
  wallets_moved tx w → tx_characters s.2 = tx_characters tx →
  (∀ id, id = A ∨ id = B → tx_keyed tx id) →
  for_range (save_character e) w [a; b] s = (s', Ret r) →
  gold_done tx s'.2 ∧ tx_inventories s'.2 = tx_inventories s.2.
Proof.
  unfold wallets_moved, gold_done. intros Hw Hs Hk (s1 & l1 & H1 & H2)%for_range_two.
  destruct (gold_moves a b).
  - destruct Hw as (ra & rb & Ma & Mb & Fa & Fb & ->).
    assert (∀ p q rec rec', move_gold p q rec = Ret rec' → CharacterKey rec' = CharacterKey rec)
      as Hkey.
    { unfold move_gold, guard_. intros p q rec rec'. repeat (destruct (_ <? _); [done|]).
      by intros [= <-]. }
    apply (save_character_ret _ _ _ _ _ ra) in H1 as (va & -> & E1 & _);
      [|by rewrite insert_insert_ne, lookup_insert_eq|rewrite (Hkey _ _ _ _ Ma); apply Hk; auto].
    apply (save_character_ret _ _ _ _ _ rb) in H2 as (vb & -> & E2 & _);
      [|by rewrite lookup_insert_ne, lookup_insert_eq
       |rewrite (Hkey _ _ _ _ Mb); apply Hk; auto].
    split; [|by rewrite E2, E1]. exists ra, rb, va, vb. split_and!; try done.
    by rewrite E2, E1, <- Hs.
  - subst w. unfold save_character in H1. rewrite lookup_empty in H1. injection H1 as <- <-.
    unfold save_character in H2. rewrite lookup_empty in H2. injection H2 as <- <-. done.
Qed.

Lemma trade_body_ret s s' res :
  (∀ id, id = A ∨ id = B → tx_keyed s.2 id) →
  trade_body e a b s = (s', Ret res) →
  items_done s.2 s'.2 res ∧ gold_done s.2 s'.2.
Proof.
  unfold trade_body. fold (gold_moves a b). intros Hk H.
  call_inv H as s1 loaded H1. apply load_inventories_ret in H1 as [E1 ->].
  call_inv H as s2 w H2. apply gold_phase_ret in H2 as [E2 Hw].
  call_inv H as s3 staged H3. apply stage_ret in H3 as (na & nb & la & lb & E3 & -> & Va & Vb).
  destruct (at_two zero_inventory (tx_bag s.2 A) (tx_bag s.2 B) ∅) as [LA LB].
  rewrite LA in Va. rewrite LB in Vb.
  destruct (at_two [] la lb ∅) as [SA SB].
  set (ia := set_Slots (foldl remove_row (Slots (tx_bag s.2 A)) la) (tx_bag s.2 A)).
  set (ib := set_Slots (foldl remove_row (Slots (tx_bag s.2 B)) lb) (tx_bag s.2 B)).
  assert (foldl (take_out (<[B := lb]> (<[A := la]> ∅)))
            (<[B := tx_bag s.2 B]> (<[A := tx_bag s.2 A]> ∅)) [a; b]
          = <[B := ib]> (<[A := ia]> ∅)) as Ef.
  { cbn [foldl]. unfold take_out. rewrite SA, SB, LA, at_key_insert, bool_decide_false, LB by done.
    apply over_two. }
  rewrite Ef in H. destruct (at_two zero_inventory ia ib ∅) as [IA IB].
  call_inv H as s4 lr H4. destruct lr as [loaded rec2].
  apply hand_over_ret in H4 as (sa & sb & rec1 & -> & P1 & P2 & ->).
  rewrite SA, IB in P1. rewrite SB, IA in P2. rewrite IA, IB in H.
  call_inv H as s5 l5 H5. apply save_inventories_ret in H5 as (ua & ub & E5);
    [|apply Hk; auto..].
  call_inv H as s6 l6 H6. injection H as <- <-.
  eapply (save_characters_ret _ _ _ _ s.2) in H6 as [Hg Hi]; [|by rewrite <- E1| |done].
  2:{ rewrite E5; cbn. by rewrite E3, E2, E1. }
  split; [|done]. exists na, nb, la, lb, sa, sb, rec1, ua, ub.
  split_and!; try done. rewrite Hi, E5; cbn. by rewrite E3, E2, E1.
Qed.

End Body.
