(* ===== verification/TradeCommit.v ===== *)
(** * The commit of an exchange

    The unit of work around the body: what it loads, and what the two stores
    hold when it returns. *)

From S2P Require Import Prelude GoStrings GoState Repository TradeUnit Trade TradeItems TradeSteps.
From S2P Require Import TradeBody.

(** A character's bag and gold, as the stores hold them. *)
Definition bag_record (st : stores) (id : runes) : InventoryRecord :=
  default (mkInventoryRecord id ∅ ∅ 0) (inventories st !! id).
Definition bag (st : stores) (id : runes) : gmap runes ItemStack := Slots (bag_record st id).
Definition wallet_of (st : stores) (id : runes) : CharacterRecord :=
  default zero_character (characters st !! id).
Definition purse (st : stores) (id : runes) : Z := gold (wallet_of st id).

(** Records are stored under their own keys and their numbers are [int64]s. *)
Definition stores_ok (st : stores) : Prop :=
  (∀ id r, inventories st !! id = Some r → InventoryKey r = id ∧ typed_slots (Slots r)) ∧
  (∀ id r, characters st !! id = Some r → CharacterKey r = id ∧ in_i64 (gold r)).

(** The transactions after the records of two characters are read. *)
Definition loaded_tx (st : stores) (x y : runes) : trade_tx :=
  let al : gset runes := list_to_set [x; y] in
  let c := λ id, mem_Load (characters st) id in
  let i := λ id, mem_Load (inventories st) id in
  mkTradeTx
    (mkTable al (<[y := (c y).1]> (<[x := (c x).1]> ∅)) (<[y := (c y).2]> (<[x := (c x).2]> ∅)) ∅)
    (mkTable al (<[y := (i y).1]> (<[x := (i x).1]> ∅)) (<[y := (i y).2]> (<[x := (i x).2]> ∅)) ∅).

Lemma loaded_tx_view st x y id : id = x ∨ id = y →
  tx_bag (loaded_tx st x y) id = bag_record st id ∧
  tx_wallet (loaded_tx st x y) id = wallet_of st id ∧
  at_key false (t_exists (tx_characters (loaded_tx st x y))) id
    = bool_decide (is_Some (characters st !! id)).
Proof.
  intros Hid. unfold tx_bag, tx_wallet, bag_record, wallet_of, loaded_tx.
  cbn [tx_characters tx_inventories t_records t_exists]. rewrite !at_key_insert.
  repeat case_bool_decide; subst; try (destruct Hid; congruence); unfold mem_Load;
    repeat match goal with
    | |- context [characters st !! ?k] => destruct (characters st !! k)
    | |- context [inventories st !! ?k] => destruct (inventories st !! k)
    | H : is_Some None |- _ => by destruct H
    | H : ¬ is_Some (Some _) |- _ => exfalso; apply H; by eexists
    end; try done; exfalso; naive_solver.
Qed.

Lemma loaded_tx_keyed st x y id : stores_ok st → TrimSpace id = id → id = x ∨ id = y →
  tx_keyed (loaded_tx st x y) id.
Proof.
  intros [Hi Hc] Ht Hid. destruct (loaded_tx_view st x y id Hid) as (E1 & E2 & E3).
  unfold tx_keyed. rewrite E1, E2, E3. unfold bag_record, wallet_of. split.
  - destruct (inventories st !! id) as [r|] eqn:E; [by apply Hi|exact Ht].
  - intros [r Hr]%bool_decide_eq_true_1. rewrite Hr. by apply Hc.
Qed.

Section Commit.
Context (e : env).

Lemma load_two_ret x y al s s' r :
  for_range (load_records e) (mkTradeTx (new_table al) (new_table al)) [x; y] s = (s', Ret r) →
  al = list_to_set [x; y] → s'.2 = s.2 ∧ r = loaded_tx s.2 x y.
Proof.
  intros (s1 & t1 & H1 & H2)%for_range_two ->. unfold load_records in H1, H2.
  call_inv H1 as u1 r1 E1. destruct r1 as [c1 f1]. apply character_Load_ret in E1 as [E1 F1].
  call_inv H1 as u2 r2 E2. destruct r2 as [c2 f2]. apply inventory_Load_ret in E2 as [E2 F2].
  injection H1 as <- <-.
  call_inv H2 as u3 r3 E3. destruct r3 as [c3 f3]. apply character_Load_ret in E3 as [E3 F3].
  call_inv H2 as u4 r4 E4. destruct r4 as [c4 f4]. apply inventory_Load_ret in E4 as [E4 F4].
  injection H2 as <- <-. rewrite E3, E2, E1 in *. split; [congruence|].
  unfold loaded_tx. by rewrite <- F1, <- F2, <- F3, <- F4.
Qed.

Lemma rollback_ret {A} tx committed cause s s' (r : A) :
  rollback e tx committed cause s ≠ (s', Ret r).
Proof. unfold rollback. intros H. call_inv H as s1 errs H1. done. Qed.

Lemma commit_row_ret tx save row committed s s' r :
  commit_row e tx save row committed s = (s', Ret r) → ∃ u, save s = (s', Ret u).
Proof.
  unfold commit_row. intros H. call_inv H as s1 err H1. unfold attempt in H1.
  destruct (save s) as [s2 [u|c|]]; [|..|done]; injection H1 as <- <-.
  - injection H as <- <-. by exists u.
  - by apply rollback_ret in H.
Qed.

Lemma commit_inventory_ret tx committed id s s' r :
  commit_inventory e tx committed id s = (s', Ret r) →
  at_key false (t_dirty (tx_inventories tx)) id = true →
  let record := at_key zero_inventory (t_records (tx_inventories tx)) id in
  s'.2 = set_inventories (<[InventoryKey record := record]> (inventories s.2)) s.2.
Proof.
  unfold commit_inventory. intros H Hd. rewrite Hd in H.
  apply commit_row_ret in H as [u (m & ->%mem_Save_ret & Hs)%inventory_Save_ret]. done.
Qed.

Lemma commit_character_ret tx committed id s s' r :
  commit_character e tx committed id s = (s', Ret r) →
  if at_key false (t_dirty (tx_characters tx)) id then
    ∃ record', let record := at_key zero_character (t_records (tx_characters tx)) id in
      s'.2 = set_characters (<[CharacterKey record := record']> (characters s.2)) s.2 ∧
      gold record' = gold record ∧ CharacterKey record' = CharacterKey record
  else s'.2 = s.2.
Proof.
  unfold commit_character. intros H. destruct (at_key _ _ _); [|by injection H as <- <-].
  apply commit_row_ret in H as [u (m & (r' & -> & Hg & Hk)%save_wallet_ret & Hs)%character_Save_ret].
  by exists r'.
Qed.

End Commit.

(** ** An exchange that returns *)

Section Returns.
Context (e : env) (a b : Participant).

Abbreviation A := (CharacterID a).
Abbreviation B := (CharacterID b).

Hypothesis Hne : A ≠ B.
Hypothesis Ha : TrimSpace A = A.
Hypothesis Hb : TrimSpace B = B.

(** The stores after the exchange, given what the body computed. *)
Definition committed_gold (st st' : stores) : Prop :=
  if gold_moves a b then
    ∃ ra rb ra' rb', move_gold a b (wallet_of st A) = Ret ra ∧
      move_gold b a (wallet_of st B) = Ret rb ∧
      is_Some (characters st !! A) ∧ is_Some (characters st !! B) ∧
      characters st' = <[B := rb']> (<[A := ra']> (characters st)) ∧
      gold ra' = gold ra ∧ gold rb' = gold rb ∧ CharacterKey ra' = A ∧ CharacterKey rb' = B
  else characters st' = characters st.

Definition committed_items (st st' : stores) (res : Result) : Prop :=
  ∃ na nb la lb sa sb rec1 ia ib,
    validateOffers (bag_record st A) (Offers a) na = Ret la ∧
    validateOffers (bag_record st B) (Offers b) nb = Ret lb ∧
    place_rows A B (foldl remove_row (bag st B) lb, ∅) la = Ret (sb, rec1) ∧
    place_rows B A (foldl remove_row (bag st A) la, rec1) lb = Ret (sa, Received res) ∧
    inventories st' = <[B := ib]> (<[A := ia]> (inventories st)) ∧
    Slots ia = sa ∧ Slots ib = sb ∧ InventoryKey ia = A ∧ InventoryKey ib = B.

Lemma commit_inventories_ret tx tx' c s s' r ra rb :
  tx_inventories tx' = saved B rb (saved A ra (tx_inventories tx)) →
  InventoryKey ra = A → InventoryKey rb = B →
  for_range (commit_inventory e tx') c [A; B] s = (s', Ret r) →
  inventories s'.2 = <[B := rb]> (<[A := ra]> (inventories s.2)) ∧
  characters s'.2 = characters s.2.
Proof.
  intros Ht Ka Kb (s1 & c1 & H1 & H2)%for_range_two.
  apply commit_inventory_ret in H1; [|by rewrite Ht; cbn; apply at_two].
  apply commit_inventory_ret in H2; [|by rewrite Ht; cbn; apply at_two].
  cbn zeta in H1, H2. rewrite Ht in H1, H2. cbn [saved t_records] in H1, H2.
  destruct (at_two a b Hne zero_inventory ra rb (t_records (tx_inventories tx))) as [E1 E2].
  rewrite E1, Ka in H1. rewrite E2, Kb in H2. by rewrite H2, H1.
Qed.

Lemma commit_characters_ret st tx tx' c s s' r :
  tx = loaded_tx st A B → stores_ok st → characters s.2 = characters st →
  gold_done a b tx tx' →
  for_range (commit_character e tx') c [A; B] s = (s', Ret r) →
  committed_gold st s'.2 ∧ inventories s'.2 = inventories s.2.
Proof.
  intros -> Hok Hs Hg (s1 & c1 & H1 & H2)%for_range_two.
  unfold gold_done in Hg. unfold committed_gold.
  destruct (loaded_tx_view st A B A) as (_ & WA & XA); [by left|].
  destruct (loaded_tx_view st A B B) as (_ & WB & XB); [by right|].
  apply commit_character_ret in H1. apply commit_character_ret in H2.
  destruct (gold_moves a b).
  - destruct Hg as (ra & rb & va & vb & Ma & Mb & Fa & Fb & Ht). rewrite Ht in H1, H2.
    cbn [saved t_records t_dirty] in H1, H2.
    rewrite WA in Ma. rewrite WB in Mb. rewrite XA in Fa. rewrite XB in Fb.
    apply bool_decide_eq_true_1 in Fa, Fb.
    rewrite (proj1 (at_two a b Hne _ _ _ _)) in H1. rewrite (proj2 (at_two a b Hne _ _ _ _)) in H2.
    destruct H1 as (ra' & E1 & G1 & K1). destruct H2 as (rb' & E2 & G2 & K2).
    rewrite (proj1 (at_two a b Hne _ _ _ _)) in E1, G1, K1.
    rewrite (proj2 (at_two a b Hne _ _ _ _)) in E2, G2, K2.
    assert (∀ p q rec rec', move_gold p q rec = Ret rec' → CharacterKey rec' = CharacterKey rec)
      as Hkey.
    { unfold move_gold, guard_. intros p q rec rec'. repeat (destruct (_ <? _); [done|]).
      by intros [= <-]. }
    destruct Fa as [wa Fa], Fb as [wb Fb].
    assert (CharacterKey ra = A) as KA.
    { rewrite (Hkey _ _ _ _ Ma). unfold wallet_of. rewrite Fa. by apply Hok. }
    assert (CharacterKey rb = B) as KB.
    { rewrite (Hkey _ _ _ _ Mb). unfold wallet_of. rewrite Fb. by apply Hok. }
    change (CharacterKey (set_c_UpdatedAt va ra)) with (CharacterKey ra) in *.
    change (CharacterKey (set_c_UpdatedAt vb rb)) with (CharacterKey rb) in *.
    rewrite KA in *. rewrite KB in *.
    split; [|by rewrite E2, E1]. exists ra, rb, ra', rb'. split_and!; eauto.
    rewrite E2; cbn. by rewrite E1; cbn; rewrite Hs.
  - rewrite Hg in H1, H2. cbn in H1, H2. by rewrite H2, H1.
Qed.

Lemma exchange_ordered_ret s s' res :
  stores_ok s.2 → runes_lt B A = false →
  WithinCharacterTrade e A B (trade_body e a b) s = (s', Ret res) →
  committed_items s.2 s'.2 res ∧ committed_gold s.2 s'.2.
Proof.
  intros Hok Hlt H. unfold WithinCharacterTrade in H. rewrite Ha, Hb in H.
  unfold sort_Strings in H. rewrite Hlt in H.
  call_inv H as s1 u1 H1. apply fail_when_ret in H1 as [_ ->].
  call_inv H as s2 u2 H2. apply check_context_ret in H2.
  call_inv H as s3 tx0 H3. apply load_two_ret in H3 as [E3 ->]; [|done].
  call_inv H as s4 txo H4. destruct txo as [tx o]. apply within_ret in H4 as [H4 E4].
  call_inv H as s5 res' H5. injection H5 as <- ->.
  apply trade_body_ret in H4 as [Hi Hg]; try done.
  2:{ cbn. intros id Hid. apply loaded_tx_keyed; [by rewrite H2|by destruct Hid as [-> | ->]|done]. }
  cbn [snd] in Hi, Hg. rewrite H2 in Hi, Hg.
  call_inv H as s6 u6 H6. apply check_context_ret in H6.
  call_inv H as s7 c7 H7.
  eapply (commit_characters_ret s.2) in H7 as [Hgold Ei7]; [|done|done|congruence|exact Hg].
  call_inv H as s8 c8 H8. injection H as <- <-.
  destruct Hi as (na & nb & la & lb & sa & sb & rec1 & ua & ub & Va & Vb & Pa & Pb & Ht).
  destruct (loaded_tx_view s.2 A B A) as (BA & _ & _); [by left|].
  destruct (loaded_tx_view s.2 A B B) as (BB & _ & _); [by right|].
  rewrite BA, BB in *.
  assert (InventoryKey (bag_record s.2 A) = A) as KA.
  { rewrite <- BA. eapply loaded_tx_keyed; [done..|by left]. }
  assert (InventoryKey (bag_record s.2 B) = B) as KB.
  { rewrite <- BB. eapply loaded_tx_keyed; [done..|by right]. }
  eapply commit_inventories_ret in H8 as [Ei8 Ec8]; [|exact Ht|exact KA|exact KB].
  split.
  - exists na, nb, la, lb, sa, sb, rec1,
      (set_i_UpdatedAt ua (set_Slots sa (bag_record s.2 A))),
      (set_i_UpdatedAt ub (set_Slots sb (bag_record s.2 B))).
    split_and!; try done. by rewrite Ei8, Ei7, H6, E4, E3, H2.
  - unfold committed_gold in *. by rewrite Ec8.
Qed.

End Returns.
