(* ===== verification/TradeTheorems.v ===== *)
(** * What the item trade guarantees

    A returned exchange is the agreed trade and conserves items and gold; one
    that does not return leaves the stores alone as long as no repository access
    is refused; and the executions in which a refused commit or a 32-bit overflow
    breaks the exchange. *)

From S2P Require Import Prelude GoStrings GoState Repository TradeUnit Trade TradeItems TradeSteps.
From S2P Require Import TradeBody TradeCommit.

(** ** What an exchange does, seen from the stores *)

(** The rows are the offers of a participant, in the order of the trade slots,
    and all of them may leave its bag. *)
Definition offers_rows (st : stores) (p : Participant) (now : Z) (l : list stagedOffer) : Prop :=
  offer <$> l = sort_offers (Offers p) ∧ rows_ok (bag_record st (CharacterID p)) now l.

(** [to] receives the rows [given] as the transfers [ts]: each lands in a slot
    that is empty once [to]'s own rows [lost] are out, and every other slot is
    what those rows leave of it. *)
Definition receives (st st' : stores) (from to : runes) (given lost : list stagedOffer)
    (ts : list Transfer) : Prop :=
  Forall2 (delivers from to) given ts ∧
  (∀ t, t ∈ ts → left_over (bag st to) lost (dest t) = None ∧
    bag st' to !! dest t = Some (Stack t)) ∧
  (∀ k, (∀ t, t ∈ ts → dest t ≠ k) → bag st' to !! k = left_over (bag st to) lost k).

Definition exchanged (st st' : stores) (a b : Participant) (res : Result) : Prop :=
  let A := CharacterID a in let B := CharacterID b in
  ∃ na nb la lb ta tb,
    offers_rows st a na la ∧ offers_rows st b nb lb ∧
    receives st st' A B la lb ta ∧ receives st st' B A lb la tb ∧
    at_key [] (Received res) B = ta ∧ at_key [] (Received res) A = tb ∧
    (∀ id, held id (bag st' A) + held id (bag st' B) = held id (bag st A) + held id (bag st B)) ∧
    (∀ id, id ≠ A → id ≠ B → inventories st' !! id = inventories st !! id).

Definition paid (st st' : stores) (a b : Participant) : Prop :=
  let A := CharacterID a in let B := CharacterID b in
  purse st' A = purse st A - Gold a + Gold b ∧ purse st' B = purse st B - Gold b + Gold a ∧
  (0 < Gold a ∨ 0 < Gold b → Gold a <= purse st A ∧ Gold b <= purse st B) ∧
  (∀ id, id ≠ A → id ≠ B → characters st' !! id = characters st !! id).

Lemma exchanged_sym st st' a b res : exchanged st st' a b res → exchanged st st' b a res.
Proof.
  intros (na & nb & la & lb & ta & tb & H1 & H2 & H3 & H4 & H5 & H6 & H7 & H8).
  exists nb, na, lb, la, tb, ta. split_and!; try done.
  - intros id. specialize (H7 id). lia.
  - intros id ??. by apply H8.
Qed.

Lemma paid_sym st st' a b : paid st st' a b → paid st st' b a.
Proof.
  intros (H1 & H2 & H3 & H4). split_and!; [done|done|naive_solver|intros id ??; by apply H4].
Qed.

(** Everything an offered amount can be: a non-negative [int64]. *)
Definition amounts_ok (p : Participant) : Prop :=
  offered (Offers p) <= max_int64 ∧ in_i64 (Gold p).

Lemma receives_placed st st' from to given lost ts :
  covers (bag st to) lost →
  Forall2 (delivers from to) given ts →
  into_empty (foldl remove_row (bag st to) lost) ts →
  bag st' to = foldl put (foldl remove_row (bag st to) lost) ts →
  receives st st' from to given lost ts.
Proof.
  intros Hc Hd He Hb. split_and!; [done| |].
  - intros t Ht. rewrite <- remove_rows_lookup, Hb by done.
    split; [by eapply into_empty_fresh|by apply put_lookup_in].
  - intros k Hk. by rewrite Hb, put_lookup_other, remove_rows_lookup.
Qed.

Lemma bag_inserted st id r m : inventories st = <[id := r]> m → bag st id = Slots r.
Proof. intros H. unfold bag, bag_record. by rewrite H, lookup_insert_eq. Qed.

Lemma bag_typed st id : stores_ok st → typed_slots (bag st id).
Proof.
  intros [Hi _] k s. unfold bag, bag_record. destruct (inventories st !! id) as [r|] eqn:E; cbn.
  - apply (Hi id r E).
  - rewrite lookup_empty. done.
Qed.

Lemma rows_of st p now l : stores_ok st → amounts_ok p →
  validateOffers (bag_record st (CharacterID p)) (Offers p) now = Ret l →
  offers_rows st p now l ∧ covers (bag st (CharacterID p)) l.
Proof.
  intros Hok [Hp _] Hv. pose proof (validateOffers_ok _ _ _ _ Hv Hp) as Hr.
  split; [split; [by apply (validateOffers_offers _ _ _ _ Hv)|done]|].
  eapply rows_ok_covers; [by apply bag_typed|done].
Qed.

Section Pair.
Context (st st' : stores) (a b : Participant).

Abbreviation A := (CharacterID a).
Abbreviation B := (CharacterID b).

Hypothesis Hne : A ≠ B.
Hypothesis Hok : stores_ok st.
Hypothesis Hfa : amounts_ok a.
Hypothesis Hfb : amounts_ok b.

Lemma committed_exchanged res : committed_items a b st st' res → exchanged st st' a b res.
Proof.
  intros (na & nb & la & lb & sa & sb & rec1 & ia & ib & Va & Vb & Pa & Pb & Hi & <- & <- & _).
  destruct (rows_of st a na la Hok Hfa Va) as [Ra Ca].
  destruct (rows_of st b nb lb Hok Hfb Vb) as [Rb Cb].
  apply place_rows_ret in Pa as (ta & Da & Ea & Sa & RaB & RaO).
  apply place_rows_ret in Pb as (tb & Db & Eb & Sb & RbA & RbO).
  assert (bag st' A = Slots ia) as BA.
  { eapply bag_inserted. by rewrite Hi, insert_insert_ne. }
  assert (bag st' B = Slots ib) as BB by by eapply bag_inserted.
  exists na, nb, la, lb, ta, tb. split_and!; try done.
  - apply receives_placed; try done. by rewrite BB.
  - apply receives_placed; try done. by rewrite BA.
  - rewrite RbO, RaB by done. done.
  - rewrite RbA, RaO by done. done.
  - intros id. rewrite BA, BB, Sa, Sb.
    rewrite (put_held id _ _ _ _ Da), (put_held id _ _ _ _ Db) by done.
    rewrite !remove_rows_held by done. lia.
  - intros id H1 H2. by rewrite Hi, !lookup_insert_ne.
Qed.

Lemma wallet_typed id : in_i64 (purse st id).
Proof.
  unfold purse, wallet_of. destruct (characters st !! id) as [r|] eqn:E; [|done].
  by apply Hok in E as [_ ?].
Qed.

Lemma committed_paid : 0 <= Gold a → 0 <= Gold b → committed_gold a b st st' →
  paid st st' a b ∧ in_i64 (purse st' A) ∧ in_i64 (purse st' B).
Proof.
  unfold committed_gold, gold_moves. intros Ga Gb H.
  destruct (_ || _) eqn:E in H.
  - destruct H as (ra & rb & ra' & rb' & Ma & Mb & _ & _ & Hc & E1 & E2 & _).
    apply move_gold_ret in Ma as (La & Va & Ia & _); [|apply wallet_typed|done|apply Hfa|done].
    apply move_gold_ret in Mb as (Lb & Vb & Ib & _); [|apply wallet_typed|done|apply Hfb|done].
    fold (purse st A) in La, Va. fold (purse st B) in Lb, Vb.
    assert (purse st' A = gold ra) as PA.
    { unfold purse, wallet_of. by rewrite Hc, lookup_insert_ne, lookup_insert_eq. }
    assert (purse st' B = gold rb) as PB.
    { unfold purse, wallet_of. by rewrite Hc, lookup_insert_eq. }
    rewrite PA, PB. split_and!; try done; try lia. unfold paid. rewrite PA, PB.
    split_and!; [lia..|intros id H1 H2; by rewrite Hc, !lookup_insert_ne].
  - bool_clean. assert (Gold a = 0) as Za by lia. assert (Gold b = 0) as Zb by lia.
    assert (∀ id, purse st' id = purse st id) as Hp
      by (intros id; unfold purse, wallet_of; by rewrite H).
    unfold paid. rewrite Za, Zb, !Hp, H. split_and!; try lia; try done; apply wallet_typed.
Qed.

Lemma moved_typed l lost now from to ts rec slots :
  covers slots lost → rows_ok rec now l → typed_slots (Slots rec) → typed_slots slots →
  Forall2 (delivers from to) l ts →
  typed_slots (foldl put (foldl remove_row slots lost) ts).
Proof.
  intros Hc [Hrows Hsum] Htr Hts Hd.
  assert (typed_slots (foldl remove_row slots lost)) as H0.
  { intros k s. rewrite remove_rows_lookup by done. unfold left_over.
    destruct (slots !! k) as [s0|] eqn:E; [|done]. cbn.
    repeat case_bool_decide; intros [= <-]; [by eapply Hts|].
    destruct Hc as [Hpos Hc]. pose proof (taken_nonneg k lost Hpos).
    pose proof (Hts _ _ E). cbn. unfold_width.
    destruct (decide (Exists (λ r, sourceKey r = k) lost)) as [Hex|Hex].
    - apply Exists_exists in Hex as (r & Hr & <-). destruct (Hc r Hr) as (s1 & Hs1 & _ & Hle & _).
      rewrite E in Hs1. injection Hs1 as <-. lia.
    - exfalso. apply H. apply taken_zero. intros r Hr Hk. apply Hex. apply Exists_exists. eauto. }
  assert (∀ t, t ∈ ts → in_i64 (Count (Stack t))) as Ht.
  { intros t Hin. apply list_elem_of_lookup in Hin as [i Hi].
    destruct (Forall2_lookup_r _ _ _ _ _ Hd Hi) as (r & Hr & _ & _ & _ & _ & -> & _).
    apply list_elem_of_lookup_2 in Hr. rewrite Forall_forall in Hrows.
    pose proof (Hsum r Hr) as Hle. destruct (Hrows r Hr) as (Hp & _ & _ & _ & _ & Hl & _).
    pose proof (Htr _ _ Hl). cbn.
    pose proof (taken_ge _ _ (row_ok_positive _ _ _ (proj2 (Forall_forall _ _) Hrows)) Hr).
    unfold_width; lia. }
  revert H0 Ht. generalize (foldl remove_row slots lost). clear.
  induction ts as [|t ts IH]; intros m Hm Ht; [done|]. cbn. apply IH; [|set_solver].
  unfold put. intros k s [[<- <-]|[_ H]]%lookup_insert_Some; [apply Ht; set_solver|by eapply Hm].
Qed.

Lemma committed_ok res :
  committed_items a b st st' res → committed_gold a b st st' → 0 <= Gold a → 0 <= Gold b →
  stores_ok st'.
Proof.
  intros (na & nb & la & lb & sa & sb & rec1 & ia & ib & Va & Vb & Pa & Pb & Hi & <- & <- & KA & KB)
    Hg Ga Gb.
  destruct (committed_paid Ga Gb Hg) as (_ & PA & PB).
  destruct (rows_of st a na la Hok Hfa Va) as [Ra Ca].
  destruct (rows_of st b nb lb Hok Hfb Vb) as [Rb Cb].
  apply place_rows_ret in Pa as (ta & Da & _ & Sa & _).
  apply place_rows_ret in Pb as (tb & Db & _ & Sb & _).
  split.
  - intros id r. rewrite Hi. intros [[<- <-]|[H1 [[<- <-]|[H2 H3]]%lookup_insert_Some]]%lookup_insert_Some.
    + split; [done|]. rewrite Sa. eapply moved_typed; try done; try apply Ra; by apply bag_typed.
    + split; [done|]. rewrite Sb. eapply moved_typed; try done; try apply Rb; by apply bag_typed.
    + by apply Hok.
  - intros id r Hr. unfold committed_gold in Hg. destruct (gold_moves a b).
    + destruct Hg as (ra & rb & ra' & rb' & _ & _ & _ & _ & Hc & _ & _ & K1 & K2).
      assert (purse st' id = gold r) as Hp by (unfold purse, wallet_of; by rewrite Hr).
      rewrite Hc in Hr.
      apply lookup_insert_Some in Hr as [[<- <-]|[H1 [[<- <-]|[H2 H3]]%lookup_insert_Some]].
      * by rewrite <- Hp.
      * by rewrite <- Hp.
      * by apply Hok.
    + rewrite Hg in Hr. by apply Hok.
Qed.

End Pair.

(** ** The exchange *)

Lemma Exchange_ret e first second s s' res :
  Exchange e first second s = (s', Ret res) → stores_ok s.2 →
  let a := trimmed first in let b := trimmed second in
  CharacterID a ≠ CharacterID b ∧ 0 <= Gold a ∧ 0 <= Gold b ∧
  ((committed_items a b s.2 s'.2 res ∧ committed_gold a b s.2 s'.2) ∨
   (committed_items b a s.2 s'.2 res ∧ committed_gold b a s.2 s'.2)).
Proof.
  unfold Exchange. intros H Hok. cbn zeta in H |- *.
  set (a := trimmed first) in *. set (b := trimmed second) in *.
  assert (TrimSpace (CharacterID a) = CharacterID a) as Ta by apply TrimSpace_idem.
  assert (TrimSpace (CharacterID b) = CharacterID b) as Tb by apply TrimSpace_idem.
  call_inv H as s1 u1 H1. apply fail_when_ret in H1 as [Hids ->].
  call_inv H as s2 u2 H2. apply check_context_ret in H2.
  call_inv H as s3 u3 H3. apply fail_when_ret in H3 as [Hgold ->].
  bool_clean. rewrite <- H2 in *. split_and!; [done..|].
  destruct (runes_lt (CharacterID b) (CharacterID a)) eqn:Hlt.
  - right. apply exchange_ordered_ret in H; try done. by apply runes_lt_asym.
  - left. by apply exchange_ordered_ret in H.
Qed.

(** ** An exchange that fails *)

(** Every dirty record of a transaction has a key to be saved under. *)
Definition table_savable {T} `{Keyed T} (t : table T) : Prop :=
  (∀ id, id ∈ allowed t → id ≠ []) ∧
  ∀ id, at_key false (t_dirty t) id = true → record_key (at_key zero_record (t_records t) id) ≠ [].
Definition tx_savable (tx : trade_tx) : Prop :=
  table_savable (tx_characters tx) ∧ table_savable (tx_inventories tx).

Lemma table_Save_savable {T} `{Keyed T} (t t' : table T) record :
  table_Save t record = Ret t' → table_savable t → table_savable t'.
Proof.
  intros [Hin ->]%table_Save_ret [Hal Hd]. split; [done|]. cbn. intros id.
  rewrite !at_key_insert. case_bool_decide as E; [by subst; auto|]. apply Hd.
Qed.

Lemma loaded_savable st x y : x ≠ [] → y ≠ [] → tx_savable (loaded_tx st x y).
Proof. intros Hx Hy. split; (split; [cbn; set_solver|done]). Qed.

Section Fails.
Context (e : env).

Lemma quiet_check {S} : quiet (check_context e : call S error unit).
Proof. unfold check_context. auto with quiet. Qed.
#[local] Hint Resolve quiet_check : quiet.

Lemma quiet_character_Load id : quiet (character_Load e id).
Proof. unfold character_Load, guarded. auto 10 with quiet. Qed.
Lemma quiet_inventory_Load id : quiet (inventory_Load e id).
Proof. unfold inventory_Load, guarded. auto 10 with quiet. Qed.
#[local] Hint Resolve quiet_character_Load quiet_inventory_Load : quiet.

Lemma quiet_load_records tx id : quiet (load_records e tx id).
Proof.
  unfold load_records. apply quiet_bind; [auto with quiet|]. intros [].
  apply quiet_bind; [auto with quiet|]. intros []. auto with quiet.
Qed.

(** The exchange reaches the transactions only through their [Save]s. *)
Lemma keeps_save_inventory loaded p : keeps tx_savable (save_inventory e loaded p).
Proof.
  unfold save_inventory. apply keeps_bind; [apply keeps_still, quiet_consult|]. intros now.
  apply keeps_bind; [|intros; apply keeps_still, quiet_ret].
  unfold tx_inventory_Save. apply keeps_bind; [apply keeps_still, quiet_check|]. intros _.
  intros s [Hc Hi]. run_call.
  destruct (table_Save (tx_inventories s.2) _) as [t| |] eqn:E; [|done..].
  split; [done|]. by eapply table_Save_savable.
Qed.

Lemma keeps_save_character loaded p : keeps tx_savable (save_character e loaded p).
Proof.
  unfold save_character. destruct (loaded !! _); [|apply keeps_still, quiet_ret].
  apply keeps_bind; [apply keeps_still, quiet_consult|]. intros now.
  apply keeps_bind; [|intros; apply keeps_still, quiet_ret].
  unfold tx_character_Save. apply keeps_bind; [apply keeps_still, quiet_check|]. intros _.
  intros s [Hc Hi]. run_call.
  destruct (table_Save (tx_characters s.2) _) as [t| |] eqn:E; [|done..].
  split; [|done]. by eapply table_Save_savable.
Qed.

Lemma quiet_tx_inventory_Load id : quiet (tx_inventory_Load e id).
Proof. unfold tx_inventory_Load. auto 10 with quiet. Qed.
Lemma quiet_tx_character_Load id : quiet (tx_character_Load e id).
Proof. unfold tx_character_Load. auto 10 with quiet. Qed.

Lemma quiet_load_inventory m p : quiet (load_inventory e m p).
Proof.
  unfold load_inventory. apply quiet_bind; [apply quiet_tx_inventory_Load|].
  intros []. auto with quiet.
Qed.

Lemma quiet_load_character m p : quiet (load_character e m p).
Proof.
  unfold load_character. apply quiet_bind; [apply quiet_tx_character_Load|].
  intros []. auto with quiet.
Qed.

Lemma quiet_pay m pair : quiet (pay m pair).
Proof. destruct pair. unfold pay. auto with quiet. Qed.

Lemma quiet_hand_over staged acc pair : quiet (hand_over staged acc pair).
Proof.
  destruct acc, pair. unfold hand_over. apply quiet_bind; [auto with quiet|].
  intros []. auto with quiet.
Qed.
#[local] Hint Resolve quiet_load_inventory quiet_load_character quiet_pay quiet_hand_over : quiet.

Lemma keeps_trade_body a b : keeps tx_savable (trade_body e a b).
Proof.
  unfold trade_body, stage, time_now.
  apply keeps_bind; [apply keeps_still; auto with quiet|]. intros loaded.
  apply keeps_bind; [apply keeps_still; destruct (_ || _); auto with quiet|]. intros w.
  apply keeps_bind; [apply keeps_still; auto with quiet|]. intros staged.
  apply keeps_bind; [apply keeps_still; auto with quiet|]. intros [loaded' received].
  apply keeps_bind; [apply keeps_for_range; auto using keeps_save_inventory|]. intros l2.
  apply keeps_bind; [apply keeps_for_range; auto using keeps_save_character|]. intros w2.
  apply keeps_still; auto with quiet.
Qed.

(** Without refused accesses, the commit goes through. *)
Hypothesis Hcalm : ∀ n, refused e n = false.

Lemma guarded_calm {A} (m : call stores error A) : always m → always (guarded e m).
Proof.
  intros Hm [n st]. unfold guarded. run_call.
  rewrite Hcalm. apply (Hm (S n, st)).
Qed.

Lemma mem_Save_always {T} `{Keyed T} (m : gmap runes T) record :
  record_key record ≠ [] → mem_Save m record = Ret (<[record_key record := record]> m).
Proof. intros Hk. unfold mem_Save, RecordKey. cbn. by rewrite bool_decide_false. Qed.

Lemma inventory_Save_always record : InventoryKey record ≠ [] → always (inventory_Save e record).
Proof.
  intros Hk. apply guarded_calm. intros s. run_call. rewrite mem_Save_always by done. by eexists.
Qed.

Lemma character_Save_always record : CharacterKey record ≠ [] → always (character_Save e record).
Proof.
  intros Hk. apply guarded_calm. intros s. run_call. unfold savePreservingStoryDigest.
  destruct (mem_Load _ _) as [ex []]; rewrite mem_Save_always by done; by eexists.
Qed.

Lemma commit_row_always tx save row c : always save → always (commit_row e tx save row c).
Proof.
  intros Hs. unfold commit_row. intros s. unfold mbind, call_bind, attempt.
  destruct (Hs s) as [u Hu]. destruct (save s) as [s1 o]. cbn in Hu. rewrite Hu. by eexists.
Qed.

Lemma commit_always tx ids : tx_savable tx →
  ∀ c, always (for_range (commit_character e tx) c ids) ∧
       always (for_range (commit_inventory e tx) c ids).
Proof.
  intros [[_ Hc] [_ Hi]] c. split; apply always_for_range; intros c' id;
    unfold commit_character, commit_inventory; destruct (at_key _ _ _) eqn:E;
    try apply always_ret; apply commit_row_always.
  - by apply character_Save_always, Hc.
  - by apply inventory_Save_always, Hi.
Qed.

Lemma within_atomic x y a b : atomic (WithinCharacterTrade e x y (trade_body e a b)).
Proof.
  unfold WithinCharacterTrade. set (ids := sort_Strings _ _).
  apply atomic_bind; [auto with quiet|]. intros s0 s0' u0 H0. apply fail_when_ret in H0 as [Hn _].
  apply atomic_bind; [auto with quiet|]. intros _ _ _ _.
  apply atomic_bind; [apply quiet_for_range, quiet_load_records|]. intros s1 s1' tx0 H1.
  apply atomic_bind; [auto with quiet|]. intros s2 s2' [tx o] H2.
  assert (tx_savable tx0) as H0'.
  { bool_clean. subst ids. unfold sort_Strings in H1.
    destruct (runes_lt _ _); apply load_two_ret in H1 as [_ ->]; try done;
      by apply loaded_savable. }
  assert (tx_savable tx) as Htx.
  { apply within_ret in H2 as [H2 _].
    pose proof (keeps_trade_body a b (s2.1, tx0) H0') as Hk. by rewrite H2 in Hk. }
  apply atomic_bind; [auto with quiet|]. intros _ _ res _.
  apply atomic_bind; [auto with quiet|]. intros _ _ _ _.
  apply atomic_always, always_bind; [by apply commit_always|]. intros c.
  apply always_bind; [by apply commit_always|]. intros _. apply always_ret.
Qed.

End Fails.

(** C29: A returned exchange is exactly the trade that was agreed, when the
    counts each side offers sum within the int64 range.  Each side
    gave the rows of its offers, in trade-slot order, all of them tradeable
    and covered by its slots; each row arrived as one transfer, carrying the
    offered quantity of the offered stack into the page of the slot it came
    from, in a slot that is empty once the recipient's own rows are out; every
    other slot of both bags is what the rows left of it, and no other
    character's bag changed. *)
Theorem exchange_spec e first second s s' res :
  Exchange e first second s = (s', Ret res) → stores_ok s.2 →
  amounts_ok first → amounts_ok second →
  exchanged s.2 s'.2 (trimmed first) (trimmed second) res.
Proof.
  intros H Hok Hf Hs. destruct (Exchange_ret _ _ _ _ _ _ H Hok) as (Hne & _ & _ & [[Hi _]|[Hi _]]).
  - by apply committed_exchanged.
  - by apply exchanged_sym, committed_exchanged.
Qed.

(** C30: A returned exchange whose offered counts sum within the int64 range on
    each side creates and destroys nothing: of every item the
    two bags hold as many pieces as before, each purse loses what its owner
    offered and gains what the other offered without leaving the [int64]
    range, gold is only given by those who have it, nobody else's record
    changes, and the stores stay well-formed. *)
Theorem exchange_conserves e first second s s' res :
  Exchange e first second s = (s', Ret res) → stores_ok s.2 →
  amounts_ok first → amounts_ok second →
  let A := TrimSpace (CharacterID first) in let B := TrimSpace (CharacterID second) in
  (∀ id, held id (bag s'.2 A) + held id (bag s'.2 B) = held id (bag s.2 A) + held id (bag s.2 B)) ∧
  purse s'.2 A = purse s.2 A - Gold first + Gold second ∧
  purse s'.2 B = purse s.2 B - Gold second + Gold first ∧
  (0 < Gold first ∨ 0 < Gold second → Gold first <= purse s.2 A ∧ Gold second <= purse s.2 B) ∧
  (∀ id, id ≠ A → id ≠ B → inventories s'.2 !! id = inventories s.2 !! id ∧
                           characters s'.2 !! id = characters s.2 !! id) ∧
  stores_ok s'.2.
Proof.
  intros H Hok Hf Hs. destruct (Exchange_ret _ _ _ _ _ _ H Hok) as (Hne & Ga & Gb & Hcases).
  set (a := trimmed first) in *. set (b := trimmed second) in *.
  assert (exchanged s.2 s'.2 a b res ∧ paid s.2 s'.2 a b ∧ stores_ok s'.2) as (He & Hp & Hok').
  { destruct Hcases as [[Hi Hg]|[Hi Hg]].
    - split_and!; [by apply committed_exchanged|by apply committed_paid|by eapply committed_ok].
    - split_and!; [by apply exchanged_sym, committed_exchanged|by apply paid_sym, committed_paid|].
      by apply (committed_ok s.2 s'.2 b a) with res. }
  destruct He as (na & nb & la & lb & ta & tb & _ & _ & _ & _ & _ & _ & Hheld & Hother).
  destruct Hp as (P1 & P2 & P3 & P4).
  split_and!; try done. intros id H1 H2. split; [by apply Hother|by apply P4].
Qed.

(** C31: An exchange that does not return has no effect: as long as no
    repository access is refused, whatever the context and the clock do,
    whatever the offers and the records are, the stores are as they were -
    validation, missing gold, full bags and a cancelled context included. *)
Theorem exchange_atomic e first second s s' o :
  (∀ n, refused e n = false) →
  Exchange e first second s = (s', o) → (∀ res, o ≠ Ret res) → s'.2 = s.2.
Proof.
  intros Hcalm H Hn.
  assert (atomic (Exchange e first second)) as Ha; [|specialize (Ha s); by rewrite H in Ha; apply Ha].
  unfold Exchange. do 3 (apply atomic_bind; [auto using quiet_check with quiet|intros _ _ _ _]).
  destruct (if runes_lt _ _ then _ else _) as [a b]. by apply within_atomic.
Qed.

(** ** Witnesses *)

Definition calm : env := Env (λ _, false) (λ _, false) (λ _, 1000).

Definition pile (id count : Z) : ItemStack := mkItemStack id count false 0 [] ∅.
Definition alice : runes := of_string "1"%string.
Definition bob : runes := of_string "2"%string.

Definition wallet_with (id : runes) (g : Z) : CharacterRecord :=
  set_Stats {[gold_key := g]} (mkCharacterRecord id [] 0 [] [] 1 ∅ (0, 0, 0, []) [] 0 0).

Definition sample_stores : stores := mkStores
  (<[alice := wallet_with alice 500]> (<[bob := wallet_with bob 20]> ∅))
  (<[alice := mkInventoryRecord alice
       (<[slotKey 0 10 := pile 100 1]> (<[slotKey 0 65 := pile 200 5]> ∅)) ∅ 0]>
   (<[bob := mkInventoryRecord bob (<[slotKey 0 65 := pile 300 3]> ∅) ∅ 0]> ∅)).

Definition alice_offer : Participant :=
  mkParticipant alice [mkOffer 4 0 10 1 100; mkOffer 3 0 65 2 0] 100.
Definition bob_offer : Participant := mkParticipant bob [mkOffer 3 0 65 3 300] 0.

Definition sample_run := Exchange calm alice_offer bob_offer (0%nat, sample_stores).
Definition result_of (o : outcome error Result) : Result :=
  match o with Ret res => res | _ => mkResult ∅ ∅ ∅ end.

Lemma sample_returns : sample_run = (sample_run.1, Ret (result_of sample_run.2)).
Proof. vm_compute. reflexivity. Qed.

Lemma typed_insert m k s : in_i64 (Count s) → typed_slots m → typed_slots (<[k := s]> m).
Proof. intros Hs Hm k' s' [[<- <-]|[_ H]]%lookup_insert_Some; [done|by eapply Hm]. Qed.

Lemma typed_empty : typed_slots ∅.
Proof. intros k s []%lookup_empty_Some. Qed.

Lemma sample_stores_ok : stores_ok sample_stores.
Proof.
  split; intros id r; cbn [sample_stores inventories characters];
    intros [[<- <-]|[_ [[<- <-]|[_ []%lookup_empty_Some]]%lookup_insert_Some]]%lookup_insert_Some;
    (split; [vm_compute; reflexivity|]); cbn [Slots];
    repeat apply typed_insert; try apply typed_empty; vm_compute; split; congruence.
Qed.

Lemma sample_amounts_ok : amounts_ok alice_offer ∧ amounts_ok bob_offer.
Proof. repeat split; vm_compute; congruence. Qed.

Lemma exchange_spec_witness :
  sample_run = (sample_run.1, Ret (result_of sample_run.2)) ∧ stores_ok sample_stores ∧
  exchanged sample_stores sample_run.1.2 (trimmed alice_offer) (trimmed bob_offer)
    (result_of sample_run.2).
Proof.
  split_and!; [apply sample_returns|apply sample_stores_ok|].
  apply (exchange_spec calm alice_offer bob_offer (0%nat, sample_stores) sample_run.1);
    [apply sample_returns|apply sample_stores_ok|apply sample_amounts_ok..].
Defined.

Lemma exchange_conserves_witness :
  purse sample_run.1.2 alice = 400 ∧ purse sample_run.1.2 bob = 120 ∧
  held 200 (bag sample_run.1.2 alice) + held 200 (bag sample_run.1.2 bob) = 5.
Proof.
  destruct (exchange_conserves calm alice_offer bob_offer (0%nat, sample_stores) sample_run.1
    (result_of sample_run.2) sample_returns sample_stores_ok (proj1 sample_amounts_ok)
    (proj2 sample_amounts_ok)) as (Hheld & Ha & Hb & _).
  change (TrimSpace (CharacterID alice_offer)) with alice in *.
  change (TrimSpace (CharacterID bob_offer)) with bob in *.
  split_and!; [rewrite Ha|rewrite Hb|rewrite Hheld]; reflexivity.
Defined.

(** A trade refused for missing gold. *)
Definition greedy : Participant := mkParticipant bob [mkOffer 3 0 65 3 300] 21.

Lemma exchange_atomic_witness :
  (Exchange calm alice_offer greedy (0%nat, sample_stores)).2 = Fail ErrGoldUnavailable ∧
  (Exchange calm alice_offer greedy (0%nat, sample_stores)).1.2 = sample_stores.
Proof.
  assert ((Exchange calm alice_offer greedy (0%nat, sample_stores)).2 = Fail ErrGoldUnavailable)
    as Hf by (vm_compute; reflexivity).
  split; [exact Hf|].
  apply (exchange_atomic calm alice_offer greedy (0%nat, sample_stores) _ (Fail ErrGoldUnavailable));
    [done| |done].
  rewrite <- Hf. by destruct (Exchange _ _ _ _).
Defined.

(** ** Where the code falls short *)

(** The counts offered from one slot are added up in [int64] before they are
    compared with the stack: two offers of a stack of five whose sum wraps
    pass, and the recipient gets pieces that never existed. *)
Definition wrapping_offer : Participant :=
  mkParticipant alice [mkOffer 3 0 65 5 0; mkOffer 4 0 65 max_int64 0] 0.
Definition nothing : Participant := mkParticipant bob [] 0.

Lemma wrapping_offers_create_items :
  let '((_, st), o) := Exchange calm wrapping_offer nothing (0%nat, sample_stores) in
  o = Ret (result_of o) ∧ held 200 (bag sample_stores alice) = 5 ∧
  held 200 (bag st bob) = 5 + max_int64.
Proof. vm_compute. repeat split. Qed.

(** The rollback of a failed commit restores nothing: the maps it restores
    from are those the transactions have overwritten.  When the second
    inventory save is refused, every restore succeeds, the error is returned,
    and the gold and two pieces of an item are gone from the first bag
    without reaching the second. *)
Definition refuse_at (k : nat) : env := Env (λ _, false) (λ n, (n =? k)%nat) (λ _, 1000).

Lemma failed_commit_not_rolled_back :
  let '((_, st), o) := Exchange (refuse_at 24) alice_offer bob_offer (0%nat, sample_stores) in
  o = Fail (ErrJoin [ErrStore]) ∧ purse st alice = 400 ∧ purse st bob = 120 ∧
  held 200 (bag st alice) = 3 ∧ held 200 (bag st bob) = 0.
Proof. vm_compute. repeat split. Qed.
