(* ===== verification/Idempotency.v ===== *)
(** * The idempotency guard and its memory store

    [platform/idempotency/guard.go] and [platform/idempotency/memory.go].  A
    string is the sequence of its bytes here.  The two library functions that
    normalise tokens, [strings.ToLower] and [strings.TrimSpace], depend on the
    Unicode tables; they are the arguments of the section, since nothing the
    guard promises depends on what they compute.  Instants are nanoseconds
    since the zero time. *)

From S2P Require Import Prelude GoStrings.

Definition text := list Z.

Definition str (s : string) : text := of_string s.

Inductive idem_error :=
| ErrCanceled
| ErrInvalidRequest
| ErrRequestConflict
| ErrReservationLost
| ErrTokenUnavailable.

Inductive Status := StatusAccepted | StatusDuplicate | StatusInFlight | StatusReplay.

#[export] Instance Status_eq_dec : EqDecision Status.
Proof. solve_decision. Defined.

Record Request := mkRequest {
  Scope : text; Subject : text; Session : text; Key : text; Fingerprint : text;
  Sequence : Z; Now : Z; reservationToken : text
}.

(** The fields [fingerprint] and [expiresAt] are set by the other backends
    only. *)
Record Decision := mkDecision {
  d_Status : Status; d_Key : text; d_Sequence : Z; ownerToken : text
}.

(** ** The memory store *)

Record memorySeenEntry := mkSeen { s_fingerprint : text; s_expiresAt : Z }.
Record memoryResult := mkMemResult { payload : list Z; r_expiresAt : Z }.
Record pendingMemoryEntry := mkPending {
  p_fingerprint : text; p_ownerToken : text; p_expiresAt : Z; p_seqScope : text; p_sequence : Z
}.
Record memSeqWatermark := mkWatermark { w_sequence : Z; w_expiresAt : Z }.

Record memoryStore := mkStore {
  ttl : Z;
  seen : gmap text memorySeenEntry;
  results : gmap text memoryResult;
  pending : gmap text pendingMemoryEntry;
  highest : gmap text memSeqWatermark;
  pendingSeq : gmap text (gmap Z Z)
}.

Definition set_seen m s := mkStore (ttl s) m (results s) (pending s) (highest s) (pendingSeq s).
Definition set_results m s := mkStore (ttl s) (seen s) m (pending s) (highest s) (pendingSeq s).
Definition set_pending m s := mkStore (ttl s) (seen s) (results s) m (highest s) (pendingSeq s).
Definition set_highest m s := mkStore (ttl s) (seen s) (results s) (pending s) m (pendingSeq s).
Definition set_pendingSeq m s := mkStore (ttl s) (seen s) (results s) (pending s) (highest s) m.

Definition default_ttl : Z := 600 * 1000000000.

Definition newMemoryStore (ttl : Z) : memoryStore :=
  mkStore (if ttl <=? 0 then default_ttl else ttl) ∅ ∅ ∅ ∅ ∅.

Definition removePendingLocked (key : text) (s : memoryStore) : memoryStore :=
  match pending s !! key with
  | None => s
  | Some p =>
      let s := set_pending (delete key (pending s)) s in
      if p_sequence p =? 0 then s
      else match pendingSeq s !! p_seqScope p with
           | None => s
           | Some sequences =>
               let count := default 0 (sequences !! p_sequence p) in
               let sequences := if count <=? 1 then delete (p_sequence p) sequences
                                else <[p_sequence p := count - 1]> sequences in
               set_pendingSeq (if bool_decide (sequences = ∅)
                 then delete (p_seqScope p) (pendingSeq s)
                 else <[p_seqScope p := sequences]> (pendingSeq s)) s
           end
  end.

Definition expired_keys (now : Z) (m : gmap text pendingMemoryEntry) : list text :=
  (map_to_list (filter (λ kp, p_expiresAt kp.2 <= now) m)).*1.

Definition pruneLocked (now : Z) (s : memoryStore) : memoryStore :=
  let s := set_seen (filter (λ kx, now < s_expiresAt kx.2) (seen s)) s in
  let s := set_results (filter (λ kx, now < r_expiresAt kx.2) (results s)) s in
  let s := foldl (λ s key, removePendingLocked key s) s (expired_keys now (pending s)) in
  set_highest (filter (λ kx, now < w_expiresAt kx.2) (highest s)) s.

(** The highest key with a positive count, 0 when there is none. *)
Definition highestPendingSeq (sequences : gmap Z Z) : Z :=
  map_fold (λ sequence count h, if (0 <? count) && (h <? sequence) then sequence else h) 0 sequences.

Definition resvOwnerMatch (present : bool) (stored expected : text) : bool :=
  if bool_decide (expected = []) then negb present || bool_decide (stored = [])
  else present && bool_decide (stored = expected).

(** ** Keys *)

(** [base64.RawURLEncoding]. *)
Definition base64_char (n : Z) : Z :=
  if n <? 26 then 65 + n else if n <? 52 then 71 + n else if n <? 62 then n - 4
  else if n =? 62 then 45 else 95.

Fixpoint base64_raw (s : list Z) : list Z :=
  match s with
  | a :: b :: c :: s' =>
      base64_char (a / 4) :: base64_char (a mod 4 * 16 + b / 16)
      :: base64_char (b mod 16 * 4 + c / 64) :: base64_char (c mod 64) :: base64_raw s'
  | [a; b] => [base64_char (a / 4); base64_char (a mod 4 * 16 + b / 16); base64_char (b mod 16 * 4)]
  | [a] => [base64_char (a / 4); base64_char (a mod 4 * 16)]
  | [] => []
  end.

Definition encodeDerivedKeyPart (value : text) : text :=
  if bool_decide (value = []) then str "_" else base64_raw value.

Definition maxRedisSeq : Z := 9007199254740991.

Section Guard.
Context (ToLower TrimSpace : text → text).

Definition normalizeToken (value : text) : text := TrimSpace (ToLower value).

Definition DerivedKey (scope subject session : text) (sequence : Z) : text :=
  str "v1:" ++ encodeDerivedKeyPart (normalizeToken scope) ++ str ":" ++
  encodeDerivedKeyPart (normalizeToken subject) ++ str ":" ++
  encodeDerivedKeyPart (normalizeToken session) ++ str ":" ++ format_int sequence.

Definition sequenceScope (scope subject session : text) : text :=
  normalizeToken scope ++ [0] ++ normalizeToken subject ++ [0] ++ normalizeToken session.

Definition reqFPConflict (stored incoming : text) : bool :=
  let stored := TrimSpace stored in
  let incoming := TrimSpace incoming in
  negb (bool_decide (stored = [])) && negb (bool_decide (incoming = []))
  && negb (bool_decide (stored = incoming)).

Definition request_key (item : Request) : text :=
  if bool_decide (Key item = []) then DerivedKey (Scope item) (Subject item) (Session item) (Sequence item)
  else Key item.
Definition request_scope (item : Request) : text :=
  sequenceScope (Scope item) (Subject item) (Session item).

(** The key of a commit or an abort. *)
Definition decision_key (item : Request) (decision : Decision) : text :=
  if bool_decide (d_Key decision = []) then request_key item else d_Key decision.

(** ** The operations of the store

    [canceled] says whether [ctx.Err()] is non-nil, [clock] is what the
    store's clock reads. *)

Definition begin_now (clock : Z) (item : Request) : Z := if Now item =? 0 then clock else Now item.

Definition reserve (now : Z) (item : Request) (s : memoryStore) : memoryStore :=
  let seqScope := request_scope item in
  let s := set_pending (<[request_key item :=
    mkPending (Fingerprint item) (reservationToken item) (now + ttl s) seqScope (Sequence item)]>
    (pending s)) s in
  if 0 <? Sequence item then
    let sequences := default ∅ (pendingSeq s !! seqScope) in
    set_pendingSeq (<[seqScope :=
      <[Sequence item := default 0 (sequences !! Sequence item) + 1]> sequences]> (pendingSeq s)) s
  else s.

Definition store_Begin (canceled : bool) (clock : Z) (item : Request) (s : memoryStore)
    : memoryStore * outcome idem_error Decision :=
  if canceled then (s, Fail ErrCanceled) else
  let key := request_key item in
  let seqScope := request_scope item in
  let now := begin_now clock item in
  let s := pruneLocked now s in
  let answer status := Ret (mkDecision status key (Sequence item) []) in
  let accept :=
    (reserve now item s, Ret (mkDecision StatusAccepted key (Sequence item) (reservationToken item))) in
  let sequenced :=
    if 0 <? Sequence item then
      let replayed := match highest s !! seqScope with
                      | Some h => (now <? w_expiresAt h) && (Sequence item <=? w_sequence h)
                      | None => false
                      end in
      if replayed then
        (set_seen (<[key := mkSeen (Fingerprint item) (now + ttl s)]> (seen s)) s, answer StatusReplay)
      else if 0 <? highestPendingSeq (default ∅ (pendingSeq s !! seqScope))
      then (s, answer StatusInFlight)
      else accept
    else accept in
  let in_flight :=
    match pending s !! key with
    | Some p => if now <? p_expiresAt p
                then if reqFPConflict (p_fingerprint p) (Fingerprint item)
                     then (s, Fail ErrRequestConflict) else (s, answer StatusInFlight)
                else sequenced
    | None => sequenced
    end in
  match seen s !! key with
  | Some e => if now <? s_expiresAt e
              then if reqFPConflict (s_fingerprint e) (Fingerprint item)
                   then (s, Fail ErrRequestConflict) else (s, answer StatusDuplicate)
              else in_flight
  | None => in_flight
  end.

(** The checks that a commit and an abort share. *)
Definition owns (s : memoryStore) (key : text) (decision : Decision) : bool :=
  match pending s !! key with
  | Some p => resvOwnerMatch true (p_ownerToken p) (ownerToken decision)
  | None => resvOwnerMatch false [] (ownerToken decision)
  end.
Definition pending_conflict (s : memoryStore) (key : text) (item : Request) : bool :=
  match pending s !! key with
  | Some p => reqFPConflict (p_fingerprint p) (Fingerprint item)
  | None => false
  end.
Definition seen_conflict (s : memoryStore) (key : text) (item : Request) : bool :=
  match seen s !! key with
  | Some e => reqFPConflict (s_fingerprint e) (Fingerprint item)
  | None => false
  end.

(** The watermark of a scope after a commit. *)
Definition raise_watermark (now : Z) (item : Request) (s : memoryStore) : memoryStore :=
  let seqScope := request_scope item in
  let expiresAt := now + ttl s in
  if 0 <? Sequence item then
    set_highest (<[seqScope :=
      match highest s !! seqScope with
      | Some current =>
          if negb (now <? w_expiresAt current) || (w_sequence current <? Sequence item)
          then mkWatermark (Sequence item) expiresAt
          else mkWatermark (w_sequence current) expiresAt
      | None => mkWatermark (Sequence item) expiresAt
      end]> (highest s)) s
  else s.

Definition store_commit (canceled : bool) (clock : Z) (item : Request) (decision : Decision)
    (result : option (list Z)) (s : memoryStore) : memoryStore * outcome idem_error unit :=
  if canceled then (s, Fail ErrCanceled) else
  let key := decision_key item decision in
  let now := clock in
  let s := pruneLocked now s in
  if negb (owns s key decision) then (s, Fail ErrReservationLost)
  else if seen_conflict s key item then (s, Fail ErrRequestConflict)
  else if pending_conflict s key item then (s, Fail ErrRequestConflict)
  else
    let s := removePendingLocked key s in
    let s := set_seen (<[key := mkSeen (Fingerprint item) (now + ttl s)]> (seen s)) s in
    let s := set_results (match result with
      | Some payload => <[key := mkMemResult payload (now + ttl s)]> (results s)
      | None => delete key (results s)
      end) s in
    (raise_watermark now item s, Ret tt).

Definition store_Abort (canceled : bool) (clock : Z) (item : Request) (decision : Decision)
    (s : memoryStore) : memoryStore * outcome idem_error unit :=
  if canceled then (s, Fail ErrCanceled) else
  let key := decision_key item decision in
  let s := pruneLocked clock s in
  if negb (owns s key decision) then (s, Fail ErrReservationLost)
  else if pending_conflict s key item then (s, Fail ErrRequestConflict)
  else (removePendingLocked key s, Ret tt).

Definition store_LookupResult (canceled : bool) (clock : Z) (decision : Decision) (s : memoryStore)
    : memoryStore * outcome idem_error (option (list Z)) :=
  if canceled then (s, Fail ErrCanceled)
  else if bool_decide (d_Key decision = []) then (s, Ret None)
  else let s := pruneLocked clock s in
       (s, Ret (payload <$> results s !! d_Key decision)).

(** [Check] of the store: begin, and commit at once when accepted; each reads
    the context. *)
Definition store_Check (canceled canceled' : bool) (clock clock' : Z) (item : Request) (s : memoryStore)
    : memoryStore * outcome idem_error Decision :=
  let '(s, o) := store_Begin canceled clock item s in
  match o with
  | Ret d =>
      if bool_decide (d_Status d = StatusAccepted) then
        let '(s, o') := store_commit canceled' clock' item d None s in (s, (_ ← o'; Ret d))
      else (s, Ret d)
  | _ => (s, o)
  end.

(** [Snapshot]: seconds of life, seen keys, pending keys and scopes. *)
Definition store_Snapshot (clock : Z) (s : memoryStore) : memoryStore * (Z * nat * nat * nat) :=
  let s := pruneLocked clock s in
  (s, (ttl s / 1000000000, size (seen s), size (pending s), size (highest s))).

(** ** The guard *)

Record guardStats := mkStats {
  n_accepted : Z; n_duplicate : Z; n_inFlight : Z; n_replay : Z; n_backendError : Z; latencyNanos : Z
}.

Record Guard := mkGuard { g_store : memoryStore; stats : guardStats }.

(** The request part of a reservation whose [active] flag decides whether its
    calls reach the store. *)
Record Reservation := mkReservation { request : Request; decision : Decision; active : bool }.

Definition record_stats (r : outcome idem_error Status) (latency : Z) (t : guardStats) : guardStats :=
  let t := match r with
    | Ret StatusDuplicate => mkStats (n_accepted t) (n_duplicate t + 1) (n_inFlight t) (n_replay t) (n_backendError t) (latencyNanos t)
    | Ret StatusInFlight => mkStats (n_accepted t) (n_duplicate t) (n_inFlight t + 1) (n_replay t) (n_backendError t) (latencyNanos t)
    | Ret StatusReplay => mkStats (n_accepted t) (n_duplicate t) (n_inFlight t) (n_replay t + 1) (n_backendError t) (latencyNanos t)
    | Ret StatusAccepted => mkStats (n_accepted t + 1) (n_duplicate t) (n_inFlight t) (n_replay t) (n_backendError t) (latencyNanos t)
    | _ => mkStats (n_accepted t) (n_duplicate t) (n_inFlight t) (n_replay t) (n_backendError t + 1) (latencyNanos t)
    end in
  mkStats (n_accepted t) (n_duplicate t) (n_inFlight t) (n_replay t) (n_backendError t)
    (latencyNanos t + latency).

Definition New (ttl : Z) : Guard := mkGuard (newMemoryStore ttl) (mkStats 0 0 0 0 0 0).

Definition normalizeRequest (r : Request) : outcome idem_error Request :=
  let scope := normalizeToken (Scope r) in
  let scope := if bool_decide (scope = []) then str "default" else scope in
  let subject := normalizeToken (Subject r) in
  let fingerprint := TrimSpace (Fingerprint r) in
  fail_if bool_decide (subject = []) with_ ErrInvalidRequest;;
  fail_if (512 <? zlen fingerprint) || bool_decide (13 ∈ fingerprint) || bool_decide (10 ∈ fingerprint)
    with_ ErrInvalidRequest;;
  fail_if maxRedisSeq <? Sequence r with_ ErrInvalidRequest;;
  Ret (mkRequest scope subject (normalizeToken (Session r)) (normalizeToken (Key r)) fingerprint
         (Sequence r) (Now r) (reservationToken r)).

Definition with_token (token : text) (r : Request) : Request :=
  mkRequest (Scope r) (Subject r) (Session r) (Key r) (Fingerprint r) (Sequence r) (Now r) token.

(** [Guard.Begin].  [token] is what [newReservationToken] yields.  The context
    is read twice, by the guard ([canceled]) and then by the store
    ([canceled']), and it may be cancelled in between. *)
Definition Begin (canceled canceled' : bool) (token : option text) (clock latency : Z) (r : Request) (g : Guard)
    : Guard * outcome idem_error (Reservation * Decision) :=
  if canceled then (g, Fail ErrCanceled) else
  match normalizeRequest r with
  | Fail err => (g, Fail err)
  | Panic => (g, Panic)
  | Ret item =>
      if bool_decide (Key item = []) && (Sequence item =? 0) then
        let d := mkDecision StatusAccepted [] 0 [] in
        (mkGuard (g_store g) (record_stats (Ret StatusAccepted) 0 (stats g)),
         Ret (mkReservation item d false, d))
      else match token with
      | None => (g, Fail ErrTokenUnavailable)
      | Some token =>
          let item := with_token token item in
          let '(s, o) := store_Begin canceled' clock item (g_store g) in
          let g := mkGuard s (record_stats (d ← o; Ret (d_Status d)) latency (stats g)) in
          match o with
          | Ret d =>
              let d := if bool_decide (d_Status d = StatusAccepted)
                       then mkDecision (d_Status d) (d_Key d) (d_Sequence d) token else d in
              (g, Ret (mkReservation item d (bool_decide (d_Status d = StatusAccepted)), d))
          | Fail err => (g, Fail err)
          | Panic => (g, Panic)
          end
      end
  end.

(** The common shape of [Reservation.Commit], [CommitResult] and [Abort]. *)
Definition settle (act : memoryStore → memoryStore * outcome idem_error unit)
    (r : Reservation) (g : Guard) : Guard * Reservation * outcome idem_error unit :=
  if negb (active r) then (g, r, Ret tt) else
  let '(s, o) := act (g_store g) in
  match o with
  | Ret _ => (mkGuard s (stats g), mkReservation (request r) (decision r) false, Ret tt)
  | Fail err => (mkGuard s (record_stats (Fail err) 0 (stats g)), r, Fail err)
  | Panic => (mkGuard s (stats g), r, Panic)
  end.

Definition Commit (canceled : bool) (clock : Z) (r : Reservation) :=
  settle (store_commit canceled clock (request r) (decision r) None) r.
Definition CommitResult (canceled : bool) (clock : Z) (r : Reservation) (payload : list Z) :=
  settle (store_commit canceled clock (request r) (decision r) (Some payload)) r.
Definition Abort (canceled : bool) (clock : Z) (r : Reservation) :=
  settle (store_Abort canceled clock (request r) (decision r)) r.

(** [Guard.LookupResult], which reads the context like [Begin]. *)
Definition LookupResult (canceled canceled' : bool) (clock : Z) (d : Decision) (g : Guard)
    : Guard * outcome idem_error (option (list Z)) :=
  if canceled then (g, Fail ErrCanceled)
  else if bool_decide (TrimSpace (d_Key d) = []) then (g, Ret None)
  else let '(s, o) := store_LookupResult canceled' clock d (g_store g) in
       (mkGuard s (stats g), o).

(** [Guard.Check]: begin, and commit at once when accepted.  The context is read
    four times: here, twice by [Begin], and by the commit. *)
Definition Check_ (canceled canceled' canceled'' canceled''' : bool) (token : option text)
    (clock clock' latency : Z) (r : Request) (g : Guard) : Guard * outcome idem_error Decision :=
  if canceled then (g, Fail ErrCanceled) else
  let '(g, o) := Begin canceled' canceled'' token clock latency r g in
  match o with
  | Ret (res, d) =>
      if bool_decide (d_Status d = StatusAccepted) then
        let '(g, _, o') := Commit canceled''' clock' res g in
        (g, (_ ← o'; Ret d))
      else (g, Ret d)
  | Fail err => (g, Fail err)
  | Panic => (g, Panic)
  end.

End Guard.
