(* ===== verification/IdempotencyInvariant.v ===== *)
(** * Well-formed idempotency stores

    The index from sequence scopes to pending sequences agrees with the pending
    reservations, a scope has at most one sequenced reservation, and a stored
    result lives exactly as long as the committed key it belongs to. *)

From S2P Require Import Prelude GoStrings Idempotency.

Section Invariant.
Context (ToLower TrimSpace : text → text).

Abbreviation request_key := (request_key ToLower TrimSpace).
Abbreviation request_scope := (request_scope ToLower TrimSpace).
Abbreviation decision_key := (decision_key ToLower TrimSpace).
Abbreviation conflict := (reqFPConflict TrimSpace).
Abbreviation store_Begin := (store_Begin ToLower TrimSpace).
Abbreviation store_commit := (store_commit ToLower TrimSpace).
Abbreviation store_Abort := (store_Abort ToLower TrimSpace).

(** ** The index of pending sequences *)

Definition indexed (pend : gmap text pendingMemoryEntry) (index : gmap text (gmap Z Z)) : Prop :=
  (∀ k p, pend !! k = Some p → 0 < p_sequence p →
     index !! p_seqScope p = Some {[p_sequence p := 1]}) ∧
  (∀ k k' p p', pend !! k = Some p → pend !! k' = Some p' → 0 < p_sequence p → 0 < p_sequence p' →
     p_seqScope p = p_seqScope p' → k = k') ∧
  (∀ scope m, index !! scope = Some m →
     ∃ k p, pend !! k = Some p ∧ p_seqScope p = scope ∧ 0 < p_sequence p) ∧
  (∀ k p, pend !! k = Some p → 0 <= p_sequence p).

(** The reservations determine the index. *)
Lemma indexed_unique pend i1 i2 : indexed pend i1 → indexed pend i2 → i1 = i2.
Proof.
  intros (F1 & _ & B1 & _) (F2 & _ & B2 & _). apply map_eq. intros scope.
  destruct (i1 !! scope) as [m|] eqn:E1.
  - destruct (B1 _ _ E1) as (k & p & Hk & <- & Hs).
    rewrite (F1 _ _ Hk Hs) in E1. by rewrite (F2 _ _ Hk Hs).
  - destruct (i2 !! scope) as [m|] eqn:E2; [|done].
    destruct (B2 _ _ E2) as (k & p & Hk & <- & Hs). by rewrite (F1 _ _ Hk Hs) in E1.
Qed.

Lemma indexed_delete pend index k p : indexed pend index → pend !! k = Some p →
  indexed (delete k pend)
    (if 0 <? p_sequence p then delete (p_seqScope p) index else index).
Proof.
  intros (F & U & B & N) Hk. split_and!.
  - intros k' p' [Hne Hk']%lookup_delete_Some Hs'. specialize (F _ _ Hk' Hs') as Hf.
    destruct (0 <? p_sequence p) eqn:E; [|done]. bool_clean.
    rewrite lookup_delete_ne; [done|]. intros Hsc. by destruct Hne; eapply U.
  - intros k1 k2 p1 p2 [_ H1]%lookup_delete_Some [_ H2]%lookup_delete_Some. by apply U.
  - intros scope m Hm.
    assert (index !! scope = Some m ∧ (0 < p_sequence p → p_seqScope p ≠ scope)) as [Hm' Hsc].
    { destruct (0 <? p_sequence p) eqn:E; bool_clean.
      - by apply lookup_delete_Some in Hm as [? ?].
      - split; [done|lia]. }
    destruct (B _ _ Hm') as (k' & p' & Hk' & Hs' & Hp'). exists k', p'. split_and!; try done.
    rewrite lookup_delete_ne; [done|]. intros <-. rewrite Hk in Hk'. injection Hk' as <-.
    by apply Hsc.
  - intros k' p' [_ H]%lookup_delete_Some. by eapply N.
Qed.

Lemma removePending_eq key s : indexed (pending s) (pendingSeq s) →
  removePendingLocked key s = set_pendingSeq
    (match pending s !! key with
     | Some p => if 0 <? p_sequence p then delete (p_seqScope p) (pendingSeq s) else pendingSeq s
     | None => pendingSeq s
     end) (set_pending (delete key (pending s)) s).
Proof.
  intros (F & _ & _ & N). unfold removePendingLocked.
  destruct (pending s !! key) as [p|] eqn:Hk.
  - specialize (F _ _ Hk). specialize (N _ _ Hk). destruct (p_sequence p =? 0) eqn:E0; bool_clean.
    { by replace (0 <? p_sequence p) with false by lia. }
    replace (0 <? p_sequence p) with true by lia. cbn [set_pending pendingSeq].
    rewrite F by lia. rewrite lookup_singleton_eq. cbn [default].
    rewrite delete_singleton_eq, bool_decide_true by done. done.
  - unfold set_pendingSeq, set_pending; cbn. rewrite delete_id by done. by destruct s.
Qed.

Lemma removePending_indexed key s : indexed (pending s) (pendingSeq s) →
  indexed (pending (removePendingLocked key s)) (pendingSeq (removePendingLocked key s)).
Proof.
  intros Hi. rewrite removePending_eq by done. cbn.
  destruct (pending s !! key) as [p|] eqn:Hk; [by apply indexed_delete|].
  by rewrite delete_id.
Qed.

(** ** Pruning *)

Definition live_pending (now : Z) (m : gmap text pendingMemoryEntry) :=
  filter (λ kp, now < p_expiresAt kp.2) m.

Lemma remove_keys ks : ∀ s, indexed (pending s) (pendingSeq s) →
  let s' := foldl (λ s key, removePendingLocked key s) s ks in
  indexed (pending s') (pendingSeq s') ∧ ttl s' = ttl s ∧ seen s' = seen s ∧
  results s' = results s ∧ highest s' = highest s ∧
  ∀ k, pending s' !! k = if bool_decide (k ∈ ks) then None else pending s !! k.
Proof.
  induction ks as [|key ks IH]; intros s Hi; cbn [foldl].
  { by split_and!. }
  destruct (IH _ (removePending_indexed key s Hi)) as (Hi' & -> & -> & -> & -> & Hk).
  rewrite removePending_eq by done. rewrite removePending_eq in Hi', Hk by done.
  split_and!; try done. intros k. rewrite Hk. cbn [pending set_pendingSeq set_pending].
  destruct (decide (k = key)) as [->|Hne].
  - rewrite lookup_delete_eq, (bool_decide_true (key ∈ key :: ks)) by apply elem_of_cons, or_introl, eq_refl.
    by case_bool_decide.
  - rewrite lookup_delete_ne by done. clear -Hne.
    rewrite (bool_decide_ext (k ∈ key :: ks) (k ∈ ks)); [done|]. rewrite elem_of_cons. naive_solver.
Qed.

Lemma prune_spec now s : indexed (pending s) (pendingSeq s) →
  let s' := pruneLocked now s in
  indexed (pending s') (pendingSeq s') ∧ ttl s' = ttl s ∧
  seen s' = filter (λ kx, now < s_expiresAt kx.2) (seen s) ∧
  results s' = filter (λ kx, now < r_expiresAt kx.2) (results s) ∧
  highest s' = filter (λ kx, now < w_expiresAt kx.2) (highest s) ∧
  pending s' = live_pending now (pending s).
Proof.
  intros Hi. unfold pruneLocked.
  match goal with |- context [foldl _ ?s1 _] => set (s0 := s1) end.
  destruct (remove_keys (expired_keys now (pending s)) s0 Hi) as (Hi' & Ht & Hs & Hr & Hh & Hk).
  set (s1 := foldl _ _ _) in *. cbn zeta in *. cbn [set_highest pending pendingSeq ttl seen results highest].
  split_and!; try done; [by rewrite Hh|].
  apply map_eq. intros k. rewrite Hk. unfold live_pending. apply option_eq. intros p.
  rewrite map_lookup_filter_Some. cbn.
  change (pending s0) with (pending s). case_bool_decide as Hin.
  - split; [done|]. intros [Hp Hlt]. unfold expired_keys in Hin.
    apply list_elem_of_fmap in Hin as ([k' p'] & -> & Hin).
    apply elem_of_map_to_list, map_lookup_filter_Some in Hin as [Hp' Hle]. cbn in *.
    rewrite Hp' in Hp. injection Hp as <-. lia.
  - split; [|by intros [? _]]. intros Hp. split; [done|].
    destruct (decide (now < p_expiresAt p)) as [|Hge]; [done|]. destruct Hin.
    apply list_elem_of_fmap. exists (k, p). split; [done|].
    apply elem_of_map_to_list, map_lookup_filter_Some. split; [done|cbn; lia].
Qed.

(** ** The invariant *)

Definition wf (s : memoryStore) : Prop :=
  0 < ttl s ∧ indexed (pending s) (pendingSeq s) ∧
  ∀ k r, results s !! k = Some r → ∃ e, seen s !! k = Some e ∧ s_expiresAt e = r_expiresAt r.

Lemma new_store_wf t : wf (newMemoryStore t).
Proof.
  split_and!.
  - cbn. unfold default_ttl. destruct (t <=? 0) eqn:E; bool_clean; lia.
  - split_and!; cbn; intros *; rewrite ?lookup_empty; done.
  - cbn. intros *. by rewrite lookup_empty.
Qed.

Lemma prune_wf now s : wf s → wf (pruneLocked now s).
Proof.
  intros (Ht & Hi & Hr). destruct (prune_spec now s Hi) as (Hi' & Ht' & Hs & Hre & _ & _).
  split_and!; [by rewrite Ht'|done|]. rewrite Hs, Hre.
  intros k r [Hk Hlt]%map_lookup_filter_Some. destruct (Hr _ _ Hk) as (e & He & Heq).
  exists e. split; [|done]. apply map_lookup_filter_Some. cbn in *. split; [done|lia].
Qed.

Lemma reserve_indexed now item s :
  indexed (pending s) (pendingSeq s) → 0 <= Sequence item →
  pending s !! request_key item = None →
  (0 < Sequence item → pendingSeq s !! request_scope item = None) →
  indexed (pending (reserve ToLower TrimSpace now item s)) (pendingSeq (reserve ToLower TrimSpace now item s)).
Proof.
  intros (F & U & B & N) Hseq Hfree Hscope.
  assert (∀ k p, pending s !! k = Some p → 0 < p_sequence p → 0 < Sequence item →
            p_seqScope p ≠ request_scope item) as Hother.
  { intros k p Hk Hp Hs E. specialize (F _ _ Hk Hp). by rewrite E, Hscope in F. }
  assert (pendingSeq (reserve ToLower TrimSpace now item s) =
    if 0 <? Sequence item then <[request_scope item := {[Sequence item := 1]}]> (pendingSeq s)
    else pendingSeq s) as ->.
  { unfold reserve. destruct (0 <? Sequence item) eqn:E; bool_clean; [|done].
    cbn [set_pendingSeq pendingSeq set_pending]. rewrite Hscope by done. by cbn. }
  assert (pending (reserve ToLower TrimSpace now item s) = <[request_key item :=
    mkPending (Fingerprint item) (reservationToken item) (now + ttl s) (request_scope item)
      (Sequence item)]> (pending s)) as ->.
  { unfold reserve. by destruct (0 <? Sequence item). }
  split_and!.
  - intros k p [[<- <-]|[Hne Hk]]%lookup_insert_Some Hp; cbn in *.
    + replace (0 <? Sequence item) with true by lia. by rewrite lookup_insert_eq.
    + destruct (0 <? Sequence item) eqn:E; bool_clean; [|by eapply F].
      rewrite lookup_insert_ne; [by eapply F|]. intros Heq. by eapply Hother.
  - intros k k' p p' [[<- <-]|[Hne Hk]]%lookup_insert_Some
      [[<- <-]|[Hne' Hk']]%lookup_insert_Some Hp Hp' Hsc; cbn in *; [done|..].
    + by destruct (Hother _ _ Hk' Hp' Hp).
    + by destruct (Hother _ _ Hk Hp Hp').
    + by eapply U.
  - intros scope m Hm.
    destruct (decide (0 < Sequence item ∧ scope = request_scope item)) as [[Hs ->]|Hn].
    + eexists _, _. split; [apply lookup_insert_eq|done].
    + assert (pendingSeq s !! scope = Some m) as Hm'.
      { destruct (0 <? Sequence item) eqn:E; bool_clean; [|done].
        rewrite lookup_insert_ne in Hm; [done|]. naive_solver. }
      destruct (B _ _ Hm') as (k & p & Hk & Hsc & Hp). exists k, p. split_and!; try done.
      rewrite lookup_insert_ne; [done|]. intros <-. by rewrite Hfree in Hk.
  - intros k p [[<- <-]|[_ Hk]]%lookup_insert_Some; [done|by eapply N].
Qed.

Lemma highestPendingSeq_single n : 0 < n → highestPendingSeq {[n := 1]} = n.
Proof.
  intros Hn. unfold highestPendingSeq. rewrite map_fold_singleton. cbn.
  by replace (0 <? n) with true by lia.
Qed.

(** No sequence is in flight exactly when the scope has no index entry. *)
Lemma no_pending_sequence s scope : indexed (pending s) (pendingSeq s) →
  (0 <? highestPendingSeq (default ∅ (pendingSeq s !! scope))) = false →
  pendingSeq s !! scope = None.
Proof.
  intros (F & _ & B & _) H. destruct (pendingSeq s !! scope) as [m|] eqn:E; [|done].
  destruct (B _ _ E) as (k & p & Hk & <- & Hp). rewrite (F _ _ Hk Hp) in E. injection E as <-.
  cbn in H. unfold id in H.
  rewrite highestPendingSeq_single in H by done. bool_clean. lia.
Qed.

(** ** The operations, case by case *)

Definition answers (status : Status) (item : Request) : outcome idem_error Decision :=
  Ret (mkDecision status (request_key item) (Sequence item) []).

(** The commits that a watermark turns into replays. *)
Definition replayed (s : memoryStore) (item : Request) : Prop :=
  0 < Sequence item ∧ ∃ h, highest s !! request_scope item = Some h ∧ Sequence item <= w_sequence h.

(** The outcomes of [Begin] on a pruned store. *)
Inductive begin_case (now : Z) (item : Request) (s : memoryStore)
    : memoryStore → outcome idem_error Decision → Prop :=
| Begin_committed e : seen s !! request_key item = Some e →
    begin_case now item s s (if conflict (s_fingerprint e) (Fingerprint item)
      then Fail ErrRequestConflict else answers StatusDuplicate item)
| Begin_reserved p : seen s !! request_key item = None → pending s !! request_key item = Some p →
    begin_case now item s s (if conflict (p_fingerprint p) (Fingerprint item)
      then Fail ErrRequestConflict else answers StatusInFlight item)
| Begin_replay : seen s !! request_key item = None → pending s !! request_key item = None →
    replayed s item →
    begin_case now item s
      (set_seen (<[request_key item := mkSeen (Fingerprint item) (now + ttl s)]> (seen s)) s)
      (answers StatusReplay item)
| Begin_busy : seen s !! request_key item = None → pending s !! request_key item = None →
    ¬ replayed s item → 0 < Sequence item → pendingSeq s !! request_scope item ≠ None →
    begin_case now item s s (answers StatusInFlight item)
| Begin_accepted : seen s !! request_key item = None → pending s !! request_key item = None →
    ¬ replayed s item → (0 < Sequence item → pendingSeq s !! request_scope item = None) →
    begin_case now item s (reserve ToLower TrimSpace now item s)
      (Ret (mkDecision StatusAccepted (request_key item) (Sequence item) (reservationToken item))).

Lemma begin_cases clock item s : wf s → 0 <= Sequence item →
  let now := begin_now clock item in
  let r := store_Begin false clock item s in
  begin_case now item (pruneLocked now s) r.1 r.2.
Proof.
  intros (Ht & Hi & _) Hseq. cbn zeta. unfold Idempotency.store_Begin. set (now := begin_now _ _).
  destruct (prune_spec now s Hi) as (Hi' & _ & Hs & _ & Hh & Hp).
  set (s0 := pruneLocked now s) in *.
  assert (∀ k e, seen s0 !! k = Some e → (now <? s_expiresAt e) = true) as Ls.
  { intros k e. rewrite Hs. intros [_ ?]%map_lookup_filter_Some. cbn in *. lia. }
  assert (∀ k p, pending s0 !! k = Some p → (now <? p_expiresAt p) = true) as Lp.
  { intros k p. rewrite Hp. intros [_ ?]%map_lookup_filter_Some. cbn in *. lia. }
  assert (∀ k h, highest s0 !! k = Some h → (now <? w_expiresAt h) = true) as Lh.
  { intros k h. rewrite Hh. intros [_ ?]%map_lookup_filter_Some. cbn in *. lia. }
  destruct (seen s0 !! request_key item) as [e|] eqn:Es.
  { rewrite (Ls _ _ Es). pose proof (Begin_committed now item s0 e Es) as H.
    by destruct (conflict _ _). }
  destruct (pending s0 !! request_key item) as [p|] eqn:Ep.
  { rewrite (Lp _ _ Ep). pose proof (Begin_reserved now item s0 p Es Ep) as H.
    by destruct (conflict _ _). }
  destruct (0 <? Sequence item) eqn:E0; bool_clean.
  2:{ apply Begin_accepted; try done; [intros [? _]; lia|lia]. }
  destruct (match highest s0 !! request_scope item with Some _ => _ | None => _ end) eqn:Er.
  { destruct (highest s0 !! request_scope item) as [h|] eqn:Eh; [|done]. bool_clean.
    apply Begin_replay; try done. split; [done|]. by exists h. }
  assert (¬ replayed s0 item) as Hnr.
  { intros (_ & h & Eh & Hle). rewrite Eh, (Lh _ _ Eh) in Er. cbn in Er. lia. }
  destruct (0 <? highestPendingSeq _) eqn:Eb.
  - apply Begin_busy; try done. intros En. cbn [fst] in En. by rewrite En in Eb.
  - apply Begin_accepted; try done. intros _. by apply no_pending_sequence.
Qed.

(** What a successful commit writes. *)
Definition committed (now : Z) (item : Request) (key : text) (result : option (list Z))
    (s : memoryStore) : memoryStore :=
  let s := removePendingLocked key s in
  let s := set_seen (<[key := mkSeen (Fingerprint item) (now + ttl s)]> (seen s)) s in
  let s := set_results (match result with
    | Some payload => <[key := mkMemResult payload (now + ttl s)]> (results s)
    | None => delete key (results s)
    end) s in
  raise_watermark ToLower TrimSpace now item s.

Definition settles (s : memoryStore) (item : Request) (d : Decision) : Prop :=
  owns s (decision_key item d) d = true ∧
  pending_conflict TrimSpace s (decision_key item d) item = false.

Inductive commit_case (now : Z) (item : Request) (d : Decision) (result : option (list Z))
    (s : memoryStore) : memoryStore → outcome idem_error unit → Prop :=
| Commit_done : settles s item d → seen_conflict TrimSpace s (decision_key item d) item = false →
    commit_case now item d result s (committed now item (decision_key item d) result s) (Ret tt)
| Commit_lost : owns s (decision_key item d) d = false →
    commit_case now item d result s s (Fail ErrReservationLost)
| Commit_conflict : owns s (decision_key item d) d = true →
    seen_conflict TrimSpace s (decision_key item d) item = true ∨
    pending_conflict TrimSpace s (decision_key item d) item = true →
    commit_case now item d result s s (Fail ErrRequestConflict).

Lemma commit_cases clock item d result s :
  let r := store_commit false clock item d result s in
  commit_case clock item d result (pruneLocked clock s) r.1 r.2.
Proof.
  cbn zeta. unfold Idempotency.store_commit. set (s0 := pruneLocked _ _).
  destruct (owns _ _ _) eqn:E1; cbn [negb]; [|by apply Commit_lost].
  destruct (seen_conflict _ _ _ _) eqn:E2; [apply Commit_conflict; auto|].
  destruct (pending_conflict _ _ _ _) eqn:E3; [apply Commit_conflict; auto|].
  by apply Commit_done.
Qed.

Inductive abort_case (item : Request) (d : Decision) (s : memoryStore)
    : memoryStore → outcome idem_error unit → Prop :=
| Abort_done : settles s item d →
    abort_case item d s (removePendingLocked (decision_key item d) s) (Ret tt)
| Abort_lost : owns s (decision_key item d) d = false →
    abort_case item d s s (Fail ErrReservationLost)
| Abort_conflict : owns s (decision_key item d) d = true →
    pending_conflict TrimSpace s (decision_key item d) item = true →
    abort_case item d s s (Fail ErrRequestConflict).

Lemma abort_cases clock item d s :
  let r := store_Abort false clock item d s in
  abort_case item d (pruneLocked clock s) r.1 r.2.
Proof.
  cbn zeta. unfold Idempotency.store_Abort. set (s0 := pruneLocked _ _).
  destruct (owns _ _ _) eqn:E1; cbn [negb]; [|by apply Abort_lost].
  destruct (pending_conflict _ _ _ _) eqn:E3; [by apply Abort_conflict|]. by apply Abort_done.
Qed.

(** ** Preservation *)

Lemma removePending_wf key s : wf s → wf (removePendingLocked key s).
Proof.
  intros (Ht & Hi & Hr). split_and!; [|by apply removePending_indexed|];
    rewrite removePending_eq by done; done.
Qed.

Lemma committed_fields now item key result s : indexed (pending s) (pendingSeq s) →
  let s' := committed now item key result s in
  ttl s' = ttl s ∧ pending s' = delete key (pending s) ∧
  pendingSeq s' = pendingSeq (removePendingLocked key s) ∧
  seen s' = <[key := mkSeen (Fingerprint item) (now + ttl s)]> (seen s) ∧
  results s' = match result with
    | Some payload => <[key := mkMemResult payload (now + ttl s)]> (results s)
    | None => delete key (results s)
    end ∧
  highest s' = if 0 <? Sequence item then <[request_scope item :=
      mkWatermark (match highest s !! request_scope item with
        | Some c => if negb (now <? w_expiresAt c) || (w_sequence c <? Sequence item)
                    then Sequence item else w_sequence c
        | None => Sequence item end) (now + ttl s)]> (highest s) else highest s.
Proof.
  intros Hi. unfold committed. rewrite removePending_eq by done. unfold raise_watermark. cbn.
  destruct (0 <? Sequence item); cbn; split_and!; try done.
  destruct (highest s !! _) as [c|]; [|done]. by destruct (_ || _).
Qed.

Lemma committed_wf now item key result s : wf s → wf (committed now item key result s).
Proof.
  intros (Ht & Hi & Hr).
  destruct (committed_fields now item key result s Hi) as (Et & Ep & Eps & Es & Er & _).
  split_and!.
  - by rewrite Et.
  - pose proof (removePending_indexed key s Hi) as Hi'. rewrite Ep, Eps.
    by rewrite removePending_eq in Hi' |- *.
  - intros k r Hk. rewrite Er in Hk. rewrite Es. destruct result as [payload|].
    + apply lookup_insert_Some in Hk as [[<- <-]|[Hne Hk]].
      * eexists. by rewrite lookup_insert_eq.
      * rewrite lookup_insert_ne by done. by apply Hr.
    + apply lookup_delete_Some in Hk as [Hne Hk]. rewrite lookup_insert_ne by done. by apply Hr.
Qed.

Lemma begin_case_wf now item s s' o : wf s → 0 <= Sequence item →
  begin_case now item s s' o → wf s'.
Proof.
  intros (Ht & Hi & Hr) Hseq [| |Hs _ _| |Hs Hp _ Hsc]; try by split_and!.
  - split_and!; try done. cbn. intros k r Hk. destruct (Hr _ _ Hk) as (e & He & Heq).
    exists e. split; [|done]. rewrite lookup_insert_ne; [done|]. intros <-. by rewrite Hs in He.
  - split_and!.
    + unfold reserve. by destruct (0 <? Sequence item).
    + by apply reserve_indexed.
    + unfold reserve. by destruct (0 <? Sequence item).
Qed.

End Invariant.
