(* ===== verification/IdempotencyTheorems.v ===== *)
(** * The idempotency store over time

    Steps and runs of the store: the cases of a [Begin], what a held reservation
    rules out for the steps of other clients, and what a commit leaves behind. *)

From S2P Require Import Prelude GoStrings Idempotency IdempotencyInvariant.

Section Theorems.
Context (ToLower TrimSpace : text → text).

Abbreviation request_key := (request_key ToLower TrimSpace).
Abbreviation request_scope := (request_scope ToLower TrimSpace).
Abbreviation decision_key := (decision_key ToLower TrimSpace).
Abbreviation store_Begin := (store_Begin ToLower TrimSpace).
Abbreviation store_commit := (store_commit ToLower TrimSpace).
Abbreviation store_Abort := (store_Abort ToLower TrimSpace).
Abbreviation begin_case := (begin_case ToLower TrimSpace).

(** ** Runs of the store *)

Inductive op :=
| OpBegin (canceled : bool) (clock : Z) (item : Request)
| OpCommit (canceled : bool) (clock : Z) (item : Request) (d : Decision) (result : option (list Z))
| OpAbort (canceled : bool) (clock : Z) (item : Request) (d : Decision)
| OpLookup (canceled : bool) (clock : Z) (d : Decision)
| OpSnapshot (clock : Z).

Definition run_op (s : memoryStore) (o : op) : memoryStore :=
  match o with
  | OpBegin c clock item => (store_Begin c clock item s).1
  | OpCommit c clock item d result => (store_commit c clock item d result s).1
  | OpAbort c clock item d => (store_Abort c clock item d s).1
  | OpLookup c clock d => (store_LookupResult c clock d s).1
  | OpSnapshot clock => (store_Snapshot clock s).1
  end.
Definition run (s : memoryStore) (l : list op) : memoryStore := foldl run_op s l.

(** The time an operation works with. *)
Definition op_time (o : op) : Z :=
  match o with
  | OpBegin _ clock item => begin_now clock item
  | OpCommit _ clock _ _ _ | OpAbort _ clock _ _ | OpLookup _ clock _ | OpSnapshot clock => clock
  end.

(** Sequences are unsigned. *)
Definition op_ok (o : op) : Prop :=
  match o with OpBegin _ _ item => 0 <= Sequence item | _ => True end.

(** The token that an operation presents for a key. *)
Definition presents (key token : text) (o : op) : Prop :=
  match o with
  | OpCommit _ _ item d _ | OpAbort _ _ item d => decision_key item d = key ∧ ownerToken d = token
  | _ => False
  end.
Definition tokened (o : op) : Prop :=
  match o with OpCommit _ _ _ d _ => ownerToken d ≠ [] | _ => True end.

(** How an operation changes the store: not at all, or it prunes it and then
    begins, commits, aborts or nothing. *)
Inductive step_case (s : memoryStore) (o : op) : memoryStore → Prop :=
| Step_none : step_case s o s
| Step_prune : step_case s o (pruneLocked (op_time o) s)
| Step_begin c clock item s' r : o = OpBegin c clock item →
    begin_case (op_time o) item (pruneLocked (op_time o) s) s' r → step_case s o s'
| Step_commit c clock item d result : o = OpCommit c clock item d result →
    settles ToLower TrimSpace (pruneLocked (op_time o) s) item d →
    step_case s o (committed ToLower TrimSpace clock item (decision_key item d) result
                     (pruneLocked (op_time o) s))
| Step_abort c clock item d : o = OpAbort c clock item d →
    settles ToLower TrimSpace (pruneLocked (op_time o) s) item d →
    step_case s o (removePendingLocked (decision_key item d) (pruneLocked (op_time o) s)).

Lemma step_cases s o : wf s → op_ok o → step_case s o (run_op s o).
Proof.
  intros Hwf Hok. destruct o as [c clock item|c clock item d result|c clock item d|c clock d|clock].
  - cbn [run_op]. destruct c; [apply Step_none|].
    eapply Step_begin; [done|]. by apply begin_cases.
  - cbn [run_op]. destruct c; [apply Step_none|].
    pose proof (commit_cases ToLower TrimSpace clock item d result s) as H. cbn zeta in H.
    destruct (store_commit false clock item d result s) as [s' r]. cbn [fst snd] in *.
    destruct H; [|apply (Step_prune s (OpCommit false clock item d result))..].
    by apply (Step_commit s (OpCommit false clock item d result) false clock item d result).
  - cbn [run_op]. destruct c; [apply Step_none|].
    pose proof (abort_cases ToLower TrimSpace clock item d s) as H. cbn zeta in H.
    destruct (store_Abort false clock item d s) as [s' r]. cbn [fst snd] in *.
    destruct H; [|apply (Step_prune s (OpAbort false clock item d))..].
    by apply (Step_abort s (OpAbort false clock item d) false clock item d).
  - cbn [run_op]. unfold store_LookupResult. destruct c; [apply Step_none|].
    destruct (bool_decide _); [apply Step_none|apply (Step_prune s (OpLookup false clock d))].
  - apply (Step_prune s (OpSnapshot clock)).
Qed.

Lemma store_step_wf s o : wf s → op_ok o → wf (run_op s o).
Proof.
  intros Hwf Hok. pose proof (prune_wf (op_time o) s Hwf) as Hp.
  destruct (step_cases s o Hwf Hok) as [| |c clock item s' r -> Hb| |]; try done.
  - by eapply begin_case_wf.
  - by apply committed_wf.
  - by apply removePending_wf.
Qed.

Lemma run_invariant (P : memoryStore → Prop) (Q : op → Prop) l : ∀ s,
  (∀ s o, wf s → op_ok o → Q o → P s → P (run_op s o)) →
  wf s → Forall op_ok l → Forall Q l → P s → wf (run s l) ∧ P (run s l).
Proof.
  induction l as [|o l IH]; intros s Hstep Hwf Hok HQ HP; [done|].
  apply Forall_cons in Hok as [Ho Hok]. apply Forall_cons in HQ as [Hq HQ].
  apply IH; try done; [by apply store_step_wf|by apply Hstep].
Qed.

(** ** A reservation being held *)

Definition held (key : text) (p : pendingMemoryEntry) (s : memoryStore) : Prop :=
  pending s !! key = Some p ∧ seen s !! key = None.

Lemma prune_held now key p s : wf s → held key p s → now < p_expiresAt p →
  held key p (pruneLocked now s).
Proof.
  intros (_ & Hi & _) [Hp Hs] Hlt. destruct (prune_spec now s Hi) as (_ & _ & Es & _ & _ & Ep).
  split.
  - rewrite Ep. by apply map_lookup_filter_Some.
  - rewrite Es. apply map_lookup_filter_None. by left.
Qed.

Lemma begin_held now item key p s s' r : held key p s → begin_case now item s s' r → held key p s'.
Proof.
  intros [Hp Hs] [| |_ Hn _| |_ Hn _ _]; try by split.
  - split; [done|]. cbn. rewrite lookup_insert_ne; [done|]. intros <-. by rewrite Hn in Hp.
  - assert (request_key item ≠ key) as Hne by (intros <-; by rewrite Hn in Hp).
    unfold held, reserve. destruct (0 <? Sequence item); cbn; by rewrite lookup_insert_ne.
Qed.

Lemma settles_held item d key p s : held key p s → p_ownerToken p ≠ [] →
  settles ToLower TrimSpace s item d → decision_key item d = key → ownerToken d = p_ownerToken p.
Proof.
  intros [Hp _] Ht [Ho _] Hk. unfold owns in Ho. rewrite Hk, Hp in Ho.
  unfold resvOwnerMatch in Ho. destruct (bool_decide (ownerToken d = [])); cbn in Ho; bool_clean; done.
Qed.

Lemma held_step key p s o :
  wf s → op_ok o → op_time o < p_expiresAt p ∧ ¬ presents key (p_ownerToken p) o →
  p_ownerToken p ≠ [] → held key p s → held key p (run_op s o).
Proof.
  intros Hwf Hok [Hlt Hpres] Htok Hheld.
  pose proof (prune_held _ _ _ _ Hwf Hheld Hlt) as Hh. pose proof (prune_wf (op_time o) s Hwf) as (_ & Hi & _).
  destruct (step_cases s o Hwf Hok) as [| |c clock item s' r -> Hb|c clock item d result -> Hs|c clock item d -> Hs];
    try done.
  - by eapply begin_held.
  - assert (decision_key item d ≠ key) as Hne.
    { intros Hk. apply Hpres. split; [done|]. by eapply settles_held. }
    destruct (committed_fields ToLower TrimSpace clock item (decision_key item d) result _ Hi)
      as (_ & Ep & _ & Es & _).
    unfold held. rewrite Ep, Es, lookup_delete_ne, lookup_insert_ne by done. done.
  - assert (decision_key item d ≠ key) as Hne.
    { intros Hk. apply Hpres. split; [done|]. by eapply settles_held. }
    rewrite removePending_eq by done. unfold held. cbn. by rewrite lookup_delete_ne.
Qed.

Lemma conflict_refl x : reqFPConflict TrimSpace x x = false.
Proof. unfold reqFPConflict. rewrite (bool_decide_true (TrimSpace x = TrimSpace x)) by done. apply andb_false_r. Qed.

(** An accepted [Begin] leaves its reservation. *)
Lemma accepted_held clock item s s1 d : wf s → 0 <= Sequence item →
  store_Begin false clock item s = (s1, Ret d) → d_Status d = StatusAccepted →
  let now := begin_now clock item in
  let p := mkPending (Fingerprint item) (reservationToken item) (now + ttl s) (request_scope item)
             (Sequence item) in
  d = mkDecision StatusAccepted (request_key item) (Sequence item) (reservationToken item) ∧
  s1 = reserve ToLower TrimSpace now item (pruneLocked now s) ∧ held (request_key item) p s1 ∧
  (begin_case now item (pruneLocked now s) s1 (Ret d)) ∧ wf s1.
Proof.
  intros Hwf Hseq H Hacc. cbn zeta.
  pose proof (begin_cases ToLower TrimSpace clock item s Hwf Hseq) as Hc. cbn zeta in Hc.
  rewrite H in Hc. cbn [fst snd] in Hc.
  pose proof (begin_case_wf _ _ _ _ _ _ _ (prune_wf _ _ Hwf) Hseq Hc) as Hwf1.
  destruct Hwf as (_ & Hi & _).
  assert (ttl (pruneLocked (begin_now clock item) s) = ttl s) as Et
    by apply (prune_spec (begin_now clock item) s Hi).
  inversion Hc as [e Hs E1 E2|p Hs Hp E1 E2|Hs Hp Hr E1 E2|Hs Hp Hr Hq Hb E1 E2|Hs Hp Hr Hb E1 E2]; subst.
  - destruct (reqFPConflict _ _ _); [done|]. injection E2 as <-. done.
  - destruct (reqFPConflict _ _ _); [done|]. injection E2 as <-. done.
  - done.
  - done.
  - split_and!; try done. unfold held, reserve. rewrite Et.
    destruct (0 <? Sequence item); cbn; by rewrite lookup_insert_eq.
Qed.

(** ** A committed key *)

Definition kept (T : Z) (key : text) (result : option (list Z)) (scope : text) (n : Z)
    (s : memoryStore) : Prop :=
  pending s !! key = None ∧
  (∃ e, seen s !! key = Some e ∧ T <= s_expiresAt e) ∧
  payload <$> results s !! key = result ∧
  (∀ r, results s !! key = Some r → T <= r_expiresAt r) ∧
  (0 < n → ∃ h, highest s !! scope = Some h ∧ n <= w_sequence h ∧ T <= w_expiresAt h).

Lemma prune_kept now T key result scope n s : wf s → kept T key result scope n s → now < T →
  kept T key result scope n (pruneLocked now s).
Proof.
  intros (_ & Hi & _) (Hp & (e & He & Hle) & Hr & Hrl & Hh) Hlt.
  destruct (prune_spec now s Hi) as (_ & _ & Es & Er & Eh & Ep).
  unfold kept. rewrite Es, Er, Eh, Ep. split_and!.
  - apply map_lookup_filter_None. by left.
  - exists e. split; [|done]. apply map_lookup_filter_Some. split; [done|cbn; lia].
  - rewrite <- Hr. f_equal. destruct (results s !! key) as [r|] eqn:E.
    + apply map_lookup_filter_Some. split; [done|]. specialize (Hrl r eq_refl). cbn. lia.
    + apply map_lookup_filter_None. by left.
  - intros r [H _]%map_lookup_filter_Some. by apply Hrl.
  - intros Hn. destruct (Hh Hn) as (h & Hl & Hseq & Hexp). exists h. split_and!; try done.
    apply map_lookup_filter_Some. split; [done|cbn; lia].
Qed.

Lemma kept_step T key result scope n t s o :
  wf s → op_ok o → (t <= op_time o < t + ttl s ∧ tokened o) → T = t + ttl s →
  kept T key result scope n s → kept T key result scope n (run_op s o).
Proof.
  intros Hwf Hok [Hlt Htok] HT Hdone.
  pose proof (prune_kept (op_time o) _ _ _ _ _ _ Hwf Hdone ltac:(lia)) as Hd.
  destruct Hwf as (Hpos & Hi & Hrest). pose proof (conj Hpos (conj Hi Hrest)) as Hwf.
  destruct (prune_spec (op_time o) s Hi) as (Hi' & Et & _).
  destruct (step_cases s o Hwf Hok) as [| |c clock item s' r -> Hb|c clock item d res -> Hs|c clock item d -> Hs];
    try assumption.
  - destruct Hd as (Hp & (e & He & Hle) & Hr & Hrl & Hh).
    inversion Hb as [| |Hs' _ _| |Hs' _ _ _]; subst; try (split_and!; eauto; fail).
    + assert (request_key item ≠ key) as Hne by (intros <-; by rewrite Hs' in He).
      split_and!; cbn; rewrite ?lookup_insert_ne by assumption; eauto.
    + assert (request_key item ≠ key) as Hne by (intros <-; by rewrite Hs' in He).
      unfold kept, reserve. destruct (0 <? Sequence item); cbn;
        rewrite lookup_insert_ne by assumption; split_and!; eauto.
  - assert (decision_key item d ≠ key) as Hne.
    { intros Hk. destruct Hs as [Ho _]. unfold owns, resvOwnerMatch in Ho. rewrite Hk in Ho.
      rewrite (proj1 Hd) in Ho. cbn in Htok, Ho. by rewrite bool_decide_false in Ho. }
    cbn [op_time] in Hlt, Hd, Hi', Et |- *.
    destruct (committed_fields ToLower TrimSpace clock item (decision_key item d) res _ Hi')
      as (_ & Ep & _ & Es & Er & Eh).
    destruct Hd as (Hp & He & Hr & Hrl & Hh). unfold kept. rewrite Ep, Es, Er, Eh.
    rewrite lookup_delete_ne, lookup_insert_ne by assumption. split_and!; try assumption.
    + destruct res; [by rewrite lookup_insert_ne|by rewrite lookup_delete_ne].
    + intros r. destruct res; [rewrite lookup_insert_ne by assumption|rewrite lookup_delete_ne by assumption];
        apply Hrl.
    + intros Hn. destruct (Hh Hn) as (h & Hl & Hseq & Hexp).
      destruct (0 <? Sequence item); [|eauto].
      destruct (decide (request_scope item = scope)) as [E|E].
      * rewrite E, lookup_insert_eq, Hl. eexists. split; [reflexivity|].
        cbn [w_sequence w_expiresAt]. split; [|lia]. destruct (_ || _) eqn:Eb; [|assumption]. bool_clean.
        apply orb_true_iff in Eb as [Eb|Eb]; bool_clean; lia.
      * rewrite lookup_insert_ne by assumption. eauto.
  - destruct Hd as (Hp & He & Hr & Hrl & Hh). rewrite removePending_eq by assumption.
    unfold kept; cbn. split_and!; try assumption. by apply lookup_delete_None; right.
Qed.

Lemma ttl_run_op s o : wf s → op_ok o → ttl (run_op s o) = ttl s.
Proof.
  intros Hwf Hok. assert (∀ now, ttl (pruneLocked now s) = ttl s) as Et.
  { intros now. by destruct Hwf as (_ & Hi & _); destruct (prune_spec now s Hi) as (_ & ? & _). }
  pose proof (prune_wf (op_time o) s Hwf) as (_ & Hi & _).
  destruct (step_cases s o Hwf Hok) as [| |c clock item s' r -> Hb|c clock item d res -> Hs|c clock item d -> Hs];
    try reflexivity; try apply Et.
  - destruct Hb; cbn; try apply Et. unfold reserve. destruct (0 <? Sequence item); apply Et.
  - rewrite (proj1 (committed_fields _ _ _ _ _ _ _ Hi)). apply Et.
  - rewrite removePending_eq by assumption. apply Et.
Qed.

(** ** What a reservation and a commit rule out *)

Lemma held_blocks key p s clock item d : wf s → 0 <= Sequence item → held key p s →
  begin_now clock item < p_expiresAt p →
  (request_key item = key ∨
   (0 < Sequence item ∧ 0 < p_sequence p ∧ request_scope item = p_seqScope p)) →
  (store_Begin false clock item s).2 = Ret d → d_Status d ≠ StatusAccepted.
Proof.
  intros Hwf Hseq Hheld Hlt Hsame Hd.
  destruct (prune_held _ _ _ _ Hwf Hheld Hlt) as [Hp _].
  pose proof (prune_wf (begin_now clock item) s Hwf) as (_ & (F & _) & _).
  pose proof (begin_cases ToLower TrimSpace clock item s Hwf Hseq) as Hc. cbn zeta in Hc.
  rewrite Hd in Hc. inversion Hc as [e Hs E1 E2|p' Hs Hp' E1 E2|Hs Hp' Hr E1 E2|Hs Hp' Hr Hq Hb E1 E2
    |Hs Hp' Hr Hb E1 E2]; subst.
  - destruct (reqFPConflict _ _ _); [done|]. by injection E2 as <-.
  - destruct (reqFPConflict _ _ _); [done|]. by injection E2 as <-.
  - done.
  - done.
  - destruct Hsame as [<-|(H1 & H2 & H3)]; [by rewrite Hp in Hp'|].
    specialize (F _ _ Hp H2). by rewrite <- H3, Hb in F.
Qed.

Lemma held_commits p s clock item d result : wf s → held (decision_key item d) p s →
  clock < p_expiresAt p → p_fingerprint p = Fingerprint item → ownerToken d = p_ownerToken p →
  (store_commit false clock item d result s).2 = Ret tt.
Proof.
  intros Hwf Hheld Hlt Hfp Htok. destruct (prune_held _ _ _ _ Hwf Hheld Hlt) as [Hp Hs].
  unfold Idempotency.store_commit. cbn zeta. set (s0 := pruneLocked _ _) in *.
  assert (owns s0 (decision_key item d) d = true) as ->.
  { unfold owns, resvOwnerMatch. rewrite Hp, Htok.
    destruct (bool_decide (p_ownerToken p = [])); [done|by rewrite bool_decide_true]. }
  unfold seen_conflict, pending_conflict. by rewrite Hs, Hp, Hfp, conflict_refl.
Qed.

Lemma kept_blocks T key result scope n s clock item d : wf s → 0 <= Sequence item →
  kept T key result scope n s → begin_now clock item < T →
  (request_key item = key ∨ (0 < Sequence item <= n ∧ request_scope item = scope)) →
  (store_Begin false clock item s).2 = Ret d →
  d_Status d ≠ StatusAccepted ∧ (request_key item = key → d_Status d = StatusDuplicate).
Proof.
  intros Hwf Hseq Hkept Hlt Hsame Hd.
  destruct (prune_kept _ _ _ _ _ _ _ Hwf Hkept Hlt) as (_ & (e & He & _) & _ & _ & Hh).
  pose proof (begin_cases ToLower TrimSpace clock item s Hwf Hseq) as Hc. cbn zeta in Hc.
  rewrite Hd in Hc. inversion Hc as [e' Hs E1 E2|p' Hs Hp' E1 E2|Hs Hp' Hr E1 E2|Hs Hp' Hr Hq Hb E1 E2
    |Hs Hp' Hr Hb E1 E2]; subst.
  - destruct (reqFPConflict _ _ _); [done|]. by injection E2 as <-.
  - destruct (reqFPConflict _ _ _); [done|]. injection E2 as <-. split; [done|].
    intros <-. by rewrite Hs in He.
  - split; [done|]. intros <-. by rewrite Hs in He.
  - split; [done|]. intros <-. by rewrite Hs in He.
  - exfalso. destruct Hsame as [<-|[[H1 H2] H3]]; [by rewrite Hs in He|].
    destruct (Hh ltac:(lia)) as (h & Hl & Hn & _). apply Hr. split; [done|].
    exists h. rewrite H3. split; [done|lia].
Qed.

Lemma commit_kept clock item d result s s1 : wf s →
  store_commit false clock item d result s = (s1, Ret tt) →
  wf s1 ∧ ttl s1 = ttl s ∧
  kept (clock + ttl s) (decision_key item d) result (request_scope item) (Sequence item) s1.
Proof.
  intros Hwf H. pose proof (commit_cases ToLower TrimSpace clock item d result s) as Hc.
  cbn zeta in Hc. rewrite H in Hc. cbn [fst snd] in Hc.
  pose proof (prune_wf clock s Hwf) as Hwf0. destruct Hwf as (_ & Hi & _).
  destruct (prune_spec clock s Hi) as (Hi' & Et & _).
  inversion Hc as [Hs Hsc E1 E2| |]; subst.
  destruct (committed_fields ToLower TrimSpace clock item (decision_key item d) result _ Hi')
    as (E1 & Ep & _ & Es & Er & Eh).
  split_and!; [by apply committed_wf|by rewrite E1|].
  unfold kept. rewrite Ep, Es, Er, Eh, Et. split_and!.
  - apply lookup_delete_eq.
  - eexists. rewrite lookup_insert_eq. split; [reflexivity|cbn; lia].
  - destruct result; [by rewrite lookup_insert_eq|by rewrite lookup_delete_eq].
  - intros r. destruct result; [rewrite lookup_insert_eq; intros [= <-]; cbn; lia|].
    by rewrite lookup_delete_eq.
  - intros Hn. replace (0 <? Sequence item) with true by lia. eexists. rewrite lookup_insert_eq.
    split; [reflexivity|]. cbn [w_sequence w_expiresAt]. split; [|lia].
    destruct (highest _ !! _) as [c|]; [|lia]. destruct (_ || _) eqn:E; [lia|]. bool_clean. lia.
Qed.

(** ** What a request needs to be accepted *)

Definition free (item : Request) (s : memoryStore) : Prop :=
  seen s !! request_key item = None ∧ pending s !! request_key item = None ∧
  ¬ replayed ToLower TrimSpace s item ∧
  (0 < Sequence item → pendingSeq s !! request_scope item = None).

Lemma accepted_free now item s s' d : begin_case now item s s' (Ret d) →
  d_Status d = StatusAccepted → free item s.
Proof.
  intros Hc Hacc. inversion Hc as [e Hs E1 E2|p Hs Hp E1 E2|Hs Hp Hr E1 E2|Hs Hp Hr Hq Hb E1 E2
    |Hs Hp Hr Hb E1 E2]; subst.
  - destruct (reqFPConflict _ _ _); [done|]. by injection E2 as <-.
  - destruct (reqFPConflict _ _ _); [done|]. by injection E2 as <-.
  - done.
  - done.
  - by split_and!.
Qed.

Lemma prune_free t item s : wf s → free item s → free item (pruneLocked t s).
Proof.
  intros (_ & Hi & _) (Hs & Hp & Hr & Hq).
  destruct (prune_spec t s Hi) as ((_ & _ & B & _) & _ & Es & _ & Eh & Ep).
  split_and!.
  - rewrite Es. apply map_lookup_filter_None. by left.
  - rewrite Ep. apply map_lookup_filter_None. by left.
  - intros (Hpos & h & Hh & Hle). rewrite Eh in Hh. apply map_lookup_filter_Some in Hh as [Hh _].
    apply Hr. split; [done|]. by exists h.
  - intros Hpos. destruct (pendingSeq (pruneLocked t s) !! request_scope item) as [m|] eqn:Em; [|done].
    destruct (B _ _ Em) as (k & p & Hkp & Hsc & Hp0). rewrite Ep in Hkp.
    apply map_lookup_filter_Some in Hkp as [Hkp _]. destruct Hi as (F & _).
    specialize (F _ _ Hkp Hp0). rewrite Hsc, Hq in F; done.
Qed.

Lemma free_accepted clock item s : wf s → 0 <= Sequence item → free item s →
  (store_Begin false clock item s).2
  = Ret (mkDecision StatusAccepted (request_key item) (Sequence item) (reservationToken item)).
Proof.
  intros Hwf Hseq Hfree.
  destruct (prune_free (begin_now clock item) item s Hwf Hfree) as (Hs & Hp & Hr & Hq).
  pose proof (begin_cases ToLower TrimSpace clock item s Hwf Hseq) as Hc. cbn zeta in Hc.
  inversion Hc as [e Hse E2 E3|p Hse Hpe E2 E3|Hse Hpe Hre E2 E3|Hse Hpe Hre Hqe Hbe E2 E3
    |Hse Hpe Hre Hbe E2 E3]; try congruence; try done.
  by destruct Hbe; apply Hq.
Qed.

(** ** Taking a reservation back *)

Lemma abort_reserve t now item s p : indexed (pending s) (pendingSeq s) → wf s →
  pending s !! request_key item = None →
  (0 < Sequence item → pendingSeq s !! request_scope item = None) → 0 <= Sequence item →
  p = mkPending (Fingerprint item) (reservationToken item) (now + ttl s) (request_scope item) (Sequence item) →
  t < now + ttl s →
  removePendingLocked (request_key item) (pruneLocked t (reserve ToLower TrimSpace now item s))
  = pruneLocked t s.
Proof.
  intros Hi Hwf Hfree Hscope Hseq -> Hlt.
  pose proof (reserve_indexed ToLower TrimSpace now item s Hi Hseq Hfree Hscope) as Hi1.
  set (s1 := reserve _ _ _ _ _) in *.
  destruct (prune_spec t s1 Hi1) as (Hi1' & T1 & S1 & R1 & H1 & P1).
  destruct (prune_spec t s Hi) as (Hi0' & T0 & S0 & R0 & H0 & P0).
  pose proof (removePending_indexed (request_key item) _ Hi1') as Hi2.
  assert (ttl s1 = ttl s ∧ seen s1 = seen s ∧ results s1 = results s ∧ highest s1 = highest s ∧
    pending s1 = <[request_key item := mkPending (Fingerprint item) (reservationToken item)
      (now + ttl s) (request_scope item) (Sequence item)]> (pending s)) as (Et & Es & Er & Eh & Ep).
  { subst s1. unfold reserve. by destruct (0 <? Sequence item). }
  assert (pending (removePendingLocked (request_key item) (pruneLocked t s1)) = pending (pruneLocked t s)) as Epp.
  { rewrite removePending_eq by done. cbn [set_pendingSeq set_pending pending]. rewrite P1, P0, Ep. unfold live_pending.
    rewrite map_filter_insert_True by done. by rewrite delete_insert_id
      by (apply map_lookup_filter_None; by left). }
  rewrite Epp in Hi2. pose proof (indexed_unique _ _ _ Hi2 Hi0') as Eps.
  rewrite removePending_eq in Epp, Eps |- * by done.
  destruct (pruneLocked t s) as [t0 se0 re0 pe0 hi0 ps0].
  unfold set_pendingSeq, set_pending in *. cbn [pending pendingSeq seen results highest ttl] in *.
  rewrite Epp, Eps, T1, S1, R1, H1, Et, Es, Er, Eh. by subst.
Qed.

(** The owner's abort of a fresh reservation. *)
Lemma abort_accepted clock clock' item s s1 d d' : wf s → 0 <= Sequence item →
  store_Begin false clock item s = (s1, Ret d) → d_Status d = StatusAccepted →
  let now := begin_now clock item in clock' < now + ttl s →
  d_Key d' = request_key item → ownerToken d' = reservationToken item →
  store_Abort false clock' item d' s1 = (pruneLocked clock' (pruneLocked now s), Ret tt).
Proof.
  intros Hwf Hseq Hb Hacc now Hlt Hk Htok.
  destruct (accepted_held clock item s s1 d Hwf Hseq Hb Hacc) as (_ & E1 & Hheld & Hcase & Hwf1).
  fold now in E1, Hheld, Hcase.
  destruct (accepted_free _ _ _ _ _ Hcase Hacc) as (_ & Hp & _ & Hq).
  pose proof (prune_wf now _ Hwf) as Hwf0.
  assert (ttl (pruneLocked now s) = ttl s) as Et by apply (prune_spec now _ (proj1 (proj2 Hwf))).
  pose proof (abort_reserve clock' now item _ _ (proj1 (proj2 Hwf0)) Hwf0 Hp Hq Hseq eq_refl
    ltac:(by rewrite Et)) as Heq.
  destruct (prune_held clock' _ _ _ Hwf1 Hheld Hlt) as [Hp1 _].
  assert (decision_key item d' = request_key item) as Edk.
  { unfold decision_key. rewrite Hk. by case_bool_decide. }
  unfold Idempotency.store_Abort. cbn zeta. rewrite Edk, E1 in *.
  unfold owns, pending_conflict, resvOwnerMatch. rewrite Hp1. cbn [p_ownerToken p_fingerprint].
  rewrite Htok, conflict_refl, Heq.
  destruct (bool_decide (reservationToken item = [])); [done|by rewrite bool_decide_true].
Qed.

End Theorems.
