(* ===== verification/IdempotencyProperties.v ===== *)
(** * What the idempotency guard promises

    The theorems are about the guard and its reservations, over every sequence
    of operations of other clients. *)

From S2P Require Import Prelude GoStrings Idempotency IdempotencyInvariant IdempotencyTheorems.

(** ** Derived keys *)

Definition is_bytes (s : text) : Prop := ∀ b, b ∈ s → 0 <= b < 256.

Lemma base64_char_inj x y : 0 <= x < 64 → 0 <= y < 64 → base64_char x = base64_char y → x = y.
Proof.
  unfold base64_char. intros Hx Hy.
  destruct (x <? 26) eqn:?, (y <? 26) eqn:?; bool_clean; try lia;
    destruct (x <? 52) eqn:?, (y <? 52) eqn:?; bool_clean; try lia;
    destruct (x <? 62) eqn:?, (y <? 62) eqn:?; bool_clean; try lia;
    destruct (x =? 62) eqn:?, (y =? 62) eqn:?; bool_clean; lia.
Qed.

Lemma base64_char_colon x : 0 <= x < 64 → base64_char x ≠ 58.
Proof.
  unfold base64_char. intros Hx.
  destruct (x <? 26) eqn:?; bool_clean; [lia|]. destruct (x <? 52) eqn:?; bool_clean; [lia|].
  destruct (x <? 62) eqn:?; bool_clean; [lia|]. destruct (x =? 62); lia.
Qed.

Lemma bytes_cons b s : is_bytes (b :: s) → 0 <= b < 256 ∧ is_bytes s.
Proof. unfold is_bytes. intros H. split; [apply H; left|intros x Hx; apply H; by right]. Qed.

(** Induction over groups of three bytes. *)
Lemma triple_ind (P : list Z → Prop) :
  P [] → (∀ a, P [a]) → (∀ a b, P [a; b]) → (∀ a b c s, P s → P (a :: b :: c :: s)) → ∀ s, P s.
Proof.
  intros H0 H1 H2 H3 s. enough (P s ∧ (∀ a, P (a :: s)) ∧ (∀ a b, P (a :: b :: s))) by tauto.
  induction s as [|c s (IH0 & IH1 & IH2)]; [done|]. split_and!; auto.
Qed.

Lemma base64_raw_inj s : ∀ s', is_bytes s → is_bytes s' → base64_raw s = base64_raw s' → s = s'.
Proof.
  induction s as [|a|a b|a b c s IH] using triple_ind; intros s' Hs Hs';
    destruct s' as [|a' [|b' [|c' s']]]; cbn [base64_raw]; try done;
    repeat match goal with H : is_bytes (_ :: _) |- _ => apply bytes_cons in H as [? H] end;
    intros Heq; try (by destruct s; try destruct s'); injection Heq as;
    repeat match goal with
    | H : base64_char _ = base64_char _ |- _ =>
        apply base64_char_inj in H; [|Z.div_mod_to_equations; lia..]
    end.
  - f_equal. Z.div_mod_to_equations; lia.
  - f_equal; [|f_equal]; Z.div_mod_to_equations; lia.
  - assert (s = s') as -> by by apply IH.
    f_equal; [|f_equal; [|f_equal]]; Z.div_mod_to_equations; lia.
Qed.

Lemma base64_raw_no_colon s : is_bytes s → 58 ∉ base64_raw s.
Proof.
  induction s as [|a|a b|a b c s IH] using triple_ind; intros Hs; cbn [base64_raw];
    repeat match goal with H : is_bytes (_ :: _) |- _ => apply bytes_cons in H as [? H] end;
    rewrite ?not_elem_of_cons; split_and?; try (by apply IH); try (by apply not_elem_of_nil);
    apply not_eq_sym, base64_char_colon; Z.div_mod_to_equations; lia.
Qed.

Lemma encoded_inj s s' : is_bytes s → is_bytes s' →
  encodeDerivedKeyPart s = encodeDerivedKeyPart s' → s = s'.
Proof.
  unfold encodeDerivedKeyPart. intros Hs Hs'. repeat case_bool_decide; subst; try done.
  - by destruct s' as [|? [|? []]].
  - by destruct s as [|? [|? []]].
  - by apply base64_raw_inj.
Qed.

Lemma encoded_no_colon s : is_bytes s → 58 ∉ encodeDerivedKeyPart s.
Proof.
  intros Hs. unfold encodeDerivedKeyPart. case_bool_decide; [|by apply base64_raw_no_colon].
  by apply (bool_decide_unpack _).
Qed.

(** Two strings cut at their first colon. *)
Lemma colon_inj a a' r r' : 58 ∉ a → 58 ∉ a' → a ++ 58 :: r = a' ++ 58 :: r' → a = a' ∧ r = r'.
Proof.
  intros Ha Ha' H. apply (f_equal (λ s, Cut s 58)) in H.
  rewrite !Cut_spec in H by done. by injection H.
Qed.

(** ** The guard and its store *)

Section Properties.
Context (ToLower TrimSpace : text → text).

Abbreviation request_key := (request_key ToLower TrimSpace).
Abbreviation request_scope := (request_scope ToLower TrimSpace).
Abbreviation normalizeRequest := (normalizeRequest ToLower TrimSpace).
Abbreviation Begin := (Begin ToLower TrimSpace).
Abbreviation Commit := (Commit ToLower TrimSpace).
Abbreviation CommitResult := (CommitResult ToLower TrimSpace).
Abbreviation Abort := (Abort ToLower TrimSpace).
Abbreviation LookupResult := (LookupResult TrimSpace).
Abbreviation run := (run ToLower TrimSpace).

Inductive guard_op :=
| GBegin (canceled canceled' : bool) (token : option text) (clock latency : Z) (r : Request)
| GCommit (canceled : bool) (clock : Z) (r : Reservation)
| GCommitResult (canceled : bool) (clock : Z) (r : Reservation) (payload : list Z)
| GAbort (canceled : bool) (clock : Z) (r : Reservation)
| GLookup (canceled canceled' : bool) (clock : Z) (d : Decision).

Definition run_guard_op (g : Guard) (o : guard_op) : Guard :=
  match o with
  | GBegin c c' token clock latency r => (Begin c c' token clock latency r g).1
  | GCommit c clock r => (Commit c clock r g).1.1
  | GCommitResult c clock r payload => (CommitResult c clock r payload g).1.1
  | GAbort c clock r => (Abort c clock r g).1.1
  | GLookup c c' clock d => (LookupResult c c' clock d g).1
  end.
Definition run_guard (g : Guard) (l : list guard_op) : Guard := foldl run_guard_op g l.

(** A request that carries neither a key nor a sequence passes the guard. *)
Definition unguarded (item : Request) : bool := bool_decide (Key item = []) && (Sequence item =? 0).

(** The operations of the store that an operation of the guard makes. *)
Definition store_ops (o : guard_op) : list op :=
  match o with
  | GBegin false c' (Some token) clock _ r =>
      match normalizeRequest r with
      | Ret item => if unguarded item then [] else [OpBegin c' clock (with_token token item)]
      | _ => []
      end
  | GBegin _ _ _ _ _ _ => []
  | GCommit c clock r => if active r then [OpCommit c clock (request r) (decision r) None] else []
  | GCommitResult c clock r payload =>
      if active r then [OpCommit c clock (request r) (decision r) (Some payload)] else []
  | GAbort c clock r => if active r then [OpAbort c clock (request r) (decision r)] else []
  | GLookup c c' clock d =>
      if c || bool_decide (TrimSpace (d_Key d) = []) then [] else [OpLookup c' clock d]
  end.

Lemma settle_store act r g : g_store (settle act r g).1.1
  = if active r then (act (g_store g)).1 else g_store g.
Proof.
  unfold settle. destruct (active r); [|done]. cbn. destruct (act (g_store g)) as [s []]; done.
Qed.

Lemma run_guard_op_store g o : g_store (run_guard_op g o) = run (g_store g) (store_ops o).
Proof.
  destruct o as [c c' token clock lat r|c clock r|c clock r p|c clock r|c c' clock d]; cbn [run_guard_op store_ops].
  - unfold Idempotency.Begin. destruct c; [done|].
    destruct (normalizeRequest r) as [item| |]; [|by destruct token..].
    unfold unguarded. destruct (_ && _); [by destruct token|]. destruct token as [token|]; [|done].
    unfold IdempotencyTheorems.run. cbn [foldl run_op].
    by destruct (store_Begin ToLower TrimSpace c' clock (with_token token item) (g_store g)) as [s []].
  - unfold Idempotency.Commit. rewrite settle_store. by destruct (active r).
  - unfold Idempotency.CommitResult. rewrite settle_store. by destruct (active r).
  - unfold Idempotency.Abort. rewrite settle_store. by destruct (active r).
  - unfold Idempotency.LookupResult. destruct c; [done|].
    destruct (bool_decide _); cbn [orb]; [done|].
    unfold IdempotencyTheorems.run. cbn [foldl run_op].
    by destruct (store_LookupResult c' clock d (g_store g)).
Qed.

Lemma run_guard_store l : ∀ g, g_store (run_guard g l) = run (g_store g) (l ≫= store_ops).
Proof.
  induction l as [|o l IH]; intros g; [done|]. cbn [run_guard foldl]. unfold run_guard in IH.
  rewrite IH, run_guard_op_store. rewrite bind_cons. unfold IdempotencyTheorems.run.
  by rewrite foldl_app.
Qed.

(** Every operation of the store under an operation of the guard. *)
Definition every (Q : op → Prop) (l : list guard_op) : Prop := ∀ o, o ∈ l → Forall Q (store_ops o).

Lemma every_bind Q l : every Q l → Forall Q (l ≫= store_ops).
Proof.
  intros H. apply Forall_forall. intros o (go & Ho & Hgo)%list_elem_of_bind.
  by eapply Forall_forall in Ho; [|apply H].
Qed.

Lemma begin_guard c c' token clock lat r g g' res d :
  Begin c c' token clock lat r g = (g', Ret (res, d)) → active res = true →
  ∃ item tok, c = false ∧ c' = false ∧ token = Some tok ∧ normalizeRequest r = Ret item ∧
    unguarded item = false ∧ res = mkReservation (with_token tok item) d true ∧
    d_Status d = StatusAccepted ∧ ownerToken d = tok ∧
    ∃ d0, store_Begin ToLower TrimSpace false clock (with_token tok item) (g_store g)
      = (g_store g', Ret d0) ∧ d_Status d0 = StatusAccepted ∧ d_Key d0 = d_Key d ∧ d_Sequence d0 = d_Sequence d.
Proof.
  unfold Idempotency.Begin. destruct c; [done|].
  destruct (normalizeRequest r) as [item| |] eqn:En; [|done..]. fold (unguarded item).
  destruct (unguarded item) eqn:Eu; [by intros [= <- <- <-]|].
  destruct token as [tok|]; [|done]. destruct c'; [done|].
  destruct (store_Begin ToLower TrimSpace false clock (with_token tok item) (g_store g)) as [s [d0| |]] eqn:Eb; [|done..].
  destruct (bool_decide (d_Status d0 = StatusAccepted)) eqn:Ea; intros [= <- <- <-]; cbn;
    intros Hact; [|congruence].
  apply bool_decide_eq_true_1 in Ea. rewrite Ea. exists item, tok. split_and!; try done. by exists d0.
Qed.

Lemma begin_status c c' token clock lat r g res d :
  (Begin c c' token clock lat r g).2 = Ret (res, d) →
  (∃ item, normalizeRequest r = Ret item ∧ unguarded item = true) ∨
  ∃ item tok d0, normalizeRequest r = Ret item ∧
    (store_Begin ToLower TrimSpace false clock (with_token tok item) (g_store g)).2 = Ret d0 ∧
    d_Status d0 = d_Status d ∧ active res = bool_decide (d_Status d = StatusAccepted).
Proof.
  unfold Idempotency.Begin. destruct c; [done|].
  destruct (normalizeRequest r) as [item| |] eqn:En; [|done..]. fold (unguarded item).
  destruct (unguarded item) eqn:Eu; [left; by exists item|].
  destruct token as [tok|]; [|done]. destruct c'; [done|]. intros H. right. exists item, tok.
  destruct (store_Begin ToLower TrimSpace false clock (with_token tok item) (g_store g)) as [s [d0| |]];
    cbn in H; [|done..]. injection H as <- <-. exists d0. cbn. split_and!; try done.
  by case_bool_decide.
Qed.

Lemma normalize_keeps r item : normalizeRequest r = Ret item →
  Sequence item = Sequence r ∧ Now item = Now r.
Proof.
  unfold Idempotency.normalizeRequest, guard_. repeat (destruct (_ : bool); [done|]).
  by intros [= <-].
Qed.

Lemma decision_key_nonempty item d : decision_key ToLower TrimSpace item d ≠ [].
Proof.
  unfold decision_key, Idempotency.request_key. repeat case_bool_decide; [|done..].
  by unfold DerivedKey.
Qed.

(** The answer of the guard to a guarded request is that of the store. *)
Lemma begin_answer g (P : Request → Prop) (Q : Status → Prop) c c' token clock lat r res d :
  (∀ item tok d0, normalizeRequest r = Ret item → P (with_token tok item) →
     (store_Begin ToLower TrimSpace false clock (with_token tok item) (g_store g)).2 = Ret d0 →
     Q (d_Status d0)) →
  (∀ item, normalizeRequest r = Ret item → unguarded item = false ∧ ∀ tok, P (with_token tok item)) →
  (Begin c c' token clock lat r g).2 = Ret (res, d) → Q (d_Status d).
Proof.
  intros HQ HP Hb. destruct (begin_status _ _ _ _ _ _ _ _ _ Hb)
    as [(item & Hn & Hu)|(item & tok & d0 & Hn & Hd0 & <- & _)].
  - destruct (HP _ Hn) as [Hu' _]. congruence.
  - eapply HQ; [done| |done]. by apply HP.
Qed.

Lemma wf_run_guard g l : wf (g_store g) → every op_ok l → wf (g_store (run_guard g l)).
Proof.
  intros Hwf Hok. rewrite run_guard_store.
  apply (run_invariant ToLower TrimSpace (λ _, True) (λ _, True)); try done;
    [by apply every_bind|]. by apply Forall_true.
Qed.

Lemma settle_always act r g : (act (g_store g)).2 = Ret tt → (settle act r g).2 = Ret tt.
Proof.
  unfold settle. destruct (active r); [|done]. cbn. destruct (act (g_store g)) as [s o].
  cbn. by intros ->.
Qed.

(** C33: A reservation is exclusive.  From an accepted [Begin] until its time
    to live is over, whatever operations other clients run meanwhile that do
    not hold its token, no other guarded request with its key is accepted,
    and, when it carries a sequence, no other sequenced request of its scope;
    and its owner can still commit, with or without a result. *)
Theorem reservation_is_exclusive c c0 token clock lat r g g1 res d l :
  wf (g_store g) → 0 <= Sequence r → token ≠ Some [] →
  Begin c c0 token clock lat r g = (g1, Ret (res, d)) → active res = true →
  let T := begin_now clock (request res) + ttl (g_store g) in
  every op_ok l → every (λ o, op_time o < T ∧
    ¬ presents ToLower TrimSpace (d_Key d) (ownerToken d) o) l →
  let g2 := run_guard g1 l in
  (∀ c' c'' token' clock' lat' r' res' d', 0 <= Sequence r' → begin_now clock' r' < T →
     (∀ item', normalizeRequest r' = Ret item' → unguarded item' = false ∧
        (request_key item' = d_Key d ∨
         (0 < Sequence r ∧ 0 < Sequence r' ∧ request_scope item' = request_scope (request res)))) →
     (Begin c' c'' token' clock' lat' r' g2).2 = Ret (res', d') → d_Status d' ≠ StatusAccepted) ∧
  (∀ clock' payload, clock' < T →
     (Commit false clock' res g2).2 = Ret tt ∧ (CommitResult false clock' res payload g2).2 = Ret tt).
Proof.
  intros Hwf Hseq Htok Hb Hact T Hok Hops g2.
  destruct (begin_guard _ _ _ _ _ _ _ _ _ _ Hb Hact)
    as (item & tok & -> & -> & -> & Hn & _ & -> & Hacc & Ht & d0 & Hb0 & Hacc0 & Hk & _).
  destruct (normalize_keeps _ _ Hn) as [Es _].
  destruct (accepted_held ToLower TrimSpace clock (with_token tok item) (g_store g) (g_store g1) d0)
    as (Ed & _ & Hheld & _ & Hwf1); [done|by cbn; rewrite Es|done..|].
  set (p := mkPending _ _ _ _ _) in *.
  assert (d_Key d = request_key item) as Ek by by rewrite <- Hk, Ed.
  assert (wf (g_store g2) ∧ held (request_key item) p (g_store g2)) as [Hwf2 Hh2].
  { unfold g2. rewrite run_guard_store.
    apply (run_invariant ToLower TrimSpace _ (λ o, op_time o < T ∧
      ¬ presents ToLower TrimSpace (d_Key d) (ownerToken d) o)); try done; try by apply every_bind.
    intros s o Hws Hos HQ Hh. rewrite Ek, Ht in HQ. apply held_step; try done.
    cbn. intros ->. by apply Htok. }
  split.
  - intros c' c'' token' clock' lat' r' res' d' Hseq' Hlt Hsame.
    apply (begin_answer _ (λ i, request_key i = request_key item ∨
      (0 < Sequence i ∧ 0 < p_sequence p ∧ request_scope i = p_seqScope p)) (λ st, st ≠ StatusAccepted)).
    + intros item' tok' d1 Hn' HP. destruct (normalize_keeps _ _ Hn') as [Es' En'].
      eapply held_blocks; try done; [by cbn; rewrite Es'|].
      unfold begin_now in *; cbn. by rewrite En'.
    + intros item' Hn'. destruct (normalize_keeps _ _ Hn') as [Es' _].
      destruct (Hsame _ Hn') as [Hu [H|(H1 & H2 & H3)]]; (split; [done|intros tok']);
        [left; by rewrite <- Ek|right]. cbn. by rewrite Es', Es.
  - intros clock' payload Hlt.
    assert (decision_key ToLower TrimSpace (with_token tok item) d = request_key item) as Edk.
    { unfold decision_key. rewrite Ek. by case_bool_decide. }
    split; apply settle_always; cbn [request decision];
      (apply (held_commits ToLower TrimSpace p); try done; by rewrite Edk).
Qed.

(** C34: A commit is final.  Once a reservation has committed its result, it is
    inactive, and until the time to live of the commit is over, whatever
    operations run meanwhile: a request with its key is answered as a
    duplicate, a request of its scope with the same or an earlier sequence is
    not accepted, and looking the key up yields the very result that was
    committed. *)
Theorem commit_is_final clock res payload g g1 res1 l :
  wf (g_store g) → active res = true →
  CommitResult false clock res payload g = (g1, res1, Ret tt) →
  let key := decision_key ToLower TrimSpace (request res) (decision res) in
  let T := clock + ttl (g_store g) in
  every op_ok l → every (λ o, clock <= op_time o < T ∧ tokened o) l →
  let g2 := run_guard g1 l in
  active res1 = false ∧
  (∀ c' c'' token' clock' lat' r' res' d', 0 <= Sequence r' → begin_now clock' r' < T →
     (∀ item', normalizeRequest r' = Ret item' → unguarded item' = false ∧
        request_key item' = key) →
     (Begin c' c'' token' clock' lat' r' g2).2 = Ret (res', d') → d_Status d' = StatusDuplicate) ∧
  (∀ c' c'' token' clock' lat' r' res' d', begin_now clock' r' < T →
     0 < Sequence r' <= Sequence (request res) →
     (∀ item', normalizeRequest r' = Ret item' → request_scope item' = request_scope (request res)) →
     (Begin c' c'' token' clock' lat' r' g2).2 = Ret (res', d') → d_Status d' ≠ StatusAccepted) ∧
  (∀ clock' d', clock' < T → d_Key d' = key → TrimSpace key ≠ [] →
     (LookupResult false false clock' d' g2).2 = Ret (Some payload)).
Proof.
  intros Hwf Hact Hc key T Hok Hops g2.
  unfold Idempotency.CommitResult, settle in Hc. rewrite Hact in Hc. cbn [negb] in Hc.
  destruct (store_commit _ _ _ _ _ _ _ _) as [s1 [[]| |]] eqn:E; [|done..].
  injection Hc as <- <-.
  destruct (commit_kept ToLower TrimSpace _ _ _ _ _ _ Hwf E) as (Hwf1 & Et & Hk).
  fold key T in Hk.
  assert (wf (g_store g2) ∧ (ttl (g_store g2) = ttl (g_store g) ∧
    kept T key (Some payload) (request_scope (request res)) (Sequence (request res)) (g_store g2)))
    as (Hwf2 & _ & Hk2).
  { unfold g2. rewrite run_guard_store.
    apply (run_invariant ToLower TrimSpace (λ s, ttl s = ttl (g_store g) ∧ kept T key _ _ _ s)
      (λ o, clock <= op_time o < T ∧ tokened o)); try done; try by apply every_bind.
    intros s o Hws Hos HQ [Hts Hks]. rewrite ttl_run_op by done. split; [done|].
    eapply kept_step; try done; rewrite ?Hts; done. }
  assert (∀ clock' r' item' tok' d1, 0 <= Sequence r' → begin_now clock' r' < T →
    normalizeRequest r' = Ret item' →
    (request_key item' = key ∨ (0 < Sequence r' <= Sequence (request res) ∧
      request_scope item' = request_scope (request res))) →
    (store_Begin ToLower TrimSpace false clock' (with_token tok' item') (g_store g2)).2 = Ret d1 →
    d_Status d1 ≠ StatusAccepted ∧ (request_key item' = key → d_Status d1 = StatusDuplicate)) as Hno.
  { intros clock' r' item' tok' d1 Hseq' Hlt Hn' Hs Hd1. destruct (normalize_keeps _ _ Hn') as [Es' En'].
    refine (kept_blocks ToLower TrimSpace T key _ _ _ _ clock' _ d1 Hwf2 _ Hk2 _ _ Hd1).
    - cbn. by rewrite Es'.
    - unfold begin_now in *; cbn. by rewrite En'.
    - cbn. by rewrite Es'. }
  split_and!; [done| | |].
  - intros c' c'' token' clock' lat' r' res' d' Hseq' Hlt Hsame.
    apply (begin_answer _ (λ i, request_key i = key) (λ st, st = StatusDuplicate)).
    + intros item' tok' d1 Hn' HP Hd1. eapply Hno; try done. by left.
    + intros item' Hn'. by destruct (Hsame _ Hn').
  - intros c' c'' token' clock' lat' r' res' d' Hlt Hseq' Hsame.
    apply (begin_answer _ (λ i, request_scope i = request_scope (request res)) (λ st, st ≠ StatusAccepted)).
    + intros item' tok' d1 Hn' HP Hd1.
      eapply (Hno clock' r' item' tok' d1); try done; [lia|]. by right.
    + intros item' Hn'. destruct (normalize_keeps _ _ Hn') as [Es' _].
      split; [|intros tok'; exact (Hsame _ Hn')]. unfold unguarded. rewrite Es'.
      apply andb_false_iff. right. lia.
  - intros clock' d' Hlt Hkey Hne. unfold Idempotency.LookupResult. rewrite Hkey, bool_decide_false by done.
    unfold store_LookupResult. rewrite Hkey, bool_decide_false by apply decision_key_nonempty.
    cbn [snd]. f_equal. by apply (prune_kept clock' T key _ _ _ _ Hwf2 Hk2 Hlt).
Qed.

(** C35: Aborting undoes a reservation.  When the owner aborts within the time
    to live, the store is exactly the one the request found, less what has
    expired since, and the very same request is accepted again, whatever its
    new token, as a client that retries after a failure expects. *)
Theorem abort_undoes_begin c c0 token clock lat r g g1 res d clock' :
  wf (g_store g) → 0 <= Sequence r →
  Begin c c0 token clock lat r g = (g1, Ret (res, d)) → active res = true →
  let now := begin_now clock (request res) in
  clock' < now + ttl (g_store g) →
  let '(g2, res2, o) := Abort false clock' res g1 in
  o = Ret tt ∧ active res2 = false ∧
  g_store g2 = pruneLocked clock' (pruneLocked now (g_store g)) ∧
  ∀ token' clock'' lat', ∃ res' d',
    (Begin false false (Some token') clock'' lat' r g2).2 = Ret (res', d') ∧
    d_Status d' = StatusAccepted ∧ active res' = true.
Proof.
  intros Hwf Hseq Hb Hact now Hlt.
  destruct (begin_guard _ _ _ _ _ _ _ _ _ _ Hb Hact)
    as (item & tok & -> & -> & -> & Hn & Hu & -> & Hacc & Ht & d0 & Hb0 & Hacc0 & Hk & _).
  cbn [request] in now. destruct (normalize_keeps _ _ Hn) as [Es _].
  assert (0 <= Sequence (with_token tok item)) as Hseq' by (cbn; by rewrite Es).
  pose proof (abort_accepted ToLower TrimSpace clock clock' _ _ _ d0 d Hwf Hseq' Hb0 Hacc0 Hlt) as Ha.
  destruct (accepted_held ToLower TrimSpace clock _ _ _ d0 Hwf Hseq' Hb0 Hacc0)
    as (Ed & _ & _ & Hcase & _).
  specialize (Ha ltac:(by rewrite <- Hk, Ed) Ht). fold now in Ha, Hcase.
  unfold Idempotency.Abort, settle. cbn [active request decision negb]. rewrite Ha.
  split_and!; try done. intros token' clock'' lat'.
  unfold Idempotency.Begin. rewrite Hn. fold (unguarded item). rewrite Hu. cbn [g_store].
  pose proof (free_accepted ToLower TrimSpace clock'' (with_token token' item)
    (pruneLocked clock' (pruneLocked now (g_store g)))) as Hf.
  specialize (Hf ltac:(by apply prune_wf, prune_wf) Hseq'
    ltac:(apply prune_free; [by apply prune_wf|exact (accepted_free ToLower TrimSpace _ _ _ _ _ Hcase Hacc0)])).
  destruct (store_Begin ToLower TrimSpace false clock'' (with_token token' item)
    (pruneLocked clock' (pruneLocked now (g_store g)))) as [s3 o3].
  cbn [snd] in Hf. rewrite Hf. cbn. by eexists _, _.
Qed.

(** C32: Every store that a new guard can reach is well-formed: its time to
    live is positive, the index from scopes to pending sequences holds exactly
    the sequences of the live reservations, at most one per scope, and every
    result belongs to a committed key and expires with it. *)
Theorem guard_store_well_formed t l :
  every op_ok l → wf (g_store (run_guard (New t) l)).
Proof. apply wf_run_guard, new_store_wf. Qed.

(** C36: Derived keys do not collide: requests whose normalised scope, subject
    and session are byte strings and whose sequences the guard admits have the
    same derived key only if all four agree. *)
Theorem derived_keys_distinct a b c n a' b' c' n' :
  let norm := normalizeToken ToLower TrimSpace in
  is_bytes (norm a) → is_bytes (norm b) → is_bytes (norm c) →
  is_bytes (norm a') → is_bytes (norm b') → is_bytes (norm c') →
  0 <= n <= maxRedisSeq → 0 <= n' <= maxRedisSeq →
  DerivedKey ToLower TrimSpace a b c n = DerivedKey ToLower TrimSpace a' b' c' n' →
  norm a = norm a' ∧ norm b = norm b' ∧ norm c = norm c' ∧ n = n'.
Proof.
  intros norm Ha Hb Hc Ha' Hb' Hc' Hn Hn'. unfold DerivedKey. fold norm.
  intros H. apply app_inv_head in H. change (str ":") with [58] in H. cbn [app] in H.
  apply colon_inj in H as [H1 H]; [|by apply encoded_no_colon..].
  apply colon_inj in H as [H2 H]; [|by apply encoded_no_colon..].
  apply colon_inj in H as [H3 H]; [|by apply encoded_no_colon..].
  apply encoded_inj in H1, H2, H3; try done. split_and!; try done.
  assert (in_i64 n ∧ in_i64 n') as [Hi Hi'] by (unfold maxRedisSeq in *; unfold_width; lia).
  apply (f_equal ParseInt) in H. rewrite !ParseInt_format in H by done. by injection H.
Qed.

End Properties.

(** ** Witnesses

    A mail claim with sequence 5: a retry under another token comes in while
    it is being handled, and again after it was committed. *)

Definition claim (seq : Z) : Request :=
  mkRequest (str "mail") (str "p7") (str "s1") [] (str "f") seq 0 [].

Definition guard0 : Guard := New 1000.
Definition first_begin := Begin ToLower TrimSpace false false (Some (str "tok1")) 10 3 (claim 5) guard0.
Definition reservation_of (o : outcome idem_error (Reservation * Decision)) : Reservation * Decision :=
  match o with
  | Ret r => r
  | _ => (mkReservation (claim 0) (mkDecision StatusReplay [] 0 []) false, mkDecision StatusReplay [] 0 [])
  end.
Definition claim_res : Reservation := (reservation_of first_begin.2).1.
Definition claim_dec : Decision := (reservation_of first_begin.2).2.

Definition retry : guard_op := GBegin false false (Some (str "tok2")) 500 4 (claim 5).

Lemma first_begin_accepted :
  first_begin = (first_begin.1, Ret (claim_res, claim_dec)) ∧ active claim_res = true.
Proof. vm_compute. by split. Qed.

Lemma guard0_wf : wf (g_store guard0).
Proof. apply new_store_wf. Qed.

Definition retried : Request :=
  mkRequest (str "mail") (str "p7") (str "s1") [] (str "f") 5 0 (str "tok2").

Lemma every_retry (Q : op → Prop) : Q (OpBegin false 500 retried) → every ToLower TrimSpace Q [retry].
Proof.
  intros H o ->%list_elem_of_singleton.
  replace (store_ops ToLower TrimSpace retry) with [OpBegin false 500 retried] by (by vm_compute).
  by apply Forall_singleton.
Qed.

Lemma reservation_is_exclusive_witness :
  let g2 := run_guard ToLower TrimSpace first_begin.1 [retry] in
  (Begin ToLower TrimSpace false false (Some (str "tok3")) 600 1 (claim 6) g2).2
    = Ret (mkReservation (with_token (str "tok3") (claim 6))
             (mkDecision StatusInFlight (request_key ToLower TrimSpace (claim 6)) 6 []) false,
           mkDecision StatusInFlight (request_key ToLower TrimSpace (claim 6)) 6 []) ∧
  (CommitResult ToLower TrimSpace false 700 claim_res [1; 2; 3] g2).2 = Ret tt.
Proof.
  split; [vm_compute; reflexivity|].
  exact (proj2 (proj2 (reservation_is_exclusive ToLower TrimSpace false false (Some (str "tok1")) 10 3 (claim 5)
    guard0 first_begin.1 claim_res claim_dec [retry] guard0_wf ltac:(vm_compute; congruence)
    ltac:(done) (proj1 first_begin_accepted) (proj2 first_begin_accepted)
    ltac:(by apply every_retry) ltac:(apply every_retry; split; [vm_compute; reflexivity|intros []]))
    700 [1; 2; 3] ltac:(vm_compute; reflexivity))).
Defined.

Definition first_commit :=
  CommitResult ToLower TrimSpace false 20 claim_res [1; 2; 3] first_begin.1.

Lemma first_begin_wf : wf (g_store first_begin.1).
Proof.
  apply (wf_run_guard ToLower TrimSpace guard0 [GBegin false false (Some (str "tok1")) 10 3 (claim 5)]);
    [apply guard0_wf|].
  intros o ->%list_elem_of_singleton. vm_compute. repeat constructor; congruence.
Qed.

Lemma commit_is_final_witness :
  let g2 := run_guard ToLower TrimSpace first_commit.1.1 [retry] in
  (Begin ToLower TrimSpace false false (Some (str "tok3")) 600 1 (claim 4) g2).2
    = Ret (mkReservation (with_token (str "tok3") (claim 4))
             (mkDecision StatusReplay (request_key ToLower TrimSpace (claim 4)) 4 []) false,
           mkDecision StatusReplay (request_key ToLower TrimSpace (claim 4)) 4 []) ∧
  (LookupResult TrimSpace false false 700 claim_dec g2).2 = Ret (Some [1; 2; 3]).
Proof.
  split; [vm_compute; reflexivity|].
  apply (proj2 (proj2 (proj2 (commit_is_final ToLower TrimSpace 20 claim_res [1; 2; 3] first_begin.1
    first_commit.1.1 first_commit.1.2 [retry] first_begin_wf (proj2 first_begin_accepted)
    ltac:(vm_compute; reflexivity)
    ltac:(apply every_retry; vm_compute; repeat constructor; congruence)
    ltac:(apply every_retry; vm_compute; repeat constructor; congruence)))));
    vm_compute; try reflexivity; congruence.
Defined.

Lemma abort_undoes_begin_witness :
  g_store (Abort ToLower TrimSpace false 30 claim_res first_begin.1).1.1
  = pruneLocked 30 (pruneLocked 10 (g_store guard0)).
Proof.
  pose proof (abort_undoes_begin ToLower TrimSpace false false (Some (str "tok1")) 10 3 (claim 5)
    guard0 first_begin.1 claim_res claim_dec 30 guard0_wf ltac:(vm_compute; congruence)
    (proj1 first_begin_accepted) (proj2 first_begin_accepted) ltac:(vm_compute; reflexivity)) as H.
  destruct (Abort ToLower TrimSpace false 30 claim_res first_begin.1) as [[g2 r2] o].
  exact (proj1 (proj2 (proj2 H))).
Defined.

Lemma guard_store_well_formed_witness :
  wf (g_store (run_guard ToLower TrimSpace (New 1000) [retry])).
Proof.
  apply guard_store_well_formed. apply every_retry. vm_compute. repeat constructor; congruence.
Defined.

Lemma derived_keys_distinct_witness :
  DerivedKey ToLower TrimSpace (str "Mail") (str " p7 ") (str "") 5
  = DerivedKey ToLower TrimSpace (str "mail") (str "p7") (str "") 5 ∧ (5 : Z) = 5.
Proof.
  split; [vm_compute; reflexivity|].
  refine (proj2 (proj2 (proj2 (derived_keys_distinct ToLower TrimSpace (str "Mail") (str " p7 ") (str "") 5
    (str "mail") (str "p7") (str "") 5 _ _ _ _ _ _ _ _ _))));
    try (vm_compute; split; congruence); try (vm_compute; reflexivity);
    intros x Hx; vm_compute in Hx;
    repeat (apply elem_of_cons in Hx as [->|Hx]; [lia|]); by apply elem_of_nil in Hx.
Defined.

(** ** Where the code falls short *)

(** Unlike the derived keys, the sequence scopes join the three parts without
    escaping them: identities that contain the separator share a scope, and
    so the watermark and the single sequenced reservation. *)
Lemma sequence_scopes_collide :
  sequenceScope ToLower TrimSpace [97; 0; 98] [99] [] = sequenceScope ToLower TrimSpace [97] [98; 0; 99] [] ∧
  DerivedKey ToLower TrimSpace [97; 0; 98] [99] [] 1 ≠ DerivedKey ToLower TrimSpace [97] [98; 0; 99] [] 1.
Proof. vm_compute. split; [done|congruence]. Qed.
