(* ===== verification/Pvf.v ===== *)
(** * PVF documents: the parser of script files

    [modules/dnf/pvf]: [parse.go] (the line-oriented tokeniser, with strings
    that may continue over several lines), [types.go] and [value.go] (a
    document and its sections), [list.go] ([.lst] references) and [path.go].
    Texts are rune sequences (see [GoStrings]); every delimiter of the format is
    ASCII, so the byte indices of the code cut the text at the same places.
    Lines and columns of tokens, which only error messages show, and the value
    of a float token are left out; whether [strconv.ParseFloat] accepts a text
    is an argument of the parser, and [strings.ToLower] one of the look-ups. *)

From S2P Require Import Prelude GoStrings.

Inductive pvf_error := ErrPathRequired | ErrStringNotClosed.

Inductive TokenKind :=
| TokenSection | TokenString | TokenInt | TokenFloat | TokenIdent | TokenSymbol.
#[export] Instance TokenKind_eq_dec : EqDecision TokenKind.
Proof. solve_decision. Defined.

Record Token := mkToken { Kind : TokenKind; Raw : runes; Value : runes; Int : Z }.
#[export] Instance Token_eq_dec : EqDecision Token.
Proof. solve_decision. Defined.

Record Section_ := mkSection { Name : runes; Start : Z; End : Z }.
Record Document := mkDocument { Path : runes; Tokens : list Token; Sections : list Section_ }.

(** ** Paths *)

(** [strings.ReplaceAll] of one rune by another. *)
Definition replace_rune (a b : Z) (s : runes) : runes := (λ r, if r =? a then b else r) <$> s.

(** The loop of [cleanPath] over the prefixes ["./"] and ["/"]. *)
Fixpoint strip_prefixes (s : runes) : runes :=
  match s with
  | r :: s' =>
      if r =? 47 then strip_prefixes s'
      else match s' with
           | r' :: s'' => if (r =? 46) && (r' =? 47) then strip_prefixes s'' else s
           | [] => s
           end
  | [] => []
  end.

(** [path.Clean] element by element: [out] holds the elements kept so far, last
    first. *)
Definition clean_element (rooted : bool) (out : list runes) (element : runes) : list runes :=
  if bool_decide (element = []) || bool_decide (element = [46]) then out
  else if bool_decide (element = [46; 46]) then
    match out with
    | last :: out' => if bool_decide (last = [46; 46]) then element :: out else out'
    | [] => if rooted then [] else [element]
    end
  else element :: out.

Fixpoint join_slash (elements : list runes) : runes :=
  match elements with
  | [] => []
  | [e] => e
  | e :: es => e ++ 47 :: join_slash es
  end.

(** [path.Clean] *)
Definition path_Clean (s : runes) : runes :=
  let rooted := match s with r :: _ => r =? 47 | [] => false end in
  let kept := join_slash (rev (foldl (clean_element rooted) [] (Split s 47))) in
  if rooted then 47 :: kept else if bool_decide (kept = []) then [46] else kept.

Definition trim_slash_suffix (s : runes) : runes :=
  match rev s with r :: s' => if r =? 47 then rev s' else s | [] => [] end.

Definition cleanPath (value : runes) : runes :=
  let value := strip_prefixes (TrimSpace (replace_rune 92 47 value)) in
  if bool_decide (value = []) then []
  else let clean := trim_slash_suffix (path_Clean value) in
       if bool_decide (clean = [46]) then [] else clean.

(** [lower] is [strings.ToLower], whose Unicode tables are not modelled. *)
Definition sectionKey (lower : runes → runes) (value : runes) : runes := lower (TrimSpace value).

(** ** Tokens of one line *)

Definition isSpace (r : Z) : bool := (r =? 32) || (r =? 9) || (r =? 13).
(** The runes of ["{},:="]. *)
Definition is_symbol (r : Z) : bool := bool_decide (r ∈ [123; 125; 44; 58; 61]).
Definition is_quote (r : Z) : bool := bool_decide (r ∈ [96; 39; 34]).
Definition is_comment (line : runes) : bool :=
  match line with
  | r :: r' :: _ => ((r =? 47) && (r' =? 47)) || (r =? 35)
  | [r] => r =? 35
  | [] => false
  end.
Definition slashes (line : runes) : bool :=
  match line with r :: r' :: _ => (r =? 47) && (r' =? 47) | _ => false end.

Section Parser.
Context (ParseFloat : runes → bool).

(** [strings.ContainsAny (raw, ".eE")] *)
Definition has_float_mark (raw : runes) : bool := existsb (λ r, bool_decide (r ∈ [46; 101; 69])) raw.
Definition parseInt (raw : runes) : option Z := if has_float_mark raw then None else ParseInt raw.
Definition parseFloat (raw : runes) : bool := has_float_mark raw && ParseFloat raw.

Definition parseBare (raw : runes) : Token :=
  match parseInt raw with
  | Some value => mkToken TokenInt raw raw value
  | None => mkToken (if parseFloat raw then TokenFloat else TokenIdent) raw raw 0
  end.

(** A string whose closing quote has not been read. *)
Record pendingString := mkPending { quote : Z; raw : runes; value : runes }.
Definition pending_token (p : pendingString) : Token := mkToken TokenString (raw p) (value p) 0.

Record docParser := mkParser { doc_Tokens : list Token; doc_Sections : list Section_;
                               pending : option pendingString }.
Definition set_pending (pending : option pendingString) (p : docParser) :=
  mkParser (doc_Tokens p) (doc_Sections p) pending.

Definition closeSection (p : docParser) : docParser :=
  match last (doc_Sections p) with
  | None => p
  | Some s =>
      if End s =? 0
      then let i := pred (length (doc_Sections p)) in
           mkParser (doc_Tokens p)
             (<[i := mkSection (Name s) (Start s) (zlen (doc_Tokens p))]> (doc_Sections p)) (pending p)
      else p
  end.

Definition addToken (token : Token) (p : docParser) : docParser :=
  let p := if decide (Kind token = TokenSection)
           then let p := closeSection p in
                mkParser (doc_Tokens p)
                  (doc_Sections p ++ [mkSection (Value token) (zlen (doc_Tokens p) + 1) 0]) (pending p)
           else p in
  mkParser (doc_Tokens p ++ [token]) (doc_Sections p) (pending p).

(** The rest of the line after the closing quote, if it is there. *)
Fixpoint appendStringSegment (p : pendingString) (line : runes) : pendingString * option runes :=
  match line with
  | [] => (p, None)
  | c :: line' =>
      if c =? quote p then (mkPending (quote p) (raw p ++ [c]) (value p), Some line')
      else
        match line' with
        | d :: line'' =>
            if negb (quote p =? 96) && (c =? 92)
            then appendStringSegment (mkPending (quote p) (raw p ++ [c; d]) (value p ++ [d])) line''
            else appendStringSegment (mkPending (quote p) (raw p ++ [c]) (value p ++ [c])) line'
        | [] => (mkPending (quote p) (raw p ++ [c]) (value p ++ [c]), None)
        end
  end.

Definition beginString (q : Z) (line : runes) : pendingString * option runes :=
  appendStringSegment (mkPending q [q] []) line.

Fixpoint scanBare (line : runes) : runes * runes :=
  match line with
  | [] => ([], [])
  | c :: line' =>
      if isSpace c || is_symbol c || slashes line then ([], line)
      else let '(raw, next) := scanBare line' in (c :: raw, next)
  end.

(** The loop over the positions of a line.  Every turn consumes a rune, so that
    the length of the line is enough fuel ([None] is its end). *)
Fixpoint scanValues (fuel : nat) (p : docParser) (line : runes) : option docParser :=
  match line with
  | [] => Some p
  | c :: line' =>
      match fuel with
      | O => None
      | S fuel =>
          if isSpace c then scanValues fuel p line'
          else if is_comment line then Some p
          else if is_quote c then
            match beginString c line' with
            | (s, Some next) => scanValues fuel (addToken (pending_token s) p) next
            | (s, None) => Some (set_pending (Some s) p)
            end
          else if is_symbol c then scanValues fuel (addToken (mkToken TokenSymbol [c] [c] 0) p) line'
          else
            let '(raw, next) := scanBare line in
            if bool_decide (raw = []) then scanValues fuel p line'
            else scanValues fuel (addToken (parseBare raw) p) next
      end
  end.

Definition scan_line (p : docParser) (line : runes) : option docParser :=
  scanValues (length line) p line.

Definition continueString (s : pendingString) (p : docParser) (line : runes) : option docParser :=
  let s := mkPending (quote s) (raw s ++ [10]) (value s ++ [10]) in
  match appendStringSegment s line with
  | (s, None) => Some (set_pending (Some s) p)
  | (s, Some next) => scan_line (addToken (pending_token s) (set_pending None p)) next
  end.

Definition parseLine (p : docParser) (line : runes) : option docParser :=
  match pending p with
  | Some s => continueString s p line
  | None =>
      let trimmed := TrimSpace line in
      if bool_decide (trimmed = []) || is_comment trimmed then Some p
      else
        match trimmed with
        | c :: rest =>
            match (if c =? 91 then Cut rest 93 else None) with
            | Some (inner, after) =>
                let section := mkToken TokenSection (91 :: inner ++ [93]) (TrimSpace inner) 0 in
                scan_line (addToken section p) after
            | None => scan_line p trimmed
            end
        | [] => Some p
        end
  end.

Fixpoint parse_lines (p : docParser) (lines : list runes) : option docParser :=
  match lines with
  | [] => Some p
  | line :: lines' => p ← parseLine p line; parse_lines p lines'
  end.

(** [Panic] stands for the end of the fuel, which [parse_total] excludes. *)
Definition Parse (docPath text : runes) : outcome pvf_error Document :=
  let docPath := cleanPath docPath in
  if bool_decide (docPath = []) then Fail ErrPathRequired
  else
    match parse_lines (mkParser [] [] None) (Split text 10) with
    | None => Panic
    | Some p =>
        match pending p with
        | Some _ => Fail ErrStringNotClosed
        | None => let p := closeSection p in Ret (mkDocument docPath (doc_Tokens p) (doc_Sections p))
        end
    end.

End Parser.

(** ** Reading a document *)

Section Reading.
Context (lower : runes → runes).

(** [Document.Section] on a document that is present. *)
Definition Section_of (d : Document) (name : runes) : option (list Token) :=
  match list_find (λ s, sectionKey lower (Name s) = sectionKey lower name) (Sections d) with
  | None => None
  | Some (_, s) =>
      if (Start s <? 0) || (zlen (Tokens d) <? End s) || (End s <? Start s) then None
      else Some (take (Z.to_nat (End s - Start s)) (drop (Z.to_nat (Start s)) (Tokens d)))
  end.

Definition Ints (d : Document) (name : runes) : list Z :=
  match Section_of d name with
  | None => []
  | Some tokens => Int <$> filter (λ t, Kind t = TokenInt) tokens
  end.

Definition Texts (d : Document) (name : runes) : list runes :=
  match Section_of d name with
  | None => []
  | Some tokens => Value <$> filter (λ t, Kind t = TokenString ∨ Kind t = TokenIdent) tokens
  end.

Definition first_Int (d : Document) (name : runes) : option Z := head (Ints d name).
Definition first_Text (d : Document) (name : runes) : option runes := head (Texts d name).

End Reading.

Record ListEntry := mkEntry { e_ID : Z; e_Path : runes }.

(** [ParseList]: an identifier followed by a reference; the pair is consumed. *)
Fixpoint list_entries (tokens : list Token) : list ListEntry :=
  match tokens with
  | id :: ((ref :: tokens'') as tokens') =>
      if negb (bool_decide (Kind id = TokenInt)) then list_entries tokens'
      else if negb (bool_decide (Kind ref = TokenString ∨ Kind ref = TokenIdent)) then list_entries tokens'
      else let refPath := cleanPath (Value ref) in
           if bool_decide (refPath = []) then list_entries tokens'
           else mkEntry (Int id) refPath :: list_entries tokens''
  | _ => []
  end.
Definition ParseList (d : Document) : list ListEntry := list_entries (Tokens d).
