(* ===== verification/PvfSections.v ===== *)
(** * PVF documents: the sections tile the tokens

    The parser keeps the token list cut into sections, the last one open, and
    never runs out of fuel; [Section_of] returns the body of the first section
    of a name. *)

From S2P Require Import Prelude GoStrings Pvf.

(** ** A document as a preamble followed by sections *)

Definition block : Type := Token * list Token.
Definition plain (t : Token) : Prop := Kind t ≠ TokenSection.
Definition block_ok (b : block) : Prop := Kind b.1 = TokenSection ∧ Forall plain b.2.
Definition block_tokens (b : block) : list Token := b.1 :: b.2.
Definition tokens_of (pre : list Token) (blocks : list block) : list Token :=
  pre ++ concat (block_tokens <$> blocks).

(** The section records of the blocks that start at token [off]; the last one
    has the end 0 as long as it is open. *)
Fixpoint sections_at (open : bool) (off : Z) (blocks : list block) : list Section_ :=
  match blocks with
  | [] => []
  | b :: bs =>
      let stop := off + 1 + zlen b.2 in
      mkSection (Value b.1) (off + 1) (if open && bool_decide (bs = []) then 0 else stop)
        :: sections_at open stop bs
  end.

Definition tiled (open : bool) (tokens : list Token) (sections : list Section_)
    (pre : list Token) (blocks : list block) : Prop :=
  Forall plain pre ∧ Forall block_ok blocks ∧ tokens = tokens_of pre blocks ∧
  sections = sections_at open (zlen pre) blocks.

Definition open_tiled (p : docParser) : Prop :=
  ∃ pre blocks, tiled true (doc_Tokens p) (doc_Sections p) pre blocks.

Lemma zlen_cons {A} (x : A) l : zlen (x :: l) = 1 + zlen l.
Proof. unfold zlen. cbn [length]. lia. Qed.

Lemma zlen_block b l : zlen (block_tokens b ++ l) = 1 + zlen b.2 + zlen l.
Proof. rewrite zlen_app. unfold block_tokens. rewrite zlen_cons. lia. Qed.

Lemma tokens_of_snoc pre bs b :
  tokens_of pre (bs ++ [b]) = tokens_of pre bs ++ block_tokens b.
Proof. unfold tokens_of. by rewrite fmap_app, concat_app; cbn; rewrite app_nil_r, app_assoc. Qed.

Lemma sections_at_snoc open off bs b :
  sections_at open off (bs ++ [b]) =
  sections_at false off bs ++
    [mkSection (Value b.1) (off + zlen (concat (block_tokens <$> bs)) + 1)
       (if open then 0 else off + zlen (concat (block_tokens <$> bs)) + 1 + zlen b.2)].
Proof.
  revert off. induction bs as [|b' bs IH]; intros off.
  - cbn [app sections_at fmap list_fmap concat andb]. rewrite bool_decide_true by done.
    change (zlen (@nil Token)) with 0. rewrite Z.add_0_r. by destruct open.
  - cbn [app sections_at fmap list_fmap concat andb]. rewrite IH.
    rewrite bool_decide_false by (destruct bs; done). rewrite andb_false_r.
    cbn [app]. rewrite zlen_block. do 4 f_equal; [lia|]. destruct open; [done|lia].
Qed.

Lemma length_sections_at open off bs : length (sections_at open off bs) = length bs.
Proof. revert off. induction bs as [|b bs IH]; intros off; [done|]. cbn. by rewrite IH. Qed.

Lemma zlen_tokens_of pre bs : zlen (tokens_of pre bs) = zlen pre + zlen (concat (block_tokens <$> bs)).
Proof. apply zlen_app. Qed.

(** ** The parser keeps the tiling *)

Lemma closeSection_tiled p pre bs :
  tiled true (doc_Tokens p) (doc_Sections p) pre bs →
  doc_Tokens (closeSection p) = doc_Tokens p ∧
  doc_Sections (closeSection p) = sections_at false (zlen pre) bs ∧
  pending (closeSection p) = pending p.
Proof.
  intros (_ & _ & Ht & Hs). unfold closeSection. rewrite Hs.
  destruct bs as [|b bs _] using rev_ind; [by split_and!|].
  rewrite !sections_at_snoc, last_snoc. cbn [End Name Start Z.eqb].
  split_and!; [done| |done]. cbn [doc_Sections].
  rewrite length_app, length_sections_at. cbn [length]. rewrite Nat.add_1_r. cbn [pred].
  rewrite insert_app_r_alt by (by rewrite length_sections_at).
  rewrite length_sections_at, Nat.sub_diag. cbn. do 3 f_equal.
  rewrite Ht, tokens_of_snoc, zlen_app, zlen_tokens_of, <- (app_nil_r (block_tokens b)), zlen_block.
  change (zlen (@nil Token)) with 0. lia.
Qed.

Lemma addToken_tiled t p : open_tiled p → open_tiled (addToken t p).
Proof.
  intros (pre & bs & H). pose proof H as (Hpre & Hbs & Ht & Hs). unfold addToken.
  destruct (decide (Kind t = TokenSection)) as [Hk|Hk].
  - destruct (closeSection_tiled _ _ _ H) as (Ct & Cs & _).
    exists pre, (bs ++ [(t, [])]). cbn [doc_Tokens doc_Sections]. rewrite Ct, Cs. split_and!; [done| | |].
    + apply Forall_app. split; [done|]. by repeat constructor.
    + by rewrite tokens_of_snoc, Ht.
    + rewrite sections_at_snoc. cbn [fst]. rewrite Ht, zlen_tokens_of. do 3 f_equal.
  - destruct bs as [|[h body] bs _] using rev_ind.
    + exists (pre ++ [t]), []. split_and!; [apply Forall_app; by repeat constructor|done| |done].
      cbn [doc_Tokens]. rewrite Ht. unfold tokens_of. cbn. by rewrite !app_nil_r.
    + exists pre, (bs ++ [(h, body ++ [t])]). cbn [doc_Tokens doc_Sections].
      apply Forall_app in Hbs as [Hbs [Hh Hb]%Forall_singleton]. split_and!; [done| | |].
      * apply Forall_app. split; [done|]. apply Forall_singleton. split; [done|].
        apply Forall_app. by repeat constructor.
      * rewrite Ht, !tokens_of_snoc. unfold block_tokens. cbn [fst snd]. by rewrite <- app_assoc.
      * by rewrite Hs, !sections_at_snoc.
Qed.

Lemma set_pending_tiled s p : open_tiled p → open_tiled (set_pending s p).
Proof. done. Qed.

Lemma appendStringSegment_shorter s line :
  (from_option length 0 (appendStringSegment s line).2 ≤ length line)%nat.
Proof.
  remember (length line) as n eqn:Hn. revert s line Hn.
  induction n as [n IH] using lt_wf_ind; intros s [|c line] ->; [cbn; lia|].
  cbn [appendStringSegment length]. destruct (c =? quote s); [cbn; lia|].
  destruct line as [|d line]; [cbn; lia|].
  destruct (negb (quote s =? 96) && (c =? 92)).
  - pose proof (IH (length line) ltac:(cbn; lia) (mkPending (quote s) (raw s ++ [c; d]) (value s ++ [d])) line eq_refl).
    cbn [length]. lia.
  - pose proof (IH (length (d :: line)) ltac:(cbn; lia) (mkPending (quote s) (raw s ++ [c]) (value s ++ [c])) (d :: line) eq_refl).
    cbn [length] in *. lia.
Qed.

Lemma scanBare_app line : (scanBare line).1 ++ (scanBare line).2 = line.
Proof.
  induction line as [|c line IH]; [done|]. cbn [scanBare].
  destruct (_ || _); [done|]. destruct (scanBare line) as [r n]. cbn in *. by rewrite IH.
Qed.

Section WithFloats.
Context (ParseFloat : runes → bool).

(** Enough fuel: the scan of a line ends, and keeps the tiling. *)
Lemma scanValues_tiled fuel : ∀ p line, (length line ≤ fuel)%nat → open_tiled p →
  ∃ p', scanValues ParseFloat fuel p line = Some p' ∧ open_tiled p'.
Proof.
  induction fuel as [|fuel IH]; intros p [|c line] Hl Hp; cbn [length] in Hl; try lia; [by exists p..|].
  cbn [scanValues]. destruct (isSpace c); [apply IH; [lia|done]|].
  destruct (is_comment (c :: line)); [by exists p|]. destruct (is_quote c).
  { pose proof (appendStringSegment_shorter (mkPending c [c] []) line) as Hn. unfold beginString.
    destruct (appendStringSegment (mkPending c [c] []) line) as [s [next|]]; cbn in Hn;
      [apply IH; [lia|by apply addToken_tiled]|eexists; split; [done|by apply set_pending_tiled]]. }
  destruct (is_symbol c); [apply IH; [lia|by apply addToken_tiled]|].
  pose proof (scanBare_app (c :: line)) as Hb. destruct (scanBare (c :: line)) as [r next].
  destruct (decide (r = [])) as [->|Hr]; [rewrite bool_decide_true by done; apply IH; [lia|done]|].
  rewrite bool_decide_false by done. apply IH; [|by apply addToken_tiled].
  apply (f_equal length) in Hb. rewrite length_app in Hb. destruct r; [done|]. cbn in Hb. lia.
Qed.

Lemma scan_line_tiled p line : open_tiled p →
  ∃ p', scan_line ParseFloat p line = Some p' ∧ open_tiled p'.
Proof. by apply scanValues_tiled. Qed.

Lemma parseLine_tiled p line : open_tiled p →
  ∃ p', parseLine ParseFloat p line = Some p' ∧ open_tiled p'.
Proof.
  intros Hp. unfold parseLine. destruct (pending p) as [s|].
  { unfold continueString. destruct (appendStringSegment _ line) as [s' [next|]].
    - by apply scan_line_tiled, addToken_tiled, set_pending_tiled.
    - eexists. split; [done|by apply set_pending_tiled]. }
  destruct (_ || _); [by exists p|]. destruct (TrimSpace line) as [|c rest]; [by exists p|].
  destruct (if c =? 91 then Cut rest 93 else None) as [[inner after]|];
    [by apply scan_line_tiled, addToken_tiled|by apply scan_line_tiled].
Qed.

Lemma parse_lines_tiled lines : ∀ p, open_tiled p →
  ∃ p', parse_lines ParseFloat p lines = Some p' ∧ open_tiled p'.
Proof.
  induction lines as [|line lines IH]; intros p Hp; [by exists p|].
  cbn [parse_lines]. destruct (parseLine_tiled p line Hp) as (p1 & -> & H1). by apply IH.
Qed.

End WithFloats.

Lemma empty_tiled : open_tiled (mkParser [] [] None).
Proof. by exists [], []. Qed.

(** ** Looking up a section *)

Section Lookup.
Context (lower : runes → runes).

Definition first_block (name : runes) (blocks : list block) : option block :=
  snd <$> list_find (λ b : block, sectionKey lower (Value b.1) = sectionKey lower name) blocks.

Lemma snd_prod_map {A} (o : option (nat * A)) : snd <$> (prod_map S id <$> o) = snd <$> o.
Proof. by destruct o as [[]|]. Qed.

Lemma find_section name blocks : ∀ off,
  snd <$> list_find (λ s, sectionKey lower (Name s) = sectionKey lower name) (sections_at false off blocks) =
  match list_find (λ b : block, sectionKey lower (Value b.1) = sectionKey lower name) blocks with
  | None => None
  | Some (i, b) =>
      let start := off + zlen (concat (block_tokens <$> take i blocks)) + 1 in
      Some (mkSection (Value b.1) start (start + zlen b.2))
  end.
Proof.
  induction blocks as [|b bs IH]; intros off; [done|]. cbn [sections_at andb list_find Name].
  destruct (decide (sectionKey lower (Value b.1) = sectionKey lower name)) as [E|E].
  - cbn [fmap option_fmap option_map snd take fmap list_fmap concat]. change (zlen (@nil Token)) with 0.
    by rewrite Z.add_0_r.
  - rewrite snd_prod_map, IH. destruct (list_find (λ b : block, _) bs) as [[i b']|]; [|done].
    cbn [fmap option_fmap option_map prod_map fst snd id take list_fmap concat]. f_equal.
    rewrite zlen_block. f_equal; lia.
Qed.

Lemma Section_of_tiled d pre blocks name :
  tiled false (Tokens d) (Sections d) pre blocks →
  Section_of lower d name = snd <$> first_block name blocks.
Proof.
  intros (_ & _ & Ht & Hs). unfold Section_of, first_block. pose proof (find_section name blocks (zlen pre)) as H.
  rewrite Hs. destruct (list_find (λ b : block, _) blocks) as [[i b]|] eqn:Hb.
  2:{ destruct (list_find _ (sections_at false (zlen pre) blocks)) as [[]|]; done. }
  destruct (list_find _ (sections_at false (zlen pre) blocks)) as [[j s]|]; [|done].
  cbn [fmap option_fmap option_map snd] in H |- *. injection H as ->. cbn [Start End].
  apply list_find_Some in Hb as (Hi & _ & _). rewrite <- (take_drop_middle _ _ _ Hi) in Ht.
  set (before := take i blocks) in *. set (after := drop (S i) blocks) in *.
  unfold tokens_of in Ht. rewrite fmap_app, concat_app in Ht. cbn [fmap list_fmap concat] in Ht.
  set (front := concat (block_tokens <$> before)) in *.
  set (tail := concat (block_tokens <$> after)) in *.
  assert (Tokens d = (pre ++ front ++ [b.1]) ++ b.2 ++ tail) as ->.
  { rewrite Ht. unfold block_tokens at 1. cbn. by rewrite <- !app_assoc. }
  pose proof (zlen_nonneg pre). pose proof (zlen_nonneg front). pose proof (zlen_nonneg b.2). pose proof (zlen_nonneg tail).
  rewrite !(proj2 (Z.ltb_ge _ _)) by (rewrite ?zlen_app, ?zlen_cons; unfold zlen in *; cbn [length]; lia).
  cbn [orb]. rewrite drop_app_exact, take_app_exact; [done|unfold zlen in *; lia|].
  rewrite !length_app. cbn [length]. unfold zlen in *. lia.
Qed.

End Lookup.
