(* ===== verification/PvfPrinter.v ===== *)
(** * PVF documents: a printer and the scan of printed lines

    Lines of tokens as a script editor writes them (a section header can only
    begin a line, strings are quoted by backticks and may contain line breaks)
    and how the tokeniser reads each piece back. *)

From S2P Require Import Prelude GoStrings Pvf PvfSections.

(** ** Printable tokens *)

Definition first_line (s : runes) : runes := hd [] (Split s 10).
(** The first line of a text does not end in a space. *)
Definition line_end_ok (s : runes) : Prop :=
  match last (first_line s) with Some r => IsSpace r = false | None => True end.

Definition string_ok (v : runes) : Prop := 96 ∉ v ∧ (10 ∈ v → line_end_ok v).

Fixpoint has_slashes (s : runes) : bool :=
  match s with [] => false | _ :: s' => slashes s || has_slashes s' end.

Definition bare_ok (raw : runes) : Prop :=
  match raw with
  | [] => False
  | c :: _ => is_quote c = false ∧ c ≠ 35 ∧ c ≠ 91
  end ∧ (∀ r, r ∈ raw → IsSpace r = false ∧ is_symbol r = false) ∧ has_slashes raw = false.

Section Printer.
Context (ParseFloat : runes → bool).

Inductive value_token : Token → Prop :=
| value_string v : string_ok v → value_token (mkToken TokenString (96 :: v ++ [96]) v 0)
| value_symbol c : is_symbol c = true → value_token (mkToken TokenSymbol [c] [c] 0)
| value_bare raw : bare_ok raw → value_token (parseBare ParseFloat raw).

Inductive section_token : Token → Prop :=
| section_name name : TrimSpace name = name → 93 ∉ name → 10 ∉ name →
    section_token (mkToken TokenSection (91 :: name ++ [93]) name 0).

Definition line_ok (line : list Token) : Prop :=
  match line with
  | [] => True
  | t :: ts => (value_token t ∨ section_token t) ∧ Forall value_token ts
  end.

(** The tokens of a line, separated by single spaces. *)
Fixpoint join_tokens (line : list Token) : runes :=
  match line with
  | [] => []
  | [t] => Raw t
  | t :: ts => Raw t ++ 32 :: join_tokens ts
  end.
Definition print (lines : list (list Token)) : runes :=
  concat ((λ line, join_tokens line ++ [10]) <$> lines).

(** ** Splitting into lines *)

Lemma Split_nonempty s sep : Split s sep ≠ [].
Proof. destruct s as [|r s]; cbn [Split]; [done|]. destruct (r =? sep); [done|]. by destruct (Split s sep). Qed.

Lemma Split_other r s : r ≠ 10 →
  Split (r :: s) 10 = (r :: first_line s) :: tl (Split s 10).
Proof.
  intros Hr. unfold first_line. cbn [Split]. rewrite (proj2 (Z.eqb_neq r 10)) by done.
  pose proof (Split_nonempty s 10). by destruct (Split s 10).
Qed.

Lemma first_line_other r s : r ≠ 10 → first_line (r :: s) = r :: first_line s.
Proof. intros Hr. unfold first_line at 1. by rewrite Split_other. Qed.

Lemma first_line_app s1 s2 : 10 ∉ s1 → first_line (s1 ++ s2) = s1 ++ first_line s2.
Proof.
  induction s1 as [|r s1 IH]; [done|]. intros Hr. rewrite not_elem_of_cons in Hr.
  cbn [app]. rewrite first_line_other, IH; naive_solver.
Qed.

Lemma tl_Split_app s1 s2 : 10 ∉ s1 → tl (Split (s1 ++ s2) 10) = tl (Split s2 10).
Proof.
  induction s1 as [|r s1 IH]; [done|]. intros Hr. rewrite not_elem_of_cons in Hr.
  cbn [app]. rewrite Split_other by naive_solver. cbn [tl]. apply IH. naive_solver.
Qed.

Lemma Split_eq s : Split s 10 = first_line s :: tl (Split s 10).
Proof. unfold first_line. pose proof (Split_nonempty s 10). by destruct (Split s 10). Qed.

(** ** The parser on a text, from the start or the middle of a line *)

Abbreviation scan_line := (scan_line ParseFloat).
Abbreviation parse_lines := (parse_lines ParseFloat).

Definition run (p : docParser) (text : runes) : option docParser := parse_lines p (Split text 10).
Definition scan_run (p : docParser) (text : runes) : option docParser :=
  p' ← scan_line p (first_line text); parse_lines p' (tl (Split text 10)).
Definition string_run (s : pendingString) (p : docParser) (text : runes) : option docParser :=
  p' ← match appendStringSegment s (first_line text) with
       | (s, None) => Some (set_pending (Some s) p)
       | (s, Some next) => scan_line (addToken (pending_token s) (set_pending None p)) next
       end;
  parse_lines p' (tl (Split text 10)).

Lemma run_first_line p text :
  run p text = p' ← parseLine ParseFloat p (first_line text); parse_lines p' (tl (Split text 10)).
Proof. unfold run. by rewrite Split_eq. Qed.

(** More fuel than runes makes no difference. *)
Lemma scan_fuel f1 : ∀ f2 p line, (length line ≤ f1)%nat → (length line ≤ f2)%nat →
  scanValues ParseFloat f1 p line = scanValues ParseFloat f2 p line.
Proof.
  induction f1 as [|f1 IH]; intros [|f2] p [|c line] H1 H2; cbn [length] in *; try lia; try done.
  cbn [scanValues]. rewrite (IH f2 p line) by lia. destruct (isSpace c); [done|].
  destruct (is_comment (c :: line)); [done|].
  destruct (is_quote c).
  - pose proof (appendStringSegment_shorter (mkPending c [c] []) line) as Hn. unfold beginString.
    destruct (appendStringSegment (mkPending c [c] []) line) as [s [next|]]; [|done]. cbn in Hn. apply IH; lia.
  - rewrite (IH f2 (addToken _ p) line) by lia.
    destruct (is_symbol c); [done|]. pose proof (scanBare_app (c :: line)) as Hb.
    destruct (scanBare (c :: line)) as [r rest]. case_bool_decide; [done|].
    apply (f_equal length) in Hb. rewrite length_app in Hb. destruct r; [done|]. cbn in Hb. apply IH; lia.
Qed.

Lemma scan_line_space p c line : isSpace c = true → scan_line p (c :: line) = scan_line p line.
Proof. intros Hc. unfold Pvf.scan_line. cbn [length scanValues]. by rewrite Hc. Qed.

Lemma scan_line_quote p line : ∀ s next,
  beginString 96 line = (s, next) →
  scan_line p (96 :: line) =
  match next with
  | Some next => scan_line (addToken (pending_token s) p) next
  | None => Some (set_pending (Some s) p)
  end.
Proof.
  intros s next Hb. unfold Pvf.scan_line. cbn [length scanValues].
  replace (is_comment (96 :: line)) with false by (by destruct line).
  change (isSpace 96) with false. change (is_quote 96) with true. cbn iota. rewrite Hb.
  destruct next as [next|]; [|done]. apply scan_fuel; [|done].
  pose proof (appendStringSegment_shorter (mkPending 96 [96] []) line) as Hn.
  unfold beginString in Hb. rewrite Hb in Hn. done.
Qed.

Lemma scan_line_symbol p c line : is_symbol c = true →
  scan_line p (c :: line) = scan_line (addToken (mkToken TokenSymbol [c] [c] 0) p) line.
Proof.
  intros Hc. unfold Pvf.scan_line. cbn [length scanValues]. rewrite Hc.
  unfold is_symbol in Hc. apply bool_decide_eq_true in Hc. set_unfold in Hc.
  assert (isSpace c = false ∧ is_comment (c :: line) = false ∧ is_quote c = false) as (-> & -> & ->); [|done].
  destruct_or! Hc; subst c; repeat split; by destruct line.
Qed.

(** A rune that ends a bare word: nothing, or a space. *)
Definition stops (rest : runes) : Prop := match rest with [] => True | c :: _ => c = 32 end.

Lemma slashes_stop c raw rest : stops rest → slashes (c :: raw ++ rest) = slashes (c :: raw).
Proof. destruct raw as [|d raw]; [|done]. destruct rest as [|e rest]; [done|]. intros ->. cbn. by rewrite andb_false_r. Qed.

Lemma scanBare_stop raw rest : stops rest →
  (∀ r, r ∈ raw → isSpace r = false ∧ is_symbol r = false) → has_slashes raw = false →
  scanBare (raw ++ rest) = (raw, rest).
Proof.
  intros Hr. induction raw as [|c raw IH]; intros Hall Hs.
  - destruct rest as [|e rest]; [done|]. cbn in Hr. by subst e.
  - cbn [has_slashes] in Hs. apply orb_false_iff in Hs as [Hs1 Hs2].
    cbn [app scanBare]. rewrite slashes_stop, Hs1 by done.
    destruct (Hall c) as [-> ->]; [by left|]. cbn [orb]. rewrite IH; [done| |done].
    intros r Hin. apply Hall. by right.
Qed.

Lemma IsSpace_isSpace r : IsSpace r = false → isSpace r = false.
Proof. unfold IsSpace, isSpace. intros H. bool_clean. lia. Qed.

Lemma bare_head raw : bare_ok raw → ∃ c raw', raw = c :: raw' ∧ is_quote c = false ∧ c ≠ 35 ∧ c ≠ 91 ∧
  IsSpace c = false ∧ is_symbol c = false ∧ slashes raw = false.
Proof.
  intros (Hc & Hall & Hs). destruct raw as [|c raw']; [done|]. destruct Hc as (? & ? & ?).
  cbn [has_slashes] in Hs. apply orb_false_iff in Hs as [? ?].
  destruct (Hall c) as [? ?]; [by left|]. by exists c, raw'.
Qed.

Lemma is_comment_slashes c l : c ≠ 35 → is_comment (c :: l) = slashes (c :: l).
Proof.
  intros Hc. destruct l as [|d l]; cbn; rewrite (proj2 (Z.eqb_neq c 35)) by done; [done|].
  by rewrite orb_false_r.
Qed.

Lemma scan_line_bare p raw rest : bare_ok raw → stops rest →
  scan_line p (raw ++ rest) = scan_line (addToken (parseBare ParseFloat raw) p) rest.
Proof.
  intros Hok Hr. pose proof Hok as (_ & Hall & Hs).
  destruct (bare_head _ Hok) as (c & raw' & -> & Hq & H35 & _ & Hsp & Hsy & Hsl).
  unfold Pvf.scan_line at 1. cbn [app length scanValues]. rewrite (IsSpace_isSpace c), Hq, Hsy by done.
  rewrite is_comment_slashes, slashes_stop, Hsl by done.
  change (c :: raw' ++ rest) with ((c :: raw') ++ rest). rewrite scanBare_stop; [|done| |done].
  - cbn [bool_decide]. apply scan_fuel; [rewrite length_app; lia|done].
  - intros r Hin. destruct (Hall r Hin). split; [by apply IsSpace_isSpace|done].
Qed.

End Printer.
