(* ===== verification/PvfTheorems.v ===== *)
(** * What the PVF parser guarantees

    Parsing always ends, its sections tile the tokens it read, and it reads a
    printed document back. *)

From S2P Require Import Prelude GoStrings Pvf PvfSections PvfPrinter.

(** ** Reading back a string *)

Section Roundtrip.
Context (ParseFloat : runes → bool).

Abbreviation scan_line := (scan_line ParseFloat).
Abbreviation run := (run ParseFloat).
Abbreviation scan_run := (scan_run ParseFloat).
Abbreviation string_run := (string_run ParseFloat).
Abbreviation value_token := (value_token ParseFloat).
Abbreviation line_ok := (line_ok ParseFloat).

Lemma pending_closeSection p : pending (closeSection p) = pending p.
Proof. unfold closeSection. destruct (last _); [|done]. by destruct (_ =? _). Qed.
Lemma Tokens_closeSection p : doc_Tokens (closeSection p) = doc_Tokens p.
Proof. unfold closeSection. destruct (last _); [|done]. by destruct (_ =? _). Qed.
Lemma pending_addToken t p : pending (addToken t p) = pending p.
Proof. unfold addToken. destruct (decide _); cbn; [apply pending_closeSection|done]. Qed.
Lemma Tokens_addToken t p : doc_Tokens (addToken t p) = doc_Tokens p ++ [t].
Proof. unfold addToken. destruct (decide _); cbn; [by rewrite Tokens_closeSection|done]. Qed.
Lemma set_pending_id p : pending p = None → set_pending None p = p.
Proof. destruct p. cbn. by intros ->. Qed.

Lemma string_run_spec v : ∀ raw0 value0 p rest, 96 ∉ v →
  string_run (mkPending 96 raw0 value0) p (v ++ 96 :: rest) =
  scan_run (addToken (mkToken TokenString (raw0 ++ v ++ [96]) (value0 ++ v) 0) (set_pending None p)) rest.
Proof.
  induction v as [|c v IH]; intros raw0 value0 p rest Hv.
  - unfold PvfPrinter.string_run. cbn [app]. rewrite Split_other, first_line_other by done.
    cbn [appendStringSegment quote Pvf.raw value Z.eqb Pos.eqb tl]. by rewrite app_nil_r.
  - rewrite not_elem_of_cons in Hv. destruct Hv as [Hc Hv].
    replace (mkToken TokenString (raw0 ++ (c :: v) ++ [96]) (value0 ++ c :: v) 0)
      with (mkToken TokenString ((raw0 ++ [c]) ++ v ++ [96]) ((value0 ++ [c]) ++ v) 0)
      by (by rewrite <- !app_assoc).
    destruct (decide (c = 10)) as [->|Hn].
    + rewrite <- (IH _ _ (set_pending (Some (mkPending 96 raw0 value0)) p)) by done.
      unfold PvfPrinter.string_run at 1. cbn [app Split Z.eqb Pos.eqb first_line hd tl appendStringSegment].
      cbn [mbind option_bind]. rewrite Split_eq. cbn [Pvf.parse_lines]. unfold parseLine, continueString.
      cbn [pending set_pending quote Pvf.raw value]. unfold PvfPrinter.string_run.
      by destruct (appendStringSegment _ (first_line (v ++ 96 :: rest))) as [s [next|]].
    + rewrite <- IH by done. unfold PvfPrinter.string_run. cbn [app].
      rewrite Split_other, first_line_other by done. cbn [tl]. f_equal.
      cbn [appendStringSegment quote]. rewrite (proj2 (Z.eqb_neq c 96)) by done.
      cbn [Z.eqb Pos.eqb negb andb Pvf.raw value]. by destruct (first_line (v ++ 96 :: rest)).
Qed.

Lemma scan_run_space p text : scan_run p (32 :: text) = scan_run p text.
Proof. unfold PvfPrinter.scan_run. rewrite first_line_other, Split_other by done. by rewrite scan_line_space. Qed.

Lemma scan_run_newline p text : scan_run p (10 :: text) = run p text.
Proof. done. Qed.

Lemma scan_run_app p s text p' : 10 ∉ s →
  (∀ rest, stops rest → scan_line p (s ++ rest) = scan_line p' rest) → stops (first_line text) →
  scan_run p (s ++ text) = scan_run p' text.
Proof.
  intros Hs Hscan Hstop. unfold PvfPrinter.scan_run.
  by rewrite first_line_app, tl_Split_app, Hscan.
Qed.

Lemma bare_no_newline raw : bare_ok raw → 10 ∉ raw.
Proof. intros (_ & Hall & _) H. by destruct (Hall _ H). Qed.

Lemma Raw_parseBare raw : Raw (parseBare ParseFloat raw) = raw.
Proof. unfold parseBare. by destruct (parseInt raw). Qed.

(** A printed token is scanned as that token. *)
Lemma scan_run_token t p text : value_token t → pending p = None → stops (first_line text) →
  scan_run p (Raw t ++ text) = scan_run (addToken t p) text.
Proof.
  intros Ht Hp Hstop. destruct Ht as [v [Hv _]|c Hc|raw Hraw].
  - cbn [Raw]. rewrite <- (set_pending_id p Hp) at 2.
    change (96 :: v ++ [96]) with ([96] ++ v ++ [96]).
    change v with ([] ++ v) at 3. rewrite <- string_run_spec by done.
    cbn [app]. rewrite <- app_assoc. cbn [app]. unfold PvfPrinter.scan_run.
    rewrite first_line_other, Split_other by done.
    destruct (beginString 96 (first_line (v ++ 96 :: text))) as [s next] eqn:Hb.
    rewrite (scan_line_quote _ _ _ _ _ Hb). unfold PvfPrinter.string_run. unfold beginString in Hb. rewrite Hb.
    cbn [tl]. rewrite (set_pending_id p Hp). by destruct next.
  - cbn [Raw]. apply scan_run_app; [|by intros; apply scan_line_symbol|done].
    unfold is_symbol in Hc. apply bool_decide_eq_true in Hc. set_unfold in Hc. set_unfold. lia.
  - rewrite Raw_parseBare. apply scan_run_app; [by apply bare_no_newline|by intros; apply scan_line_bare|done].
Qed.

(** What follows the first token of a printed line. *)
Definition tail_text (ts : list Token) (rest : runes) : runes :=
  match ts with [] => rest | _ => 32 :: join_tokens ts ++ rest end.

Lemma join_tokens_cons t ts rest : join_tokens (t :: ts) ++ rest = Raw t ++ tail_text ts rest.
Proof. destruct ts; [done|]. cbn. by rewrite <- app_assoc. Qed.

Lemma tail_stops ts text : stops (first_line (tail_text ts (10 :: text))).
Proof. destruct ts; [done|]. cbn [tail_text]. by rewrite first_line_other. Qed.

Lemma scan_run_tokens ts : ∀ p text, Forall value_token ts → ts ≠ [] → pending p = None →
  scan_run p (join_tokens ts ++ 10 :: text) = run (foldl (flip addToken) p ts) text.
Proof.
  induction ts as [|t ts IH]; intros p text Hts Hne Hp; [done|]. apply Forall_cons in Hts as [Ht Hts].
  rewrite join_tokens_cons. rewrite scan_run_token; [|done|done|].
  - destruct ts as [|t' ts]; [done|]. cbn [tail_text]. rewrite scan_run_space. apply IH; [done|done|].
    by rewrite pending_addToken.
  - apply tail_stops.
Qed.

(** ** The start of a line *)

Lemma Raw_head t rest : value_token t → stops (first_line rest) →
  ∃ c s, first_line (Raw t ++ rest) = c :: s ∧ IsSpace c = false ∧ c ≠ 91 ∧ is_comment (c :: s) = false.
Proof.
  intros Ht Hstop. destruct Ht as [v _|c Hc|raw Hraw].
  - cbn [Raw app]. rewrite first_line_other by done. eexists 96, _. split_and!; [done..|].
    by destruct (first_line ((v ++ [96]) ++ rest)).
  - unfold is_symbol in Hc. apply bool_decide_eq_true in Hc. set_unfold in Hc. cbn [Raw app].
    rewrite first_line_other by lia. eexists c, _. split_and!; [done|by destruct_or! Hc; subst c|lia|].
    rewrite is_comment_slashes by lia. destruct (first_line rest); [done|]. cbn.
    destruct (c =? 47) eqn:E; [bool_clean; lia|done].
  - pose proof (bare_no_newline _ Hraw) as Hnl. rewrite Raw_parseBare, first_line_app by done.
    destruct (bare_head _ Hraw) as (c & raw' & -> & Hq & H35 & H91 & Hsp & Hsy & Hsl).
    exists c, (raw' ++ first_line rest). split_and!; [done..|].
    by rewrite is_comment_slashes, slashes_stop.
Qed.

Lemma line_end_app s text : 10 ∉ s → match last s with Some r => IsSpace r = false | None => True end →
  line_end_ok text → line_end_ok (s ++ text).
Proof.
  unfold line_end_ok. intros Hs Hl Ht. rewrite first_line_app, last_app by done.
  by destruct (last (first_line text)).
Qed.

Lemma line_end_space text c s : first_line text = c :: s → line_end_ok text → line_end_ok (32 :: text).
Proof. unfold line_end_ok. intros Hf. by rewrite first_line_other, Hf, last_cons_cons. Qed.

Lemma line_end_inside v text : 10 ∈ v → first_line (v ++ text) = first_line v.
Proof.
  induction v as [|c v IH]; [by intros ?%elem_of_nil|]. intros Hin.
  destruct (decide (c = 10)) as [->|Hc]; [done|]. cbn [app].
  rewrite !first_line_other by done. f_equal. apply IH. apply elem_of_cons in Hin as [Hin|Hin]; [congruence|done].
Qed.

Lemma bare_last raw : bare_ok raw → match last raw with Some r => IsSpace r = false | None => True end.
Proof.
  intros (_ & Hall & _). destruct (last raw) as [r|] eqn:E; [|done]. apply last_Some_elem_of in E. by apply Hall.
Qed.

Lemma line_end_token t text : value_token t → line_end_ok text → line_end_ok (Raw t ++ text).
Proof.
  intros [v [Hv Hin]|c Hc|raw Hraw] Ht.
  - cbn [Raw]. destruct (decide (10 ∈ v)) as [Hn|Hn].
    + specialize (Hin Hn). unfold line_end_ok in *. cbn [app]. rewrite <- app_assoc, first_line_other by done.
      rewrite line_end_inside by done. destruct (first_line v) as [|c s]; [done|]. by rewrite last_cons_cons.
    + apply line_end_app; [set_unfold; naive_solver| |done].
      by rewrite app_comm_cons, last_snoc.
  - cbn [Raw]. unfold is_symbol in Hc. apply bool_decide_eq_true in Hc. set_unfold in Hc.
    apply line_end_app; [set_unfold; lia| |done]. by destruct_or! Hc; subst c.
  - rewrite Raw_parseBare. apply line_end_app; [by apply bare_no_newline|by apply bare_last|done].
Qed.

Lemma line_end_tail ts text : Forall value_token ts → line_end_ok (tail_text ts (10 :: text)).
Proof.
  induction ts as [|t ts IH]; [done|]. intros Hts. apply Forall_cons in Hts as [Ht Hts].
  cbn [tail_text]. destruct (Raw_head t (tail_text ts (10 :: text))) as (c & s & Hf & _);
    [done|apply tail_stops|].
  rewrite <- join_tokens_cons in Hf. apply (line_end_space _ c s); [done|].
  rewrite join_tokens_cons. by apply line_end_token, IH.
Qed.

Lemma TrimSpace_id c s : IsSpace c = false →
  match last (c :: s) with Some r => IsSpace r = false | None => True end → TrimSpace (c :: s) = c :: s.
Proof.
  intros Hc Hl. unfold TrimSpace, trim_func. rewrite (proj2 (drop_while_ext IsSpace (c :: s))) by done.
  rewrite (proj2 (drop_while_ext _ _)); [apply rev_involutive|].
  destruct (rev (c :: s)) as [|r s'] eqn:E; [done|]. apply (f_equal (@rev Z)) in E.
  rewrite rev_involutive in E. cbn [rev] in E. by rewrite E, last_snoc in Hl.
Qed.

(** A line that starts with a value, and one that starts with a section. *)
Lemma run_value t rest p : value_token t → stops (first_line rest) → line_end_ok rest → pending p = None →
  run p (Raw t ++ rest) = scan_run p (Raw t ++ rest).
Proof.
  intros Ht Hstop Hrest Hp. rewrite run_first_line. unfold PvfPrinter.scan_run.
  pose proof (line_end_token t rest Ht Hrest) as Hend.
  destruct (Raw_head t rest Ht Hstop) as (c & s & Hf & Hc & H91 & Hcom).
  unfold line_end_ok in Hend. rewrite Hf in Hend |- *. unfold parseLine. rewrite Hp.
  rewrite TrimSpace_id by done. rewrite bool_decide_false, Hcom by done. cbn [orb].
  by rewrite (proj2 (Z.eqb_neq c 91)).
Qed.

Lemma run_header t rest p : section_token t → line_end_ok rest → pending p = None →
  run p (Raw t ++ rest) = scan_run (addToken t p) rest.
Proof.
  intros [name Hname H93 H10] Hrest Hp. cbn [Raw].
  assert (10 ∉ 91 :: name ++ [93]) as Hn by (set_unfold; naive_solver).
  rewrite run_first_line. unfold PvfPrinter.scan_run. rewrite first_line_app, tl_Split_app by done. f_equal.
  assert (line_end_ok ((91 :: name ++ [93]) ++ rest)) as Hend.
  { apply line_end_app; [done| |done]. by rewrite app_comm_cons, last_snoc. }
  unfold line_end_ok in Hend. rewrite first_line_app in Hend by done. cbn [app] in Hend |- *.
  unfold parseLine. rewrite Hp, TrimSpace_id by done. rewrite bool_decide_false by done.
  replace (is_comment (91 :: _)) with false by (by destruct ((name ++ [93]) ++ first_line rest)).
  cbn [orb Z.eqb Pos.eqb]. rewrite <- app_assoc. cbn [app]. rewrite Cut_spec by done. by rewrite Hname.
Qed.

(** A printed line is read as its tokens. *)
Lemma run_line line p text : line_ok line → pending p = None →
  run p (join_tokens line ++ 10 :: text) = run (foldl (flip addToken) p line) text.
Proof.
  destruct line as [|t ts]; intros Hline Hp.
  { cbn [join_tokens app foldl]. rewrite run_first_line. cbn [first_line Split Z.eqb Pos.eqb hd tl].
    unfold parseLine. rewrite Hp. done. }
  destruct Hline as [[Ht|Ht] Hts].
  - rewrite <- scan_run_tokens by (done || by constructor). rewrite !join_tokens_cons.
    apply run_value; [done|apply tail_stops|by apply line_end_tail|done].
  - rewrite join_tokens_cons, run_header by (done || by apply line_end_tail).
    destruct ts as [|t' ts]; [done|]. cbn [tail_text]. rewrite scan_run_space.
    by rewrite scan_run_tokens by (done || by rewrite pending_addToken).
Qed.

Lemma fold_addToken ts : ∀ p, doc_Tokens (foldl (flip addToken) p ts) = doc_Tokens p ++ ts ∧
  pending (foldl (flip addToken) p ts) = pending p.
Proof.
  induction ts as [|t ts IH]; intros p; cbn [foldl]; [by rewrite app_nil_r|].
  destruct (IH (addToken t p)) as [H1 H2]. cbn [flip]. split.
  - rewrite H1, Tokens_addToken, <- app_assoc. done.
  - by rewrite H2, pending_addToken.
Qed.

Lemma run_lines lines : ∀ p, Forall line_ok lines → pending p = None →
  run p (print lines) = Some (foldl (flip addToken) p (concat lines)).
Proof.
  induction lines as [|line lines IH]; intros p Hl Hp.
  { unfold PvfPrinter.run. cbn. unfold parseLine. by rewrite Hp. }
  apply Forall_cons in Hl as [H1 Hl]. unfold print. cbn [fmap list_fmap concat].
  rewrite <- app_assoc. cbn [app]. rewrite run_line by done. rewrite foldl_app.
  apply IH; [done|]. by rewrite (proj2 (fold_addToken line p)).
Qed.

End Roundtrip.

(** ** The properties *)

(** C37: parsing always ends, and fails only for an empty path or an unclosed
    string; in a parsed document the recorded sections tile the tokens (every
    section token starts a section, and the section's range ends where the next
    one starts), and looking a name up returns the tokens of the first section
    whose normalised name is the same, whatever the lowering of letters. *)
Theorem parse_tiles_document ParseFloat path text :
  match Parse ParseFloat path text with
  | Panic => False
  | Fail ErrPathRequired => cleanPath path = []
  | Fail ErrStringNotClosed => cleanPath path ≠ []
  | Ret d =>
      cleanPath path ≠ [] ∧ Path d = cleanPath path ∧
      ∃ pre blocks, tiled false (Tokens d) (Sections d) pre blocks ∧
        ∀ lower name, Section_of lower d name = snd <$> first_block lower name blocks
  end.
Proof.
  unfold Parse. case_bool_decide as Hp; [done|].
  destruct (parse_lines_tiled ParseFloat (Split text 10) _ empty_tiled) as (p & -> & pre & bs & H).
  destruct (pending p); [done|]. split_and!; [done|done|]. exists pre, bs.
  destruct (closeSection_tiled _ _ _ H) as (Ct & Cs & _). destruct H as (Hpre & Hbs & Ht & Hs).
  assert (tiled false (doc_Tokens (closeSection p)) (doc_Sections (closeSection p)) pre bs) as Hd
    by (by rewrite Ct, Cs).
  split; [done|]. intros lower name. by apply (Section_of_tiled lower _ pre).
Qed.

(** C38: a document printed from lines of tokens (section headers, strings that
    may span lines, symbols and bare words) is parsed back to exactly its
    tokens. *)
Theorem print_parse_roundtrip ParseFloat path lines :
  cleanPath path ≠ [] → Forall (line_ok ParseFloat) lines →
  ∃ d, Parse ParseFloat path (print lines) = Ret d ∧ Path d = cleanPath path ∧ Tokens d = concat lines.
Proof.
  intros Hp Hl. unfold Parse. rewrite bool_decide_false by done.
  pose proof (run_lines ParseFloat lines (mkParser [] [] None) Hl eq_refl) as H.
  unfold run in H. rewrite H. destruct (fold_addToken (concat lines) (mkParser [] [] None)) as [Ht Hn].
  rewrite Hn. eexists. split_and!; [done|done|]. cbn [Tokens]. by rewrite Tokens_closeSection, Ht.
Qed.

(** A document with a preamble, two sections, numbers, and a string over two
    lines. *)
Definition example_lines : list (list Token) :=
  let bare s := parseBare (λ _, true) (of_string s) in
  let str v := mkToken TokenString (96 :: v ++ [96]) v 0 in
  let section s := mkToken TokenSection (91 :: of_string s ++ [93]) (of_string s) 0 in
  [[bare "7"%string; bare "1.5"%string]; []; [section "explain"%string];
   [str (of_string "first" ++ 10 :: of_string " second"); bare "-3"%string];
   [section "level"%string; mkToken TokenSymbol [123] [123] 0; bare "50"%string]].

(** A word without any rune that is special somewhere. *)
Definition simple_rune (r : Z) : bool :=
  negb (IsSpace r || is_symbol r || (r =? 47) || is_quote r || (r =? 35) || (r =? 91)).

Lemma simple_bare c raw : forallb simple_rune (c :: raw) = true → bare_ok (c :: raw).
Proof.
  intros H. rewrite forallb_forall in H.
  assert (∀ r, r ∈ c :: raw → IsSpace r = false ∧ is_symbol r = false ∧ r ≠ 47 ∧ is_quote r = false ∧
    r ≠ 35 ∧ r ≠ 91) as Hall.
  { intros r Hr%list_elem_of_In%H. unfold simple_rune in Hr. bool_clean. done. }
  split; [destruct (Hall c) as (_ & _ & _ & ?); [by left|tauto]|].
  split; [intros r Hr; by destruct (Hall r Hr) as (? & ? & _)|].
  clear H. revert Hall. generalize (c :: raw). intros l.
  induction l as [|x l IH]; intros Hall; [done|]. cbn [has_slashes].
  rewrite IH by (intros; apply Hall; by right). destruct (Hall x) as (_ & _ & H47 & _); [by left|].
  destruct l as [|d l]; [done|]. cbn. by rewrite (proj2 (Z.eqb_neq x 47)).
Qed.

Lemma example_lines_ok : Forall (line_ok (λ _, true)) example_lines.
Proof.
  repeat first [apply Forall_nil_2 | apply Forall_cons; split | exact I | split];
    try (apply value_bare, simple_bare; vm_compute; reflexivity);
    try (apply value_symbol; reflexivity).
  - left. apply value_bare, simple_bare. by vm_compute.
  - right. apply section_name; [done|by apply (bool_decide_unpack _); vm_compute..].
  - left. apply value_string. split; [by apply (bool_decide_unpack _); vm_compute|by vm_compute].
  - right. apply section_name; [done|by apply (bool_decide_unpack _); vm_compute..].
Qed.

Lemma print_parse_roundtrip_witness :
  ∃ d, Parse (λ _, true) (of_string "./skill/test.skl") (print example_lines) = Ret d ∧
    Path d = of_string "skill/test.skl" ∧ Tokens d = concat example_lines.
Proof.
  destruct (print_parse_roundtrip (λ _, true) (of_string "./skill/test.skl") example_lines)
    as (d & H1 & H2 & H3).
  - by vm_compute.
  - exact example_lines_ok.
  - exists d. split_and!; [exact H1|rewrite H2; by vm_compute|exact H3].
Defined.

(** ** What the parser loses

    The first line of a string that spans several lines has its trailing spaces
    cut (carriage returns included), while the other lines keep theirs. *)
Theorem first_string_line_is_trimmed :
  let text := 96 :: of_string "one" ++ [13; 10] ++ of_string "two" ++ [13; 10] ++ of_string "three" ++ [96] in
  ∃ d, Parse (λ _, true) (of_string "a") text = Ret d ∧
    Value <$> Tokens d = [of_string "one" ++ [10] ++ of_string "two" ++ [13; 10] ++ of_string "three"].
Proof. eexists. split; by vm_compute. Qed.
