(* ===== verification/Joust.v ===== *)
(** * The joust: rounds, roster and tournament

    [modules/dnf/joust/catalog.go], [round.go] and [tournament.go]: the loader of
    the event file, the two-hour round clock, the roster of eight riders with its
    support pool, and the seven matches of a round.  An instant is a number of
    nanoseconds since the Unix epoch.  The multipliers of a round ([float32]
    quotients) are not modelled. *)

From S2P Require Import Prelude GoStrings Pvf.

Inductive joust_error := ErrRoundUnavailable | ErrPVFMalformed.

Record Rider := mkRider { ID : Z; AttackType : Z; r_Name : runes; Win : list Z; Loss : list Z }.

Definition OpeningKnightCount : Z := 8.

Definition MinimumLevel : Z := 50.
Definition MaximumBetPerRound : Z := 10000.
Definition PermanentCrystalID : Z := 490005585.
Definition EventCrystalID : Z := 490005586.
Definition ParticipationItemID : Z := 490005593.

Definition attackTypeTableOffset (attackType : Z) : option Z :=
  if attackType =? 0 then Some 0 else if attackType =? 1 then Some 7
  else if attackType =? 27 then Some 14 else if attackType =? 28 then Some 21 else None.

(** ** The loader *)

(** [joustByteToken] and [joustUint16Token]. *)
Definition int_token (bound : Z) (token : Token) : outcome joust_error Z :=
  if negb (bool_decide (Kind token = TokenInt)) || (Int token <? 0) || (bound <? Int token)
  then Fail ErrPVFMalformed else Ret (Int token).
Definition joustByteToken : Token → outcome joust_error Z := int_token 255.
Definition joustUint16Token : Token → outcome joust_error Z := int_token 65535.

Record joustRiderBuilder := mkBuilder {
  b_rider : Rider; indexSet : bool; attackTypeSet : bool; nameSet : bool; activeField : runes }.
Definition newBuilder : joustRiderBuilder := mkBuilder (mkRider 0 0 [] [] []) false false false [].
Definition set_field (field : runes) (b : joustRiderBuilder) : joustRiderBuilder :=
  mkBuilder (b_rider b) (indexSet b) (attackTypeSet b) (nameSet b) field.

Definition consume (b : joustRiderBuilder) (token : Token) : outcome joust_error joustRiderBuilder :=
  let r := b_rider b in
  let field := activeField b in
  if bool_decide (field = of_string "index"%string) then
    value ← joustByteToken token;
    fail_if indexSet b with_ ErrPVFMalformed;;
    Ret (mkBuilder (mkRider value (AttackType r) (r_Name r) (Win r) (Loss r))
           true (attackTypeSet b) (nameSet b) field)
  else if bool_decide (field = of_string "attack type"%string) then
    value ← joustByteToken token;
    fail_if attackTypeSet b with_ ErrPVFMalformed;;
    Ret (mkBuilder (mkRider (ID r) value (r_Name r) (Win r) (Loss r))
           (indexSet b) true (nameSet b) field)
  else if bool_decide (field = of_string "knight name"%string) then
    fail_if negb (bool_decide (Kind token = TokenString)) || bool_decide (TrimSpace (Value token) = [])
            || nameSet b with_ ErrPVFMalformed;;
    Ret (mkBuilder (mkRider (ID r) (AttackType r) (Value token) (Win r) (Loss r))
           (indexSet b) (attackTypeSet b) true field)
  else if bool_decide (field = of_string "win"%string) then
    value ← joustUint16Token token;
    Ret (mkBuilder (mkRider (ID r) (AttackType r) (r_Name r) (Win r ++ [value]) (Loss r))
           (indexSet b) (attackTypeSet b) (nameSet b) field)
  else if bool_decide (field = of_string "loss"%string) then
    value ← joustUint16Token token;
    Ret (mkBuilder (mkRider (ID r) (AttackType r) (r_Name r) (Win r) (Loss r ++ [value]))
           (indexSet b) (attackTypeSet b) (nameSet b) field)
  else Ret b.

(** The seven positions of one group: the values do not fall and stay within
    100; the last one is the result. *)
Fixpoint group_profile (previous : Z) (values : list Z) : outcome joust_error Z :=
  match values with
  | [] => Ret previous
  | value :: values' =>
      fail_if (value <? previous) || (100 <? value) with_ ErrPVFMalformed;;
      group_profile value values'
  end.

(** The four groups of a slice of 28 values. *)
Fixpoint group_profiles (groups : nat) (values : list Z) : outcome joust_error unit :=
  match groups with
  | O => Ret tt
  | S groups =>
      previous ← group_profile 0 (take 7 values);
      fail_if previous =? 0 with_ ErrPVFMalformed;;
      group_profiles groups (drop 7 values)
  end.
Definition validateBattleTimelineProfiles (values : list Z) : outcome joust_error unit :=
  if zlen values <? 28 then Panic else group_profiles 4 values.

Definition validate (b : joustRiderBuilder) : outcome joust_error unit :=
  let r := b_rider b in
  fail_if negb (indexSet b) || negb (attackTypeSet b) || negb (nameSet b)
          || negb (zlen (Win r) =? 28) || negb (zlen (Loss r) =? 28) with_ ErrPVFMalformed;;
  fail_if bool_decide (attackTypeTableOffset (AttackType r) = None) with_ ErrPVFMalformed;;
  _ ← validateBattleTimelineProfiles (Win r);
  validateBattleTimelineProfiles (Loss r).

(** The state of the loop of [joustRiders]; [seen] is the set of the
    identifiers in [riders]. *)
Record loader := mkLoader { l_riders : list Rider; seen : gset Z; current : option joustRiderBuilder }.

Definition loader_step (l : loader) (token : Token) : outcome joust_error loader :=
  if bool_decide (Kind token = TokenSection) then
    let section := ToLower (TrimSpace (Value token)) in
    if bool_decide (section = of_string "knight"%string) then
      match current l with
      | Some _ => Fail ErrPVFMalformed
      | None => Ret (mkLoader (l_riders l) (seen l) (Some newBuilder))
      end
    else if bool_decide (section = of_string "/knight"%string) then
      match current l with
      | None => Fail ErrPVFMalformed
      | Some b =>
          _ ← validate b;
          fail_if bool_decide (ID (b_rider b) ∈ seen l) with_ ErrPVFMalformed;;
          Ret (mkLoader (l_riders l ++ [b_rider b]) ({[ID (b_rider b)]} ∪ seen l) None)
      end
    else Ret (mkLoader (l_riders l) (seen l) (set_field section <$> current l))
  else
    match current l with
    | None => Ret l
    | Some b => b ← consume b token; Ret (mkLoader (l_riders l) (seen l) (Some b))
    end.

Fixpoint loader_run (l : loader) (tokens : list Token) : outcome joust_error loader :=
  match tokens with
  | [] => Ret l
  | token :: tokens' => l ← loader_step l token; loader_run l tokens'
  end.

Definition joustRiders (d : Document) : outcome joust_error (list Rider) :=
  l ← loader_run (mkLoader [] ∅ None) (Tokens d);
  match current l with Some _ => Fail ErrPVFMalformed | None => Ret (l_riders l) end.

(** A section is looked up by an ASCII name, for which the [ToLower] of [GoStrings]
    decides like that of Go. *)
Definition joustIntegerSection (d : Document) (name : runes) : outcome joust_error (list Z) :=
  fail_if negb (zlen (filter (λ s, EqualFold (TrimSpace (Name s)) name = true) (Sections d)) =? 1)
    with_ ErrPVFMalformed;;
  match Section_of ToLower d name with
  | None => Fail ErrPVFMalformed
  | Some tokens =>
      fail_if existsb (λ t, negb (bool_decide (Kind t = TokenInt))) tokens with_ ErrPVFMalformed;;
      Ret (Int <$> tokens)
  end.

Definition joustSingletonInt (d : Document) (name : string) : outcome joust_error Z :=
  values ← joustIntegerSection d (of_string name);
  match values with [v] => Ret v | _ => Fail ErrPVFMalformed end.

Record Catalog := mkCatalog {
  minimumLevel : Z; maximumBet : Z; rewardItemID : Z; participationItemID : Z;
  materialItemIDs : list Z; c_riders : list Rider }.

(** [LoadCatalog] on the parsed document of the event file. *)
Definition LoadCatalog (d : Document) : outcome joust_error Catalog :=
  minimumLevel ← joustSingletonInt d "min level";
  maximumBet ← joustSingletonInt d "max betting";
  rewardItemID ← joustSingletonInt d "reward";
  participationItemID ← joustSingletonInt d "betting reward";
  materials ← joustIntegerSection d (of_string "material"%string);
  riders ← joustRiders d;
  fail_if negb (minimumLevel =? MinimumLevel) || negb (maximumBet =? MaximumBetPerRound)
          || negb (rewardItemID =? PermanentCrystalID) || negb (participationItemID =? ParticipationItemID)
          || negb (bool_decide (materials = [PermanentCrystalID; EventCrystalID])) with_ ErrPVFMalformed;;
  fail_if zlen riders <? OpeningKnightCount with_ ErrPVFMalformed;;
  Ret (mkCatalog minimumLevel (u32 maximumBet) rewardItemID participationItemID materials riders).

(** ** The round clock *)

Definition second : Z := 1000000000.
Definition minute : Z := 60 * second.
Definition RoundDuration : Z := 120 * minute.
Definition BettingDuration : Z := 90 * minute.
Definition QuarterFinalEnd : Z := 95 * minute.
Definition SemiFinalEnd : Z := 100 * minute.
Definition FinalEnd : Z := 105 * minute.
Definition SettlementStart : Z := 110 * minute.

(** The zero [time.Time], January 1 of the year 1. *)
Definition zero_time : Z := -62135596800 * second.
(** [time.Time.Unix]. *)
Definition Unix (now : Z) : Z := now / second.

Definition round_seconds : Z := RoundDuration / second.

Definition RoundNumberAt (now : Z) : Z :=
  if now =? zero_time then 0
  else let seconds := Unix now in
       let seconds := if seconds <? 0 then 0 else seconds in
       u16 (seconds / round_seconds).

Inductive Phase := PhaseBetting | PhaseQuarterFinal | PhaseSemiFinal | PhaseFinal | PhaseSettled.

Record Timeline := mkTimeline { Round : Z; Elapsed : Z; t_Phase : Phase; State : Z; Stage : Z }.

Definition TimelineAt (now : Z) : Timeline :=
  let round := RoundNumberAt now in
  let elapsed := Z.rem (Unix now) round_seconds * second in
  let elapsed := if elapsed <? 0 then 0 else elapsed in
  let timeline := mkTimeline round elapsed in
  if elapsed <? BettingDuration then timeline PhaseBetting 1 0
  else if elapsed <? QuarterFinalEnd then timeline PhaseQuarterFinal 2 0
  else if elapsed <? SemiFinalEnd then timeline PhaseSemiFinal 2 1
  else if elapsed <? FinalEnd then timeline PhaseFinal 3 2
  else if elapsed <? SettlementStart then timeline PhaseFinal 3 3
  else timeline PhaseSettled 4 3.

Definition offsets : list Z :=
  [BettingDuration; QuarterFinalEnd; SemiFinalEnd; FinalEnd; SettlementStart; RoundDuration].

Definition NextBoundaryAfter (now : Z) : Z :=
  let start := now - Elapsed (TimelineAt now) in
  match list_find (λ offset, now < start + offset) offsets with
  | Some (_, offset) => start + offset
  | None => start + RoundDuration
  end.

(** ** The roster *)

Definition openingRegularKnightIDs : list Z := [1; 0; 2; 3; 4; 5; 7].
Definition mysteryKnightIDs : list Z := [6; 9; 10; 11].

(** The index of the riders, refused when two share an identifier. *)
Fixpoint index_riders (byID : gmap Z Rider) (riders : list Rider) : outcome joust_error (gmap Z Rider) :=
  match riders with
  | [] => Ret byID
  | r :: riders' =>
      fail_if bool_decide (is_Some (byID !! ID r)) with_ ErrRoundUnavailable;;
      index_riders (<[ID r := r]> byID) riders'
  end.

Fixpoint pick_riders (byID : gmap Z Rider) (ids : list Z) : outcome joust_error (list Rider) :=
  match ids with
  | [] => Ret []
  | id :: ids' =>
      match byID !! id with
      | None => Fail ErrRoundUnavailable
      | Some r => l ← pick_riders byID ids'; Ret (r :: l)
      end
  end.

Definition mystery_id (round : Z) : Z :=
  nth (Z.to_nat (u32 (u32 (round * 1103515245) + 12345) mod 4)) mysteryKnightIDs 0.

Definition selectOpeningRiders (riders : list Rider) (round : Z) : outcome joust_error (list Rider) :=
  byID ← index_riders ∅ riders;
  selected ← pick_riders byID openingRegularKnightIDs;
  mystery ← pick_riders byID [mystery_id round];
  Ret (selected ++ mystery).

Definition openingBaselineSupport (round position : Z) : Z :=
  let rank := (position * 5 + round mod OpeningKnightCount) mod OpeningKnightCount in
  let jitter := u32 (u32 (round * 37) + u32 (position * 17)) mod 101 in
  u32 (900 + u32 (rank * 325) + jitter).

(** A durable bet of a character. *)
Record BettingLedger := mkLedger { bl_Round : Z; Knight : Z; Amount : Z; Valid : bool }.
Record OpeningRider := mkOpening { or_ID : Z; or_AttackType : Z; Status : Z; Support : Z }.

Definition add_bets (ledgers : list BettingLedger) (round rider support : Z) : Z :=
  foldl (λ support l,
    if Valid l && (bl_Round l =? round) && (Knight l =? rider) then u32 (support + Amount l) else support)
    support ledgers.

(** The riders of [OpeningWithLedgers], at their positions. *)
Fixpoint opening_riders (round : Z) (ledgers : list BettingLedger) (position : Z) (riders : list Rider)
    : list OpeningRider :=
  match riders with
  | [] => []
  | r :: riders' =>
      let support := add_bets ledgers round (ID r) (openingBaselineSupport round position) in
      mkOpening (ID r) (AttackType r) (if position =? OpeningKnightCount - 1 then 1 else 0) support
        :: opening_riders round ledgers (position + 1) riders'
  end.
Definition TotalSupport (riders : list OpeningRider) : Z :=
  foldl (λ total r, u32 (total + Support r)) 0 riders.

(** ** Matches *)

Record Match := mkMatch { Winner : Z; WinnerAction : Z; Loser : Z; LoserAction : Z }.

Definition battleAction (values : list Z) (opponentAttackType : Z) : outcome joust_error Z :=
  match attackTypeTableOffset opponentAttackType with
  | None => Fail ErrPVFMalformed
  | Some offset =>
      fail_if negb (zlen values =? 28) with_ ErrPVFMalformed;;
      fail_if nth (Z.to_nat (offset + 6)) values 0 =? 0 with_ ErrPVFMalformed;;
      Ret (offset / 7)
  end.

Definition tournamentRandomState (round index leftID rightID : Z) : Z :=
  let state := Z.lxor (Z.lxor (Z.lxor (u32 (round * 2654435769)) (u32 ((index + 1) * 2246822507)))
                 (u32 (Z.shiftl leftID 8))) rightID in
  if state =? 0 then two32 - 1 else state.

Definition nextTournamentRandom (state : Z) : Z :=
  let state := Z.lxor state (u32 (Z.shiftl state 13)) in
  let state := Z.lxor state (Z.shiftr state 17) in
  Z.lxor state (u32 (Z.shiftl state 5)).

Definition rider (riders : list Rider) (id : Z) : option Rider :=
  snd <$> list_find (λ r, ID r = id) riders.

Definition simulateMatch (riders : list Rider) (round index leftID rightID : Z)
    : outcome joust_error Match :=
  match rider riders leftID, rider riders rightID with
  | Some l, Some r =>
      fail_if ID l =? ID r with_ ErrRoundUnavailable;;
      let coin := Z.land (nextTournamentRandom (tournamentRandomState round index leftID rightID)) 1 in
      let '(winner, loser) := if coin =? 0 then (l, r) else (r, l) in
      winnerAction ← battleAction (Win winner) (AttackType loser);
      loserAction ← battleAction (Loss loser) (AttackType winner);
      Ret (mkMatch (ID winner) winnerAction (ID loser) loserAction)
  | _, _ => Fail ErrRoundUnavailable
  end.

(** One stage: the participants meet in pairs, from match [index] on. *)
Fixpoint stage_matches (riders : list Rider) (round index : Z) (participants : list Z)
    : outcome joust_error (list Match) :=
  match participants with
  | x :: y :: rest =>
      m ← simulateMatch riders round index x y;
      ms ← stage_matches riders round (index + 1) rest;
      Ret (m :: ms)
  | _ => Ret []
  end.

Record Tournament := mkTournament { t_Round : Z; Matches : list Match }.

Definition TournamentFor (riders : list Rider) (round : Z) : outcome joust_error Tournament :=
  fail_if zlen riders <? OpeningKnightCount with_ ErrRoundUnavailable;;
  roster ← selectOpeningRiders riders round;
  quarters ← stage_matches riders round 0 (ID <$> roster);
  semis ← stage_matches riders round 4 (Winner <$> quarters);
  final ← stage_matches riders round 6 (Winner <$> semis);
  Ret (mkTournament round (quarters ++ semis ++ final)).

Definition Champion (t : Tournament) : Z :=
  match Matches t !! 6%nat with Some m => Winner m | None => 0 end.
