(* ===== verification/JoustLoader.v ===== *)
(** * The joust: catalogues the loader accepts

    A loaded catalogue has riders with distinct identifiers whose battle
    timelines can be played against every attack type; the roster of a round
    can then be drawn and every match of two different riders be played. *)

From S2P Require Import Prelude GoStrings Pvf Joust.

(** ** Playable riders *)

(** The last position of each of the four groups is not zero. *)
Definition playable (values : list Z) : Prop :=
  zlen values = 28 ∧ ∀ k, (k < 4)%nat → nth (7 * k + 6) values 0 ≠ 0.
Definition rider_ok (r : Rider) : Prop :=
  is_Some (attackTypeTableOffset (AttackType r)) ∧ playable (Win r) ∧ playable (Loss r).
Definition riders_ok (riders : list Rider) : Prop := NoDup (ID <$> riders) ∧ Forall rider_ok riders.

Lemma guard_ret {E A} (b : bool) (e : E) (k : outcome E A) a :
  guard_ b e k = Ret a → b = false ∧ k = Ret a.
Proof. by destruct b. Qed.

Lemma group_profile_last values : ∀ previous p, group_profile previous values = Ret p →
  p = default previous (last values).
Proof.
  induction values as [|v values IH]; intros previous p H; [by injection H as <-|].
  cbn [group_profile] in H. apply guard_ret in H as [_ H]. rewrite (IH _ _ H), last_cons.
  by destruct (last values).
Qed.

Lemma group_profiles_nth groups : ∀ values, group_profiles groups values = Ret tt →
  (7 * groups ≤ length values)%nat → ∀ k, (k < groups)%nat → nth (7 * k + 6) values 0 ≠ 0.
Proof.
  induction groups as [|groups IH]; intros values H Hl k Hk; [lia|].
  cbn [group_profiles] in H. apply bind_ret_inv in H as (p & Hp & H). apply guard_ret in H as [Hz H].
  apply group_profile_last in Hp. bool_clean. destruct k as [|k].
  - rewrite last_lookup, length_take, Nat.min_l in Hp by lia. cbn [Nat.pred] in Hp.
    rewrite lookup_take_lt in Hp by lia. rewrite nth_lookup. cbn [Nat.mul Nat.add]. congruence.
  - specialize (IH _ H ltac:(rewrite length_drop; lia) k ltac:(lia)).
    rewrite nth_lookup, lookup_drop in IH. rewrite nth_lookup.
    by replace (7 * S k + 6)%nat with (7 + (7 * k + 6))%nat by lia.
Qed.

Lemma validate_profiles values :
  zlen values = 28 → validateBattleTimelineProfiles values = Ret tt → playable values.
Proof.
  intros Hl H. split; [done|]. unfold validateBattleTimelineProfiles in H.
  rewrite (proj2 (Z.ltb_ge _ _)) in H by lia. apply (group_profiles_nth 4); [done|].
  unfold zlen in Hl. lia.
Qed.

Lemma validate_ok b : validate b = Ret tt → rider_ok (b_rider b).
Proof.
  unfold validate. intros H. apply guard_ret in H as [H1 H]. apply guard_ret in H as [H2 H].
  apply bind_ret_inv in H as ([] & Hw & Hl). bool_clean. split_and!.
  - destruct (attackTypeTableOffset (AttackType (b_rider b))); [by eexists|done].
  - by apply validate_profiles.
  - by apply validate_profiles.
Qed.

(** ** The loader's invariant *)

Definition loader_ok (l : loader) : Prop :=
  riders_ok (l_riders l) ∧ ∀ id, id ∈ seen l ↔ id ∈ ID <$> l_riders l.

Lemma loader_step_ok l token l' : loader_ok l → loader_step l token = Ret l' → loader_ok l'.
Proof.
  intros [[Hnd Hall] Hseen]. unfold loader_step. case_bool_decide.
  2:{ destruct (current l) as [b|]; [|by intros [= <-]].
      intros (b' & _ & [= <-])%bind_ret_inv. done. }
  case_bool_decide; [by destruct (current l); [|intros [= <-]]|].
  case_bool_decide; [|by intros [= <-]]. destruct (current l) as [b|]; [|done].
  intros ([] & Hv & Hret)%bind_ret_inv. apply guard_ret in Hret as [Hid [= <-]]. bool_clean.
  split; [split|]; cbn [l_riders seen].
  - rewrite fmap_app. apply NoDup_app. split_and!; [done| |apply NoDup_singleton].
    cbn. intros id Hin ->%list_elem_of_singleton. by apply Hid, Hseen.
  - apply Forall_app. split; [done|]. by apply Forall_singleton, validate_ok.
  - intros id. rewrite fmap_app, elem_of_app, elem_of_union, elem_of_singleton, Hseen. cbn.
    rewrite list_elem_of_singleton. tauto.
Qed.

Lemma loader_run_ok tokens : ∀ l l', loader_ok l → loader_run l tokens = Ret l' → loader_ok l'.
Proof.
  induction tokens as [|t tokens IH]; intros l l' Hl H; [by injection H as <-|].
  cbn [loader_run] in H. apply bind_ret_inv in H as (l1 & H1 & H).
  by apply (IH l1), H; apply (loader_step_ok l t).
Qed.

Lemma joustRiders_ok d riders : joustRiders d = Ret riders → riders_ok riders.
Proof.
  unfold joustRiders. intros (l & Hl & H)%bind_ret_inv.
  apply loader_run_ok in Hl as [Hok _]; [by destruct (current l); [|injection H as <-]|].
  split; [split; [by apply NoDup_nil|by apply Forall_nil]|]. intros id. cbn. set_solver.
Qed.

Lemma LoadCatalog_ok d c : LoadCatalog d = Ret c → riders_ok (c_riders c) ∧ OpeningKnightCount <= zlen (c_riders c).
Proof.
  unfold LoadCatalog. do 5 (intros (? & _ & H)%bind_ret_inv; revert H).
  intros (riders & Hr & H)%bind_ret_inv. apply guard_ret in H as [_ H]. apply guard_ret in H as [Hn H].
  injection H as <-. bool_clean. split; [by apply (joustRiders_ok d)|done].
Qed.

(** ** Drawing the roster *)

Definition roster_ids (round : Z) : list Z := openingRegularKnightIDs ++ [mystery_id round].
(** The original entrants, with the mystery pool. *)
Definition entrants : list Z := openingRegularKnightIDs ++ mysteryKnightIDs.

Lemma mystery_elem round : mystery_id round ∈ mysteryKnightIDs.
Proof.
  unfold mystery_id. set (i := _ mod 4). assert (0 <= i < 4) as Hi by (apply Z.mod_pos_bound; lia).
  assert (i = 0 ∨ i = 1 ∨ i = 2 ∨ i = 3) as [->|[->|[->| ->]]] by lia; cbn; set_solver.
Qed.

Lemma roster_NoDup round : NoDup (roster_ids round).
Proof.
  pose proof (mystery_elem round) as H. unfold roster_ids, openingRegularKnightIDs, mysteryKnightIDs in *.
  repeat (apply NoDup_cons; split); try apply NoDup_nil_2; set_unfold; lia.
Qed.

Lemma roster_entrants round id : id ∈ roster_ids round → id ∈ entrants.
Proof.
  unfold roster_ids, entrants. rewrite !elem_of_app. intros [H|H%list_elem_of_singleton]; [by left|].
  right. rewrite H. apply mystery_elem.
Qed.

Lemma index_riders_spec riders : ∀ byID, NoDup (ID <$> riders) →
  (∀ r, r ∈ riders → byID !! ID r = None) →
  ∃ m, index_riders byID riders = Ret m ∧ (∀ r, r ∈ riders → m !! ID r = Some r) ∧
    ∀ id, id ∉ ID <$> riders → m !! id = byID !! id.
Proof.
  induction riders as [|r riders IH]; intros byID Hnd Hfree.
  { exists byID. split_and!; [done| |done]. by intros r ?%elem_of_nil. }
  apply NoDup_cons in Hnd as [Hni Hnd]. cbn [index_riders]. unfold guard_.
  rewrite bool_decide_false by (rewrite Hfree by (by left); by intros []).
  destruct (IH (<[ID r := r]> byID)) as (m & Hm & Hin & Hout); [done| |].
  { intros r' Hr'. rewrite lookup_insert_ne; [apply Hfree; by right|].
    intros E. apply Hni. rewrite E. by apply list_elem_of_fmap_2. }
  exists m. split_and!; [done| |].
  - intros r' [->|Hr']%elem_of_cons; [|by apply Hin]. rewrite Hout by done. by rewrite lookup_insert_eq.
  - intros id Hid. cbn in Hid. rewrite not_elem_of_cons in Hid. destruct Hid as [Hne Hid].
    rewrite Hout by done. by rewrite lookup_insert_ne.
Qed.

Lemma pick_riders_spec (m : gmap Z Rider) (riders : list Rider) ids :
  (∀ r, r ∈ riders → m !! ID r = Some r) → (∀ id, id ∈ ids → id ∈ ID <$> riders) →
  ∃ l, pick_riders m ids = Ret l ∧ ID <$> l = ids.
Proof.
  intros Hm. induction ids as [|id ids IH]; intros Hids; [by exists []|].
  destruct IH as (l & Hl & Hid); [intros; apply Hids; by right|].
  destruct (list_elem_of_fmap_1 ID riders id) as (r & -> & Hr); [apply Hids; by left|].
  exists (r :: l). cbn [pick_riders]. rewrite (Hm r Hr), Hl. split; [done|]. cbn. by rewrite Hid.
Qed.

Lemma select_spec riders round : riders_ok riders → (∀ id, id ∈ entrants → id ∈ ID <$> riders) →
  ∃ roster, selectOpeningRiders riders round = Ret roster ∧ ID <$> roster = roster_ids round.
Proof.
  intros [Hnd _] Hent. unfold selectOpeningRiders.
  destruct (index_riders_spec riders ∅ Hnd) as (m & -> & Hm & _); [done|].
  destruct (pick_riders_spec m riders openingRegularKnightIDs Hm) as (l1 & H1 & E1).
  { intros id Hid. apply Hent. unfold entrants. apply elem_of_app. by left. }
  destruct (pick_riders_spec m riders [mystery_id round] Hm) as (l2 & H2 & E2).
  { intros id Hid. apply Hent, (roster_entrants round). unfold roster_ids. apply elem_of_app. by right. }
  cbn [mbind outcome_bind]. rewrite H1. cbn [mbind outcome_bind]. rewrite H2.
  exists (l1 ++ l2). split; [done|]. by rewrite fmap_app, E1, E2.
Qed.

(** ** Playing a match *)

Lemma rider_found riders id : id ∈ ID <$> riders → ∃ r, rider riders id = Some r ∧ ID r = id ∧ r ∈ riders.
Proof.
  intros (r & -> & Hr)%list_elem_of_fmap. unfold rider.
  destruct (list_find_elem_of (λ x, ID x = ID r) riders r Hr eq_refl) as ([i x] & Hx). rewrite Hx.
  apply list_find_Some in Hx as (Hi & Hid & _). exists x. split_and!; [done|done|].
  by apply list_elem_of_lookup_2 in Hi.
Qed.

Lemma battleAction_ok values attackType : playable values → is_Some (attackTypeTableOffset attackType) →
  ∃ action, battleAction values attackType = Ret action ∧ 0 <= action < 4.
Proof.
  intros [Hl Hv] [offset Ho]. unfold battleAction. rewrite Ho, (proj2 (Z.eqb_eq _ _) Hl). cbn [negb guard_].
  assert (∃ k, (k < 4)%nat ∧ offset = 7 * Z.of_nat k) as (k & Hk & ->).
  { unfold attackTypeTableOffset in Ho. repeat case_step; simplify_eq; [exists 0%nat|exists 1%nat|exists 2%nat|exists 3%nat]; lia. }
  replace (Z.to_nat (7 * Z.of_nat k + 6)) with (7 * k + 6)%nat by lia.
  rewrite (proj2 (Z.eqb_neq _ _) (Hv k Hk)). cbn [guard_]. eexists. split; [done|].
  rewrite Z.mul_comm, Z.div_mul by done. lia.
Qed.

(** The coin of a match: zero for the first participant. *)
Definition coin (round index x y : Z) : Z :=
  Z.land (nextTournamentRandom (tournamentRandomState round index x y)) 1.

(** A match between two participants, decided by the coin. *)
Definition played (round index x y : Z) (m : Match) : Prop :=
  (Winner m, Loser m) = (if coin round index x y =? 0 then (x, y) else (y, x)) ∧
  0 <= WinnerAction m < 4 ∧ 0 <= LoserAction m < 4.

Lemma simulateMatch_ok riders round index x y :
  riders_ok riders → x ∈ ID <$> riders → y ∈ ID <$> riders → x ≠ y →
  ∃ m, simulateMatch riders round index x y = Ret m ∧ played round index x y m.
Proof.
  intros [_ Hall] (l & Hl & <- & Hlin)%rider_found (r & Hr & <- & Hrin)%rider_found Hne.
  rewrite Forall_forall in Hall. destruct (Hall l Hlin) as (Ol & Wl & Ll), (Hall r Hrin) as (Or & Wr & Lr).
  unfold simulateMatch, played, coin. rewrite Hl, Hr, (proj2 (Z.eqb_neq _ _) Hne). cbn [guard_].
  destruct (Z.land _ 1 =? 0).
  - destruct (battleAction_ok (Win l) (AttackType r)) as (a & -> & Ha); [done..|].
    destruct (battleAction_ok (Loss r) (AttackType l)) as (b & -> & Hb); [done..|]. by eexists.
  - destruct (battleAction_ok (Win r) (AttackType l)) as (a & -> & Ha); [done..|].
    destruct (battleAction_ok (Loss l) (AttackType r)) as (b & -> & Hb); [done..|]. by eexists.
Qed.
