(* ===== verification/JoustTheorems.v ===== *)
(** * What the joust guarantees

    The tournament of a round over a loaded catalogue is a complete knock-out of
    the round's roster. *)

From S2P Require Import Prelude GoStrings Pvf PvfPrinter Joust JoustLoader.

(** ** Stages *)

(** The matches of a stage pair the participants in order, each decided by the
    coin of its number. *)
Definition bracket (round index : Z) (participants : list Z) (matches : list Match) : Prop :=
  length participants = (2 * length matches)%nat ∧
  ∀ i m, matches !! i = Some m → ∃ x y,
    participants !! (2 * i)%nat = Some x ∧ participants !! (2 * i + 1)%nat = Some y ∧
    played round (index + Z.of_nat i) x y m.

Lemma played_perm round index x y m :
  played round index x y m → [x; y] ≡ₚ [Winner m; Loser m].
Proof. intros [H _]. destruct (_ =? 0); injection H as -> ->; [done|]. by rewrite (Permutation_swap x y). Qed.

Lemma stage_matches_ok riders round n : ∀ index participants,
  riders_ok riders → length participants = (2 * n)%nat → NoDup participants →
  (∀ id, id ∈ participants → id ∈ ID <$> riders) →
  ∃ ms, stage_matches riders round index participants = Ret ms ∧ length ms = n ∧
    bracket round index participants ms ∧ participants ≡ₚ (Winner <$> ms) ++ (Loser <$> ms).
Proof.
  induction n as [|n IH]; intros index participants Hok Hl Hnd Hin.
  { apply nil_length_inv in Hl as ->. by exists []. }
  destruct participants as [|x [|y rest]]; cbn [length] in Hl; try lia.
  apply NoDup_cons in Hnd as [Hx Hnd]. apply NoDup_cons in Hnd as [Hy Hnd].
  destruct (simulateMatch_ok riders round index x y) as (m & Hm & Hp); [done|apply Hin; set_solver|apply Hin; set_solver| |].
  { intros ->. apply Hx. by left. }
  destruct (IH (index + 1) rest) as (ms & Hms & Hlen & [Hbl Hb] & Hperm);
    [done|lia|done|intros; apply Hin; by right; right|].
  exists (m :: ms). cbn [stage_matches]. rewrite Hm. cbn [mbind outcome_bind]. rewrite Hms.
  split_and!; [done|cbn; lia|split; [cbn [length]; lia|]|].
  - intros [|i] m' Hi; [injection Hi as <-; exists x, y; by rewrite Z.add_0_r|].
    destruct (Hb i m' Hi) as (a & b & Ha & Hb' & Hab). exists a, b.
    replace (2 * S i)%nat with (S (S (2 * i))) by lia.
    replace (index + Z.of_nat (S i)) with (index + 1 + Z.of_nat i) by lia. done.
  - cbn [fmap list_fmap app]. rewrite Hperm at 1.
    change (x :: y :: (Winner <$> ms) ++ (Loser <$> ms)) with ([x; y] ++ (Winner <$> ms) ++ (Loser <$> ms)).
    rewrite (played_perm _ _ _ _ _ Hp). cbn [app]. rewrite <- Permutation_middle. by constructor.
Qed.

Lemma winners_inside {riders : list Rider} {parts : list Z} ms : NoDup parts →
  (∀ id, id ∈ parts → id ∈ ID <$> riders) → parts ≡ₚ (Winner <$> ms) ++ (Loser <$> ms) →
  NoDup (Winner <$> ms) ∧ ∀ id, id ∈ Winner <$> ms → id ∈ ID <$> riders.
Proof.
  intros Hnd Hin Hperm. rewrite Hperm in Hnd. split; [by apply NoDup_app in Hnd as (? & _)|].
  intros id Hid. apply Hin. rewrite Hperm. apply elem_of_app. by left.
Qed.

(** ** The property *)

(** C39: for a catalogue that [LoadCatalog] accepts and that has the original
    entrants, the tournament of every round exists: four quarter-finals between
    the riders of the roster in order, two semi-finals between their winners
    and a final, each decided by its own coin; and apart from the champion every
    rider of the roster, all different, loses exactly one match. *)
Theorem tournament_knockout d c round :
  LoadCatalog d = Ret c → (∀ id, id ∈ entrants → id ∈ ID <$> c_riders c) →
  ∃ quarters semis final,
    let t := mkTournament round (quarters ++ semis ++ [final]) in
    TournamentFor (c_riders c) round = Ret t ∧
    length quarters = 4%nat ∧ length semis = 2%nat ∧
    bracket round 0 (roster_ids round) quarters ∧
    bracket round 4 (Winner <$> quarters) semis ∧
    bracket round 6 (Winner <$> semis) [final] ∧
    NoDup (roster_ids round) ∧
    roster_ids round ≡ₚ Champion t :: (Loser <$> Matches t).
Proof.
  intros [Hok Hn]%LoadCatalog_ok Hent.
  destruct (select_spec (c_riders c) round Hok Hent) as (roster & Hsel & Hids).
  pose proof (roster_NoDup round) as Hnd.
  assert (∀ id, id ∈ roster_ids round → id ∈ ID <$> c_riders c) as Hin
    by (intros id Hid; by apply Hent, (roster_entrants round)).
  destruct (stage_matches_ok (c_riders c) round 4 0 (roster_ids round) Hok eq_refl Hnd Hin) as (qs & Hq & Lq & Bq & Pq).
  destruct (winners_inside _ Hnd Hin Pq) as [Hnd2 Hin2].
  destruct (stage_matches_ok (c_riders c) round 2 4 (Winner <$> qs) Hok) as (ss & Hs & Ls & Bs & Ps);
    [by rewrite length_fmap, Lq|done|done|].
  destruct (winners_inside _ Hnd2 Hin2 Ps) as [Hnd3 Hin3].
  destruct (stage_matches_ok (c_riders c) round 1 6 (Winner <$> ss) Hok) as (fs & Hf & Lf & Bf & Pf);
    [by rewrite length_fmap, Ls|done|done|].
  destruct fs as [|f [|]]; [done| |done]. exists qs, ss, f. cbv zeta.
  split_and!; [|done..|].
  - unfold TournamentFor. rewrite (proj2 (Z.ltb_ge _ _)) by done. cbn [guard_].
    rewrite Hsel. cbn [mbind outcome_bind]. rewrite Hids, Hq. cbn [mbind outcome_bind].
    rewrite Hs. cbn [mbind outcome_bind]. by rewrite Hf.
  - unfold Champion. cbn [Matches]. rewrite lookup_app_r by lia. rewrite lookup_app_r by lia.
    rewrite Lq, Ls. cbn. rewrite Pq, Ps, !fmap_app, Pf. cbn. constructor.
    by rewrite app_assoc, <- Permutation_cons_append, (Permutation_app_comm (Loser <$> ss)).
Qed.

(** ** An event file *)

Definition event_int (n : Z) : Token := parseBare (λ _, false) (format_int n).
Definition event_string (s : string) : Token :=
  mkToken TokenString (96 :: of_string s ++ [96]) (of_string s) 0.
Definition event_section (s : string) : Token :=
  mkToken TokenSection (91 :: of_string s ++ [93]) (of_string s) 0.
Definition event_profile : list Token :=
  event_int <$> concat (repeat [0; 10; 20; 40; 60; 80; 100] 4).
Definition event_knight (id : Z) : list (list Token) :=
  [[event_section "knight"]; [event_section "index"; event_int id];
   [event_section "attack type"; event_int (nth (Z.to_nat (id mod 4)) [0; 1; 27; 28] 0)];
   [event_section "knight name"]; [event_string "a rider"];
   event_section "win" :: event_profile; event_section "loss" :: event_profile; [event_section "/knight"]].
Definition event_lines : list (list Token) :=
  [event_section "min level"; event_int 50] :: [event_section "max betting"; event_int 10000]
  :: [event_section "reward"; event_int PermanentCrystalID]
  :: [event_section "betting reward"; event_int ParticipationItemID]
  :: [event_section "material"; event_int PermanentCrystalID; event_int EventCrystalID]
  :: concat (event_knight <$> [0; 1; 2; 3; 4; 5; 6; 7; 8; 9; 10; 11]).

Definition event_document : outcome pvf_error Document :=
  Parse (λ _, false) (of_string "event/chn_event/chn_joust.evt") (print event_lines).

Lemma event_loads :
  match event_document with
  | Ret d => match LoadCatalog d with
             | Ret c => forallb (λ id, bool_decide (id ∈ ID <$> c_riders c)) entrants
             | _ => false
             end
  | _ => false
  end = true.
Proof. by vm_compute. Qed.

Lemma tournament_knockout_witness :
  ∃ d c quarters semis final, event_document = Ret d ∧ LoadCatalog d = Ret c ∧
    TournamentFor (c_riders c) 77 = Ret (mkTournament 77 (quarters ++ semis ++ [final])).
Proof.
  pose proof event_loads as H. destruct event_document as [d| |]; [|done..].
  destruct (LoadCatalog d) as [c| |] eqn:Hc; [|done..].
  destruct (tournament_knockout d c 77 Hc) as (q & s & f & Ht & _).
  - intros id Hid. rewrite forallb_forall in H. by apply list_elem_of_In, H, bool_decide_eq_true_1 in Hid.
  - by exists d, c, q, s, f.
Defined.
